(* ===== verification/_CoqProject ===== *)
-Q . S2P
Prelude.v
Mem.v
Uapi.v
Align.v
Pool.v
Arena.v
AllocDemos.v
FreeList.v
FreeListSpec.v
FreeListInv.v
FreeListFind.v
FreeListRep.v
FreeListAlloc.v
FreeListFree.v
FreeListTrace.v
FreeListThms.v
Torture.v
Bitstreams.v
LibData.v
LibApi.v
LibJob.v
LibInit.v
LibInv.v
LibJobInv.v
LibMem.v
LibBuffers.v
LibSync.v
LibKernels.v
LibOpen.v
LibDevice.v
LibSession.v
LibDemo.v
LibFind.v
LibThms.v
LibLines.v
LibCalm.v
LibCache.v
LibCacheInv.v
LibCoherent.v
LibPublished.v
LibExec.v
LibRun.v
LibTests.v
LibWit.v
Kernel.v
DrvCore.v
DrvJob.v
DrvCheck.v
DrvSubmit.v
DrvIrq.v
DrvMachine.v
DrvSystem.v
DrvOwn.v
DrvLive.v
DrvDma.v
DrvOrder.v
DrvSim.v
DrvAccept.v
DrvAnswer.v
DrvGem.v
DrvTests.v
DrvWire.v
LibDriver.v
LibRequests.v
LibBypass.v
DrvMod.v
CharDriver.v
DrvTables.v
ToolBypass.v
