(* ===== verification/Prelude.v ===== *)
(** * STRELA: a verification of the user-space library and the kernel driver

    STRELA is a coarse-grained reconfigurable array (CGRA) on an FPGA board: a
    matrix of processing elements with four input and four output columns, each
    fed by a DMA engine. A program uses it through a C library (lib/strela.c),
    which keeps two big DMA buffers, cuts them into kernels and tensor buffers
    with its own allocators (lib/allocators.c), and sends jobs to a DRM driver
    (driver/strela_{core,job,gem,drv}.c); the driver checks a job, queues it on
    the DRM scheduler, programs the hardware and signals the job's fence. An
    older character driver (driver/strela_driver.c) does the same with three
    blocking ioctls. This library models that code and proves it correct.

    ** How the code is modelled

    C functions become functions of a small monad ([M], this file): they return
    a value and a new state, or trap: a failed assertion or abort ([TAssert]),
    an access outside valid memory ([TSegv]), a loop cut off ([TFuel]). Machine
    integers are [Z] with wrap-around written out ([u32], [u64], [wptr] for
    size_t and pointers). Memory ([Mem]) is a map from addresses to bytes with
    a list of valid regions. Both ABIs of the project, the 32-bit ARM of the
    board and the x86-64 of the simulation, are values of [abi], and theorems
    hold for both unless they say otherwise. Code outside the repository is an
    environment: the kernel below the driver is [Env] (Kernel.v), the operating
    system below the library is [Sys] (LibData.v). Each call into it is an event
    in a log; its answer is an arbitrary function of the log, so a theorem for
    every environment covers every answer and every failure. What the library
    relies on is the class [SysLaws] (documented system-call behaviour) and,
    where it frees jobs in flight, the class [Undisturbed] (no signal interrupts
    an endless wait, which the library answers with abort); LibDemo.v has a
    concrete system that satisfies both.

    ** Files, in the order of the build

    - Prelude.v: outcomes, the monad, loops, weakest preconditions ([wp]),
      arithmetic. Mem.v: ABIs and memory. Uapi.v: the structs and flags of
      include/uapi/strela_drm.h, shared by library and driver.
    - Align.v, Pool.v, Arena.v: alignment, the pool and the arena of
      lib/allocators.c. AllocDemos.v: the example programs that come with them.
    - FreeList.v: the free-list allocator of lib/allocators.c, line by line over
      [Mem]. FreeListSpec.v: what it promises, as operations on a list of
      blocks. FreeListInv.v, FreeListRep.v: the memory layout that represents
      such a list. FreeListFind.v, FreeListAlloc.v, FreeListFree.v: search,
      allocation and release implement the specification. FreeListTrace.v:
      clients that allocate, write and free. FreeListThms.v: the theorems.
      Torture.v: the torture test of tools/test_allocator.c, as such a client.
    - Bitstreams.v: the two test configurations of include/strela.h.
    - LibData.v, LibApi.v, LibJob.v, LibInit.v: the library, lib/strela.c. The
      device struct is [strela_dev], its job slots [strela_job_slot]; every
      function of include/strela.h is a definition of the same name, on a state
      of device, memory and log ([lst]).
    - LibInv.v, LibJobInv.v: what job slots own, and that every job function
      keeps it. LibMem.v, LibBuffers.v, LibSync.v, LibKernels.v: what the client
      holds in the two memories. LibOpen.v, LibDevice.v: opening and closing.
      LibSession.v: whole sessions. LibDemo.v, LibFind.v, LibThms.v, LibExec.v,
      LibWit.v: a concrete system, counting and finding devices, theorems on
      single functions, executing, witnesses. LibLines.v: which cache lines a
      sync reaches. LibCalm.v: what a call leaves alone. LibCache.v: a CPU cache
      without coherence, RAM and a device that writes it, as a step relation
      around the library's calls ([wstep]). LibCacheInv.v, LibCoherent.v: its
      invariant, and that every step keeps it. LibPublished.v: that kernels and
      flushed buffers are in RAM. LibRun.v: what calls do on a healthy system
      ([Healthy]).
      LibTests.v: tests of tests/test_strela2.c as clients of the library.
    - Kernel.v: the kernel and the device struct as the driver sees them.
      DrvCore.v: driver/strela_core.c (registers, start, stop, the simulated
      device). DrvJob.v: driver/strela_job.c (submission and scheduler
      callbacks). DrvCheck.v, DrvSubmit.v: the checks and the submission are
      right. DrvIrq.v: interrupts, and what the simulated device computes.
      DrvMachine.v: every interleaving of scheduler, interrupt, timeout and
      free for a batch of jobs, as a step relation. DrvSystem.v: the open
      system, in which clients submit at any time as well ([sys_step]).
      DrvOwn.v: who holds which reference in it, and removing the device.
      DrvLive.v: that jobs end. DrvDma.v: what the hardware may touch.
      DrvOrder.v: the order of jobs and fences, as a first-in first-out server.
      DrvSim.v: whole jobs on the simulated device. DrvAccept.v, DrvAnswer.v: when a
      submission is accepted, and what it answers otherwise. DrvGem.v:
      driver/strela_gem.c. DrvTests.v: the tests of tests/test_strela2.c that
      check arguments, as clients of the driver. DrvWire.v: the structs as bytes,
      ioctl numbers and table, names, the self-test of driver/strela_job.c.
      DrvMod.v: driver/strela_drv.c. CharDriver.v: driver/strela_driver.c.
      DrvTables.v: the tables both register with the kernel.
      ToolBypass.v: tools/test_bypass.c, a client of the character driver.
    - LibDriver.v: the library's requests given to the driver's code.
      LibRequests.v: all requests of a session are about the library's own
      objects and inside them.
      LibBypass.v: a job from the client's buffers through both to the simulated
      device and back.

    ** What is proved

    - Allocators: any history of allocations, writes and frees runs without a
      trap, blocks never overlap and keep their contents ([client_safe],
      [pool_client_safe], [arena_alloc_fresh], [arena_resize_keeps]); the
      free list implements its specification ([alloc_refines],
      [free_refines], [find_best_minimal]) and is whole again when everything
      was freed ([client_all_freed]), so that its torture test always passes
      ([torture_test_passes]), as do the pool's and the arena's examples
      ([pool_main_runs], [arena_main_prints]); the alignment arithmetic equals reference
      definitions ([align_equivalence]).
    - Library: any session of calls returns and keeps the client's data
      ([session_safe]); closing gives everything back ([session_balanced]),
      both under the conditions named under Bounds;
      opening is all or nothing ([dev_init_all_or_nothing]), and what can be
      opened is what is counted ([count_find_agree]); errors stick, with the
      exceptions the code has ([sticky_error]); cache maintenance covers exactly what it must
      ([buffer_flush_exact], [buffer_inval_exact]) and never a line that holds
      another buffer or metadata of the allocator ([syncs_isolated]), so that on
      incoherent memory a client that flushes and invalidates sees coherent
      buffers ([memory_looks_coherent]) and the device finds kernels and flushed
      buffers in RAM ([published_reaches_device]); handles and pointers agree
      ([buffer_ptr_roundtrip]); a job's result is final ([job_result_final]),
      and executing one ends with it or, exactly when the wait is cut short,
      with the assertion ([execute_completes]); the project's tests of these resources pass on every
      healthy system ([resource_tests_pass]).
    - Both together: what the library submits is what the driver checks, its
      fields cut to 32 bits ([config_checked]); a flush becomes one write-back of
      the data, or an error when its last line leaves the buffer
      ([flush_reaches_device]); the bytes of an ioctl's struct mean the same on
      both sides ([ioctl_wire]); whatever a client calls, every sync and
      submission names objects the library made, inside their bounds
      ([session_requests]); a job that copies disjoint parts of buffers does
      so, end to end, and changes nothing else ([bypass_end_to_end]).
    - Driver, as an open system in which submissions, scheduler, interrupts,
      timeouts and frees interleave in any order: one job at a time runs, in
      the order load, clear, start, and fences are signalled truthfully
      ([system_safe], [system_never_faults]); the
      DMA registers always describe memory inside buffers that are held for the
      running job ([dma_in_held_buffers]); references, those on fences included,
      are exact at any time ([system_balanced]); no job waits for ever ([jobs_always_end],
      [job_completes]); removal frees and signals everything
      ([removal_completes]); when the scheduler takes jobs in the order they
      were pushed, the device refines a server that is first-in first-out in
      the order of pushes ([device_refines_fifo]).
    - Driver, one call at a time: the check of a binding is exact
      ([binding_check_exact]) and a checked job programs ranges inside its
      buffers ([program_confines_dma]); error paths leak nothing
      ([submit_balanced], [submit_free_neutral], [gem_create_balanced],
      [file_life_balanced],
      [probe_all_or_nothing], [module_init_balanced]); cache maintenance is
      exact ([gem_sync_exact]); a submission answers its first error
      ([submit_answer_exact]), so that the project's tests of bad arguments pass
      ([argument_tests_pass]); the simulated device copies ([sim_job_runs]).
      Character driver: [char_control_confined],
      [char_probe_unwinds], and its bypass tool copies, on hardware that acts on
      the command to start and only with the bitstream loaded and its lines
      clear ([tool_bypass_copies]).
    - Behaviour a user should know about: [late_completion_credited],
      [resubmit_double_close], [buffer_alloc_huge], [buffer_flush_wraps],
      [execute_interrupted_aborts], [fences_out_of_order] (across clients),
      [photo_finish] (a timeout that races with the completion),
      [tool_never_passes], [tool_len_overflows], and, beside the code they are about,
      [alloc_huge_wraps], [init_undersized_accepted], [arena_unguarded],
      [gem_new_truncates], [char_size_field_overflows],
      [char_probe_leaks_dma].

    ** Bounds

    A C loop is [loop_ n], at most 2^n iterations with n the width of a pointer
    in bits, more than a walk over distinct addresses can take; the theorems
    show that the walks of the allocators end before. The loops over
    /dev/accel are bounded by the entries of the directory, which is what each
    iteration consumes; a scan over job slots or columns is structural.

    The loop of the torture test runs a fixed number of times; its theorem is
    proved for every number. A run of the driver's machine is bounded by six
    acts of the scheduler per job ([todo]). The scheduler may run any job of
    its queue, which covers its choice between clients, and a timeout may fire
    and be handled late.

    The session theorems ask for requests whose byte count can be rounded up
    without leaving size_t ([words_ok]), for endless waits that no signal
    interrupts ([Undisturbed]) and for a fence export to succeed when a
    descriptor was closed just before ([HE] in the sections);
    [buffer_alloc_huge], the abort in [strela_job_slot_finish] and
    [resubmit_double_close] show that none can be dropped. A first export
    may fail. The client of a session uses the kernels and buffers it was given
    and any job handle. Its calls ([api_op]) are those of include/strela.h but
    for [strela_execute], whose assertion a signal can break
    ([execute_completes] says exactly when), and the two functions on pointers,
    which change nothing ([buffer_ptr_roundtrip]). The allocators' theorems ask
    for requests that do not wrap ([op_ok], [alloc_request], [arena_request]).

    In the open system a submission is one step. In the code it takes its fence
    number under the lock and pushes the job later without it, so two
    submissions can push in another order than their numbers; no theorem speaks
    of the order of numbers, and what happens between the two moments touches
    only the submission's own job.

    ** What is not modelled

    Messages on stderr and the kernel log. Of tests/test_strela2.c: the tests
    that compare what a device wrote or depend on the timing of a machine, and
    the init process of its virtual machine. What the CGRA computes: the hardware
    is an environment, and a simulated device is modelled where the driver has
    one. In the cache of LibCache.v, stores are known by the bytes they change:
    a store of the value a byte has already, to a line of a buffer the device
    was handed, is assumed not to happen. [bypass_end_to_end] is about memory
    that library and driver see alike; the cache between them is the subject of
    LibCoherent.v and LibPublished.v. Scripts and device trees. Signals other than an
    interrupted poll(2), and threads inside the library, which has no locks
    and keeps its devices in a static array. *)

From stdpp Require Export base gmap list list_numbers.
From Stdlib Require Export ZArith Lia Bool Sorted.
From Stdlib Require Import ZifyBool.
#[export] Set Default Goal Selector "!".
Open Scope Z_scope.

Declare Scope strela_scope.
Delimit Scope strela_scope with strela.

(** ** Outcomes of C code

    A C function either returns, stops the process ([TAssert]: a failed
    [assert(3)] or a call of [abort(3)]), touches memory it must not touch
    ([TSegv]), or is cut off by the bound on loop iterations ([TFuel]). *)
Variant trap := TAssert | TSegv | TFuel.

Inductive outcome (A : Type) :=
| Ok (x : A)
| Trap (t : trap).
Arguments Ok {A} _.
Arguments Trap {A} _.

#[export] Instance trap_eq_dec : EqDecision trap.
Proof. solve_decision. Defined.

(** The monad of stateful C code over a state [St]. *)
Definition M (St A : Type) : Type := St -> outcome (A * St).

Definition mret_ {St A} (x : A) : M St A := fun s => Ok (x, s).

Definition mbind_ {St A B} (c : M St A) (k : A -> M St B) : M St B :=
  fun s => match c s with
           | Ok (x, s') => k x s'
           | Trap t => Trap t
           end.

Definition trap_ {St A} (t : trap) : M St A := fun _ => Trap t.

Definition get_ {St} : M St St := fun s => Ok (s, s).

Definition put_ {St} (s : St) : M St unit := fun _ => Ok (tt, s).

Definition modify_ {St} (f : St -> St) : M St unit := fun s => Ok (tt, f s).

Notation "'let!' x ':=' c 'in' k" := (mbind_ c (fun x => k))
  (at level 10, x binder, c at level 200, k at level 200,
   format "'[v' 'let!'  x  ':='  c  'in' '/' k ']'") : strela_scope.
Notation "'let!' ' p ':=' c 'in' k" := (mbind_ c (fun x => match x with p => k end))
  (at level 10, p pattern, c at level 200, k at level 200) : strela_scope.
Notation "'do!' c 'in' k" := (mbind_ c (fun _ => k))
  (at level 10, c at level 200, k at level 200,
   format "'[v' 'do!'  c  'in' '/' k ']'") : strela_scope.
Open Scope strela_scope.

(** Side conditions of the development's lemmas. *)
Create HintDb strela.

(** [assert(b)]. The libraries are built without [NDEBUG]. *)
Definition assert_ {St} (b : bool) : M St unit := if b then mret_ tt else trap_ TAssert.

Lemma mbind_Ok {St A B} (c : M St A) (k : A -> M St B) s x s' :
  c s = Ok (x, s') -> mbind_ c k s = k x s'.
Proof. intros H. unfold mbind_. by rewrite H. Qed.

Lemma mbind_ret {St A B} (x : A) (k : A -> M St B) s : mbind_ (mret_ x) k s = k x s.
Proof. reflexivity. Qed.

Lemma mbind_inv {St A B} (c : M St A) (k : A -> M St B) s r :
  mbind_ c k s = Ok r -> exists x s', c s = Ok (x, s') /\ k x s' = Ok r.
Proof. unfold mbind_. destruct (c s) as [[x s']|]; [|done]. eauto. Qed.

Lemma assert_true {St B} (b : bool) (k : unit -> M St B) s :
  b = true -> mbind_ (assert_ b) k s = k tt s.
Proof. by intros ->. Qed.

(** Total correctness: [c] returns, with a result and a state in [Q]. *)
Definition wp {St A} (c : M St A) (Q : A -> St -> Prop) (s : St) : Prop :=
  exists x s', c s = Ok (x, s') /\ Q x s'.

Lemma wp_ret {St A} (x : A) (Q : A -> St -> Prop) s : Q x s -> wp (mret_ x) Q s.
Proof. intros HQ. by exists x, s. Qed.

Lemma wp_bind {St A B} (c : M St A) (k : A -> M St B) (Q : B -> St -> Prop) s :
  wp c (fun x s' => wp (k x) Q s') s -> wp (mbind_ c k) Q s.
Proof.
  intros (x & s' & He & y & s'' & Hk & HQ). exists y, s''. by rewrite (mbind_Ok _ _ _ _ _ He).
Qed.

Lemma wp_mono {St A} (c : M St A) (Q Q' : A -> St -> Prop) s :
  wp c Q s -> (forall x s', Q x s' -> Q' x s') -> wp c Q' s.
Proof. intros (x & s' & He & HQ) HQQ'. exists x, s'. split; [done|]. by apply HQQ'. Qed.

Lemma wp_assert {St} (b : bool) (Q : unit -> St -> Prop) s : b = true -> Q tt s -> wp (assert_ b) Q s.
Proof. intros -> HQ. by exists tt, s. Qed.

Lemma wp_if {St A} (b : bool) (c1 c2 : M St A) (Q : A -> St -> Prop) s :
  (b = true -> wp c1 Q s) -> (b = false -> wp c2 Q s) -> wp (if b then c1 else c2) Q s.
Proof. destruct b; auto. Qed.

(** Case analysis on the next [if] or [match] of the goal. *)
Ltac break_if :=
  match goal with
  | |- context [if ?b then _ else _] => let E := fresh "E" in destruct b eqn:E
  end.

(** ** Loops

    [while_ n body s] runs [body] at most [2^n] times; the result of [body] is
    the next loop state ([inl]) or the value the loop ends with ([inr]). With
    [n] the width of a pointer, a loop over distinct addresses never runs out,
    and the recursion is only [n] deep when the loop is evaluated. *)
Section Loops.
Context {St L R : Type} (body : L -> M St (L + R)).

Fixpoint while_ (n : nat) (l : L) : M St (L + R) :=
  match n with
  | O => body l
  | S n => mbind_ (while_ n l) (fun r => match r with
                                         | inl l' => while_ n l'
                                         | inr _ => mret_ r
                                         end)
  end.

(** The loop as a C program sees it: an exhausted bound is a trap. *)
Definition loop_ (n : nat) (l : L) : M St R :=
  mbind_ (while_ n l) (fun r => match r with
                                | inl _ => trap_ TFuel
                                | inr x => mret_ x
                                end).

(** The loop run [k] times, one iteration after the other. *)
Fixpoint iterate (k : nat) (l : L) : M St (L + R) :=
  match k with
  | O => mret_ (inl l)
  | S k => mbind_ (body l) (fun r => match r with
                                     | inl l' => iterate k l'
                                     | inr _ => mret_ r
                                     end)
  end.

Lemma iterate_add k1 k2 l s :
  iterate (k1 + k2) l s =
  mbind_ (iterate k1 l) (fun r => match r with
                                  | inl l' => iterate k2 l'
                                  | inr _ => mret_ r
                                  end) s.
Proof.
  revert l s. induction k1 as [|k1 IH]; intros l s; [done|].
  cbn. unfold mbind_ at 1 3. unfold mbind_ at 1.
  destruct (body l s) as [[[l'|r] s']|]; [|done..]. apply IH.
Qed.

Lemma while_iterate n l s : while_ n l s = iterate (2 ^ n)%nat l s.
Proof.
  revert l s. induction n as [|n IH]; intros l s.
  - cbn. unfold mbind_. destruct (body l s) as [[[l'|r] s']|]; done.
  - change (2 ^ S n)%nat with (2 * 2 ^ n)%nat.
    replace (2 * 2 ^ n)%nat with (2 ^ n + 2 ^ n)%nat by lia.
    rewrite iterate_add. cbn. unfold mbind_.
    rewrite IH. destruct (iterate _ l s) as [[[l'|r] s']|]; [|done..]. apply IH.
Qed.

Lemma iterate_mono k k' l s r s' :
  (k <= k')%nat -> iterate k l s = Ok (inr r, s') -> iterate k' l s = Ok (inr r, s').
Proof.
  intros Hle H. replace k' with (k + (k' - k))%nat by lia.
  rewrite iterate_add. unfold mbind_. by rewrite H.
Qed.

Lemma iterate_loop n k l s r s' :
  Z.of_nat k <= 2 ^ Z.of_nat n ->
  iterate k l s = Ok (inr r, s') -> loop_ n l s = Ok (r, s').
Proof.
  intros Hle H. unfold loop_, mbind_. rewrite while_iterate.
  rewrite (iterate_mono k _ _ _ r s'); [done| |done].
  apply Nat2Z.inj_le. rewrite Nat2Z.inj_pow. done.
Qed.
End Loops.

(** [for (i = 0; i < n; i++)] over a local state: [f i] in turn. *)
Fixpoint for_from {St X} (i : Z) (n : nat) (f : Z -> X -> M St X) (x : X) : M St X :=
  match n with
  | O => mret_ x
  | S n => mbind_ (f i x) (fun x => for_from (i + 1) n f x)
  end.

Definition for_ {St X} (n : Z) (f : Z -> X -> M St X) (x : X) : M St X :=
  for_from 0 (Z.to_nat n) f x.

(** The rule for counting loops: an invariant indexed by the counter. *)
Lemma for_from_ok {St X} (f : Z -> X -> M St X) (I : Z -> X -> St -> Prop) n i x s :
  (forall j x s, i <= j < i + Z.of_nat n -> I j x s ->
     exists x' s', f j x s = Ok (x', s') /\ I (j + 1) x' s') ->
  I i x s ->
  exists x' s', for_from i n f x s = Ok (x', s') /\ I (i + Z.of_nat n) x' s'.
Proof.
  revert i x s. induction n as [|n IH]; intros i x s Hf HI; cbn.
  { exists x, s. by rewrite Z.add_0_r. }
  destruct (Hf i x s ltac:(lia) HI) as (x1 & s1 & He & HI1). rewrite (mbind_Ok _ _ _ _ _ He).
  destruct (IH (i + 1) x1 s1) as (x2 & s2 & He2 & HI2); [|done|].
  - intros j y t Hj. apply Hf. lia.
  - exists x2, s2. split; [done|]. by replace (i + Z.of_nat (S n)) with (i + 1 + Z.of_nat n) by lia.
Qed.

Lemma for_ok {St X} (f : Z -> X -> M St X) (I : Z -> X -> St -> Prop) n x s :
  0 <= n ->
  (forall j x s, 0 <= j < n -> I j x s -> exists x' s', f j x s = Ok (x', s') /\ I (j + 1) x' s') ->
  I 0 x s -> exists x' s', for_ n f x s = Ok (x', s') /\ I n x' s'.
Proof.
  intros Hn Hf HI. unfold for_.
  destruct (for_from_ok f I (Z.to_nat n) 0 x s) as (x' & s' & He & HI'); [|done|].
  - intros j y t Hj. apply Hf. lia.
  - rewrite Z2Nat.id in HI' by lia. eauto.
Qed.

(** ** Unsigned machine integers

    A [w]-bit unsigned value is a [Z] in [[0, 2^w)]; C arithmetic on it wraps. *)
Definition wrap (w z : Z) : Z := z mod 2 ^ w.

Definition is_u (w z : Z) : Prop := 0 <= z < 2 ^ w.

Abbreviation u32 := (wrap 32).
Abbreviation u64 := (wrap 64).

Lemma wrap_small w z : 0 <= z < 2 ^ w -> wrap w z = z.
Proof. apply Z.mod_small. Qed.

Lemma wrap_range w z : 0 <= w -> 0 <= wrap w z < 2 ^ w.
Proof. intros. apply Z.mod_pos_bound. lia. Qed.

Lemma wrap_wrap w z : 0 <= w -> wrap w (wrap w z) = wrap w z.
Proof. intros. apply wrap_small, wrap_range. done. Qed.

(** ** Powers of two and bit masks *)
Lemma land_pow2_mod x k : 0 <= k -> Z.land x (2 ^ k - 1) = x mod 2 ^ k.
Proof.
  intros. rewrite <- Z.land_ones by lia. f_equal. rewrite Z.ones_equiv. lia.
Qed.

Lemma land_pred_pow2 k : 0 <= k -> Z.land (2 ^ k) (2 ^ k - 1) = 0.
Proof. intros. rewrite land_pow2_mod by lia. apply Z_mod_same_full. Qed.

Lemma land_pred_0_pow2 x : 0 < x -> Z.land x (x - 1) = 0 -> exists k, 0 <= k /\ x = 2 ^ k.
Proof.
  intros Hx Hl. exists (Z.log2 x). pose proof (Z.log2_nonneg x) as Hk.
  pose proof (Z.log2_spec x Hx) as [Hlo Hhi].
  destruct (decide (x = 2 ^ Z.log2 x)) as [|Hne]; [done|exfalso].
  assert (Hb : Z.testbit (Z.land x (x - 1)) (Z.log2 x) = true).
  { rewrite Z.land_spec, Z.bit_log2 by lia. cbn.
    assert (Z.log2 (x - 1) = Z.log2 x) as <- by (apply Z.log2_unique; lia).
    apply Z.bit_log2. lia. }
  rewrite Hl, Z.bits_0 in Hb. done.
Qed.

(** Packing a field below bit [k]. *)
Lemma lor_pack hi lo k : 0 <= k -> 0 <= lo < 2 ^ k -> Z.lor (hi * 2 ^ k) lo = hi * 2 ^ k + lo.
Proof.
  intros Hk Hlo. assert (Hl : Z.land (hi * 2 ^ k) lo = 0).
  { rewrite Z.land_comm, <- (Z.mod_small lo (2 ^ k)), <- Z.land_ones, <- Z.land_assoc by lia.
    rewrite (Z.land_comm (Z.ones k)), Z.land_ones, Z_mod_mult by lia. apply Z.land_0_r. }
  rewrite <- Z.lxor_lor by done. symmetry. by apply Z.add_nocarry_lxor.
Qed.

Lemma lor_range w x y :
  0 <= w -> 0 <= x < 2 ^ w -> 0 <= y < 2 ^ w -> 0 <= Z.lor x y < 2 ^ w.
Proof.
  intros Hw Hx Hy. assert (H0 : 0 <= Z.lor x y) by (apply Z.lor_nonneg; lia).
  assert (Hm : Z.lor x y mod 2 ^ w = Z.lor x y).
  { rewrite <- Z.land_ones by done. rewrite Z.land_lor_distr_l, !Z.land_ones by done.
    by rewrite !Z.mod_small. }
  rewrite <- Hm. apply Z.mod_pos_bound. lia.
Qed.

(** Rounding down with a mask of [w] bits. *)
Lemma land_mask_down w k x :
  0 <= k -> 0 <= x < 2 ^ w -> Z.land x (wrap w (Z.lnot (2 ^ k - 1))) = x / 2 ^ k * 2 ^ k.
Proof.
  intros Hk Hx. assert (0 <= w) by (destruct (decide (0 <= w)); [done|rewrite Z.pow_neg_r in Hx; lia]).
  unfold wrap. rewrite <- (Z.land_ones _ w), (Z.land_comm _ (Z.ones w)), Z.land_assoc, Z.land_ones by done.
  rewrite (Z.mod_small x) by done. rewrite <- Z.ldiff_land.
  replace (2 ^ k - 1) with (Z.ones k) by (rewrite Z.ones_equiv; lia).
  rewrite Z.ldiff_ones_r, Z.shiftl_mul_pow2, Z.shiftr_div_pow2 by done. done.
Qed.

Lemma pow2_divide j k : 0 <= j <= k -> (2 ^ j | 2 ^ k).
Proof.
  intros. exists (2 ^ (k - j)). rewrite <- Z.pow_add_r by lia. f_equal. lia.
Qed.

Lemma mod_0_trans x a b : 0 < a -> (a | b) -> x mod b = 0 -> x mod a = 0.
Proof.
  intros Ha Hab Hx. destruct (decide (b = 0)) as [->|].
  { rewrite Z.mod_0_r in Hx. subst. apply Z.mod_0_l. lia. }
  apply Z.mod_divide in Hx; [|done]. apply Z.mod_divide; [lia|].
  by transitivity b.
Qed.

Lemma mod_add_0 x y a : x mod a = 0 -> y mod a = 0 -> (x + y) mod a = 0.
Proof. intros Hx Hy. rewrite Zplus_mod, Hx, Hy. apply Zmod_0_l. Qed.

(** ** Lists *)
Lemma elem_of_snoc {X} (l : list X) x : x ∈ l ++ [x].
Proof. apply elem_of_app. right. constructor. Qed.
