(* ===== verification/Mem.v ===== *)
(** * The memory C code runs on

    Byte-addressed memory with explicitly mapped regions, pointer-sized loads
    and stores in little-endian order, and the parts of <string.h> the library
    uses. An access outside the mapped regions, or a misaligned pointer-sized
    access, is a [TSegv] trap, so that "the function returns" includes memory
    safety. The two ABIs the project is built for (the 32-bit ARM of the board
    and the x86-64 of the QEMU runs) are the two values of [abi]. *)
From S2P Require Export Prelude.

(** ** The ABI *)
Variant abi := ARMv7 | X86_64.
Existing Class abi.

Section Abi.
Context {A : abi}.

(** sizeof (void * ), sizeof (size_t) and sizeof (uintptr_t). *)
Definition ptr_bytes : Z := match A with ARMv7 => 4 | X86_64 => 8 end.

Definition ptr_bits : Z := 8 * ptr_bytes.

(** sizeof (max_align_t): a long long and a long double. *)
Definition sizeof_max_align_t : Z := match A with ARMv7 => 16 | X86_64 => 32 end.

(** Arithmetic on size_t and uintptr_t. *)
Definition wptr (z : Z) : Z := wrap ptr_bits z.

Definition SIZE_MAX : Z := 2 ^ ptr_bits - 1.

Lemma ptr_bytes_cases : ptr_bytes = 4 \/ ptr_bytes = 8.
Proof. unfold ptr_bytes. destruct A; auto. Qed.

Lemma ptr_max_pos : 2 ^ 31 < 2 ^ ptr_bits.
Proof. unfold ptr_bits, ptr_bytes. destruct A; lia. Qed.

Lemma wptr_small z : 0 <= z < 2 ^ ptr_bits -> wptr z = z.
Proof. apply wrap_small. Qed.

Lemma wptr_range z : 0 <= wptr z < 2 ^ ptr_bits.
Proof. apply wrap_range. unfold ptr_bits, ptr_bytes. destruct A; lia. Qed.

Lemma wptr_add_idemp_l x y : wptr (wptr x + y) = wptr (x + y).
Proof. apply Zplus_mod_idemp_l. Qed.

Lemma wptr_mul_idemp_l x y : wptr (wptr x * y) = wptr (x * y).
Proof. apply Zmult_mod_idemp_l. Qed.
End Abi.

(** Split on the ABI, which turns every size into a literal. *)
Ltac abi_cases A :=
  unfold wptr, SIZE_MAX, sizeof_max_align_t, ptr_bits, ptr_bytes in *;
  destruct A; cbn in *.

(** ** Bytes *)
Record mem := Mem { regions : list (Z * Z); bytes : gmap Z Z }.

(** Is the range of [n] bytes at [a] inside one mapped region? *)
Definition valid (m : mem) (a n : Z) : bool :=
  existsb (fun r => (r.1 <=? a) && (a + n <=? r.1 + r.2)) (regions m).

Definition byte_at (m : mem) (a : Z) : Z := default 0 (bytes m !! a).

Fixpoint insert_bytes (a : Z) (l : list Z) (b : gmap Z Z) : gmap Z Z :=
  match l with
  | [] => b
  | x :: l => <[a := x]> (insert_bytes (a + 1) l b)
  end.

Definition write_bytes (m : mem) (a : Z) (l : list Z) : mem :=
  Mem (regions m) (insert_bytes a l (bytes m)).

Fixpoint read_bytes (m : mem) (a : Z) (n : nat) : list Z :=
  match n with
  | O => []
  | S n => byte_at m a :: read_bytes m (a + 1) n
  end.

(** Every byte outside [[lo, hi)] is the same in both memories. *)
Definition same_outside (lo hi : Z) (m m' : mem) : Prop :=
  regions m' = regions m /\ forall x, ~ (lo <= x < hi) -> byte_at m' x = byte_at m x.

(** Every byte inside [[lo, hi)] is the same in both memories. *)
Definition same_inside (lo hi : Z) (m m' : mem) : Prop :=
  forall x, lo <= x < hi -> byte_at m' x = byte_at m x.

Lemma valid_sub m a n b k : valid m a n = true -> a <= b -> b + k <= a + n -> valid m b k = true.
Proof.
  unfold valid. rewrite !existsb_exists. intros (r & Hin & Hr) ??.
  exists r. split; [done|]. lia.
Qed.

Lemma insert_bytes_lookup a l b x :
  insert_bytes a l b !! x =
  if decide (a <= x < a + Z.of_nat (length l)) then l !! Z.to_nat (x - a) else b !! x.
Proof.
  revert a. induction l as [|y l IH]; intros a; cbn [insert_bytes length].
  - rewrite decide_False by lia. done.
  - destruct (decide (a = x)) as [->|Hne].
    + rewrite lookup_insert_eq. rewrite decide_True by lia.
      replace (Z.to_nat (x - x)) with 0%nat by lia. done.
    + rewrite lookup_insert_ne by done. rewrite IH.
      destruct (decide (a + 1 <= x < a + 1 + Z.of_nat (length l))).
      * rewrite decide_True by lia.
        replace (Z.to_nat (x - a)) with (S (Z.to_nat (x - (a + 1)))) by lia. done.
      * rewrite decide_False by lia. done.
Qed.

Lemma byte_at_write m a l x :
  byte_at (write_bytes m a l) x =
  if decide (a <= x < a + Z.of_nat (length l))
  then default 0 (l !! Z.to_nat (x - a)) else byte_at m x.
Proof.
  unfold byte_at, write_bytes; cbn. rewrite insert_bytes_lookup. by case_decide.
Qed.

Lemma write_bytes_outside m a l :
  same_outside a (a + Z.of_nat (length l)) m (write_bytes m a l).
Proof.
  split; [done|]. intros x Hx. rewrite byte_at_write. by rewrite decide_False by lia.
Qed.

Lemma read_bytes_ext m m' a n :
  (forall x, a <= x < a + Z.of_nat n -> byte_at m' x = byte_at m x) ->
  read_bytes m' a n = read_bytes m a n.
Proof.
  revert a. induction n as [|n IH]; intros a H; [done|]. cbn.
  rewrite H by lia. f_equal. apply IH. intros x Hx. apply H. lia.
Qed.

Lemma length_read_bytes m a n : length (read_bytes m a n) = n.
Proof. revert a. induction n as [|n IH]; intros a; cbn; [done|]. by rewrite IH. Qed.

Lemma read_bytes_lookup m a n i :
  (i < n)%nat -> read_bytes m a n !! i = Some (byte_at m (a + Z.of_nat i)).
Proof.
  revert a i. induction n as [|n IH]; intros a i Hi; [lia|].
  destruct i as [|i]; cbn; [by rewrite Z.add_0_r|].
  rewrite IH by lia. do 2 f_equal. lia.
Qed.

Lemma read_write_same m a l n :
  n = length l -> read_bytes (write_bytes m a l) a n = l.
Proof.
  intros ->. apply list_eq. intros i.
  destruct (decide (i < length l)%nat) as [Hi|Hi].
  - rewrite read_bytes_lookup by done. rewrite byte_at_write, decide_True by lia.
    replace (Z.to_nat (a + Z.of_nat i - a)) with i by lia.
    destruct (lookup_lt_is_Some_2 l i Hi) as [x Hx]. rewrite Hx. done.
  - rewrite !lookup_ge_None_2; [done|lia|rewrite length_read_bytes; lia].
Qed.

Lemma same_outside_refl lo hi m : same_outside lo hi m m.
Proof. done. Qed.

Lemma same_outside_trans lo hi m1 m2 m3 :
  same_outside lo hi m1 m2 -> same_outside lo hi m2 m3 -> same_outside lo hi m1 m3.
Proof.
  intros [Hr1 H1] [Hr2 H2]. split; [by rewrite Hr2|].
  intros x Hx. rewrite H2 by done. by apply H1.
Qed.

Lemma same_outside_weaken lo hi lo' hi' m1 m2 :
  same_outside lo hi m1 m2 -> lo' <= lo -> hi <= hi' -> same_outside lo' hi' m1 m2.
Proof. intros [Hr H] ??. split; [done|]. intros x Hx. apply H. lia. Qed.

Lemma same_outside_valid lo hi m m' a n :
  same_outside lo hi m m' -> valid m' a n = valid m a n.
Proof. intros [Hr _]. unfold valid. by rewrite Hr. Qed.

(** ** Little-endian words *)
Fixpoint le_bytes (n : nat) (v : Z) : list Z :=
  match n with
  | O => []
  | S n => v mod 256 :: le_bytes n (v / 256)
  end.

Fixpoint le_value (l : list Z) : Z :=
  match l with
  | [] => 0
  | b :: l => b + 256 * le_value l
  end.

Lemma length_le_bytes n v : length (le_bytes n v) = n.
Proof. revert v. induction n as [|n IH]; intros v; cbn; [done|]. by rewrite IH. Qed.

Lemma le_value_bytes n v : le_value (le_bytes n v) = v mod 2 ^ (8 * Z.of_nat n).
Proof.
  revert v. induction n as [|n IH]; intros v; cbn [le_bytes le_value].
  - by rewrite Z.mod_1_r.
  - rewrite IH.
    replace (2 ^ (8 * Z.of_nat (S n))) with (256 * 2 ^ (8 * Z.of_nat n))
      by (change 256 with (2 ^ 8); rewrite <- Z.pow_add_r by lia; f_equal; lia).
    rewrite Z.rem_mul_r by lia. done.
Qed.

Lemma le_value_range l : Forall (fun b => 0 <= b < 256) l ->
  0 <= le_value l < 2 ^ (8 * Z.of_nat (length l)).
Proof.
  induction 1 as [|b l Hb _ IH]; cbn [le_value length]; [lia|].
  replace (2 ^ (8 * Z.of_nat (S (length l)))) with (256 * 2 ^ (8 * Z.of_nat (length l)))
    by (change 256 with (2 ^ 8); rewrite <- Z.pow_add_r by lia; f_equal; lia).
  lia.
Qed.

Section Words.
Context {A : abi}.

Definition word_at (m : mem) (a : Z) : Z := le_value (read_bytes m a (Z.to_nat ptr_bytes)).

Definition set_word (m : mem) (a v : Z) : mem :=
  write_bytes m a (le_bytes (Z.to_nat ptr_bytes) v).

(** The object at [a] can be accessed as a pointer or a size_t. *)
Definition word_ok (m : mem) (a : Z) : bool := valid m a ptr_bytes && (a mod ptr_bytes =? 0).

Definition load (a : Z) : M mem Z :=
  fun m => if word_ok m a then Ok (word_at m a, m) else Trap TSegv.

Definition store (a v : Z) : M mem unit :=
  fun m => if word_ok m a then Ok (tt, set_word m a v) else Trap TSegv.

Lemma load_Ok {B} m a (k : Z -> M mem B) :
  word_ok m a = true -> mbind_ (load a) k m = k (word_at m a) m.
Proof. intros H. unfold mbind_, load. by rewrite H. Qed.

Lemma store_Ok {B} m a v (k : unit -> M mem B) :
  word_ok m a = true -> mbind_ (store a v) k m = k tt (set_word m a v).
Proof. intros H. unfold mbind_, store. by rewrite H. Qed.

Lemma word_at_set_same m a v : 0 <= v < 2 ^ ptr_bits -> word_at (set_word m a v) a = v.
Proof.
  intros Hv. unfold word_at, set_word.
  rewrite read_write_same by (by rewrite length_le_bytes).
  rewrite le_value_bytes. apply Z.mod_small.
  rewrite Z2Nat.id by (destruct ptr_bytes_cases; lia). done.
Qed.

Lemma word_at_ext m m' a :
  (forall x, a <= x < a + ptr_bytes -> byte_at m' x = byte_at m x) -> word_at m' a = word_at m a.
Proof.
  intros H. unfold word_at. f_equal. apply read_bytes_ext. intros x Hx. apply H.
  destruct ptr_bytes_cases; lia.
Qed.

Lemma set_word_outside m a v : same_outside a (a + ptr_bytes) m (set_word m a v).
Proof.
  pose proof (write_bytes_outside m a (le_bytes (Z.to_nat ptr_bytes) v)) as H.
  rewrite length_le_bytes, Z2Nat.id in H by (destruct ptr_bytes_cases; lia). done.
Qed.

Lemma word_at_outside lo hi m m' a :
  same_outside lo hi m m' -> a + ptr_bytes <= lo \/ hi <= a -> word_at m' a = word_at m a.
Proof.
  intros [_ H] Ha. apply word_at_ext. intros x Hx. apply H.
  destruct ptr_bytes_cases; lia.
Qed.

Lemma word_at_set_ne m a v b :
  b + ptr_bytes <= a \/ a + ptr_bytes <= b -> word_at (set_word m a v) b = word_at m b.
Proof. intros H. eapply word_at_outside; [apply set_word_outside|]. done. Qed.

Lemma word_ok_set m a v b : word_ok (set_word m a v) b = word_ok m b.
Proof. done. Qed.

Lemma word_ok_outside lo hi m m' a : same_outside lo hi m m' -> word_ok m' a = word_ok m a.
Proof. intros H. unfold word_ok. by erewrite same_outside_valid by done. Qed.

Lemma word_ok_sub m lo n a :
  valid m lo n = true -> lo <= a -> a + ptr_bytes <= lo + n -> a mod ptr_bytes = 0 ->
  word_ok m a = true.
Proof.
  intros Hv ?? Ha. unfold word_ok. rewrite (valid_sub m lo n) by lia. rewrite Ha. done.
Qed.

Lemma same_outside_set_word lo hi m a v m' :
  lo <= a -> a + ptr_bytes <= hi -> same_outside lo hi m m' ->
  same_outside lo hi m (set_word m' a v).
Proof.
  intros ?? H. eapply same_outside_trans; [done|].
  eapply same_outside_weaken; [apply set_word_outside|done|done].
Qed.
End Words.

(** Unsigned division and remainder; the processor traps on 0. *)
Definition udiv_ {St} (x y : Z) : M St Z := if y =? 0 then trap_ TSegv else mret_ (x / y).

Definition umod_ {St} (x y : Z) : M St Z := if y =? 0 then trap_ TSegv else mret_ (x mod y).

(** ** <string.h> *)

(** memset(p, c, n). *)
Definition memset (p c n : Z) : M mem unit :=
  fun m => if n =? 0 then Ok (tt, m)
           else if valid m p n then Ok (tt, write_bytes m p (replicate (Z.to_nat n) c))
           else Trap TSegv.

(** memcpy(p, src, n) where the [n] source bytes are [l]. *)
Definition write_data (p : Z) (l : list Z) : M mem unit :=
  fun m => if Z.of_nat (length l) =? 0 then Ok (tt, m)
           else if valid m p (Z.of_nat (length l)) then Ok (tt, write_bytes m p l)
           else Trap TSegv.

(** memcpy(dst, p, n) where [dst] is outside the modelled memory. *)
Definition read_data (p n : Z) : M mem (list Z) :=
  fun m => if n =? 0 then Ok ([], m)
           else if valid m p n then Ok (read_bytes m p (Z.to_nat n), m)
           else Trap TSegv.

(** memmove(dst, src, n): the source is read before the destination is written. *)
Definition memmove (dst src n : Z) : M mem unit :=
  let! l := read_data src n in write_data dst l.

Lemma memset_Ok m p c n :
  0 <= n -> valid m p n = true ->
  exists m', memset p c n m = Ok (tt, m') /\ same_outside p (p + n) m m' /\
             forall x, p <= x < p + n -> byte_at m' x = c.
Proof.
  intros Hn Hv. unfold memset. destruct (Z.eqb_spec n 0) as [->|Hne].
  - exists m. split_and!; [done|done|]. intros; lia.
  - rewrite Hv. eexists. split; [done|]. split.
    + pose proof (write_bytes_outside m p (replicate (Z.to_nat n) c)) as H.
      rewrite length_replicate, Z2Nat.id in H by lia. done.
    + intros x Hx. rewrite byte_at_write, length_replicate, decide_True by lia.
      rewrite lookup_replicate_2 by lia. done.
Qed.
