(* ===== verification/Uapi.v ===== *)
(** * The user API of the driver (include/uapi/strela_drm.h)

    The structs and flags shared by the kernel driver and the user-space
    library: what one side fills in is what the other side reads. *)
From S2P Require Export Prelude.

Definition STRELA_NUM_IO_COLS : nat := 4.

Definition STRELA_WORD_SIZE : Z := 4.

(** The arguments of the allocation ioctl; [handle] and [offset] are its results. *)
Record drm_strela_gem_new := mkGemNew { gn_size : Z; gn_flags : Z }.

(** The arguments of the cache maintenance ioctl and its flags. *)
Record drm_strela_gem_sync := mkGemSync {
  gs_handle : Z; gs_flags : Z; gs_offset : Z; gs_length : Z }.

Definition DRM_STRELA_SYNC_READ : Z := Z.shiftl 1 0.
Definition DRM_STRELA_SYNC_WRITE : Z := Z.shiftl 2 0.
Definition DRM_STRELA_SYNC_RW : Z := Z.lor DRM_STRELA_SYNC_READ DRM_STRELA_SYNC_WRITE.
Definition DRM_STRELA_SYNC_PREP : Z := Z.shiftl 0 2.
Definition DRM_STRELA_SYNC_FINI : Z := Z.shiftl 1 2.
Definition DRM_STRELA_SYNC_VALID_FLAGS_MASK : Z := Z.lor DRM_STRELA_SYNC_RW DRM_STRELA_SYNC_FINI.

(** The arguments of the submit ioctl. *)
Record drm_strela_binding := mkUBinding { ub_handle : Z; ub_offset : Z; ub_count : Z }.

Record drm_strela_strided_binding := mkUStrided {
  us_handle : Z; us_offset : Z; us_count : Z; us_stride : Z }.

Record drm_strela_submit := mkSubmit {
  sub_config : drm_strela_binding;
  sub_inputs : list drm_strela_strided_binding;
  sub_outputs : list drm_strela_binding;
  sub_out_syncobj : Z;
  sub_flags : Z;
  sub_in_syncobj : Z;
  sub_pad : Z
}.

Definition DRM_STRELA_SUBMIT_WAIT_SYNCOBJ : Z := Z.shiftl 1 0.
