(* ===== verification/Align.v ===== *)
(** * Alignment arithmetic of the allocators (lib/allocators.c)

    [is_power_of_two], [align_forward_uintptr], [align_forward_size] and
    [calc_padding_with_header], on wrapping [uintptr_t] arithmetic, with their
    closed forms: the least aligned value at or above a pointer. *)
From S2P Require Export Mem.

(** ** The code *)
Section Code.
Context {A : abi} {St : Type}.

Definition is_power_of_two (x : Z) : bool :=
  negb (x =? 0) && (Z.land x (wptr (x - 1)) =? 0).

Definition align_forward_uintptr (ptr align : Z) : M St Z :=
  do! assert_ (is_power_of_two align) in
  let a := align in
  let p := ptr in
  let modulo := Z.land p (wptr (a - 1)) in
  mret_ (if negb (modulo =? 0) then wptr (p + wptr (a - modulo)) else p).

Definition align_forward_size (ptr align : Z) : M St Z :=
  do! assert_ (is_power_of_two align) in
  let a := align in
  let p := ptr in
  let modulo := Z.land p (wptr (a - 1)) in
  mret_ (if negb (modulo =? 0) then wptr (p + wptr (a - modulo)) else p).

Definition calc_padding_with_header (ptr alignment header_size : Z) : M St Z :=
  do! assert_ (is_power_of_two alignment) in
  let p := ptr in
  let a := alignment in
  let modulo := Z.land p (wptr (a - 1)) in
  let padding := if negb (modulo =? 0) then wptr (a - modulo) else 0 in
  let needed_space := header_size in
  mret_ (if padding <? needed_space then
           let needed_space := wptr (needed_space - padding) in
           if negb (Z.land needed_space (wptr (a - 1)) =? 0)
           then wptr (padding + wptr (a * wptr (1 + needed_space / a)))
           else wptr (padding + wptr (a * (needed_space / a)))
         else padding).
End Code.

(** ** Reference definitions *)

(** The least multiple of [a] at or above [p]. *)
Definition align_up (p a : Z) : Z := (p + a - 1) / a * a.

(** The distance from [ptr] to the first multiple of [a] that leaves room for
    [header] bytes in between. *)
Definition padding_ref (ptr a header : Z) : Z := align_up (ptr + header) a - ptr.

Lemma align_up_mod p a : 0 < a -> align_up p a mod a = 0.
Proof. intros. apply Z_mod_mult. Qed.

Lemma align_up_bounds p a : 0 < a -> p <= align_up p a < p + a.
Proof.
  intros Ha. unfold align_up. pose proof (Z.div_mod (p + a - 1) a ltac:(lia)).
  pose proof (Z.mod_pos_bound (p + a - 1) a Ha). lia.
Qed.

Lemma align_up_unique p a q : 0 < a -> q mod a = 0 -> p <= q < p + a -> align_up p a = q.
Proof.
  intros Ha Hq Hr. pose proof (align_up_bounds p a Ha). pose proof (align_up_mod p a Ha) as Hm.
  apply Z.mod_divide in Hq; [|lia]. apply Z.mod_divide in Hm; [|lia].
  destruct Hq as [x ->], Hm as [y Hy]. rewrite Hy in *.
  assert (x = y) by nia. by subst.
Qed.

Lemma align_up_least p a q : 0 < a -> q mod a = 0 -> p <= q -> align_up p a <= q.
Proof.
  intros Ha Hq Hr. pose proof (align_up_bounds p a Ha). pose proof (align_up_mod p a Ha) as Hm.
  apply Z.mod_divide in Hq; [|lia]. apply Z.mod_divide in Hm; [|lia].
  destruct Hq as [x ->], Hm as [y Hy]. rewrite Hy in *.
  apply Z.mul_le_mono_nonneg_r; [lia|]. apply Z.lt_succ_r, (Z.mul_lt_mono_pos_r a); lia.
Qed.

Lemma align_up_aligned p a : 0 < a -> p mod a = 0 -> align_up p a = p.
Proof. intros. apply align_up_unique; [done|done|lia]. Qed.

Lemma align_up_cases p a :
  0 < a -> align_up p a = if p mod a =? 0 then p else p + (a - p mod a).
Proof.
  intros Ha. pose proof (Z.mod_pos_bound p a Ha). destruct (Z.eqb_spec (p mod a) 0) as [E|E].
  - by apply align_up_aligned.
  - apply align_up_unique; [lia| |lia].
    pose proof (Z.div_mod p a ltac:(lia)) as Hp.
    replace (p + (a - p mod a)) with ((p / a + 1) * a) by nia. apply Z_mod_mult.
Qed.

Lemma padding_ref_header p a h : 0 < a -> h <= padding_ref p a h < h + a.
Proof. intros Ha. unfold padding_ref. pose proof (align_up_bounds (p + h) a Ha). lia. Qed.

Lemma padding_ref_aligned p a h : 0 < a -> (p + padding_ref p a h) mod a = 0.
Proof.
  intros Ha. unfold padding_ref. replace (p + (align_up (p + h) a - p)) with (align_up (p + h) a) by lia.
  by apply align_up_mod.
Qed.

(** ** The code computes the reference definitions *)
Section Proofs.
Context {A : abi}.

(** A power of two that fits a pointer. *)
Definition pow2_ptr (a : Z) : Prop := exists k, 0 <= k < ptr_bits /\ a = 2 ^ k.

Lemma pow2_ptr_range a : pow2_ptr a -> 0 < a < 2 ^ ptr_bits.
Proof.
  intros (k & Hk & ->). split; [apply Z.pow_pos_nonneg; lia|]. apply Z.pow_lt_mono_r; lia.
Qed.

Lemma is_power_of_two_true a : pow2_ptr a -> is_power_of_two a = true.
Proof.
  intros H. pose proof (pow2_ptr_range _ H). destruct H as (k & Hk & ->).
  unfold is_power_of_two. rewrite wptr_small by lia.
  rewrite land_pred_pow2 by lia. lia.
Qed.

Lemma is_power_of_two_inv a : is_u ptr_bits a -> is_power_of_two a = true -> pow2_ptr a.
Proof.
  unfold is_u, is_power_of_two. intros Ha H.
  apply andb_true_iff in H as [Hne Hl].
  rewrite wptr_small in Hl by lia.
  destruct (land_pred_0_pow2 a) as (k & Hk & ->); [lia|lia|].
  exists k. split; [|done]. split; [done|].
  apply (Z.pow_lt_mono_r_iff 2); [lia| |lia]. abi_cases A; lia.
Qed.

Lemma land_mask_mod p a : pow2_ptr a -> Z.land p (wptr (a - 1)) = p mod a.
Proof.
  intros H. pose proof (pow2_ptr_range _ H). destruct H as (k & Hk & ->).
  rewrite wptr_small by lia. apply land_pow2_mod. lia.
Qed.

(** The value of both [align_forward] functions, wrap-around included. *)
Definition align_forward_val (p a : Z) : Z :=
  if negb (Z.land p (wptr (a - 1)) =? 0) then wptr (p + wptr (a - Z.land p (wptr (a - 1)))) else p.

Lemma align_forward_val_eq p a :
  pow2_ptr a -> is_u ptr_bits p -> align_forward_val p a = wptr (align_up p a).
Proof.
  intros Ha Hp. pose proof (pow2_ptr_range _ Ha) as Hr.
  unfold align_forward_val. rewrite land_mask_mod by done.
  rewrite align_up_cases by lia. pose proof (Z.mod_pos_bound p a ltac:(lia)).
  destruct (Z.eqb_spec (p mod a) 0); cbn.
  - by rewrite wptr_small.
  - rewrite (wptr_small (a - p mod a)) by lia. done.
Qed.

Lemma align_forward_uintptr_eq {St} p a (s : St) :
  pow2_ptr a -> is_u ptr_bits p -> align_forward_uintptr p a s = Ok (wptr (align_up p a), s).
Proof.
  intros Ha Hp. unfold align_forward_uintptr.
  rewrite assert_true by (by apply is_power_of_two_true).
  cbv zeta. unfold mret_. by rewrite <- align_forward_val_eq.
Qed.

Lemma align_forward_size_eq {St} p a (s : St) :
  pow2_ptr a -> is_u ptr_bits p -> align_forward_size p a s = Ok (wptr (align_up p a), s).
Proof. apply align_forward_uintptr_eq. Qed.

Lemma ceil_div x a :
  0 < a -> a * (if negb (x mod a =? 0) then 1 + x / a else x / a) = align_up x a.
Proof.
  intros Ha. rewrite align_up_cases by done. pose proof (Z.div_mod x a ltac:(lia)).
  destruct (Z.eqb_spec (x mod a) 0); cbn; lia.
Qed.

Lemma padding_ref_split p a h :
  0 < a -> 0 <= h ->
  padding_ref p a h =
  let pad := if negb (p mod a =? 0) then a - p mod a else 0 in
  if pad <? h then pad + align_up (h - pad) a else pad.
Proof.
  intros Ha Hh. unfold padding_ref. cbv zeta.
  set (pad := if negb (p mod a =? 0) then a - p mod a else 0).
  assert (Hpad : align_up p a = p + pad).
  { rewrite align_up_cases by done. unfold pad. destruct (p mod a =? 0); cbn; lia. }
  pose proof (align_up_bounds p a Ha). pose proof (align_up_mod p a Ha) as Hm.
  destruct (Z.ltb_spec pad h) as [Hlt|Hge].
  - pose proof (align_up_bounds (h - pad) a Ha). pose proof (align_up_mod (h - pad) a Ha).
    rewrite (align_up_unique (p + h) a (align_up p a + align_up (h - pad) a)); [lia|done| |lia].
    by apply mod_add_0.
  - rewrite (align_up_unique (p + h) a (align_up p a)); [lia|done|done|lia].
Qed.

Lemma calc_padding_eq {St} p a h (s : St) :
  pow2_ptr a -> 0 <= h -> h + a < 2 ^ ptr_bits ->
  calc_padding_with_header p a h s = Ok (padding_ref p a h, s).
Proof.
  intros Ha Hh Hov. pose proof (pow2_ptr_range _ Ha) as Hr.
  unfold calc_padding_with_header. rewrite assert_true by (by apply is_power_of_two_true).
  unfold mret_. do 2 f_equal. cbv zeta. rewrite !land_mask_mod by done.
  rewrite padding_ref_split by lia. cbv zeta.
  pose proof (Z.mod_pos_bound p a ltac:(lia)).
  assert (E : (if negb (p mod a =? 0) then wptr (a - p mod a) else 0)
              = (if negb (p mod a =? 0) then a - p mod a else 0)).
  { destruct (Z.eqb_spec (p mod a) 0); cbn; [done|]. rewrite wptr_small by lia. done. }
  rewrite E. set (pad := if negb (p mod a =? 0) then a - p mod a else 0) in *.
  assert (0 <= pad < a) by (unfold pad; destruct (Z.eqb_spec (p mod a) 0); cbn; lia).
  destruct (Z.ltb_spec pad h) as [Hlt|Hge]; [|done].
  rewrite (wptr_small (h - pad)) by lia.
  rewrite <- (ceil_div (h - pad) a) by lia. pose proof (align_up_bounds (h - pad) a ltac:(lia)) as Hb.
  rewrite <- (ceil_div (h - pad) a) in Hb by lia.
  pose proof (Z.div_pos (h - pad) a ltac:(lia) ltac:(lia)).
  destruct (negb ((h - pad) mod a =? 0)).
  - rewrite (wptr_small (1 + _)) by nia. rewrite (wptr_small (a * _)) by lia.
    apply wptr_small. lia.
  - rewrite (wptr_small (a * _)) by lia. apply wptr_small. lia.
Qed.

Lemma pow2_ptr_max a b : pow2_ptr a -> pow2_ptr b -> pow2_ptr (Z.max a b).
Proof. intros Ha Hb. destruct (Z.max_spec a b) as [[_ ->]|[_ ->]]; done. Qed.

Lemma pow2_ptr_divide a b : pow2_ptr a -> pow2_ptr b -> a <= b -> (a | b).
Proof.
  intros (j & Hj & ->) (k & Hk & ->) Hle. apply pow2_divide.
  split; [lia|]. apply (Z.pow_le_mono_r_iff 2); lia.
Qed.

Lemma pow2_ptr_max_align : pow2_ptr sizeof_max_align_t.
Proof.
  unfold pow2_ptr, sizeof_max_align_t, ptr_bits, ptr_bytes.
  destruct A; [exists 4|exists 5]; (split; [lia|done]).
Qed.

Lemma not_power_of_two {X} (c : M X Z) (a : Z) (s : X) :
  is_power_of_two a = false -> (do! assert_ (is_power_of_two a) in c) s = Trap TAssert.
Proof. intros ->. reflexivity. Qed.

(** C33: The alignment helpers equal their reference definitions, on every
    alignment a caller can pass. The bit test accepts exactly the powers of
    two, and all three helpers stop the program on any other alignment; on a
    power of two, aligning an address or a size by mask gives the least multiple
    at or above it (wrapped to the width of a pointer), and the padding for a
    header, computed in steps with wrap-around, is the distance to the first
    aligned address that leaves room for the header. *)
Theorem align_equivalence {St} (s : St) p a h :
  is_u ptr_bits p -> is_u ptr_bits a -> 0 <= h -> h + a < 2 ^ ptr_bits ->
  (is_power_of_two a = true <-> pow2_ptr a)
  /\ align_forward_uintptr p a s
     = (if is_power_of_two a then Ok (wptr (align_up p a), s) else Trap TAssert)
  /\ align_forward_size p a s
     = (if is_power_of_two a then Ok (wptr (align_up p a), s) else Trap TAssert)
  /\ calc_padding_with_header p a h s
     = (if is_power_of_two a then Ok (padding_ref p a h, s) else Trap TAssert).
Proof.
  intros Hp Ha Hh Hov. split; [split; [by apply is_power_of_two_inv|apply is_power_of_two_true]|].
  destruct (is_power_of_two a) eqn:E.
  - apply is_power_of_two_inv in E; [|done].
    by rewrite align_forward_uintptr_eq, align_forward_size_eq, calc_padding_eq.
  - by split_and!; apply not_power_of_two.
Qed.
End Proofs.

Lemma align_equivalence_witness :
  align_forward_uintptr (A := ARMv7) 0x1001 64 tt = Ok (0x1040, tt)
  /\ calc_padding_with_header (A := ARMv7) 0x1001 64 8 tt = Ok (63, tt)
  /\ align_forward_uintptr (A := ARMv7) 0x1001 24 tt = Trap TAssert.
Proof.
  destruct (align_equivalence (A := ARMv7) tt 0x1001 64 8) as (_ & H1 & _ & H2); [by vm_compute..|lia|by vm_compute|].
  destruct (align_equivalence (A := ARMv7) tt 0x1001 24 8) as (_ & H3 & _); [by vm_compute..|lia|by vm_compute|].
  split; [exact H1|]. split; [exact H2|exact H3].
Defined.

#[export] Hint Resolve pow2_ptr_max_align pow2_ptr_max : strela.
