(* ===== verification/Pool.v ===== *)
(** * The pool allocator (lib/allocators.c)

    Chunks of one size; the free chunks are a linked list through their own
    first words. The library keeps the bitstreams of its
    kernels in a pool. The free list is
    a stack: the invariant says that the chunks on it and the chunks handed
    out are together all chunks, each exactly once. *)
From S2P Require Export Align.

Record Pool := mkPool {
  pool_buf : Z;
  pool_buf_len : Z;
  pool_chunk_size : Z;
  pool_head : Z
}.

Definition pool_set_head (p : Pool) (h : Z) : Pool :=
  mkPool (pool_buf p) (pool_buf_len p) (pool_chunk_size p) h.

Section Code.
Context {A : abi}.

Definition sizeof_Pool_Free_Node : Z := ptr_bytes.

Definition pool_free_all (p : Pool) : M mem Pool :=
  let! chunk_count := udiv_ (pool_buf_len p) (pool_chunk_size p) in
  let! head := for_ chunk_count (fun i head =>
    let ptr := wptr (pool_buf p + wptr (i * pool_chunk_size p)) in
    do! store ptr head in
    mret_ ptr) 0 in
  mret_ (pool_set_head p head).

Definition pool_init (backing_buffer backing_buffer_length chunk_size chunk_alignment : Z)
  : M mem Pool :=
  let initial_start := backing_buffer in
  let! start := align_forward_uintptr initial_start chunk_alignment in
  let backing_buffer_length := wptr (backing_buffer_length - wptr (start - initial_start)) in
  let! chunk_size := align_forward_size chunk_size chunk_alignment in
  do! assert_ (sizeof_Pool_Free_Node <=? chunk_size) in
  do! assert_ (chunk_size <=? backing_buffer_length) in
  pool_free_all (mkPool start backing_buffer_length chunk_size 0).

Definition pool_alloc (p : Pool) : M mem (Z * Pool) :=
  let node := pool_head p in
  if node =? 0 then mret_ (0, p) else
  let! next := load (pool_head p) in
  do! memset node 0 (pool_chunk_size p) in
  mret_ (node, pool_set_head p next).

Definition pool_free (p : Pool) (ptr : Z) : M mem Pool :=
  let start := pool_buf p in
  let end_ := wptr (pool_buf p + pool_buf_len p) in
  if ptr =? 0 then mret_ p else
  if negb ((start <=? ptr) && (ptr <? end_)) then trap_ TAssert else
  let offset := wptr (ptr - start) in
  let! r := umod_ offset (pool_chunk_size p) in
  if negb (r =? 0) then trap_ TAssert else
  do! store ptr (pool_head p) in
  mret_ (pool_set_head p ptr).
End Code.

(** ** The invariant *)
Section Inv.
Context {A : abi}.

Definition chunk_count (p : Pool) : Z := pool_buf_len p / pool_chunk_size p.

Definition chunk (p : Pool) (i : nat) : Z := pool_buf p + Z.of_nat i * pool_chunk_size p.

(** The addresses of the first [n] chunks. *)
Definition chunks (p : Pool) (n : nat) : list Z := chunk p <$> seq 0 n.

Definition all_chunks (p : Pool) : list Z := chunks p (Z.to_nat (chunk_count p)).

Fixpoint chain (m : mem) (h : Z) (F : list Z) : Prop :=
  match F with
  | [] => h = 0
  | a :: F => h = a /\ chain m (word_at m a) F
  end.

(** The buffer of a pool that was initialised. *)
Record pool_ok (p : Pool) (m : mem) : Prop := {
  po_buf : 0 < pool_buf p;
  po_end : pool_buf p + pool_buf_len p < 2 ^ ptr_bits;
  po_valid : valid m (pool_buf p) (pool_buf_len p) = true;
  po_chunk : sizeof_Pool_Free_Node <= pool_chunk_size p <= pool_buf_len p;
  po_align : pool_buf p mod ptr_bytes = 0 /\ pool_chunk_size p mod ptr_bytes = 0
}.

(** The chunks [F] are free, in list order, and the chunks [U] are handed out. *)
Record pool_rep (p : Pool) (m : mem) (F U : list Z) : Prop := {
  pr_ok : pool_ok p m;
  pr_chain : chain m (pool_head p) F;
  pr_all : F ++ U ≡ₚ all_chunks p
}.

Lemma pool_ok_pos p m :
  pool_ok p m -> 0 < ptr_bytes <= pool_chunk_size p
                 /\ chunk_count p * pool_chunk_size p <= pool_buf_len p /\ 0 < chunk_count p.
Proof.
  intros [_ _ _ Hc _]. unfold sizeof_Pool_Free_Node in Hc. unfold chunk_count.
  assert (0 < ptr_bytes) by (destruct ptr_bytes_cases; lia).
  pose proof (Z.mul_div_le (pool_buf_len p) (pool_chunk_size p) ltac:(lia)).
  pose proof (Z.div_str_pos (pool_buf_len p) (pool_chunk_size p) ltac:(lia)). lia.
Qed.

(** A chunk is inside the buffer and can be accessed. *)
Lemma chunk_bounds p m i :
  pool_ok p m -> Z.of_nat i < chunk_count p ->
  pool_buf p <= chunk p i /\ chunk p i + pool_chunk_size p <= pool_buf p + pool_buf_len p
  /\ word_ok m (chunk p i) = true.
Proof.
  intros Hok Hi. destruct (pool_ok_pos _ _ Hok) as (Hp & Hc & _). destruct Hok as [? ? Hv ? [Ha Hb]].
  unfold chunk. assert (Z.of_nat i * pool_chunk_size p + pool_chunk_size p <= pool_buf_len p) by nia.
  split_and!; [nia|lia|]. eapply word_ok_sub; [done|nia|lia|].
  apply mod_add_0; [done|]. rewrite Z.mul_mod, Hb, Z.mul_0_r by lia. apply Zmod_0_l.
Qed.

Lemma elem_of_chunks p n x : x ∈ chunks p n <-> exists i, x = chunk p i /\ (i < n)%nat.
Proof.
  unfold chunks. rewrite list_elem_of_fmap. setoid_rewrite elem_of_seq.
  split; intros (i & ? & ?); exists i; (split; [done|lia]).
Qed.

Lemma elem_of_all p m x :
  pool_ok p m -> x ∈ all_chunks p -> exists i, x = chunk p i /\ Z.of_nat i < chunk_count p.
Proof. intros _ Hx. apply elem_of_chunks in Hx as (i & -> & Hi). exists i. split; [done|lia]. Qed.

Lemma chunk_inj p m i j : pool_ok p m -> chunk p i = chunk p j -> i = j.
Proof.
  intros Hok H. destruct (pool_ok_pos _ _ Hok) as (Hp & _). unfold chunk in H. nia.
Qed.

Lemma chunk_apart p m x y :
  pool_ok p m -> x ∈ all_chunks p -> y ∈ all_chunks p -> x <> y ->
  x + pool_chunk_size p <= y \/ y + pool_chunk_size p <= x.
Proof.
  intros Hok Hx Hy Hne. destruct (pool_ok_pos _ _ Hok) as (Hp & _).
  apply (elem_of_all _ _ _ Hok) in Hx as (i & -> & _).
  apply (elem_of_all _ _ _ Hok) in Hy as (j & -> & _).
  unfold chunk in *. destruct (decide (i < j)%nat); [left; nia|].
  assert (i <> j) by (intros ->; done). right; nia.
Qed.

Lemma all_chunks_NoDup p m : pool_ok p m -> NoDup (all_chunks p).
Proof.
  intros Hok. unfold all_chunks, chunks. apply NoDup_fmap_2_strong; [|apply NoDup_seq].
  intros i j _ _. by eapply chunk_inj.
Qed.

Lemma chain_ext m m' h F :
  (forall x, x ∈ F -> word_at m' x = word_at m x) -> chain m h F -> chain m' h F.
Proof.
  revert h. induction F as [|a F IH]; intros h Hx; cbn; [done|].
  intros [-> Hc]. split; [done|]. rewrite Hx by set_solver. apply IH; [|done]. set_solver.
Qed.

(** What is known about the chunks of a represented pool. *)
Lemma pool_rep_NoDup p m F U : pool_rep p m F U -> NoDup (F ++ U).
Proof. intros [Hok _ HP]. rewrite HP. by eapply all_chunks_NoDup. Qed.

Lemma pool_rep_in p m F U x :
  pool_rep p m F U -> x ∈ F ++ U ->
  x ∈ all_chunks p /\ 0 < x /\ pool_buf p <= x
  /\ x + pool_chunk_size p <= pool_buf p + pool_buf_len p
  /\ word_ok m x = true /\ (x - pool_buf p) mod pool_chunk_size p = 0.
Proof.
  intros [Hok _ HP] Hx. rewrite HP in Hx. split; [done|].
  destruct (elem_of_all _ _ _ Hok Hx) as (i & -> & Hi).
  destruct (chunk_bounds _ _ _ Hok Hi) as (? & ? & ?). pose proof (po_buf _ _ Hok).
  split_and!; [lia|lia|lia|done|]. unfold chunk.
  replace (pool_buf p + Z.of_nat i * pool_chunk_size p - pool_buf p)
    with (Z.of_nat i * pool_chunk_size p) by lia. apply Z_mod_mult.
Qed.

(** ** The operations *)
Lemma word_at_apart p m m' F U lo x y :
  pool_rep p m F U -> x ∈ F ++ U -> y ∈ F ++ U -> x <> y ->
  lo <= pool_chunk_size p -> same_outside x (x + lo) m m' -> word_at m' y = word_at m y.
Proof.
  intros Hr Hx Hy Hne Hlo HO. destruct (pool_ok_pos _ _ (pr_ok _ _ _ _ Hr)) as (Hp & _).
  destruct (pool_rep_in _ _ _ _ _ Hr Hx) as (Hx' & _). destruct (pool_rep_in _ _ _ _ _ Hr Hy) as (Hy' & _).
  eapply word_at_outside; [done|].
  destruct (chunk_apart _ _ _ _ (pr_ok _ _ _ _ Hr) Hx' Hy' Hne); [right|left]; lia.
Qed.

Lemma pool_ok_outside p m m' x n h :
  pool_ok p m -> same_outside x n m m' -> pool_ok (pool_set_head p h) m'.
Proof. intros [] HO. split; cbn; try done. by erewrite same_outside_valid by done. Qed.

Lemma pool_alloc_ok p m F U :
  pool_rep p m F U ->
  match F with
  | [] => pool_alloc p m = Ok ((0, p), m)
  | x :: F' => exists p' m', pool_alloc p m = Ok ((x, p'), m')
      /\ pool_rep p' m' F' (x :: U) /\ p' = pool_set_head p (pool_head p')
      /\ same_outside x (x + pool_chunk_size p) m m'
      /\ forall y, x <= y < x + pool_chunk_size p -> byte_at m' y = 0
  end.
Proof.
  intros Hr. pose proof Hr as [Hok Hc HP]. unfold pool_alloc. destruct F as [|x F]; cbn in Hc.
  { by rewrite Hc. }
  destruct Hc as [Hx Hc]. rewrite Hx in *.
  destruct (pool_rep_in _ _ _ _ x Hr ltac:(set_solver)) as (Hin & H0 & Hlo & Hhi & Hw & _).
  rewrite (proj2 (Z.eqb_neq _ _)) by lia. cbv zeta. rewrite load_Ok by done.
  destruct (memset_Ok m x 0 (pool_chunk_size p)) as (m' & He & HO & Hz).
  { destruct (pool_ok_pos _ _ Hok). lia. }
  { eapply valid_sub; [apply Hok|done|done]. }
  rewrite (mbind_Ok _ _ _ _ _ He). do 2 eexists. split; [done|]. split_and!; try done.
  split; cbn.
  - by eapply pool_ok_outside.
  - eapply chain_ext; [|done]. intros y Hy.
    eapply (word_at_apart p m m' (x :: F) U _ x y Hr); [set_solver|set_solver| |done|done].
    pose proof (pool_rep_NoDup _ _ _ _ Hr) as HN. cbn in HN. apply NoDup_cons in HN as [HN _].
    set_solver.
  - rewrite <- Permutation_middle. done.
Qed.

Lemma pool_free_ok p m F U1 x U2 :
  pool_rep p m F (U1 ++ x :: U2) ->
  exists m', pool_free p x m = Ok (pool_set_head p x, m')
    /\ pool_rep (pool_set_head p x) m' (x :: F) (U1 ++ U2)
    /\ same_outside x (x + ptr_bytes) m m'.
Proof.
  intros Hr. pose proof Hr as [Hok Hc HP]. destruct (pool_ok_pos _ _ Hok) as (Hpos & _).
  destruct (pool_rep_in _ _ _ _ x Hr ltac:(set_solver)) as (Hin & H0 & Hlo & Hhi & Hw & Hmod).
  pose proof (po_end _ _ Hok). pose proof (po_buf _ _ Hok).
  unfold pool_free. rewrite (wptr_small (pool_buf p + pool_buf_len p)) by lia.
  rewrite (wptr_small (x - pool_buf p)) by lia.
  rewrite (proj2 (Z.eqb_neq _ _)) by lia.
  replace (pool_buf p <=? x) with true by lia.
  replace (x <? pool_buf p + pool_buf_len p) with true by lia. cbn [andb negb].
  unfold umod_. rewrite (proj2 (Z.eqb_neq _ _)) by lia. rewrite mbind_ret, Hmod. cbn [negb Z.eqb].
  rewrite store_Ok by done. eexists. split; [done|].
  pose proof (set_word_outside m x (pool_head p)) as HO. split; [|done].
  assert (Hhead : 0 <= pool_head p < 2 ^ ptr_bits).
  { destruct F as [|y F]; cbn in Hc; [pose proof ptr_max_pos; lia|]. destruct Hc as [-> _].
    destruct (pool_rep_in _ _ _ _ y Hr ltac:(set_solver)) as (_ & ? & ? & ? & _). lia. }
  split; cbn.
  - by eapply pool_ok_outside.
  - split; [done|]. rewrite word_at_set_same by done. eapply chain_ext; [|done].
    intros y Hy. eapply (word_at_apart p m _ F _ _ x y Hr); [set_solver|set_solver| | |done].
    + pose proof (pool_rep_NoDup _ _ _ _ Hr) as HN. apply NoDup_app in HN as (_ & HN & _).
      intros <-. apply (HN x Hy). set_solver.
    + lia.
  - change (all_chunks (pool_set_head p x)) with (all_chunks p). rewrite <- HP.
    rewrite <- (Permutation_middle U1 U2 x). by rewrite <- (Permutation_middle F (U1 ++ U2) x).
Qed.

Lemma chunks_S p n : chunks p (S n) = chunks p n ++ [chunk p n].
Proof. unfold chunks. rewrite seq_S, fmap_app. done. Qed.

(** [pool_free_all] puts every chunk on the list, the last chunk first. *)
Lemma pool_free_all_ok p m :
  pool_ok p m ->
  exists h m', pool_free_all p m = Ok (pool_set_head p h, m')
    /\ pool_rep (pool_set_head p h) m' (rev (all_chunks p)) []
    /\ same_outside (pool_buf p) (pool_buf p + pool_buf_len p) m m'.
Proof.
  intros Hok. destruct (pool_ok_pos _ _ Hok) as (Hpos & Hcs & Hcc).
  pose proof Hok as [Hb He Hv Hch Hal]. unfold pool_free_all, udiv_.
  rewrite (proj2 (Z.eqb_neq _ _)) by lia. rewrite mbind_ret. fold (chunk_count p).
  destruct (for_ok (St := mem) (fun i head =>
    let ptr := wptr (pool_buf p + wptr (i * pool_chunk_size p)) in
    do! store ptr head in mret_ ptr)
    (fun i h m' => same_outside (pool_buf p) (pool_buf p + pool_buf_len p) m m'
       /\ 0 <= h < 2 ^ ptr_bits /\ chain m' h (rev (chunks p (Z.to_nat i)))) (chunk_count p) 0 m)
    as (h & m' & Hf & HO & _ & HC); [lia| |split_and!; [done|lia|pose proof ptr_max_pos; lia|done]|].
  - intros j h m1 Hj (HO & Hh & HC).
    destruct (chunk_bounds p m (Z.to_nat j) Hok ltac:(lia)) as (H1 & H2 & H3).
    unfold chunk in H1, H2, H3. rewrite Z2Nat.id in * by lia. cbv zeta.
    rewrite (wptr_small (j * _)), wptr_small by nia.
    set (x := pool_buf p + j * pool_chunk_size p) in *.
    rewrite store_Ok by (by erewrite word_ok_outside by done). do 2 eexists. split; [done|].
    split_and!; [|lia|lia|].
    + eapply same_outside_set_word; [done|lia|done].
    + replace (Z.to_nat (j + 1)) with (S (Z.to_nat j)) by lia. rewrite chunks_S, rev_app_distr. cbn.
      split; [unfold chunk, x; rewrite Z2Nat.id by lia; lia|].
      unfold chunk. rewrite Z2Nat.id by lia. rewrite word_at_set_same by done.
      eapply chain_ext; [|done]. intros y Hy. 
      apply list_elem_of_In, in_rev, list_elem_of_In in Hy.
      apply elem_of_chunks in Hy as (i & -> & Hi). apply word_at_set_ne. left. unfold chunk, x. nia.
  - rewrite (mbind_Ok _ _ _ _ _ Hf). do 2 eexists. split; [done|]. split; [|done]. split.
    + by eapply pool_ok_outside.
    + done.
    + rewrite app_nil_r. change (all_chunks (pool_set_head p h)) with (all_chunks p).
      symmetry. apply Permutation_rev.
Qed.

(** The pool depends on its own memory only, and there only on its free chunks. *)
Lemma pool_rep_frame p m m' F U :
  pool_rep p m F U -> regions m' = regions m ->
  (forall x y, x ∈ F -> x <= y < x + pool_chunk_size p -> byte_at m' y = byte_at m y) ->
  pool_rep p m' F U.
Proof.
  intros Hr Hreg HS. pose proof Hr as [[? ? Hv ? ?] Hc HP].
  pose proof (pool_ok_pos _ _ (pr_ok _ _ _ _ Hr)) as (Hpos & _). split; [split; try done|..|done].
  - unfold valid. by rewrite Hreg.
  - eapply chain_ext; [|done]. intros x Hx. apply word_at_ext. intros y Hy. apply (HS x); [done|lia].
Qed.

(** A write into a chunk that is handed out. *)
Lemma pool_write_held p m m' F U x :
  pool_rep p m F U -> x ∈ U -> same_outside x (x + pool_chunk_size p) m m' -> pool_rep p m' F U.
Proof.
  intros Hr Hx [Hreg HO]. eapply pool_rep_frame; [done|done|]. intros f y Hf Hy. apply HO.
  pose proof (pool_rep_NoDup _ _ _ _ Hr) as HN. apply NoDup_app in HN as (_ & HN & _).
  destruct (chunk_apart p m f x) as [H|H]; [apply Hr|..|lia|lia].
  - by apply (pool_rep_in _ _ _ _ f Hr ltac:(set_solver)).
  - by apply (pool_rep_in _ _ _ _ x Hr ltac:(set_solver)).
  - intros ->. by eapply HN.
Qed.

(** The arguments of [pool_init] that make a pool: room for one aligned chunk
    after the alignment gap, and chunks that can hold a pointer at their start. *)
Definition pool_args_ok (m : mem) (b len cs al : Z) : Prop :=
  pow2_ptr al /\ (align_up b al mod ptr_bytes = 0 /\ align_up cs al mod ptr_bytes = 0) /\ 0 < b /\ b + len < 2 ^ ptr_bits /\ valid m b len = true
  /\ 0 < cs /\ align_up cs al <= len - (align_up b al - b).

Lemma pool_init_ok m b len cs al :
  pool_args_ok m b len cs al ->
  exists p m', pool_init b len cs al m = Ok (p, m')
    /\ pool_rep p m' (rev (all_chunks p)) []
    /\ pool_buf p = align_up b al /\ pool_chunk_size p = align_up cs al
    /\ pool_buf_len p = len - (align_up b al - b)
    /\ same_outside b (b + len) m m'.
Proof.
  intros (Hal & Hpa & Hb & Hend & Hv & Hcs & Hfit). pose proof (pow2_ptr_range _ Hal) as Har.
  pose proof (align_up_bounds b al (proj1 Har)) as HB. pose proof (align_up_bounds cs al (proj1 Har)) as HC.
  assert (Hp : 0 < ptr_bytes) by (destruct ptr_bytes_cases; lia).
  assert (Hge : ptr_bytes <= align_up cs al).
  { destruct Hpa as [_ Hm]. apply Z.mod_divide in Hm as [k Hk]; [|lia]. assert (0 < k) by nia. nia. }
  unfold pool_init.
  rewrite (mbind_Ok _ _ _ _ _ (align_forward_uintptr_eq b al m Hal ltac:(unfold is_u; lia))).
  rewrite (wptr_small (align_up b al)) by lia.
  rewrite (mbind_Ok _ _ _ _ _ (align_forward_size_eq cs al m Hal ltac:(unfold is_u; lia))).
  rewrite (wptr_small (align_up cs al)) by lia. rewrite (wptr_small (align_up b al - b)) by lia.
  rewrite wptr_small by lia. rewrite 2 assert_true by (unfold sizeof_Pool_Free_Node; lia).
  destruct (pool_free_all_ok (mkPool (align_up b al) (len - (align_up b al - b)) (align_up cs al) 0) m)
    as (h & m' & He & Hr & HO).
  { split; cbn; unfold sizeof_Pool_Free_Node; try done; try lia.
    eapply valid_sub; [done|lia|lia]. }
  do 2 eexists. split; [exact He|]. split_and!; try done. cbn in HO.
  eapply same_outside_weaken; [done|lia|lia].
Qed.

(** ** A client of the pool *)
Variant pool_op := PAlloc | PFree (i : nat).

(** The client's state is the pool and the pointers it holds. *)
Definition pool_do (c : Pool * list Z) (o : pool_op) : M mem (Pool * list Z) :=
  match o with
  | PAlloc => let! '(x, p) := pool_alloc c.1 in mret_ (p, if x =? 0 then c.2 else x :: c.2)
  | PFree i => match c.2 !! i with
               | None => mret_ c
               | Some x => let! p := pool_free c.1 x in mret_ (p, delete i c.2)
               end
  end.

Fixpoint pool_run (c : Pool * list Z) (os : list pool_op) : M mem (Pool * list Z) :=
  match os with
  | [] => mret_ c
  | o :: os => let! c := pool_do c o in pool_run c os
  end.

(** The parameters of a pool never change. *)
Definition same_pool (p p' : Pool) : Prop := p' = pool_set_head p (pool_head p').

Lemma pool_do_inv p m F U o :
  pool_rep p m F U ->
  exists p' U' m' F', pool_do (p, U) o m = Ok ((p', U'), m') /\ pool_rep p' m' F' U' /\ same_pool p p'.
Proof.
  intros Hr. unfold same_pool. destruct o as [|i]; cbn.
  - pose proof (pool_alloc_ok _ _ _ _ Hr) as Ha. destruct F as [|x F].
    + rewrite (mbind_Ok _ _ _ _ _ Ha). cbn. exists p, U, m, []. by destruct p.
    + destruct Ha as (p' & m' & He & Hr' & Hs & _). rewrite (mbind_Ok _ _ _ _ _ He).
      destruct (pool_rep_in _ _ _ _ x Hr ltac:(set_solver)) as (_ & Hx & _).
      rewrite (proj2 (Z.eqb_neq _ _)) by lia. by do 4 eexists.
  - destruct (U !! i) as [x|] eqn:Hx; [|exists p, U, m, F; by destruct p].
    apply list_elem_of_split_length in Hx as (U1 & U2 & -> & Hlen).
    destruct (pool_free_ok _ _ _ _ _ _ Hr) as (m' & He & Hr' & _). rewrite (mbind_Ok _ _ _ _ _ He).
    do 4 eexists. split; [done|]. subst i. rewrite delete_middle. by split.
Qed.

Lemma pool_run_inv p m F U os :
  pool_rep p m F U ->
  exists p' U' m' F', pool_run (p, U) os m = Ok ((p', U'), m') /\ pool_rep p' m' F' U' /\ same_pool p p'.
Proof.
  revert p m F U. induction os as [|o os IH]; intros p m F U Hr; cbn.
  { exists p, U, m, F. split_and!; [done|done|]. unfold same_pool. by destruct p. }
  destruct (pool_do_inv _ _ _ _ o Hr) as (p1 & U1 & m1 & F1 & He & Hr1 & Hs1).
  rewrite (mbind_Ok _ _ _ _ _ He). destruct (IH _ _ _ _ Hr1) as (p2 & U2 & m2 & F2 & He2 & Hr2 & Hs2).
  do 4 eexists. split_and!; [done|done|]. unfold same_pool in *. rewrite Hs2, Hs1. by destruct p, p2.
Qed.

(** ** Properties *)

(** C34: The pool allocator under arbitrary use. After [pool_init], any sequence
    of allocations and frees of held chunks runs to the end; the chunks held
    are distinct chunks of the buffer that do not overlap; and the next
    allocation fails exactly when all chunks are held. *)
Theorem pool_client_safe m b len cs al os :
  pool_args_ok m b len cs al ->
  exists p U m', (let! p := pool_init b len cs al in pool_run (p, []) os) m = Ok ((p, U), m')
    /\ NoDup U
    /\ Forall (fun x => b <= x /\ x + cs <= b + len /\ x mod al = 0) U
    /\ (forall x y, x ∈ U -> y ∈ U -> x <> y -> x + cs <= y \/ y + cs <= x)
    /\ exists x p' m'', pool_alloc p m' = Ok ((x, p'), m'')
         /\ (x = 0 <-> Z.of_nat (length U) = (len - (align_up b al - b)) / align_up cs al).
Proof.
  intros Hargs. pose proof Hargs as (Hal & _ & _ & _ & _ & Hcs & _).
  pose proof (pow2_ptr_range _ Hal) as [Ha0 _]. pose proof (align_up_bounds b al Ha0) as HB.
  pose proof (align_up_bounds cs al Ha0) as HC.
  destruct (pool_init_ok _ _ _ _ _ Hargs) as (p0 & m0 & He & Hr0 & Hb & Hc & Hl & _).
  rewrite (mbind_Ok _ _ _ _ _ He).
  destruct (pool_run_inv _ _ _ _ os Hr0) as (p & U & m' & F & He2 & Hr & Hs).
  assert (Hsame : pool_buf p = align_up b al /\ pool_chunk_size p = align_up cs al
                  /\ pool_buf_len p = len - (align_up b al - b)) by (by rewrite Hs).
  destruct Hsame as (Hb' & Hc' & Hl'). exists p, U, m'. split; [done|].
  pose proof (pool_rep_NoDup _ _ _ _ Hr) as HN. pose proof HN as (HNF & HFU & HNU)%NoDup_app.
  split_and!; [done|..].
  - apply Forall_forall. intros x Hx.
    destruct (pool_rep_in _ _ _ _ x Hr ltac:(set_solver)) as (Hin & _ & H1 & H2 & _).
    split_and!; [lia|lia|]. apply (elem_of_all _ _ _ (pr_ok _ _ _ _ Hr)) in Hin as (i & -> & _).
    unfold chunk. rewrite Hb', Hc'. apply mod_add_0; [by apply align_up_mod|].
    rewrite Z.mul_mod, (align_up_mod cs al Ha0), Z.mul_0_r by lia. apply Zmod_0_l.
  - intros x y Hx Hy Hne. destruct (chunk_apart p m' x y) as [?|?]; [apply Hr|..]; [| |done|lia|lia].
    + by apply (pool_rep_in _ _ _ _ x Hr ltac:(set_solver)).
    + by apply (pool_rep_in _ _ _ _ y Hr ltac:(set_solver)).
  - assert (Hlen : Z.of_nat (length F + length U) = (len - (align_up b al - b)) / align_up cs al).
    { rewrite <- length_app, (pr_all _ _ _ _ Hr). unfold all_chunks, chunks.
      rewrite length_fmap, length_seq. destruct (pool_ok_pos _ _ (pr_ok _ _ _ _ Hr)) as (_ & _ & Hpos).
      rewrite Z2Nat.id by lia. unfold chunk_count. by rewrite Hl', Hc'. }
    pose proof (pool_alloc_ok _ _ _ _ Hr) as Hall. destruct F as [|x F].
    + exists 0, p, m'. split; [done|]. split; [|done]. intros _. rewrite <- Hlen. done.
    + destruct Hall as (p' & m'' & Hal' & _). exists x, p', m''. split; [done|].
      destruct (pool_rep_in _ _ _ _ x Hr ltac:(set_solver)) as (_ & Hx & _). cbn [length] in Hlen. lia.
Qed.

(** [pool_free] stops the program on a pointer that is not a chunk of the
    pool: outside the buffer, or not at a multiple of the chunk size. NULL is
    ignored. *)
Theorem pool_free_rejects p m x :
  pool_ok p m -> is_u ptr_bits x ->
  pool_free p 0 m = Ok (p, m)
  /\ (x <> 0 -> ~ (pool_buf p <= x < pool_buf p + pool_buf_len p
                  /\ (x - pool_buf p) mod pool_chunk_size p = 0) ->
      pool_free p x m = Trap TAssert).
Proof.
  intros Hok Hx. split; [done|]. intros Hx0 Hbad. destruct (pool_ok_pos _ _ Hok) as (Hp & _).
  pose proof (po_end _ _ Hok). pose proof (po_buf _ _ Hok). pose proof (po_chunk _ _ Hok).
  unfold sizeof_Pool_Free_Node in *. unfold is_u in Hx.
  unfold pool_free. rewrite (proj2 (Z.eqb_neq _ _)) by lia. cbv zeta.
  rewrite (wptr_small (_ + _)) by lia.
  destruct ((pool_buf p <=? x) && (x <? pool_buf p + pool_buf_len p)) eqn:E; [|done].
  cbn [negb]. rewrite wptr_small by lia. unfold umod_.
  rewrite (proj2 (Z.eqb_neq _ _)) by lia. rewrite mbind_ret.
  destruct (Z.eqb_spec ((x - pool_buf p) mod pool_chunk_size p) 0); [|done]. exfalso. apply Hbad. lia.
Qed.

(** The pool is a stack: the chunk freed last is the one handed out next, as
    zeroed memory, and the pool is then as it was before the free. *)
Theorem pool_free_alloc_roundtrip p m F U1 x U2 :
  pool_rep p m F (U1 ++ x :: U2) ->
  exists p1 m1 m2, pool_free p x m = Ok (p1, m1) /\ pool_alloc p1 m1 = Ok ((x, p), m2)
    /\ pool_rep p m2 F (x :: U1 ++ U2)
    /\ forall y, x <= y < x + pool_chunk_size p -> byte_at m2 y = 0.
Proof.
  intros Hr. destruct (pool_free_ok _ _ _ _ _ _ Hr) as (m1 & He & Hr1 & _).
  destruct (pool_alloc_ok _ _ _ _ Hr1) as (p2 & m2 & He2 & Hr2 & Hs & _ & Hz).
  assert (p2 = p) as ->; [|by eauto 10].
  pose proof (pr_chain _ _ _ _ Hr) as Hc. pose proof (pr_chain _ _ _ _ Hr2) as Hc2.
  rewrite Hs. destruct p as [b l c h]. cbn in *. unfold pool_set_head; cbn. f_equal.
  destruct F; cbn in *; [congruence|]. destruct Hc, Hc2. congruence.
Qed.
End Inv.

(** A pool of 40-byte chunks on the board. *)
Definition pool_mem : mem := Mem [(4096, 4096)] ∅.

Lemma pool_mem_args : pool_args_ok (A := ARMv7) pool_mem 4097 200 36 8.
Proof. split; [exists 3; by vm_compute|]. by vm_compute. Qed.

Lemma pool_client_safe_witness :
  exists p U m', (let! p := pool_init (A := ARMv7) 4097 200 36 8 in
                  pool_run (A := ARMv7) (p, []) [PAlloc; PAlloc; PFree 1; PAlloc; PAlloc; PAlloc; PAlloc])
                 pool_mem = Ok ((p, U), m') /\ NoDup U.
Proof.
  destruct (pool_client_safe (A := ARMv7) pool_mem 4097 200 36 8
    [PAlloc; PAlloc; PFree 1; PAlloc; PAlloc; PAlloc; PAlloc] pool_mem_args)
    as (p & U & m' & He & HN & _). exists p, U, m'. split; [exact He|exact HN].
Defined.

Lemma pool_free_rejects_witness :
  exists p m, pool_ok (A := ARMv7) p m /\ pool_free (A := ARMv7) p 4105 m = Trap TAssert.
Proof.
  destruct (pool_init_ok (A := ARMv7) _ _ _ _ _ pool_mem_args) as (p & m & _ & Hr & Hb & Hc & Hl & _).
  exists p, m. split; [exact (pr_ok _ _ _ _ Hr)|].
  apply (pool_free_rejects (A := ARMv7) p m 4105 (pr_ok _ _ _ _ Hr)).
  - by vm_compute.
  - lia.
  - rewrite Hb, Hc, Hl. intros [_ H]. by vm_compute in H.
Defined.

Lemma pool_free_alloc_roundtrip_witness :
  exists p m U x p1 m1 m2, pool_rep (A := ARMv7) p m (rev (chunks p 3)) (x :: U)
    /\ pool_free (A := ARMv7) p x m = Ok (p1, m1) /\ pool_alloc (A := ARMv7) p1 m1 = Ok ((x, p), m2).
Proof.
  destruct (pool_init_ok (A := ARMv7) _ _ _ _ _ pool_mem_args) as (p0 & m0 & _ & Hr0 & Hb & Hc & Hl & _).
  assert (Hall : rev (all_chunks p0) = chunk p0 3 :: rev (chunks p0 3)).
  { unfold all_chunks, chunk_count. rewrite Hc, Hl. reflexivity. }
  rewrite Hall in Hr0. destruct (pool_alloc_ok (A := ARMv7) _ _ _ _ Hr0) as (p & m & _ & Hr & Hs & _).
  assert (Hch : chunks p 3 = chunks p0 3) by (rewrite Hs; reflexivity). rewrite <- Hch in Hr.
  destruct (pool_free_alloc_roundtrip (A := ARMv7) p m _ [] _ [] Hr) as (p1 & m1 & m2 & H1 & H2 & _).
  exists p, m, [], (chunk p0 3), p1, m1, m2. split; [exact Hr|]. split; [exact H1|exact H2].
Defined.
