(* ===== verification/Arena.v ===== *)
(** * The arena allocator (lib/allocators.c)

    Memory is handed out by moving an offset forward; only everything at once,
    or everything since a savepoint, can be given back, and the block handed
    out last can be resized in place. *)
From S2P Require Export Align.

Record Arena := mkArena {
  ar_buf : Z;
  ar_buf_len : Z;
  ar_prev_offset : Z;
  ar_curr_offset : Z
}.

Section Code.
Context {A : abi}.

Definition DEFAULT_ALIGNMENT : Z := 8.

Definition arena_init (backing_buffer backing_buffer_length : Z) : Arena :=
  mkArena backing_buffer backing_buffer_length 0 0.

Definition arena_alloc_align (a : Arena) (size align : Z) : M mem (Z * Arena) :=
  let curr_ptr := wptr (ar_buf a + ar_curr_offset a) in
  let! offset := align_forward_uintptr curr_ptr align in
  let offset := wptr (offset - ar_buf a) in
  if wptr (offset + size) <=? ar_buf_len a then
    let ptr := wptr (ar_buf a + offset) in
    let a := mkArena (ar_buf a) (ar_buf_len a) offset (wptr (offset + size)) in
    do! memset ptr 0 size in
    mret_ (ptr, a)
  else mret_ (0, a).

Definition arena_alloc (a : Arena) (size : Z) : M mem (Z * Arena) :=
  arena_alloc_align a size DEFAULT_ALIGNMENT.

Definition arena_free (a : Arena) (ptr : Z) : Arena := a.

(** The block handed out last, resized where it is. *)
Definition arena_resize_last (a : Arena) (old_memory old_size new_size : Z) : M mem (Z * Arena) :=
  if ar_buf_len a <? wptr (ar_prev_offset a + new_size) then mret_ (0, a) else
  let a := mkArena (ar_buf a) (ar_buf_len a) (ar_prev_offset a)
                   (wptr (ar_prev_offset a + new_size)) in
  do! (if old_size <? new_size
       then memset (wptr (ar_buf a + wptr (ar_prev_offset a + old_size))) 0
                   (wptr (new_size - old_size))
       else mret_ tt) in
  mret_ (old_memory, a).

(** Any other block, copied to the end. *)
Definition arena_resize_move (a : Arena) (old_memory old_size new_size align : Z)
  : M mem (Z * Arena) :=
  let! '(new_memory, a) := arena_alloc_align a new_size align in
  let copy_size := if old_size <? new_size then old_size else new_size in
  do! memmove new_memory old_memory copy_size in
  mret_ (new_memory, a).

Definition arena_resize_align (a : Arena) (old_memory old_size new_size align : Z)
  : M mem (Z * Arena) :=
  let old_mem := old_memory in
  do! assert_ (is_power_of_two align) in
  if (old_mem =? 0) || (old_size =? 0) then arena_alloc_align a new_size align
  else if (ar_buf a <=? old_mem) && (old_mem <? wptr (ar_buf a + ar_buf_len a)) then
    if wptr (ar_buf a + ar_prev_offset a) =? old_mem
    then arena_resize_last a old_memory old_size new_size
    else arena_resize_move a old_memory old_size new_size align
  else trap_ TAssert.

Definition arena_resize (a : Arena) (old_memory old_size new_size : Z) : M mem (Z * Arena) :=
  arena_resize_align a old_memory old_size new_size DEFAULT_ALIGNMENT.

Definition arena_free_all (a : Arena) : Arena := mkArena (ar_buf a) (ar_buf_len a) 0 0.

(** The savepoint; its [arena] field is the arena it is ended on. *)
Record Temp_Arena_Memory := mkTemp { ta_prev_offset : Z; ta_curr_offset : Z }.

Definition temp_arena_memory_begin (a : Arena) : Temp_Arena_Memory :=
  mkTemp (ar_prev_offset a) (ar_curr_offset a).

Definition temp_arena_memory_end (a : Arena) (temp : Temp_Arena_Memory) : Arena :=
  mkArena (ar_buf a) (ar_buf_len a) (ta_prev_offset temp) (ta_curr_offset temp).
End Code.

(** ** The invariant *)
Section Inv.
Context {A : abi}.

Record arena_ok (a : Arena) (m : mem) : Prop := {
  ao_buf : 0 < ar_buf a;
  ao_end : ar_buf a + ar_buf_len a < 2 ^ ptr_bits;
  ao_valid : valid m (ar_buf a) (ar_buf_len a) = true;
  ao_offsets : 0 <= ar_prev_offset a <= ar_curr_offset a /\ ar_curr_offset a <= ar_buf_len a
}.

(** A request that cannot wrap around. *)
Definition arena_request (a : Arena) (size al : Z) : Prop :=
  pow2_ptr al /\ 0 <= size /\ ar_buf a + ar_buf_len a + size + al <= 2 ^ ptr_bits.

(** Where the next block of alignment [al] starts, relative to the buffer. *)
Definition next_offset (a : Arena) (al : Z) : Z :=
  align_up (ar_buf a + ar_curr_offset a) al - ar_buf a.

Lemma next_offset_bounds a m al :
  arena_ok a m -> pow2_ptr al -> ar_curr_offset a <= next_offset a al < ar_curr_offset a + al.
Proof.
  intros _ Hal. pose proof (pow2_ptr_range _ Hal) as [Ha _]. unfold next_offset.
  pose proof (align_up_bounds (ar_buf a + ar_curr_offset a) al Ha). lia.
Qed.

(** What a successful [arena_alloc_align] does. *)
Definition arena_allocated (a : Arena) (m : mem) (size al p : Z) (a' : Arena) (m' : mem) : Prop :=
  p = ar_buf a + next_offset a al
  /\ a' = mkArena (ar_buf a) (ar_buf_len a) (next_offset a al) (next_offset a al + size)
  /\ arena_ok a' m' /\ same_outside p (p + size) m m'
  /\ forall x, p <= x < p + size -> byte_at m' x = 0.

Lemma arena_alloc_cases a m size al :
  arena_ok a m -> arena_request a size al ->
  (ar_buf_len a < next_offset a al + size /\ arena_alloc_align a size al m = Ok ((0, a), m))
  \/ (next_offset a al + size <= ar_buf_len a /\ exists p a' m',
      arena_alloc_align a size al m = Ok ((p, a'), m') /\ arena_allocated a m size al p a' m').
Proof.
  intros Hok (Hal & Hs & Hov). pose proof (next_offset_bounds _ _ _ Hok Hal) as Hn.
  pose proof Hok as [Hb He Hv Hoff].
  unfold arena_alloc_align. rewrite (wptr_small (_ + ar_curr_offset a)) by lia.
  rewrite (mbind_Ok _ _ _ _ _
    (align_forward_uintptr_eq (ar_buf a + ar_curr_offset a) al m Hal ltac:(unfold is_u; lia))).
  cbv zeta. replace (align_up (ar_buf a + ar_curr_offset a) al) with (ar_buf a + next_offset a al)
    by (unfold next_offset; lia).
  rewrite (wptr_small (ar_buf a + next_offset a al)) by lia.
  replace (ar_buf a + next_offset a al - ar_buf a) with (next_offset a al) by lia.
  rewrite (wptr_small (next_offset a al)) by lia. rewrite (wptr_small (_ + size)) by lia.
  rewrite (wptr_small (ar_buf a + _)) by lia.
  destruct (Z.leb_spec (next_offset a al + size) (ar_buf_len a)) as [Hle|Hgt]; [right|left; done].
  split; [done|].
  destruct (memset_Ok m (ar_buf a + next_offset a al) 0 size Hs) as (m' & Hm & HO & Hz).
  { eapply valid_sub; [done|lia|lia]. }
  rewrite (mbind_Ok _ _ _ _ _ Hm). do 3 eexists. split; [done|]. split_and!; try done.
  split; cbn; try done; [|lia]. by erewrite same_outside_valid by done.
Qed.

(** ** Resizing *)

(** [q] holds what was at [old], as far as both sizes go, and zeroes after it. *)
Definition resized (m : mem) (old old_size new_size q : Z) (m' : mem) : Prop :=
  (forall i, 0 <= i < Z.min old_size new_size -> byte_at m' (q + i) = byte_at m (old + i))
  /\ (forall i, old_size <= i < new_size -> byte_at m' (q + i) = 0).

Lemma resize_last_ok a m old_size new_size :
  arena_ok a m -> 0 <= old_size -> 0 <= new_size ->
  ar_buf a + ar_buf_len a + new_size <= 2 ^ ptr_bits ->
  ar_prev_offset a + old_size <= ar_curr_offset a ->
  ar_prev_offset a + new_size <= ar_buf_len a ->
  exists a' m', arena_resize_last a (ar_buf a + ar_prev_offset a) old_size new_size m
                = Ok ((ar_buf a + ar_prev_offset a, a'), m')
    /\ arena_ok a' m' /\ resized m (ar_buf a + ar_prev_offset a) old_size new_size
                                 (ar_buf a + ar_prev_offset a) m'.
Proof.
  intros [Hb He Hv Hoff] Ho Hn Hov Hold Hfit. unfold arena_resize_last.
  rewrite (wptr_small (_ + new_size)) by lia.
  replace (ar_buf_len a <? ar_prev_offset a + new_size) with false by lia. cbv zeta. cbn [ar_buf ar_prev_offset].
  destruct (Z.ltb_spec old_size new_size) as [Hlt|Hge].
  - rewrite (wptr_small (ar_prev_offset a + old_size)), (wptr_small (ar_buf a + _)),
      (wptr_small (new_size - old_size)) by lia.
    destruct (memset_Ok m (ar_buf a + (ar_prev_offset a + old_size)) 0 (new_size - old_size))
      as (m' & Hm & HO & Hz); [lia|eapply valid_sub; [done|lia|lia]|].
    rewrite (mbind_Ok _ _ _ _ _ Hm). do 2 eexists. split; [done|]. split.
    + split; cbn; try done; [|lia]. by erewrite same_outside_valid by done.
    + split; intros i Hi; [apply HO; lia|apply Hz; lia].
  - do 2 eexists. split; [done|]. split; [split; cbn; try done; lia|].
    split; intros i Hi; [done|lia].
Qed.

Lemma resize_move_ok a m old old_size new_size al :
  arena_ok a m -> arena_request a new_size al -> 0 < old_size ->
  ar_buf a <= old -> old + old_size <= ar_buf a + ar_curr_offset a ->
  next_offset a al + new_size <= ar_buf_len a ->
  exists q a' m', arena_resize_move a old old_size new_size al m = Ok ((q, a'), m')
    /\ arena_ok a' m' /\ resized m old old_size new_size q m'
    /\ q = ar_buf a + next_offset a al.
Proof.
  intros Hok Hreq Ho Hlo Hhi Hfit. unfold arena_resize_move.
  pose proof Hreq as (Hal & Hns & _). pose proof (next_offset_bounds _ _ _ Hok Hal) as Hn.
  destruct (arena_alloc_cases _ _ _ _ Hok Hreq) as [[? _]|[_ (q & a' & m1 & He & Hq & Ha' & Hok1 & HO & Hz)]];
    [lia|]. rewrite (mbind_Ok _ _ _ _ _ He). cbv beta iota zeta.
  set (cs := if old_size <? new_size then old_size else new_size).
  assert (Hcs : cs = Z.min old_size new_size) by (unfold cs; break_if; lia).
  assert (Hv1 : valid m1 (ar_buf a) (ar_buf_len a) = true).
  { erewrite same_outside_valid by done. apply Hok. }
  destruct Hok as [Hb Hend Hv Hoff].
  unfold memmove, read_data. destruct (Z.eqb_spec cs 0) as [E|E].
  - unfold mbind_, write_data. cbn. do 3 eexists. split; [done|].
    split_and!; try done. split; intros i Hi; [lia|apply Hz; lia].
  - unfold mbind_, write_data. rewrite (valid_sub _ _ _ old cs Hv1) by lia.
    rewrite length_read_bytes, Z2Nat.id by lia. rewrite (proj2 (Z.eqb_neq _ _)) by lia.
    rewrite (valid_sub _ _ _ q cs Hv1) by lia. do 3 eexists. split; [done|].
    pose proof (write_bytes_outside m1 q (read_bytes m1 old (Z.to_nat cs))) as HW.
    rewrite length_read_bytes, Z2Nat.id in HW by lia. split_and!; [| |done].
    + destruct Hok1 as [? ? ? ?]. by split.
    + split; intros i Hi.
      * rewrite byte_at_write, length_read_bytes, Z2Nat.id, decide_True by lia.
        rewrite read_bytes_lookup by lia. cbn.
        replace (old + Z.of_nat (Z.to_nat (q + i - q))) with (old + i) by lia. apply HO. lia.
      * rewrite (proj2 HW) by lia. apply Hz. lia.
Qed.

(** ** Savepoints *)
Fixpoint arena_allocs (a : Arena) (rs : list (Z * Z)) : M mem Arena :=
  match rs with
  | [] => mret_ a
  | (size, al) :: rs => let! '(_, a) := arena_alloc_align a size al in arena_allocs a rs
  end.

Lemma arena_allocs_ok a m rs :
  arena_ok a m -> Forall (fun r => arena_request a r.1 r.2) rs ->
  exists a' m', arena_allocs a rs m = Ok (a', m') /\ arena_ok a' m'
    /\ ar_buf a' = ar_buf a /\ ar_buf_len a' = ar_buf_len a /\ ar_curr_offset a <= ar_curr_offset a'
    /\ same_outside (ar_buf a + ar_curr_offset a) (ar_buf a + ar_buf_len a) m m'.
Proof.
  revert a m. induction rs as [|[size al] rs IH]; intros a m Hok Hrs; cbn.
  { exists a, m. by split_and!. }
  apply Forall_cons in Hrs as [Hr Hrs]. cbn in Hr. pose proof Hr as (Hal & Hsz & _).
  pose proof (next_offset_bounds _ _ _ Hok Hal) as Hn.
  destruct (arena_alloc_cases _ _ _ _ Hok Hr) as [[_ He]|[Hfit (q & a' & m' & He & Hq & Ha' & Hok' & HO & _)]];
    rewrite (mbind_Ok _ _ _ _ _ He); [by apply IH|].
  assert (Hb : ar_buf a' = ar_buf a /\ ar_buf_len a' = ar_buf_len a
               /\ ar_curr_offset a' = next_offset a al + size) by (by rewrite Ha').
  destruct Hb as (Hb1 & Hb2 & Hb3).
  destruct (IH a' m' Hok') as (a2 & m2 & He2 & Hok2 & H1 & H2 & H3 & HO2).
  { eapply Forall_impl; [done|]. intros r. unfold arena_request. by rewrite Hb1, Hb2. }
  exists a2, m2. split_and!; try done; [congruence|congruence|lia|].
  rewrite Hb1, Hb2 in HO2.
  eapply same_outside_trans; eapply same_outside_weaken; try done; try lia.
Qed.

(** ** Properties *)

(** C40: [arena_alloc_align] hands out fresh memory: for a request that does not
    wrap ([arena_request]; [arena_unguarded] is one that does), it returns NULL and changes nothing exactly when the aligned block
    does not fit behind the current offset, and otherwise an aligned, zeroed
    block that lies inside the buffer and behind everything handed out before;
    no other byte changes. *)
Theorem arena_alloc_fresh a m size al :
  arena_ok a m -> arena_request a size al ->
  exists p a' m', arena_alloc_align a size al m = Ok ((p, a'), m') /\ arena_ok a' m'
    /\ (p = 0 <-> ar_buf_len a < next_offset a al + size) /\ (p = 0 -> a' = a /\ m' = m)
    /\ (p <> 0 -> p mod al = 0 /\ ar_buf a + ar_curr_offset a <= p
                  /\ p + size = ar_buf a' + ar_curr_offset a'
                  /\ p + size <= ar_buf a + ar_buf_len a
                  /\ same_outside p (p + size) m m'
                  /\ forall x, p <= x < p + size -> byte_at m' x = 0).
Proof.
  intros Hok Hreq. pose proof Hreq as (Hal & Hs & _).
  pose proof (next_offset_bounds _ _ _ Hok Hal) as Hn. pose proof (ao_buf _ _ Hok) as Hb.
  pose proof (ao_offsets _ _ Hok) as Ho.
  destruct (arena_alloc_cases _ _ _ _ Hok Hreq) as [[Hgt He]|[Hfit (p & a' & m' & He & Hp & Ha' & Hok' & HO & Hz)]].
  - exists 0, a, m. split_and!; try done.
  - exists p, a', m'. split_and!; try done; try lia. intros _.
    split_and!; try done; try lia.
    + rewrite Hp. unfold next_offset.
      replace (ar_buf a + (align_up (ar_buf a + ar_curr_offset a) al - ar_buf a))
        with (align_up (ar_buf a + ar_curr_offset a) al) by lia.
      apply align_up_mod. by destruct (pow2_ptr_range _ Hal).
    + rewrite Ha', Hp. cbn. lia.
Qed.

(** Resizing keeps the contents. For a block held by the client, whether it
    is the last one (resized in place) or not (copied to fresh memory, if that
    fits), [arena_resize_align] returns a block with the old contents as far as
    both sizes go and zeroes in what was added. *)
Theorem arena_resize_keeps a m old old_size new_size al :
  arena_ok a m -> arena_request a new_size al -> 0 < old_size ->
  ar_buf a <= old -> old + old_size <= ar_buf a + ar_curr_offset a ->
  (old = ar_buf a + ar_prev_offset a /\ ar_prev_offset a + new_size <= ar_buf_len a)
  \/ (old <> ar_buf a + ar_prev_offset a /\ next_offset a al + new_size <= ar_buf_len a) ->
  exists q a' m', arena_resize_align a old old_size new_size al m = Ok ((q, a'), m')
    /\ arena_ok a' m' /\ resized m old old_size new_size q m'
    /\ q = if old =? ar_buf a + ar_prev_offset a then old else ar_buf a + next_offset a al.
Proof.
  intros Hok Hreq Ho Hlo Hhi Hcase. pose proof Hreq as (Hal & Hns & Hov).
  pose proof Hok as [Hb Hend Hv Hoff]. pose proof (pow2_ptr_range _ Hal).
  unfold arena_resize_align. rewrite assert_true by (by apply is_power_of_two_true).
  rewrite 2 (proj2 (Z.eqb_neq _ _)) by lia. cbn [orb].
  rewrite (wptr_small (ar_buf a + ar_buf_len a)) by lia.
  replace ((ar_buf a <=? old) && (old <? ar_buf a + ar_buf_len a)) with true by lia.
  rewrite wptr_small by lia. rewrite Z.eqb_sym.
  destruct (Z.eqb_spec old (ar_buf a + ar_prev_offset a)) as [->|Hne].
  - destruct Hcase as [[_ Hfit]|[? _]]; [|done].
    destruct (resize_last_ok a m old_size new_size Hok) as (a' & m' & He & Hok' & Hr); [lia..|].
    by do 3 eexists.
  - destruct Hcase as [[? _]|[_ Hfit]]; [done|].
    destruct (resize_move_ok _ _ _ _ _ _ Hok Hreq Ho Hlo Hhi Hfit) as (q & a' & m' & He & Hok' & Hr & Hq).
    exists q, a', m'. by split_and!.
Qed.

(** A savepoint is a round trip: ending it after any number of allocations
    restores the arena exactly, and nothing below the savepoint was touched. *)
Theorem arena_temp_roundtrip a m rs :
  arena_ok a m -> Forall (fun r => arena_request a r.1 r.2) rs ->
  exists a' m', arena_allocs a rs m = Ok (a', m')
    /\ temp_arena_memory_end a' (temp_arena_memory_begin a) = a
    /\ same_inside (ar_buf a) (ar_buf a + ar_curr_offset a) m m'.
Proof.
  intros Hok Hrs. destruct (arena_allocs_ok _ _ _ Hok Hrs) as (a' & m' & He & _ & Hb & Hl & _ & HO).
  exists a', m'. split_and!; [done| |].
  - unfold temp_arena_memory_end, temp_arena_memory_begin. cbn. rewrite Hb, Hl. by destruct a.
  - intros x Hx. apply HO. lia.
Qed.
End Inv.

(** An arena of 1 KiB on the board, with 100 bytes handed out in two blocks. *)
Definition arena_mem : mem := Mem [(4096, 1024)] ∅.
Definition arena_used : Arena := mkArena 4096 1024 40 100.

Lemma arena_used_ok : arena_ok (A := ARMv7) arena_used arena_mem.
Proof. split; by vm_compute. Qed.

Lemma arena_used_request : arena_request (A := ARMv7) arena_used 64 16.
Proof. split; [exists 4; by vm_compute|by vm_compute]. Qed.

Lemma arena_alloc_fresh_witness :
  exists p a' m', arena_alloc_align (A := ARMv7) arena_used 64 16 arena_mem = Ok ((p, a'), m')
    /\ arena_ok (A := ARMv7) a' m'.
Proof.
  destruct (arena_alloc_fresh (A := ARMv7) arena_used arena_mem 64 16 arena_used_ok arena_used_request)
    as (p & a' & m' & He & Hok & _). exists p, a', m'. split; [exact He|exact Hok].
Defined.

Lemma arena_resize_keeps_witness :
  exists q a' m', arena_resize_align (A := ARMv7) arena_used 4096 40 64 16 arena_mem = Ok ((q, a'), m')
    /\ resized arena_mem 4096 40 64 q m'.
Proof.
  destruct (arena_resize_keeps (A := ARMv7) arena_used arena_mem 4096 40 64 16 arena_used_ok
    arena_used_request ltac:(lia) ltac:(by vm_compute) ltac:(by vm_compute)) as (q & a' & m' & He & _ & Hr & _).
  - right. by vm_compute.
  - exists q, a', m'. split; [exact He|exact Hr].
Defined.

Lemma arena_temp_roundtrip_witness :
  exists a' m', arena_allocs (A := ARMv7) arena_used [(64, 16)] arena_mem = Ok (a', m')
    /\ temp_arena_memory_end a' (temp_arena_memory_begin arena_used) = arena_used.
Proof.
  destruct (arena_temp_roundtrip (A := ARMv7) arena_used arena_mem [(64, 16)] arena_used_ok
    ltac:(constructor; [exact arena_used_request|constructor])) as (a' & m' & He & Ha & _).
  exists a', m'. split; [exact He|exact Ha].
Defined.

(** What the arena does not guard against. A request whose end wraps around
    passes the bounds check and the zeroing runs out of the buffer; and
    resizing a block that must move when the arena is full copies it to NULL. *)
Theorem arena_unguarded :
  arena_alloc_align (A := ARMv7) arena_used (2 ^ 32 - 64) 8 arena_mem = Trap TSegv
  /\ arena_resize_align (A := ARMv7) arena_used 4096 40 2000 8 arena_mem = Trap TSegv.
Proof. split; reflexivity. Qed.
