(* ===== verification/AllocDemos.v ===== *)
(** * The example programs of lib/allocators.c

    The two [main] functions that come with the pool and the arena, compiled
    out in the library, as clients of the two allocators. [printf] only reads;
    it is modelled by the bytes it reads. *)
From S2P Require Import Pool Arena.

Section Demos.
Context {A : abi}.

(** The pool's [main]: the pool it leaves behind. *)
Definition pool_main (backing_buffer : Z) : M mem Pool :=
  let! p := pool_init backing_buffer 1024 64 DEFAULT_ALIGNMENT in
  let! '(a, p) := pool_alloc p in
  let! '(b, p) := pool_alloc p in
  let! '(c, p) := pool_alloc p in
  let! '(d, p) := pool_alloc p in
  let! '(e, p) := pool_alloc p in
  let! '(f, p) := pool_alloc p in
  let! p := pool_free p f in
  let! p := pool_free p c in
  let! p := pool_free p b in
  let! p := pool_free p d in
  let! '(d, p) := pool_alloc p in
  let! p := pool_free p a in
  let! '(a, p) := pool_alloc p in
  let! p := pool_free p e in
  let! p := pool_free p a in
  pool_free p d.

(** "Hellope", " world!" *)
Definition hellope : list Z := [72; 101; 108; 108; 111; 112; 101].
Definition world : list Z := [32; 119; 111; 114; 108; 100; 33].

(** printf("%s", str): the bytes up to the 0. *)
Fixpoint puts_ (fuel : nat) (str : Z) : M mem (list Z) :=
  match fuel with
  | O => trap_ TFuel
  | S fuel =>
      let! c := read_data str 1 in
      if bool_decide (c = [0]) then mret_ [] else
      let! rest := puts_ fuel (wptr (str + 1)) in
      mret_ (c ++ rest)
  end.

(** One round of the arena's [main]: what it prints of its strings. *)
Definition arena_round (a : Arena) : M mem (list (list Z) * Arena) :=
  let a := arena_free_all a in
  let! '(x, a) := arena_alloc a 4 in
  let! '(f, a) := arena_alloc a 4 in
  let! '(str, a) := arena_alloc a 10 in
  do! write_data x [123; 0; 0; 0] in
  do! write_data f [0; 192; 118; 68] in
  do! write_data str hellope in
  let! out1 := puts_ 256 str in
  let! '(str, a) := arena_resize a str 10 16 in
  do! write_data (wptr (str + 7)) world in
  let! out2 := puts_ 256 str in
  mret_ ([out1; out2], a).

Definition arena_main (backing_buffer : Z) : M mem (list (list Z) * Arena) :=
  let! '(out, a) := for_ 10 (fun _ '(out, a) =>
    let! '(o, a) := arena_round a in
    mret_ (out ++ o, a)) ([], arena_init backing_buffer 256) in
  mret_ (out, arena_free_all a).
End Demos.

(** A stack with a backing buffer of 1024 bytes at any of 64 addresses. *)
Definition stack_mem (buf size : Z) : mem := Mem [(buf, size)] ∅.

Definition pool_demo_ok (A : abi) (buf : Z) : bool :=
  match pool_main buf (stack_mem buf 1024) with
  | Ok (p, m) =>
      (* Every chunk can be handed out again, and then none is left. *)
      match for_ (chunk_count p) (fun _ p => let! '(ptr, p) := pool_alloc p in
                                             do! assert_ (negb (ptr =? 0)) in mret_ p) p m with
      | Ok (p, _) => pool_head p =? 0
      | Trap _ => false
      end
  | Trap _ => false
  end.

(** Wherever the stack puts the buffer, the pool's example program ends, and
    every chunk is free again. *)
Example pool_main_runs A :
  forallb (pool_demo_ok A) (Z.add 4096 <$> (Z.of_nat <$> seq 0 16)) = true.
Proof. destruct A; vm_compute; reflexivity. Qed.

Definition arena_demo_ok (A : abi) (buf : Z) : bool :=
  match arena_main buf (stack_mem buf 256) with
  | Ok ((out, a), _) => bool_decide (out = concat (replicate 10 [hellope; hellope ++ world]))
  | Trap _ => false
  end.

(** The arena's example program prints "Hellope" and "Hellope world!" ten
    times: resizing the string where it is keeps its bytes, and both the rest
    of the block and its new end are 0, which ends the strings. *)
Example arena_main_prints A :
  forallb (arena_demo_ok A) (Z.add 4096 <$> (Z.of_nat <$> seq 0 16)) = true.
Proof. destruct A; vm_compute; reflexivity. Qed.
