(* ===== verification/FreeList.v ===== *)
(** * The free-list allocator (lib/allocators.c), as it is written

    Nodes and allocation headers live in the managed memory itself, so every
    function works on [mem]; the [Free_List] struct is passed and returned. A
    pointer is a [Z], NULL is 0, and pointer arithmetic wraps. The abstract
    view is in FreeListSpec, the proofs are in the FreeList files after it. *)
From S2P Require Export Align.

Variant Placement_Policy := Placement_Policy_Find_First | Placement_Policy_Find_Best.

Record Free_List := mkFL {
  fl_data : Z;
  fl_size : Z;
  fl_used : Z;
  fl_head : Z;
  fl_policy : Placement_Policy
}.

Definition fl_set_head (fl : Free_List) (h : Z) : Free_List :=
  mkFL (fl_data fl) (fl_size fl) (fl_used fl) h (fl_policy fl).

Definition fl_set_used (fl : Free_List) (u : Z) : Free_List :=
  mkFL (fl_data fl) (fl_size fl) u (fl_head fl) (fl_policy fl).

Section Code.
Context {A : abi}.

(** struct Free_List_Node: next, block_size. *)
Definition sizeof_Free_List_Node : Z := 2 * ptr_bytes.
Definition node_next (n : Z) : Z := n.
Definition node_block_size (n : Z) : Z := n + ptr_bytes.

(** struct Free_List_Allocation_Header: orig_size, block_size, padding. *)
Definition sizeof_Header : Z := 3 * ptr_bytes.
Definition hdr_orig_size (h : Z) : Z := h.
Definition hdr_block_size (h : Z) : Z := h + ptr_bytes.
Definition hdr_padding (h : Z) : Z := h + 2 * ptr_bytes.

Definition free_list_free_all (fl : Free_List) : M mem Free_List :=
  let first_node := fl_data fl in
  do! store (node_block_size first_node) (fl_size fl) in
  do! store (node_next first_node) 0 in
  mret_ (mkFL (fl_data fl) (fl_size fl) 0 first_node (fl_policy fl)).

Definition free_list_init (fl : Free_List) (data size : Z) : M mem Free_List :=
  let! start := align_forward_uintptr data sizeof_max_align_t in
  let adjustment := wptr (start - data) in
  do! assert_ (adjustment <? wptr (size + sizeof_Free_List_Node)) in
  free_list_free_all
    (mkFL start (wptr (size - adjustment)) (fl_used fl) (fl_head fl) (fl_policy fl)).

(** One turn of the search of [free_list_find_first]. The loop state is
    (node, prev_node, padding). *)
Definition find_first_step (size alignment : Z) (l : Z * Z * Z)
  : M mem ((Z * Z * Z) + (Z * Z * Z)) :=
  let '(node, prev_node, padding) := l in
  if node =? 0 then mret_ (inr (node, prev_node, padding)) else
  let! padding := calc_padding_with_header node alignment sizeof_Header in
  let required_space := wptr (size + padding) in
  let! block_size := load (node_block_size node) in
  if required_space <=? block_size then mret_ (inr (node, prev_node, padding)) else
  let! next := load (node_next node) in
  mret_ (inl (next, node, padding)).

Definition free_list_find_first (fl : Free_List) (size alignment : Z) : M mem (Z * Z * Z) :=
  loop_ (find_first_step size alignment) (Z.to_nat ptr_bits) (fl_head fl, 0, 0).

(** The loop state of [free_list_find_best]. *)
Record best_state := mkBest {
  b_node : Z;
  b_prev : Z;
  b_best_node : Z;
  b_best_prev : Z;
  b_best_padding : Z;
  b_smallest_diff : Z
}.

Definition find_best_step (size alignment : Z) (l : best_state)
  : M mem (best_state + (Z * Z * Z)) :=
  let node := b_node l in
  if node =? 0 then mret_ (inr (b_best_node l, b_best_prev l, b_best_padding l)) else
  let! padding := calc_padding_with_header node alignment sizeof_Header in
  let required_space := wptr (size + padding) in
  let! block_size := load (node_block_size node) in
  let better := (required_space <=? block_size)
                && (wptr (block_size - required_space) <? b_smallest_diff l) in
  let! next := load (node_next node) in
  mret_ (inl (if better
              then mkBest next node node (b_prev l) padding (wptr (block_size - required_space))
              else mkBest next node (b_best_node l) (b_best_prev l) (b_best_padding l)
                          (b_smallest_diff l))).

Definition free_list_find_best (fl : Free_List) (size alignment : Z) : M mem (Z * Z * Z) :=
  loop_ (find_best_step size alignment) (Z.to_nat ptr_bits)
        (mkBest (fl_head fl) 0 0 0 0 SIZE_MAX).

(** Both take the list head by pointer; here the new head is returned. *)
Definition free_list_node_insert (head prev_node new_node : Z) : M mem Z :=
  if prev_node =? 0 then
    do! store (node_next new_node) head in
    mret_ new_node
  else
    let! prev_next := load (node_next prev_node) in
    if prev_next =? 0 then
      do! store (node_next prev_node) new_node in
      do! store (node_next new_node) 0 in
      mret_ head
    else
      let! prev_next := load (node_next prev_node) in
      do! store (node_next new_node) prev_next in
      do! store (node_next prev_node) new_node in
      mret_ head.

Definition free_list_node_remove (head prev_node del_node : Z) : M mem Z :=
  if prev_node =? 0 then load (node_next del_node)
  else
    let! next := load (node_next del_node) in
    do! store (node_next prev_node) next in
    mret_ head.

(** Cut what an allocation does not need off the block [node]: the space the
    allocation takes and the new list head. *)
Definition free_list_split (head node required_space block_size : Z) : M mem (Z * Z) :=
  let remaining := wptr (block_size - required_space) in
  if sizeof_Free_List_Node + sizeof_Free_List_Node <=? remaining then
    let new_node := wptr (node + required_space) in
    do! store (node_block_size new_node) remaining in
    let! head := free_list_node_insert head node new_node in
    mret_ (required_space, head)
  else
    let! block_size := load (node_block_size node) in
    mret_ (block_size, head).

Definition free_list_alloc (fl : Free_List) (size alignment : Z) : M mem (Z * Free_List) :=
  let orig_size := size in
  let size := if size <? sizeof_Free_List_Node then sizeof_Free_List_Node else size in
  let alignment := if alignment <? sizeof_max_align_t then sizeof_max_align_t else alignment in
  let! size := align_forward_size size alignment in
  let! '(node, prev_node, padding) :=
     match fl_policy fl with
     | Placement_Policy_Find_Best => free_list_find_best fl size alignment
     | Placement_Policy_Find_First => free_list_find_first fl size alignment
     end in
  if node =? 0 then mret_ (0, fl) else
  let alignment_padding := wptr (padding - sizeof_Header) in
  let required_space := wptr (size + padding) in
  let! block_size := load (node_block_size node) in
  let! '(required_space, head) := free_list_split (fl_head fl) node required_space block_size in
  let! head := free_list_node_remove head prev_node node in
  let header_ptr := wptr (node + alignment_padding) in
  do! store (hdr_orig_size header_ptr) orig_size in
  do! store (hdr_block_size header_ptr) required_space in
  do! store (hdr_padding header_ptr) alignment_padding in
  mret_ (wptr (header_ptr + sizeof_Header),
         mkFL (fl_data fl) (fl_size fl) (wptr (fl_used fl + required_space)) head (fl_policy fl)).

(** The two halves of [free_list_coalescence]: with the next node, then with
    the previous one. Each returns the list head. *)
Definition coalesce_next (head free_node : Z) : M mem Z :=
  let! next := load (node_next free_node) in
  if next =? 0 then mret_ head else
  let! bs := load (node_block_size free_node) in
  if wptr (free_node + bs) =? next then
    let! nbs := load (node_block_size next) in
    do! store (node_block_size free_node) (wptr (bs + nbs)) in
    free_list_node_remove head free_node next
  else mret_ head.

Definition coalesce_prev (head prev_node free_node : Z) : M mem Z :=
  if prev_node =? 0 then mret_ head else
  let! pbs := load (node_block_size prev_node) in
  if wptr (prev_node + pbs) =? free_node then
    let! bs := load (node_block_size free_node) in
    do! store (node_block_size prev_node) (wptr (pbs + bs)) in
    free_list_node_remove head prev_node free_node
  else mret_ head.

Definition free_list_coalescence (fl : Free_List) (prev_node free_node : Z) : M mem Free_List :=
  let! head := coalesce_next (fl_head fl) free_node in
  let! head := coalesce_prev head prev_node free_node in
  mret_ (fl_set_head fl head).

(** One turn of the search for the place of [free_node]. The loop state is
    (node, prev_node); the loop ends with (node, prev_node, head). *)
Definition free_search_step (head free_node : Z) (l : Z * Z)
  : M mem ((Z * Z) + (Z * Z * Z)) :=
  let '(node, prev_node) := l in
  if node =? 0 then mret_ (inr (node, prev_node, head)) else
  if free_node <? node then
    let! head := free_list_node_insert head prev_node free_node in
    mret_ (inr (node, prev_node, head))
  else
    let! next := load (node_next node) in
    mret_ (inl (next, node)).

(** The search of [free_list_free] and the insertion it ends with, before the
    node it found or after the last one: (prev_node, new head). *)
Definition free_list_place (head free_node : Z) : M mem (Z * Z) :=
  let! '(node, prev_node, head) :=
     loop_ (free_search_step head free_node) (Z.to_nat ptr_bits) (head, 0) in
  let! head := if node =? 0 then free_list_node_insert head prev_node free_node
               else mret_ head in
  mret_ (prev_node, head).

Definition free_list_free (fl : Free_List) (ptr : Z) : M mem Free_List :=
  if ptr =? 0 then mret_ fl else
  let header := wptr (ptr - sizeof_Header) in
  let! padding := load (hdr_padding header) in
  let free_node := wptr (header - padding) in
  let! block_size := load (hdr_block_size header) in
  do! store (node_block_size free_node) block_size in
  do! store (node_next free_node) 0 in
  let! '(prev_node, head) := free_list_place (fl_head fl) free_node in
  let! block_size := load (node_block_size free_node) in
  let fl := fl_set_used (fl_set_head fl head) (wptr (fl_used fl - block_size)) in
  free_list_coalescence fl prev_node free_node.
End Code.
