(* ===== verification/FreeListSpec.v ===== *)
(** * The abstract free-list allocator

    The memory an allocator manages is a row of blocks, each free or in use,
    that tiles [[lo, hi)]. This file is the reference the C code is proved
    against: where the blocks are, what makes a row well formed, and what
    allocating and releasing do to a row. *)
From S2P Require Export FreeList.

(** A free block has a size; a block in use also has the size that was asked
    for and the padding before its header. *)
Variant block :=
| Free (size : Z)
| Used (size orig pad : Z).

#[export] Instance block_eq_dec : EqDecision block.
Proof. solve_decision. Defined.

Definition bsize (b : block) : Z := match b with Free s => s | Used s _ _ => s end.

Definition is_free (b : block) : bool := match b with Free _ => true | Used _ _ _ => false end.

Fixpoint total (B : list block) : Z :=
  match B with
  | [] => 0
  | b :: B => bsize b + total B
  end.

Fixpoint total_used (B : list block) : Z :=
  match B with
  | [] => 0
  | b :: B => (if is_free b then 0 else bsize b) + total_used B
  end.

(** The free blocks as (address, size), in address order. *)
Fixpoint free_nodes (lo : Z) (B : list block) : list (Z * Z) :=
  match B with
  | [] => []
  | Free s :: B => (lo, s) :: free_nodes (lo + s) B
  | Used s _ _ :: B => free_nodes (lo + s) B
  end.

(** The blocks in use as (address, size, orig_size, padding). *)
Fixpoint used_blocks (lo : Z) (B : list block) : list (Z * Z * Z * Z) :=
  match B with
  | [] => []
  | Free s :: B => used_blocks (lo + s) B
  | Used s o p :: B => (lo, s, o, p) :: used_blocks (lo + s) B
  end.

Section Wf.
Context {A : abi}.

Definition block_ok (lo : Z) (b : block) : Prop :=
  lo mod sizeof_max_align_t = 0 /\ sizeof_Free_List_Node <= bsize b /\
  match b with
  | Free _ => True
  | Used s o p =>
      0 <= o /\ 0 <= p /\ p + sizeof_Header + o <= s
      /\ p + sizeof_Header + sizeof_Free_List_Node <= s
      /\ (lo + p + sizeof_Header) mod sizeof_max_align_t = 0
  end.

Fixpoint blocks_ok (lo : Z) (B : list block) : Prop :=
  match B with
  | [] => True
  | b :: B => block_ok lo b /\ blocks_ok (lo + bsize b) B
  end.

Definition starts_free (B : list block) : bool :=
  match B with b :: _ => is_free b | [] => false end.

Definition ends_free (B : list block) : bool :=
  match last B with Some b => is_free b | None => false end.

(** No two free blocks are neighbours. *)
Fixpoint coalesced (B : list block) : Prop :=
  match B with
  | [] => True
  | b :: B => (is_free b = true -> starts_free B = false) /\ coalesced B
  end.

(** The row of blocks [B] tiles [[lo, hi)]. *)
Record wf (lo hi : Z) (B : list block) : Prop := {
  wf_total : lo + total B = hi;
  wf_blocks : blocks_ok lo B;
  wf_coalesced : coalesced B
}.

(** ** Operations on a row *)

(** The free block between [L] and [R] becomes a block in use; what is left
    of it stays free if it can hold two nodes. *)
Definition take (L : list block) (s : Z) (R : list block) (required orig pad : Z)
  : list block :=
  if 2 * sizeof_Free_List_Node <=? s - required
  then L ++ Used required orig pad :: Free (s - required) :: R
  else L ++ Used s orig pad :: R.

(** The size the block in use gets. *)
Definition take_size (s required : Z) : Z :=
  if 2 * sizeof_Free_List_Node <=? s - required then required else s.

Definition join_right (s : Z) (R : list block) : Z * list block :=
  match R with
  | Free s' :: R => (s + s', R)
  | _ => (s, R)
  end.

Definition join_left (L : list block) (s : Z) : list block * Z :=
  match last L with
  | Some (Free s') => (removelast L, s' + s)
  | _ => (L, s)
  end.

(** A block of size [s] between [L] and [R] becomes free and is merged with
    its free neighbours. *)
Definition release (L : list block) (s : Z) (R : list block) : list block :=
  let '(s1, R1) := join_right s R in
  let '(L1, s2) := join_left L s1 in
  L1 ++ Free s2 :: R1.

(** ** Rows and concatenation *)
Lemma total_app L R : total (L ++ R) = total L + total R.
Proof. induction L as [|b L IH]; cbn; [lia|]. rewrite IH. lia. Qed.

Lemma total_used_app L R : total_used (L ++ R) = total_used L + total_used R.
Proof. induction L as [|b L IH]; cbn; [lia|]. rewrite IH. lia. Qed.

Lemma free_nodes_app lo L R :
  free_nodes lo (L ++ R) = free_nodes lo L ++ free_nodes (lo + total L) R.
Proof.
  revert lo. induction L as [|b L IH]; intros lo; cbn; [by rewrite Z.add_0_r|].
  destruct b; cbn; rewrite IH, Z.add_assoc; done.
Qed.

Lemma used_blocks_app lo L R :
  used_blocks lo (L ++ R) = used_blocks lo L ++ used_blocks (lo + total L) R.
Proof.
  revert lo. induction L as [|b L IH]; intros lo; cbn; [by rewrite Z.add_0_r|].
  destruct b; cbn; rewrite IH, Z.add_assoc; done.
Qed.

Lemma blocks_ok_app lo L R :
  blocks_ok lo (L ++ R) <-> blocks_ok lo L /\ blocks_ok (lo + total L) R.
Proof.
  revert lo. induction L as [|b L IH]; intros lo; cbn; [rewrite Z.add_0_r; tauto|].
  rewrite IH, Z.add_assoc. tauto.
Qed.

Lemma starts_free_app L R :
  starts_free (L ++ R) = match L with [] => starts_free R | _ => starts_free L end.
Proof. by destruct L. Qed.

Lemma ends_free_cons b L :
  ends_free (b :: L) = match L with [] => is_free b | _ => ends_free L end.
Proof. by destruct L. Qed.

Lemma coalesced_app L R :
  coalesced (L ++ R) <->
  coalesced L /\ coalesced R /\ (ends_free L = true -> starts_free R = false).
Proof.
  induction L as [|b L IH]; cbn [coalesced app].
  - unfold ends_free; cbn. intuition discriminate.
  - rewrite IH, starts_free_app, ends_free_cons.
    destruct L as [|c L]; cbn; intuition discriminate.
Qed.

Lemma join_left_snoc L b s :
  join_left (L ++ [b]) s = if is_free b then (L, bsize b + s) else (L ++ [b], s).
Proof.
  unfold join_left. rewrite last_snoc. destruct b; cbn; [|done].
  by rewrite removelast_last.
Qed.

Lemma blocks_ok_total lo B : blocks_ok lo B -> 0 <= total B.
Proof.
  revert lo. induction B as [|b B IH]; intros lo; cbn; [lia|].
  intros [(_ & Hs & _) HB]. apply IH in HB. unfold sizeof_Free_List_Node in Hs.
  destruct ptr_bytes_cases; lia.
Qed.

Lemma total_used_bounds lo B : blocks_ok lo B -> 0 <= total_used B <= total B.
Proof.
  revert lo. induction B as [|b B IH]; intros lo; cbn; [lia|].
  intros [(_ & Hs & _) HB]. apply IH in HB. unfold sizeof_Free_List_Node in Hs.
  destruct (is_free b), ptr_bytes_cases; lia.
Qed.

(** ** The operations keep a row well formed *)

Lemma take_total L s R required orig pad :
  total (take L s R required orig pad) = total (L ++ Free s :: R).
Proof. unfold take. break_if; rewrite !total_app; cbn; lia. Qed.

Lemma take_used L s R required orig pad :
  total_used (take L s R required orig pad) = total_used (L ++ Free s :: R) + take_size s required.
Proof. unfold take, take_size. break_if; rewrite !total_used_app; cbn; lia. Qed.

Lemma take_wf lo hi L s R required orig pad :
  wf lo hi (L ++ Free s :: R) ->
  required <= s -> 0 <= orig -> 0 <= pad ->
  pad + sizeof_Header + orig <= required ->
  pad + sizeof_Header + sizeof_Free_List_Node <= required ->
  (lo + total L + pad + sizeof_Header) mod sizeof_max_align_t = 0 ->
  (lo + total L + required) mod sizeof_max_align_t = 0 ->
  wf lo hi (take L s R required orig pad).
Proof.
  intros [Ht Hb Hc] Hle Ho Hp Hfit Hfit2 Hal Hal2.
  assert (0 < sizeof_Header) by (unfold sizeof_Header; destruct ptr_bytes_cases; lia).
  split; [by rewrite take_total|..].
  - apply blocks_ok_app in Hb as [HL HR]. cbn in HR. destruct HR as [(HA & Hs & _) HR].
    unfold take. break_if; apply blocks_ok_app; (split; [done|]); cbn.
    + split_and!; try done; try lia.
      * unfold block_ok; cbn. split_and!; try done; lia.
      * unfold block_ok; cbn. split_and!; try done. lia.
      * by replace (lo + total L + required + (s - required)) with (lo + total L + s) by lia.
    + split; [|done]. unfold block_ok; cbn. split_and!; try done; lia.
  - apply coalesced_app in Hc as (HL & HR & HLR). cbn in HR.
    unfold take. break_if; apply coalesced_app; cbn; intuition discriminate.
Qed.

(** The four shapes of [release], in one statement. *)
Lemma release_cases L s R :
  exists L1 s0 s1 R1,
    release L s R = L1 ++ Free (s0 + s + s1) :: R1
    /\ ((L1 = L /\ s0 = 0 /\ ends_free L = false) \/ L = L1 ++ [Free s0])
    /\ ((R1 = R /\ s1 = 0 /\ starts_free R = false) \/ R = Free s1 :: R1).
Proof.
  assert (HR : exists s1 R1, join_right s R = (s + s1, R1)
               /\ ((R1 = R /\ s1 = 0 /\ starts_free R = false) \/ R = Free s1 :: R1)).
  { destruct R as [|[s'|] R]; [exists 0, []|exists s', R|eexists 0, _]; cbn;
      rewrite ?Z.add_0_r; auto. }
  destruct HR as (s1 & R1 & E & HR). unfold release. rewrite E.
  induction L as [|[s0|s0 o p] L _] using rev_ind; rewrite ?join_left_snoc; cbn.
  - exists [], 0, s1, R1. split_and!; [by rewrite Z.add_0_l|auto|done].
  - exists L, s0, s1, R1. split_and!; [by rewrite Z.add_assoc|auto|done].
  - exists (L ++ [Used s0 o p]), 0, s1, R1. split_and!; [by rewrite Z.add_0_l| |done].
    left. split_and!; [done|done|]. unfold ends_free. by rewrite last_snoc.
Qed.

Lemma release_total L s o p R : total (release L s R) = total (L ++ Used s o p :: R).
Proof.
  destruct (release_cases L s R) as (L1 & s0 & s1 & R1 & -> & HL & HR).
  destruct HL as [(-> & -> & _)| ->], HR as [(-> & -> & _)| ->];
    rewrite !total_app; cbn; lia.
Qed.

Lemma release_used L s o p R :
  total_used (release L s R) = total_used (L ++ Used s o p :: R) - s.
Proof.
  destruct (release_cases L s R) as (L1 & s0 & s1 & R1 & -> & HL & HR).
  destruct HL as [(-> & -> & _)| ->], HR as [(-> & -> & _)| ->];
    rewrite !total_used_app; cbn; lia.
Qed.

(** Releasing a block leaves the other blocks in use where they are. *)
Lemma release_used_blocks lo L s R :
  used_blocks lo (release L s R) = used_blocks lo L ++ used_blocks (lo + total L + s) R.
Proof.
  destruct (release_cases L s R) as (L1 & s0 & s1 & R1 & -> & HL & HR).
  destruct HL as [(-> & -> & _)| ->], HR as [(-> & -> & _)| ->];
    rewrite ?total_app, !used_blocks_app; cbn; rewrite ?app_nil_r;
    do 2 f_equal; lia.
Qed.

Lemma ends_free_snoc L b : ends_free (L ++ [b]) = is_free b.
Proof. unfold ends_free. by rewrite last_snoc. Qed.

Lemma release_wf lo hi L s o p R :
  wf lo hi (L ++ Used s o p :: R) -> wf lo hi (release L s R).
Proof.
  intros [Ht Hb Hc]. split; [by rewrite (release_total L s o p)|..].
  all: destruct (release_cases L s R) as (L1 & s0 & s1 & R1 & -> & HL & HR).
  - apply blocks_ok_app in Hb as [HbL HbR]. cbn in HbR. destruct HbR as [(Ha & Hs & _) HbR].
    assert (0 <= sizeof_Free_List_Node)
      by (unfold sizeof_Free_List_Node; destruct ptr_bytes_cases; lia).
    apply blocks_ok_app. destruct HL as [(-> & -> & _)| ->], HR as [(-> & -> & _)| ->];
      rewrite ?total_app, ?Z.add_assoc, ?blocks_ok_app in *; cbn in *; unfold block_ok in *;
      cbn in *; destruct_and?; split_and!; try done; try lia;
      match goal with H : blocks_ok ?x _ |- blocks_ok ?y _ => by replace y with x by lia end.
  - apply coalesced_app in Hc as (HcL & HcR & _). cbn in HcR.
    apply coalesced_app. destruct HL as [(-> & -> & HL)| ->], HR as [(-> & -> & HR)| ->];
      rewrite ?coalesced_app, ?ends_free_snoc in *; cbn in *; intuition congruence.
Qed.

(** A well-formed row with nothing in use is one free block. *)
Lemma wf_all_free lo hi B :
  wf lo hi B -> lo < hi -> used_blocks lo B = [] -> B = [Free (hi - lo)].
Proof.
  intros [Ht Hb Hc] Hlt Hu. destruct B as [|[s|s o p] B]; cbn in *; [lia| |done].
  destruct B as [|[s'|] B]; cbn in *.
  - do 2 f_equal. lia.
  - destruct Hc as [Hc _]. by specialize (Hc eq_refl).
  - done.
Qed.

(** ** Where the nodes are *)

(** The struct at [a] is inside [[lo, hi)] and pointer aligned. *)
Definition node_in (lo hi : Z) (n : Z * Z) : Prop :=
  lo <= n.1 /\ n.1 + n.2 <= hi /\ sizeof_Free_List_Node <= n.2
  /\ n.1 mod sizeof_max_align_t = 0.

(** The blocks of a list of nodes do not overlap and are in address order. *)
Definition node_before (x y : Z * Z) : Prop := x.1 + x.2 <= y.1.

Lemma free_nodes_in lo B : blocks_ok lo B -> Forall (node_in lo (lo + total B)) (free_nodes lo B).
Proof.
  revert lo. induction B as [|b B IH]; intros lo; cbn; [constructor|].
  intros [(Ha & Hs & _) HB]. pose proof (blocks_ok_total _ _ HB).
  assert (0 <= sizeof_Free_List_Node)
    by (unfold sizeof_Free_List_Node; destruct ptr_bytes_cases; lia).
  assert (HF : Forall (node_in lo (lo + (bsize b + total B))) (free_nodes (lo + bsize b) B)).
  { eapply Forall_impl; [by apply IH|]. intros [x y]. unfold node_in; cbn. lia. }
  destruct b; cbn in *; [|done]. constructor; [|done].
  unfold node_in; cbn. split_and!; try done; lia.
Qed.

Lemma free_nodes_sorted lo B : blocks_ok lo B -> StronglySorted node_before (free_nodes lo B).
Proof.
  revert lo. induction B as [|b B IH]; intros lo; cbn; [constructor|].
  intros [_ HB]. destruct b; cbn in *; [|by apply IH].
  constructor; [by apply IH|]. eapply Forall_impl; [by apply free_nodes_in|].
  intros [x y]. unfold node_in, node_before; cbn. lia.
Qed.

Lemma used_blocks_in lo B :
  blocks_ok lo B ->
  Forall (fun u => let '(a, s, o, p) := u in
                   lo <= a /\ a + s <= lo + total B /\ block_ok a (Used s o p))
         (used_blocks lo B).
Proof.
  revert lo. induction B as [|b B IH]; intros lo; cbn; [constructor|].
  intros [Hb HB]. pose proof (blocks_ok_total _ _ HB). pose proof Hb as (_ & Hs & _).
  assert (0 <= sizeof_Free_List_Node)
    by (unfold sizeof_Free_List_Node; destruct ptr_bytes_cases; lia).
  assert (HF : Forall (fun u => let '(a, s, o, p) := u in
                 lo <= a /\ a + s <= lo + (bsize b + total B) /\ block_ok a (Used s o p))
               (used_blocks (lo + bsize b) B)).
  { eapply Forall_impl; [by apply IH|]. intros [[[a s] o] p]; cbn. intros (? & ? & ?).
    split_and!; [lia|lia|done]. }
  destruct b; cbn in *; [done|]. constructor; [|done]. split_and!; [lia|lia|done].
Qed.

(** Free blocks and blocks in use do not overlap. *)
Lemma free_used_disjoint lo B :
  blocks_ok lo B ->
  Forall (fun n => Forall (fun u => let '(a, s, o, p) := u in
                                    n.1 + n.2 <= a \/ a + s <= n.1) (used_blocks lo B))
         (free_nodes lo B).
Proof.
  revert lo. induction B as [|b B IH]; intros lo; cbn; [constructor|].
  intros [_ HB]. pose proof (IH _ HB) as HI.
  pose proof (free_nodes_in _ _ HB) as HF. pose proof (used_blocks_in _ _ HB) as HU.
  destruct b as [s|s o p]; cbn in *.
  - constructor; [|done]. eapply Forall_impl; [apply HU|].
    intros [[[a s'] o'] p']. cbn. lia.
  - rewrite Forall_forall in HI, HF |- *. intros n Hn. constructor; [|by apply HI].
    apply HF in Hn. unfold node_in in Hn. lia.
Qed.
End Wf.
