(* ===== verification/FreeListInv.v ===== *)
(** * The free list in memory

    List segments of [Free_List_Node]s in [mem], what a write to a node leaves
    alone, and what inserting, removing and searching do to a list. These are
    the lemmas that connect the C code with the rows of FreeListSpec. *)
From S2P Require Export FreeListSpec.

Section Inv.
Context {A : abi}.

(** [lseg m p F q]: following [next] from [p] visits the nodes [F], each with
    its block size, and arrives at [q]. *)
Fixpoint lseg (m : mem) (p : Z) (F : list (Z * Z)) (q : Z) : Prop :=
  match F with
  | [] => p = q
  | (a, s) :: F => p = a /\ word_at m (a + ptr_bytes) = s /\ lseg m (word_at m a) F q
  end.

(** Both fields of the node can be accessed, and it is not NULL. *)
Definition node_ok (m : mem) (n : Z * Z) : Prop :=
  0 < n.1 < 2 ^ ptr_bits /\ 0 <= n.2 < 2 ^ ptr_bits
  /\ word_ok m n.1 = true /\ word_ok m (n.1 + ptr_bytes) = true.

(** The node structs at [x] and [y] do not overlap. *)
Definition apart (x y : Z) : Prop :=
  x + sizeof_Free_List_Node <= y \/ y + sizeof_Free_List_Node <= x.

(** Only bytes of the node structs at the addresses [N] changed. *)
Definition touched (N : list Z) (m m' : mem) : Prop :=
  regions m' = regions m
  /\ forall y, (forall a, a ∈ N -> ~ (a <= y < a + sizeof_Free_List_Node)) ->
               byte_at m' y = byte_at m y.

Definition last_addr (F : list (Z * Z)) : Z :=
  match last F with Some n => n.1 | None => 0 end.

Lemma last_addr_snoc F n : last_addr (F ++ [n]) = n.1.
Proof. unfold last_addr. by rewrite last_snoc. Qed.

(** ** Writes *)
Lemma touched_refl N m : touched N m m.
Proof. done. Qed.

Lemma touched_trans N m1 m2 m3 : touched N m1 m2 -> touched N m2 m3 -> touched N m1 m3.
Proof.
  intros [Hr1 H1] [Hr2 H2]. split; [by rewrite Hr2|]. intros y Hy. rewrite H2 by done. by apply H1.
Qed.

Lemma touched_mono N N' m m' : touched N m m' -> N ⊆ N' -> touched N' m m'.
Proof. intros [Hr H] HN. split; [done|]. intros y Hy. apply H. intros a Ha. by apply Hy, HN. Qed.

Lemma touched_next m a v : touched [a] m (set_word m a v).
Proof.
  destruct (set_word_outside m a v) as [Hr H]. split; [done|].
  intros y Hy. apply H. specialize (Hy a ltac:(set_solver)).
  unfold sizeof_Free_List_Node in Hy. destruct ptr_bytes_cases; lia.
Qed.

Lemma touched_size m a v : touched [a] m (set_word m (a + ptr_bytes) v).
Proof.
  destruct (set_word_outside m (a + ptr_bytes) v) as [Hr H]. split; [done|].
  intros y Hy. apply H. specialize (Hy a ltac:(set_solver)).
  unfold sizeof_Free_List_Node in Hy. destruct ptr_bytes_cases; lia.
Qed.

Lemma touched_word N m m' w :
  touched N m m' ->
  (forall a, a ∈ N -> w + ptr_bytes <= a \/ a + sizeof_Free_List_Node <= w) ->
  word_at m' w = word_at m w.
Proof.
  intros [_ H] Hw. apply word_at_ext. intros x Hx. apply H. intros a Ha.
  specialize (Hw a Ha). lia.
Qed.

Lemma touched_valid N m m' a n : touched N m m' -> valid m' a n = valid m a n.
Proof. intros [Hr _]. unfold valid. by rewrite Hr. Qed.

Lemma touched_word_ok N m m' a : touched N m m' -> word_ok m' a = word_ok m a.
Proof. intros H. unfold word_ok. by erewrite touched_valid by done. Qed.

Lemma touched_node_ok N m m' n : touched N m m' -> node_ok m n -> node_ok m' n.
Proof. intros H. unfold node_ok. by rewrite !(touched_word_ok _ _ _ _ H). Qed.

(** ** Segments *)
Lemma lseg_app m p F1 F2 q : lseg m p (F1 ++ F2) q <-> exists r, lseg m p F1 r /\ lseg m r F2 q.
Proof.
  revert p. induction F1 as [|[a s] F1 IH]; intros p; cbn.
  - split; [eauto|]. by intros (r & -> & ?).
  - rewrite IH. naive_solver.
Qed.

Lemma lseg_ext m m' p F q :
  (forall n, n ∈ F -> forall x, n.1 <= x < n.1 + sizeof_Free_List_Node -> byte_at m' x = byte_at m x) ->
  lseg m p F q -> lseg m' p F q.
Proof.
  revert p. induction F as [|[a s] F IH]; intros p H; cbn; [done|].
  intros (-> & Hs & Hl).
  assert (Hw : forall w, a <= w -> w + ptr_bytes <= a + sizeof_Free_List_Node ->
                         word_at m' w = word_at m w).
  { intros w ??. apply word_at_ext. intros x Hx.
    apply (H (a, s)); [set_solver|]. cbn. lia. }
  unfold sizeof_Free_List_Node in Hw. destruct ptr_bytes_cases as [E|E];
    rewrite (Hw a), (Hw (a + ptr_bytes)) by lia;
    (split_and!; [done|done|]; apply IH; [|done]; intros n Hn; apply H; set_solver).
Qed.

Lemma lseg_touched N m m' p F q :
  touched N m m' -> (forall n a, n ∈ F -> a ∈ N -> apart n.1 a) -> lseg m p F q -> lseg m' p F q.
Proof.
  intros [_ HN] Hap. apply lseg_ext. intros n Hn x Hx. apply HN.
  intros a Ha. specialize (Hap n a Hn Ha). unfold apart in Hap. lia.
Qed.

Lemma lseg_start m p F q : lseg m p F q -> p = match F with [] => q | n :: _ => n.1 end.
Proof. destruct F as [|[a s] F]; cbn; [done|]. by intros (-> & _). Qed.

(** The last node of a segment can be made to point elsewhere. *)
Lemma lseg_redirect m p F a s q v :
  lseg m p (F ++ [(a, s)]) q -> (forall n, n ∈ F -> apart n.1 a) -> 0 <= v < 2 ^ ptr_bits ->
  lseg (set_word m a v) p (F ++ [(a, s)]) v.
Proof.
  intros Hl Hap Hv. apply lseg_app in Hl as (r & HF & Ha). apply lseg_app. exists r. split.
  - eapply lseg_touched; [apply touched_next| |done]. set_solver.
  - cbn in *. destruct Ha as (-> & Hs & _). split_and!; [done| |].
    + rewrite word_at_set_ne by lia. done.
    + by apply word_at_set_same.
Qed.

(** A segment whose node [a] was made to point to [x], and [x] to where [a]
    pointed before. *)
Lemma lseg_insert_after m m' head F1 a s x sx F2 :
  lseg m head (F1 ++ (a, s) :: F2) 0 -> touched [a; x] m m' ->
  word_at m' a = x -> word_at m' x = word_at m a ->
  word_at m' (a + ptr_bytes) = s -> word_at m' (x + ptr_bytes) = sx ->
  (forall n, n ∈ F1 ++ F2 -> apart n.1 a /\ apart n.1 x) ->
  lseg m' head (F1 ++ (a, s) :: (x, sx) :: F2) 0.
Proof.
  intros Hl Ht Ha Hx Has Hxs Hap.
  assert (HN : forall n N, n ∈ F1 \/ n ∈ F2 -> N ∈ [a; x] -> apart n.1 N).
  { intros n N Hn HN. destruct (Hap n); set_solver. }
  apply lseg_app in Hl as (r & Hl1 & Hl2). cbn in Hl2. destruct Hl2 as (-> & Hs & Hl2).
  apply lseg_app. exists a. cbn. rewrite Ha, Hx. split_and!; try done.
  - eapply lseg_touched; [done| |done]. intros n N ??. apply HN; auto.
  - eapply lseg_touched; [done| |done]. intros n N ??. apply HN; auto.
Qed.

(** A pointer that starts a segment of nodes, or is NULL, fits a pointer. *)
Lemma lseg_ptr_range m m' p F : lseg m p F 0 -> Forall (node_ok m') F -> 0 <= p < 2 ^ ptr_bits.
Proof.
  pose proof ptr_max_pos. intros Hl Hok. apply lseg_start in Hl as ->.
  destruct F as [|n F]; [lia|]. apply Forall_cons in Hok as [(? & _) _]. lia.
Qed.

(** ** free_list_node_insert and free_list_node_remove *)
Lemma node_insert_head m head F x sx :
  lseg m head F 0 -> Forall (node_ok m) F -> node_ok m (x, sx) ->
  word_at m (x + ptr_bytes) = sx -> (forall n, n ∈ F -> apart n.1 x) ->
  exists m', free_list_node_insert head 0 x m = Ok (x, m')
    /\ lseg m' x ((x, sx) :: F) 0 /\ touched [x] m m'.
Proof.
  intros Hl Hok (Hx0 & _ & Hxw & _) Hsx Hap; cbn in *.
  pose proof (lseg_ptr_range _ _ _ _ Hl Hok). pose proof (touched_next m x head) as Ht.
  unfold free_list_node_insert, node_next; cbn. rewrite store_Ok by done.
  eexists. split; [done|]. split; [|done]. cbn.
  split_and!; [done|by rewrite word_at_set_ne by lia|]. rewrite word_at_set_same by done.
  eapply lseg_touched; [done| |done]. set_solver.
Qed.

Lemma node_insert_after m head F1 a s F2 x sx :
  lseg m head (F1 ++ (a, s) :: F2) 0 ->
  Forall (node_ok m) (F1 ++ (a, s) :: F2) -> node_ok m (x, sx) ->
  word_at m (x + ptr_bytes) = sx -> apart a x ->
  (forall n, n ∈ F1 ++ F2 -> apart n.1 a /\ apart n.1 x) ->
  exists m', free_list_node_insert head a x m = Ok (head, m')
    /\ lseg m' head (F1 ++ (a, s) :: (x, sx) :: F2) 0 /\ touched [a; x] m m'.
Proof.
  intros Hl Hok (Hx0 & _ & Hxw & _) Hsx Hax Hap; cbn in *.
  assert (Hoka : node_ok m (a, s)) by (rewrite Forall_forall in Hok; apply Hok; set_solver).
  destruct Hoka as (Ha0 & _ & Haw & _); cbn in *.
  pose proof Hl as Hl'. apply lseg_app in Hl' as (r & _ & Hl2). cbn in Hl2.
  destruct Hl2 as (-> & Hs & Hl2).
  assert (Hr : 0 <= word_at m a < 2 ^ ptr_bits).
  { eapply lseg_ptr_range; [done|]. apply Forall_app in Hok as [_ Hok].
    by apply Forall_cons in Hok as [_ ?]. }
  unfold apart, sizeof_Free_List_Node in Hax.
  unfold free_list_node_insert, node_next. rewrite (proj2 (Z.eqb_neq a 0)) by lia.
  rewrite load_Ok by done.
  assert (Ht1 : touched [a; x] m (set_word m a x)) by (eapply touched_mono; [apply touched_next|set_solver]).
  assert (Ht2 : forall v, touched [a; x] m (set_word m x v)) by
    (intros v; eapply touched_mono; [apply touched_next|set_solver]).
  destruct (Z.eqb_spec (word_at m a) 0) as [E|E];
    rewrite ?(load_Ok m) by done; rewrite 2 store_Ok by done; eexists; (split; [done|]).
  - assert (Ht : touched [a; x] m (set_word (set_word m a x) x 0)).
    { eapply touched_trans; [apply Ht1|]. eapply touched_mono; [apply touched_next|set_solver]. }
    split; [|done]. eapply lseg_insert_after; try done.
    + rewrite word_at_set_ne by lia. apply word_at_set_same. lia.
    + rewrite E. apply word_at_set_same. lia.
    + by rewrite !word_at_set_ne by lia.
    + by rewrite !word_at_set_ne by lia.
  - assert (Ht : touched [a; x] m (set_word (set_word m x (word_at m a)) a x)).
    { eapply touched_trans; [apply Ht2|]. eapply touched_mono; [apply touched_next|set_solver]. }
    split; [|done]. eapply lseg_insert_after; try done.
    + apply word_at_set_same. lia.
    + rewrite word_at_set_ne by lia. by apply word_at_set_same.
    + by rewrite !word_at_set_ne by lia.
    + by rewrite !word_at_set_ne by lia.
Qed.

Lemma node_remove_ok m head F1 F2 x sx :
  lseg m head (F1 ++ (x, sx) :: F2) 0 ->
  Forall (node_ok m) (F1 ++ (x, sx) :: F2) ->
  (forall n F, F1 = F ++ [n] -> forall k, k ∈ F ++ F2 -> apart k.1 n.1) ->
  exists head' m',
    free_list_node_remove head (last_addr F1) x m = Ok (head', m')
    /\ lseg m' head' (F1 ++ F2) 0
    /\ touched (F1.*1) m m'.
Proof.
  intros Hl Hok Hap1.
  assert (Hx : node_ok m (x, sx)) by (rewrite Forall_forall in Hok; apply Hok; set_solver).
  destruct Hx as (Hx0 & _ & Hxw & _); cbn in *.
  apply lseg_app in Hl as (r & Hl1 & Hl2). cbn in Hl2. destruct Hl2 as (-> & Hs & Hl2).
  assert (Hr : 0 <= word_at m x < 2 ^ ptr_bits).
  { eapply lseg_ptr_range; [done|]. apply Forall_app in Hok as [_ Hok].
    by apply Forall_cons in Hok as [_ ?]. }
  induction F1 as [|[a s] F1 _] using rev_ind.
  - unfold free_list_node_remove, last_addr, node_next; cbn in *. unfold load. rewrite Hxw.
    do 2 eexists. split; [done|]. split; [|done]. done.
  - rewrite last_addr_snoc; cbn. specialize (Hap1 (a, s) F1 eq_refl). cbn in Hap1.
    assert (Hoka : node_ok m (a, s)) by (rewrite Forall_forall in Hok; apply Hok; set_solver).
    destruct Hoka as (Ha0 & _ & Haw & _); cbn in *.
    unfold free_list_node_remove, node_next. rewrite (proj2 (Z.eqb_neq a 0)) by lia.
    rewrite load_Ok by done. rewrite store_Ok by done.
    do 2 eexists. split; [done|]. split.
    + apply lseg_app. exists (word_at m x). split.
      * eapply lseg_redirect; [done| |done]. set_solver.
      * eapply lseg_touched; [apply touched_next| |done]. set_solver.
    + eapply touched_mono; [apply touched_next|]. rewrite fmap_app. set_solver.
Qed.
End Inv.
