(* ===== verification/FreeListFind.v ===== *)
(** * Searching the free list

    The loops of [free_list_find_first] and [free_list_find_best] return what
    first fit and best fit mean on the list of free blocks. *)
From S2P Require Export FreeListInv.

Section Find.
Context {A : abi}.

(** What a request of [size] bytes aligned to [al] takes of a block at [a]. *)
Definition space_at (size al a : Z) : Z := size + padding_ref a al sizeof_Header.

Definition fits (size al : Z) (n : Z * Z) : bool := space_at size al n.1 <=? n.2.

(** What such a request leaves over of a block. *)
Definition spare (size al : Z) (n : Z * Z) : Z := n.2 - space_at size al n.1.

(** The block [n], after the blocks [F1] and before the blocks [F2], is the
    one the placement policy names: the first one that fits, or the first of
    those that leave the least over. *)
Definition chosen (policy : Placement_Policy) (size al : Z) (F1 : list (Z * Z)) (n : Z * Z)
    (F2 : list (Z * Z)) : Prop :=
  match policy with
  | Placement_Policy_Find_First => Forall (fun k => fits size al k = false) F1
  | Placement_Policy_Find_Best =>
      Forall (fun k => fits size al k = true -> spare size al n < spare size al k) F1
      /\ Forall (fun k => fits size al k = true -> spare size al n <= spare size al k) F2
  end.

(** First fit: the loop of [free_list_find_first] on a list of nodes. *)
Fixpoint first_fit (size al : Z) (F : list (Z * Z)) (prev pad : Z) : Z * Z * Z :=
  match F with
  | [] => (0, prev, pad)
  | n :: F =>
      let pad := padding_ref n.1 al sizeof_Header in
      if fits size al n then (n.1, prev, pad) else first_fit size al F n.1 pad
  end.

(** Best fit: the loop of [free_list_find_best] on a list of nodes. *)
Fixpoint best_fit (size al : Z) (F : list (Z * Z)) (b : best_state) : Z * Z * Z :=
  match F with
  | [] => (b_best_node b, b_best_prev b, b_best_padding b)
  | n :: F =>
      let left := n.2 - space_at size al n.1 in
      best_fit size al F
        (if fits size al n && (left <? b_smallest_diff b)
         then mkBest 0 n.1 n.1 (b_prev b) (padding_ref n.1 al sizeof_Header) left
         else mkBest 0 n.1 (b_best_node b) (b_best_prev b) (b_best_padding b)
                     (b_smallest_diff b))
  end.

(** A request whose space cannot wrap around. *)
Definition request_ok (size al : Z) : Prop :=
  pow2_ptr al /\ 0 <= size /\ size + sizeof_Header + al <= 2 ^ ptr_bits.

Lemma sizeof_Header_pos : 0 < sizeof_Header < 2 ^ 31.
Proof. unfold sizeof_Header. destruct ptr_bytes_cases; lia. Qed.

Lemma request_calc {St} size al a (s : St) :
  request_ok size al -> sizeof_Header < size ->
  calc_padding_with_header a al sizeof_Header s = Ok (padding_ref a al sizeof_Header, s).
Proof.
  intros (Hal & Hs & Hov) Hlt. pose proof sizeof_Header_pos. apply calc_padding_eq; [done|lia|lia].
Qed.

Lemma request_space size al a :
  request_ok size al -> 0 <= space_at size al a < 2 ^ ptr_bits.
Proof.
  intros (Hal & Hs & Hov). pose proof (pow2_ptr_range _ Hal). pose proof sizeof_Header_pos.
  pose proof (padding_ref_header a al sizeof_Header ltac:(lia)). unfold space_at. lia.
Qed.

Lemma find_first_iterate size al m F p prev pad :
  request_ok size al -> sizeof_Header < size ->
  lseg m p F 0 -> Forall (node_ok m) F ->
  iterate (find_first_step size al) (S (length F)) (p, prev, pad) m
  = Ok (inr (first_fit size al F prev pad), m).
Proof.
  intros Hreq Hh. revert p prev pad. induction F as [|[a s] F IH]; intros p prev pad Hl Hok.
  - cbn in Hl. subst p. reflexivity.
  - cbn in Hl. destruct Hl as (-> & Hs & Hl).
    apply Forall_cons in Hok as [(Ha & Hsr & Hw1 & Hw2) Hok]; cbn in *.
    unfold mbind_ at 1. cbn [find_first_step]. rewrite (proj2 (Z.eqb_neq a 0)) by lia.
    rewrite (mbind_Ok _ _ _ _ _ (request_calc size al a m Hreq Hh)).
    unfold node_block_size, node_next. rewrite load_Ok by done.
    fold (space_at size al a). rewrite wptr_small by (by apply request_space).
    rewrite Hs. unfold fits; cbn. destruct (space_at size al a <=? s); [done|].
    rewrite load_Ok by done. unfold mret_ at 1. apply IH; done.
Qed.

Lemma find_best_iterate size al m F p b :
  request_ok size al -> sizeof_Header < size ->
  lseg m p F 0 -> Forall (node_ok m) F -> b_node b = p ->
  iterate (find_best_step size al) (S (length F)) b m
  = Ok (inr (best_fit size al F b), m).
Proof.
  intros Hreq Hh. revert p b. induction F as [|[a s] F IH]; intros p b Hl Hok Hb.
  - cbn in Hl. subst p. cbn. unfold mbind_, find_best_step. rewrite Hb. reflexivity.
  - cbn in Hl. destruct Hl as (-> & Hs & Hl).
    apply Forall_cons in Hok as [(Ha & Hsr & Hw1 & Hw2) Hok]. cbn [fst snd] in *.
    cbn [length iterate]. unfold mbind_ at 1. unfold find_best_step at 1. rewrite Hb, (proj2 (Z.eqb_neq a 0)) by lia.
    rewrite (mbind_Ok _ _ _ _ _ (request_calc size al a m Hreq Hh)).
    unfold node_block_size, node_next. rewrite 2 load_Ok by done.
    fold (space_at size al a). pose proof (request_space size al a Hreq).
    rewrite (wptr_small (space_at size al a)) by done. rewrite Hs.
    cbn [best_fit]. unfold fits. cbn [fst snd].
    destruct (Z.leb_spec (space_at size al a) s); cbn [andb].
    all: try rewrite wptr_small by lia.
    all: try destruct (s - space_at size al a <? b_smallest_diff b).
    all: etransitivity; [by apply (IH (word_at m a))|]; destruct F; done.
Qed.

(** [last_addr], with the node seen before the list began. *)
Definition last_addr_from (prev : Z) (F : list (Z * Z)) : Z :=
  match last F with Some n => n.1 | None => prev end.

Lemma last_addr_from_cons prev n F : last_addr_from prev (n :: F) = last_addr_from n.1 F.
Proof. unfold last_addr_from. rewrite last_cons. by destruct (last F). Qed.

(** What a search found: nothing fits, or the node after [F1] is the one the
    policy names. *)
Variant found (policy : Placement_Policy) (size al : Z) (F : list (Z * Z)) : Z * Z * Z -> Prop :=
| found_none prev pad :
    Forall (fun n => fits size al n = false) F -> found policy size al F (0, prev, pad)
| found_node F1 n F2 :
    F = F1 ++ n :: F2 -> fits size al n = true -> chosen policy size al F1 n F2 ->
    found policy size al F (n.1, last_addr F1, padding_ref n.1 al sizeof_Header).

Lemma first_fit_cases size al F prev pad :
  (exists prev' pad', first_fit size al F prev pad = (0, prev', pad')
     /\ Forall (fun n => fits size al n = false) F)
  \/ (exists F1 n F2, F = F1 ++ n :: F2 /\ fits size al n = true
        /\ Forall (fun n => fits size al n = false) F1
        /\ first_fit size al F prev pad
           = (n.1, last_addr_from prev F1, padding_ref n.1 al sizeof_Header)).
Proof.
  revert prev pad. induction F as [|n F IH]; intros prev pad; cbn; [left; eauto|].
  destruct (fits size al n) eqn:E.
  - right. exists [], n, F. done.
  - destruct (IH n.1 (padding_ref n.1 al sizeof_Header)) as
      [(prev' & pad' & -> & HF)|(F1 & k & F2 & -> & Hk & HF1 & ->)].
    + left. do 2 eexists. split; [done|]. by constructor.
    + right. exists (n :: F1), k, F2. split_and!; [done|done|by constructor|].
      by rewrite last_addr_from_cons.
Qed.

Lemma best_fit_cases size al F b :
  (best_fit size al F b = (b_best_node b, b_best_prev b, b_best_padding b)
   /\ Forall (fun n => fits size al n = true ->
                       b_smallest_diff b <= n.2 - space_at size al n.1) F)
  \/ (exists F1 n F2, F = F1 ++ n :: F2 /\ fits size al n = true
        /\ n.2 - space_at size al n.1 < b_smallest_diff b
        /\ chosen Placement_Policy_Find_Best size al F1 n F2
        /\ Forall (fun k => fits size al k = true ->
                     n.2 - space_at size al n.1 <= k.2 - space_at size al k.1) F
        /\ best_fit size al F b
           = (n.1, last_addr_from (b_prev b) F1, padding_ref n.1 al sizeof_Header)).
Proof.
  revert b. induction F as [|n F IH]; intros b; cbn [best_fit]; [by left|].
  destruct (fits size al n && _) eqn:E.
  - apply andb_true_iff in E as [Hf Hd]. right.
    match goal with |- context [best_fit size al F ?b'] => destruct (IH b') as
      [(-> & HF)|(F1 & k & F2 & -> & Hk & Hlt & [HC1 HC2] & HF & ->)] end; cbn in *.
    + exists [], n, F. split_and!; try done; [lia|]. constructor; [lia|done].
    + exists (n :: F1), k, F2. rewrite last_addr_from_cons.
      split_and!; try done; [lia| |]; (constructor; [unfold spare; lia|done]).
  - match goal with |- context [best_fit size al F ?b'] => destruct (IH b') as
      [(-> & HF)|(F1 & k & F2 & -> & Hk & Hlt & [HC1 HC2] & HF & ->)] end; cbn in *.
    + left. split; [done|]. constructor; [|done]. intros Hf. rewrite Hf in E. lia.
    + right. exists (n :: F1), k, F2. rewrite last_addr_from_cons. split_and!; try done;
        (constructor; [|done]); intros Hf; rewrite Hf in E; unfold spare; lia.
Qed.

Lemma first_fit_found size al F :
  found Placement_Policy_Find_First size al F (first_fit size al F 0 0).
Proof.
  destruct (first_fit_cases size al F 0 0) as
    [(prev' & pad' & -> & HF)|(F1 & k & F2 & -> & Hk & HC & ->)].
  - by constructor.
  - change (last_addr_from 0 F1) with (last_addr F1). by econstructor.
Qed.

Lemma best_fit_found size al m F p :
  request_ok size al -> sizeof_Header < size -> Forall (node_ok m) F ->
  found Placement_Policy_Find_Best size al F (best_fit size al F (mkBest p 0 0 0 0 SIZE_MAX)).
Proof.
  intros Hreq Hh Hok.
  destruct (best_fit_cases size al F (mkBest p 0 0 0 0 SIZE_MAX)) as
    [(-> & HF)|(F1 & k & F2 & -> & Hk & _ & HC & _ & ->)]; cbn [b_best_node b_best_prev b_best_padding b_prev b_smallest_diff] in *.
  - constructor. rewrite Forall_forall in HF, Hok |- *. intros n Hn.
    destruct (fits size al n) eqn:E; [|done]. specialize (HF n Hn E).
    destruct (Hok n Hn) as (_ & Hs & _). pose proof (request_space size al n.1 Hreq).
    destruct Hreq as (Hal & _). pose proof (pow2_ptr_range _ Hal). pose proof sizeof_Header_pos.
    pose proof (padding_ref_header n.1 al sizeof_Header ltac:(lia)).
    unfold SIZE_MAX, space_at in *. lia.
  - change (last_addr_from 0 F1) with (last_addr F1). by econstructor.
Qed.

(** Nodes that do not overlap fit in the address space, so the loops end. *)
Lemma nodes_length lo hi F :
  0 <= lo -> lo <= hi -> Forall (node_in lo hi) F -> StronglySorted node_before F ->
  Z.of_nat (length F) <= hi - lo.
Proof.
  intros Hlo. revert lo Hlo. induction F as [|n F IH]; intros lo Hlo Hhi HF HS; cbn; [lia|].
  apply Forall_cons in HF as [(H1 & H2 & H3 & _) HF]. apply StronglySorted_inv in HS as [HS Hn].
  assert (0 < sizeof_Free_List_Node) by (unfold sizeof_Free_List_Node; destruct ptr_bytes_cases; lia).
  specialize (IH (n.1 + n.2) ltac:(lia) ltac:(lia)). rewrite Nat2Z.inj_succ.
  enough (Z.of_nat (length F) <= hi - (n.1 + n.2)) by lia.
  apply IH; [|done]. rewrite Forall_forall in *. intros k Hk.
  specialize (HF k Hk). specialize (Hn k Hk). unfold node_in, node_before in *. lia.
Qed.
End Find.
