(* ===== verification/FreeListRep.v ===== *)
(** * The representation invariant of the free-list allocator

    [rep fl m B]: the [Free_List] struct [fl] and the memory [m] represent the
    row of blocks [B]. This is the invariant every operation keeps. *)
From S2P Require Export FreeListFind.

Section Rep.
Context {A : abi}.

(** The header of a block in use. *)
Definition hdr_at (m : mem) (u : Z * Z * Z * Z) : Prop :=
  let '(a, s, o, p) := u in
  word_at m (hdr_orig_size (a + p)) = o
  /\ word_at m (hdr_block_size (a + p)) = s
  /\ word_at m (hdr_padding (a + p)) = p.

Record rep (fl : Free_List) (m : mem) (B : list block) : Prop := {
  rep_lo : 0 < fl_data fl;
  rep_hi : fl_data fl + fl_size fl < 2 ^ ptr_bits;
  rep_valid : valid m (fl_data fl) (fl_size fl) = true;
  rep_wf : wf (fl_data fl) (fl_data fl + fl_size fl) B;
  rep_used : fl_used fl = total_used B;
  rep_list : lseg m (fl_head fl) (free_nodes (fl_data fl) B) 0;
  rep_hdrs : Forall (hdr_at m) (used_blocks (fl_data fl) B)
}.

(** Only bytes of free blocks changed. *)
Definition within_free (lo : Z) (B : list block) (m m' : mem) : Prop :=
  regions m' = regions m
  /\ forall y, (forall n, n ∈ free_nodes lo B -> ~ (n.1 <= y < n.1 + n.2)) ->
               byte_at m' y = byte_at m y.

Lemma within_free_trans lo B m1 m2 m3 :
  within_free lo B m1 m2 -> within_free lo B m2 m3 -> within_free lo B m1 m3.
Proof.
  intros [Hr1 H1] [Hr2 H2]. split; [by rewrite Hr2|]. intros y Hy. rewrite H2 by done. by apply H1.
Qed.

Lemma within_free_touched lo B N m m' :
  touched N m m' ->
  (forall a, a ∈ N -> exists n, n ∈ free_nodes lo B /\ n.1 <= a /\ a + sizeof_Free_List_Node <= n.1 + n.2) ->
  within_free lo B m m'.
Proof.
  intros [Hr H] HN. split; [done|]. intros y Hy. apply H. intros a Ha Hya.
  destruct (HN a Ha) as (n & Hn & ? & ?). apply (Hy n Hn). lia.
Qed.

Lemma within_free_outside lo B l h m m' n :
  same_outside l h m m' -> n ∈ free_nodes lo B -> n.1 <= l -> h <= n.1 + n.2 ->
  within_free lo B m m'.
Proof. intros [Hr H] Hn ??. split; [done|]. intros y Hy. apply H. specialize (Hy n Hn). lia. Qed.

(** What is in use is not changed by writes to free blocks. *)
Lemma within_free_used lo B m m' a s o p :
  blocks_ok lo B -> within_free lo B m m' -> (a, s, o, p) ∈ used_blocks lo B ->
  same_inside a (a + s) m m'.
Proof.
  intros HB [_ H] Hu y Hy. apply H. intros n Hn.
  pose proof (free_used_disjoint _ _ HB) as HD. rewrite Forall_forall in HD.
  specialize (HD n Hn). rewrite Forall_forall in HD. specialize (HD _ Hu). cbn in HD. lia.
Qed.

Lemma within_free_hdrs lo B m m' :
  blocks_ok lo B -> within_free lo B m m' ->
  Forall (hdr_at m) (used_blocks lo B) -> Forall (hdr_at m') (used_blocks lo B).
Proof.
  intros HB HW HH. pose proof (used_blocks_in _ _ HB) as HU.
  rewrite Forall_forall in HH, HU |- *. intros [[[a s] o] p] Hu.
  pose proof (within_free_used _ _ _ _ _ _ _ _ HB HW Hu) as Hs.
  specialize (HH _ Hu). specialize (HU _ Hu). cbn in HH, HU.
  destruct HU as (_ & _ & _ & _ & Ho & Hp & Hfit & _).
  unfold hdr_at, hdr_orig_size, hdr_block_size, hdr_padding in *. unfold sizeof_Header in Hfit.
  assert (Hw : forall w, a <= w -> w + ptr_bytes <= a + s -> word_at m' w = word_at m w).
  { intros w ??. apply word_at_ext. intros x Hx. apply Hs. lia. }
  destruct ptr_bytes_cases; rewrite !Hw by lia; done.
Qed.

(** ** Facts about the nodes of a represented list *)
Lemma mod_ptr_bytes x : x mod sizeof_max_align_t = 0 -> x mod ptr_bytes = 0.
Proof.
  apply mod_0_trans; unfold ptr_bytes, sizeof_max_align_t; destruct A; [lia|lia|..].
  - by exists 4.
  - by exists 4.
Qed.

Lemma word_ok_in m lo n a k :
  valid m lo n = true -> a mod sizeof_max_align_t = 0 -> 0 <= k ->
  lo <= a -> a + k * ptr_bytes + ptr_bytes <= lo + n -> word_ok m (a + k * ptr_bytes) = true.
Proof.
  intros Hv Ha ???. eapply word_ok_sub; [done|destruct ptr_bytes_cases; lia|lia|].
  apply mod_add_0; [by apply mod_ptr_bytes|apply Z_mod_mult].
Qed.

Lemma node_in_ok m lo size n :
  0 < lo -> lo + size < 2 ^ ptr_bits -> valid m lo size = true -> node_in lo (lo + size) n ->
  node_ok m n.
Proof.
  intros Hlo Hhi Hv (H1 & H2 & H3 & H4). unfold sizeof_Free_List_Node in H3.
  assert (0 < ptr_bytes) by (destruct ptr_bytes_cases; lia).
  pose proof (word_ok_in m lo size n.1 0 Hv H4) as Hw0.
  pose proof (word_ok_in m lo size n.1 1 Hv H4) as Hw1.
  rewrite ?Z.mul_0_l, ?Z.mul_1_l, ?Z.add_0_r in *.
  unfold node_ok. split_and!; [lia|lia|lia|lia|apply Hw0; lia|apply Hw1; lia].
Qed.

Lemma rep_nodes_in fl m B :
  rep fl m B -> Forall (node_in (fl_data fl) (fl_data fl + fl_size fl)) (free_nodes (fl_data fl) B).
Proof. intros [_ _ _ [<- Hb _] _ _ _]. by apply free_nodes_in. Qed.

Lemma rep_nodes_ok fl m B : rep fl m B -> Forall (node_ok m) (free_nodes (fl_data fl) B).
Proof.
  intros H. eapply Forall_impl; [by eapply rep_nodes_in|]. intros n Hn.
  destruct H. by eapply node_in_ok.
Qed.

Lemma rep_sorted fl m B : rep fl m B -> StronglySorted node_before (free_nodes (fl_data fl) B).
Proof. intros [_ _ _ [_ Hb _] _ _ _]. by apply free_nodes_sorted. Qed.

Lemma rep_length fl m B :
  rep fl m B -> Z.of_nat (S (length (free_nodes (fl_data fl) B))) <= 2 ^ Z.of_nat (Z.to_nat ptr_bits).
Proof.
  intros H. pose proof (rep_nodes_in _ _ _ H) as HF. pose proof (rep_sorted _ _ _ H) as HS.
  assert (0 <= fl_size fl).
  { destruct H as [_ _ _ [Ht Hb _] _ _ _]. pose proof (blocks_ok_total _ _ Hb). lia. }
  pose proof (rep_lo _ _ _ H).
  pose proof (nodes_length (fl_data fl) (fl_data fl + fl_size fl) _ ltac:(lia) ltac:(lia) HF HS).
  destruct H as [? ? _ _ _ _ _]. rewrite Z2Nat.id by (unfold ptr_bits; destruct ptr_bytes_cases; lia).
  lia.
Qed.

Lemma sorted_before F1 n F2 :
  StronglySorted node_before (F1 ++ n :: F2) ->
  Forall (fun k => node_before k n) F1 /\ Forall (node_before n) F2.
Proof.
  induction F1 as [|k F1 IH]; cbn; intros H; apply StronglySorted_inv in H as [H1 H2].
  - by split.
  - destruct (IH H1). split; [|done]. constructor; [|done].
    rewrite Forall_forall in H2. apply H2. set_solver.
Qed.

Lemma sorted_apart lo hi F1 n F2 :
  StronglySorted node_before (F1 ++ n :: F2) -> Forall (node_in lo hi) (F1 ++ n :: F2) ->
  forall k, k ∈ F1 ++ F2 -> apart k.1 n.1.
Proof.
  intros HS HF k Hk. destruct (sorted_before _ _ _ HS) as [H1 H2].
  rewrite Forall_forall in H1, H2, HF. unfold apart, node_before, node_in in *.
  apply elem_of_app in Hk as [Hk|Hk].
  - left. specialize (H1 k Hk). specialize (HF k ltac:(set_solver)). lia.
  - right. specialize (H2 k Hk). specialize (HF n ltac:(set_solver)). lia.
Qed.

(** The side condition of the insertion and removal lemmas. *)
Lemma sorted_apart_last lo hi F1 F2 :
  StronglySorted node_before (F1 ++ F2) -> Forall (node_in lo hi) (F1 ++ F2) ->
  forall n F, F1 = F ++ [n] -> forall k, k ∈ F ++ F2 -> apart k.1 n.1.
Proof.
  intros HS HF n F -> k Hk. rewrite <- app_assoc in HS, HF. cbn in *. by eapply sorted_apart.
Qed.

(** A free node of a row is a free block of the row. *)
Lemma free_nodes_split lo B F1 a s F2 :
  free_nodes lo B = F1 ++ (a, s) :: F2 ->
  exists L R, B = L ++ Free s :: R /\ F1 = free_nodes lo L /\ a = lo + total L
              /\ F2 = free_nodes (lo + total L + s) R.
Proof.
  revert lo F1. induction B as [|b B IH]; intros lo F1; cbn.
  - by destruct F1.
  - destruct b as [s'|s' o p]; cbn.
    + destruct F1 as [|n F1]; cbn.
      * intros [= -> -> <-]. exists [], B. cbn. split_and!; try done; [lia|f_equal; lia].
      * intros [= <- H]. destruct (IH _ _ H) as (L & R & -> & -> & -> & ->).
        exists (Free s' :: L), R. cbn. split_and!; try done; [lia|f_equal; lia].
    + intros H. destruct (IH _ _ H) as (L & R & -> & -> & -> & ->).
      exists (Used s' o p :: L), R. cbn. split_and!; try done; [lia|f_equal; lia].
Qed.

Lemma used_blocks_split lo B a s o p :
  (a, s, o, p) ∈ used_blocks lo B ->
  exists L R, B = L ++ Used s o p :: R /\ a = lo + total L.
Proof.
  revert lo. induction B as [|b B IH]; intros lo; cbn; [set_solver|].
  destruct b as [s'|s' o' p']; cbn.
  - intros H. destruct (IH _ H) as (L & R & -> & ->). exists (Free s' :: L), R. cbn. split; [done|lia].
  - intros H. apply elem_of_cons in H as [[= -> -> -> ->]|H].
    + exists [], B. cbn. split; [done|lia].
    + destruct (IH _ H) as (L & R & -> & ->). exists (Used s' o' p' :: L), R. cbn. split; [done|lia].
Qed.
End Rep.
