(* ===== verification/FreeListAlloc.v ===== *)
(** * free_list_init, free_list_free_all and free_list_alloc keep the invariant

    Each function returns, and what it leaves in memory represents the row the
    abstract operation computes. *)
From S2P Require Export FreeListRep.

Section Alloc.
Context {A : abi}.

Lemma sizes_abi :
  0 < ptr_bytes /\ 0 < sizeof_Free_List_Node <= sizeof_max_align_t
  /\ 0 < sizeof_Header < sizeof_max_align_t /\ sizeof_max_align_t < 2 ^ 31.
Proof.
  unfold sizeof_Free_List_Node, sizeof_Header, sizeof_max_align_t, ptr_bytes. destruct A; lia.
Qed.

(** ** Starting from one free block *)
Lemma free_all_ok fl m :
  0 < fl_data fl -> fl_data fl + fl_size fl < 2 ^ ptr_bits ->
  valid m (fl_data fl) (fl_size fl) = true ->
  fl_data fl mod sizeof_max_align_t = 0 -> sizeof_Free_List_Node <= fl_size fl ->
  exists m',
    let fl' := mkFL (fl_data fl) (fl_size fl) 0 (fl_data fl) (fl_policy fl) in
    free_list_free_all fl m = Ok (fl', m')
    /\ rep fl' m' [Free (fl_size fl)]
    /\ same_outside (fl_data fl) (fl_data fl + fl_size fl) m m'.
Proof.
  intros Hlo Hhi Hv Ha Hs. unfold sizeof_Free_List_Node in Hs.
  assert (0 < ptr_bytes) by (destruct ptr_bytes_cases; lia).
  pose proof (word_ok_in m _ _ (fl_data fl) 0 Hv Ha) as Hw0.
  pose proof (word_ok_in m _ _ (fl_data fl) 1 Hv Ha) as Hw1.
  rewrite ?Z.mul_0_l, ?Z.mul_1_l, ?Z.add_0_r in *.
  specialize (Hw0 ltac:(lia) ltac:(lia) ltac:(lia)).
  specialize (Hw1 ltac:(lia) ltac:(lia) ltac:(lia)).
  unfold free_list_free_all, node_block_size, node_next.
  rewrite 2 store_Ok by done. eexists. split; [done|].
  assert (HF : same_outside (fl_data fl) (fl_data fl + fl_size fl) m
     (set_word (set_word m (fl_data fl + ptr_bytes) (fl_size fl)) (fl_data fl) 0)).
  { apply same_outside_set_word; [lia|lia|]. apply same_outside_set_word; [lia|lia|done]. }
  split; [|done]. pose proof ptr_max_pos. split; cbn; try done.
  - split; cbn; [lia| |done]. unfold block_ok, sizeof_Free_List_Node; cbn. split_and!; done.
  - split_and!; [done| |].
    + rewrite word_at_set_ne by lia. apply word_at_set_same. lia.
    + apply word_at_set_same. lia.
Qed.

Lemma init_ok fl data size m :
  sizeof_Free_List_Node <= data -> data + size < 2 ^ ptr_bits -> valid m data size = true ->
  sizeof_max_align_t + sizeof_Free_List_Node <= size ->
  let start := align_up data sizeof_max_align_t in
  exists m',
    let fl' := mkFL start (size - (start - data)) 0 start (fl_policy fl) in
    free_list_init fl data size m = Ok (fl', m')
    /\ rep fl' m' [Free (size - (start - data))]
    /\ same_outside data (data + size) m m'.
Proof.
  intros Hlo Hhi Hv Hs start. pose proof pow2_ptr_max_align as Hp.
  pose proof (pow2_ptr_range _ Hp) as Hr.
  pose proof (align_up_bounds data sizeof_max_align_t ltac:(lia)) as Hb. fold start in Hb.
  assert (0 < sizeof_Free_List_Node < 2 ^ 31)
    by (unfold sizeof_Free_List_Node; destruct ptr_bytes_cases; lia).
  unfold free_list_init.
  rewrite (mbind_Ok _ _ _ _ _ (align_forward_uintptr_eq data _ m Hp ltac:(unfold is_u; lia))).
  fold start. rewrite (wptr_small start) by lia. cbv zeta. rewrite !(wptr_small (start - data)) by lia.
  rewrite assert_true by (rewrite wptr_small by lia; lia).
  rewrite wptr_small by lia.
  destruct (free_all_ok (mkFL start (size - (start - data)) (fl_used fl) (fl_head fl) (fl_policy fl)) m)
    as (m' & He & Hrep & HF); cbn; [lia|lia| | |lia|].
  { eapply valid_sub; [done|lia|lia]. }
  { by apply align_up_mod; lia. }
  exists m'. cbn in *. split_and!; [done|done|].
  eapply same_outside_weaken; [done|lia|lia].
Qed.

(** ** The search *)
Lemma search_ok fl m B size al :
  rep fl m B -> request_ok size al -> sizeof_Header < size ->
  exists r,
    match fl_policy fl with
    | Placement_Policy_Find_Best => free_list_find_best fl size al
    | Placement_Policy_Find_First => free_list_find_first fl size al
    end m = Ok (r, m)
    /\ found (fl_policy fl) size al (free_nodes (fl_data fl) B) r.
Proof.
  intros Hrep Hreq Hh. pose proof (rep_length _ _ _ Hrep) as Hlen.
  pose proof (rep_nodes_ok _ _ _ Hrep) as Hok. destruct Hrep as [_ _ _ _ _ Hl _].
  destruct (fl_policy fl); eexists.
  - split; [|apply first_fit_found].
    eapply iterate_loop; [apply Hlen|]. by apply find_first_iterate.
  - split; [|by apply (best_fit_found size al m)].
    eapply iterate_loop; [apply Hlen|]. by eapply find_best_iterate.
Qed.

(** ** Splitting a block *)
Definition left_over (a s required : Z) : list (Z * Z) :=
  if 2 * sizeof_Free_List_Node <=? s - required then [(a + required, s - required)] else [].

Lemma free_take lo L s R required orig pad :
  free_nodes lo (take L s R required orig pad) =
  free_nodes lo L ++ left_over (lo + total L) s required ++ free_nodes (lo + total L + s) R.
Proof.
  unfold take, left_over. break_if; rewrite free_nodes_app; cbn; [|done].
  do 3 f_equal. lia.
Qed.

Lemma used_take lo L s R required orig pad :
  used_blocks lo (take L s R required orig pad) =
  used_blocks lo L ++ (lo + total L, take_size s required, orig, pad)
                   :: used_blocks (lo + total L + s) R.
Proof.
  unfold take, take_size. break_if; rewrite used_blocks_app; cbn; [|done].
  do 3 f_equal. lia.
Qed.

(** The node of a free block lies in the managed memory. *)
Lemma rep_free_node fl m L s R :
  rep fl m (L ++ Free s :: R) ->
  node_in (fl_data fl) (fl_data fl + fl_size fl) (fl_data fl + total L, s).
Proof.
  intros Hrep. pose proof (rep_nodes_in _ _ _ Hrep) as HF. rewrite free_nodes_app in HF.
  apply Forall_app in HF as [_ HF]. by apply Forall_cons in HF as [HF _].
Qed.

(** What is left over of a block is a node of its own, inside that block. *)
Lemma left_over_in lo hi a s required n :
  node_in lo hi (a, s) -> sizeof_Free_List_Node <= required ->
  (a + required) mod sizeof_max_align_t = 0 -> n ∈ left_over a s required ->
  n.1 = a + required /\ node_in lo hi n /\ n.1 + sizeof_Free_List_Node <= a + s.
Proof.
  intros (H1 & H2 & H3 & H4) Hreq Hal Hn; cbn in *. pose proof sizes_abi as (_ & Hs & _).
  unfold left_over in Hn.
  destruct (Z.leb_spec (2 * sizeof_Free_List_Node) (s - required)); [|set_solver].
  assert (n = (a + required, s - required)) as -> by set_solver.
  unfold node_in; cbn. split_and!; [done|lia|lia|lia|done|lia].
Qed.

(** The other free nodes are apart from every node struct inside a block. *)
Lemma split_apart lo hi F1 a s F2 x n :
  StronglySorted node_before (F1 ++ (a, s) :: F2) -> Forall (node_in lo hi) (F1 ++ (a, s) :: F2) ->
  a <= x -> x + sizeof_Free_List_Node <= a + s -> n ∈ F1 ++ F2 -> apart n.1 x.
Proof.
  intros Hso Hin Hx1 Hx2 Hn. destruct (sorted_before _ _ _ Hso) as [HB1 HB2].
  rewrite Forall_forall in HB1, HB2, Hin. unfold node_before, apart in *. cbn in *.
  apply elem_of_app in Hn as [Hn|Hn].
  - specialize (HB1 n Hn). specialize (Hin n ltac:(set_solver)). unfold node_in in Hin. lia.
  - specialize (HB2 n Hn). lia.
Qed.

(** A new node struct written inside a block, and linked after the block's own. *)
Lemma split_link fl m L s R x :
  rep fl m (L ++ Free s :: R) ->
  let a := fl_data fl + total L in
  a + sizeof_Free_List_Node <= x -> x + 2 * sizeof_Free_List_Node <= a + s ->
  x mod sizeof_max_align_t = 0 ->
  exists head m',
    free_list_node_insert (fl_head fl) a x (set_word m (x + ptr_bytes) (a + s - x)) = Ok (head, m')
    /\ word_ok m (x + ptr_bytes) = true
    /\ lseg m' head (free_nodes (fl_data fl) L ++ (a, s) :: (x, a + s - x) :: free_nodes (a + s) R) 0
    /\ touched [a; x] m m'.
Proof.
  intros Hrep a Hx1 Hx2 Hal. pose proof (rep_nodes_ok _ _ _ Hrep) as Hok.
  pose proof (rep_nodes_in _ _ _ Hrep) as Hin. pose proof (rep_sorted _ _ _ Hrep) as Hso.
  pose proof (rep_free_node _ _ _ _ _ Hrep) as (H1 & H2 & H3 & H4). fold a in H1, H2, H3, H4.
  destruct Hrep as [Hlo Hhi Hv _ _ Hl _]. rewrite free_nodes_app in *. cbn in *.
  fold a in Hok, Hin, Hso, Hl. pose proof sizes_abi as (_ & Hsz & _).
  assert (Hnx : node_in (fl_data fl) (fl_data fl + fl_size fl) (x, a + s - x))
    by (unfold node_in; cbn; split_and!; [lia|lia|lia|done]).
  pose proof (node_in_ok _ _ _ _ Hlo Hhi Hv Hnx) as Hxok.
  pose proof Hxok as (_ & _ & _ & Hxw); cbn in Hxw.
  pose proof (touched_size m x (a + s - x)) as Ht1.
  assert (Hax : apart a x) by (unfold apart; lia).
  destruct (node_insert_after (set_word m (x + ptr_bytes) (a + s - x)) (fl_head fl)
              (free_nodes (fl_data fl) L) a s (free_nodes (a + s) R) x (a + s - x))
    as (m' & He & Hl' & Ht').
  - eapply lseg_touched; [done| |done]. intros n N Hn HN.
    assert (N = x) as -> by set_solver.
    apply elem_of_app in Hn as [Hn|Hn]; [eapply split_apart; [done|done|lia|lia|set_solver]|].
    apply elem_of_cons in Hn as [->|Hn]; [done|eapply split_apart; [done|done|lia|lia|set_solver]].
  - eapply Forall_impl; [apply Hok|]. intros n. by apply touched_node_ok with (N := [x]) (m := m).
  - by apply touched_node_ok with (N := [x]) (m := m).
  - apply word_at_set_same. lia.
  - done.
  - intros n Hn. split; (eapply split_apart; [done|done|lia|lia|done]).
  - do 2 eexists. split_and!; [done|done|done|].
    eapply touched_trans; (eapply touched_mono; [done|set_solver]).
Qed.

Lemma split_ok fl m L s R required :
  rep fl m (L ++ Free s :: R) ->
  let a := fl_data fl + total L in
  sizeof_Free_List_Node <= required -> required <= s -> (a + required) mod sizeof_max_align_t = 0 ->
  exists head m',
    free_list_split (fl_head fl) a required s m = Ok ((take_size s required, head), m')
    /\ lseg m' head (free_nodes (fl_data fl) L ++ (a, s)
                       :: left_over a s required ++ free_nodes (a + s) R) 0
    /\ touched (a :: (left_over a s required).*1) m m'.
Proof.
  intros Hrep a Hreq Hle Hal. pose proof sizes_abi as (_ & Hsz & _).
  pose proof (rep_free_node _ _ _ _ _ Hrep) as Hna. fold a in Hna.
  pose proof (node_in_ok _ _ _ _ (rep_lo _ _ _ Hrep) (rep_hi _ _ _ Hrep) (rep_valid _ _ _ Hrep) Hna)
    as (Ha0 & Hs0 & _ & Hw).
  destruct Hna as (H1 & H2 & H3 & H4); cbn in *. pose proof (rep_hi _ _ _ Hrep) as Hhi.
  unfold free_list_split, take_size, left_over.
  rewrite (wptr_small (s - required)) by lia.
  replace (sizeof_Free_List_Node + sizeof_Free_List_Node) with (2 * sizeof_Free_List_Node) by lia.
  destruct (Z.leb_spec (2 * sizeof_Free_List_Node) (s - required)) as [Hsp|Hsp]; cbv zeta.
  - destruct (split_link fl m L s R (a + required) Hrep) as (head & m' & He & Hxw & Hl & Ht);
      [lia|lia|done|]. fold a in He, Hl, Ht.
    replace (a + s - (a + required)) with (s - required) in * by lia.
    rewrite (wptr_small (a + required)) by lia.
    unfold node_block_size. rewrite store_Ok by done. rewrite (mbind_Ok _ _ _ _ _ He).
    exists head, m'. done.
  - pose proof (rep_list _ _ _ Hrep) as Hl. rewrite free_nodes_app in Hl. cbn in Hl.
    pose proof Hl as Hl0. apply lseg_app in Hl0 as (r & _ & _ & Hbs & _). fold a in Hbs.
    unfold node_block_size. rewrite load_Ok by done. rewrite Hbs.
    do 2 eexists. split; [done|]. cbn. split; [done|apply touched_refl].
Qed.

(** The nodes left after the split can be accessed, and are apart from the node
    the block is unlinked from. *)
Lemma split_nodes fl m L s R required :
  rep fl m (L ++ Free s :: R) ->
  let a := fl_data fl + total L in
  sizeof_Free_List_Node <= required -> required <= s -> (a + required) mod sizeof_max_align_t = 0 ->
  let F1 := free_nodes (fl_data fl) L in
  let F2 := left_over a s required ++ free_nodes (a + s) R in
  Forall (node_ok m) (F1 ++ (a, s) :: F2)
  /\ (forall n F, F1 = F ++ [n] -> forall k, k ∈ F ++ (a, s) :: F2 -> apart k.1 n.1).
Proof.
  intros Hrep a Hreq Hle Hal F1 F2. pose proof sizes_abi as (_ & Hsz & _).
  pose proof (rep_nodes_ok _ _ _ Hrep) as Hok. pose proof (rep_free_node _ _ _ _ _ Hrep) as Hna.
  pose proof (rep_nodes_in _ _ _ Hrep) as Hin. pose proof (rep_sorted _ _ _ Hrep) as Hso.
  destruct Hrep as [Hlo Hhi Hv _ _ _ _].
  rewrite free_nodes_app in Hok, Hin, Hso; cbn in Hok, Hin, Hso. fold a in Hna, Hok, Hin, Hso.
  assert (HLO := fun n => left_over_in _ _ _ _ _ n Hna Hreq Hal). split.
  - rewrite Forall_forall in Hok |- *. intros n Hn.
    destruct (decide (n ∈ left_over a s required)) as [Hn'|Hn'].
    + destruct (HLO n Hn') as (_ & Hi & _). by apply (node_in_ok m (fl_data fl) (fl_size fl)).
    + apply Hok. unfold F1, F2 in Hn. set_solver.
  - intros n F HF k Hk. destruct (decide (k ∈ left_over a s required)) as [Hk'|Hk'].
    + destruct (HLO k Hk') as (Hk1 & _ & Hk2).
      enough (apart n.1 k.1) by (unfold apart in *; lia).
      eapply split_apart; [done|done|lia|lia|]. fold F1. rewrite HF. set_solver.
    + eapply (sorted_apart_last _ _ _ _ Hso Hin); [exact HF|].
      unfold F2 in Hk. clear -Hk Hk'. rewrite !elem_of_app, elem_of_cons in *.
      rewrite elem_of_app in Hk. tauto.
Qed.

(** Splitting the block and unlinking it: the list of what stays free. *)
Lemma carve_ok fl m L s R required orig pad :
  rep fl m (L ++ Free s :: R) ->
  let a := fl_data fl + total L in
  sizeof_Free_List_Node <= required -> required <= s -> (a + required) mod sizeof_max_align_t = 0 ->
  exists head m' head' m'',
    free_list_split (fl_head fl) a required s m = Ok ((take_size s required, head), m')
    /\ free_list_node_remove head (last_addr (free_nodes (fl_data fl) L)) a m' = Ok (head', m'')
    /\ lseg m'' head' (free_nodes (fl_data fl) (take L s R required orig pad)) 0
    /\ within_free (fl_data fl) (L ++ Free s :: R) m m''.
Proof.
  intros Hrep a Hreq Hle Hal. pose proof sizes_abi as (_ & Hsz & _).
  destruct (split_ok fl m L s R required Hrep Hreq Hle Hal) as (head & m' & He & Hl & Ht).
  destruct (split_nodes fl m L s R required Hrep Hreq Hle Hal) as [Hok Hap].
  pose proof (rep_free_node _ _ _ _ _ Hrep) as Hna. pose proof (rep_nodes_in _ _ _ Hrep) as Hin.
  fold a in He, Hl, Ht, Hok, Hap, Hna.
  destruct (node_remove_ok m' head (free_nodes (fl_data fl) L)
              (left_over a s required ++ free_nodes (a + s) R) a s) as (head' & m'' & He' & Hl' & Ht').
  - done.
  - eapply Forall_impl; [exact Hok|]. intros n. by apply (touched_node_ok _ _ _ _ Ht).
  - intros n F HF k Hk. apply (Hap n F HF). set_solver.
  - exists head, m', head', m''. split_and!; [done|done|by rewrite free_take|].
    eapply within_free_trans; eapply within_free_touched; try done.
    + intros x Hx. exists (a, s). rewrite free_nodes_app; cbn. fold a. split; [set_solver|].
      apply elem_of_cons in Hx as [->|Hx]; [destruct Hna as (_ & _ & H & _); cbn in H; lia|].
      apply list_elem_of_fmap in Hx as (n & -> & Hn).
      destruct (left_over_in _ _ _ _ _ n Hna Hreq Hal Hn) as (? & _ & ?). lia.
    + intros x Hx. apply list_elem_of_fmap in Hx as (n & -> & Hn). exists n.
      rewrite free_nodes_app in *; cbn in *. split; [set_solver|].
      rewrite Forall_forall in Hin. specialize (Hin n ltac:(set_solver)). unfold node_in in Hin. lia.
Qed.

(** Writing an allocation header. *)
Lemma hdr_write m h o s p :
  word_ok m h = true -> word_ok m (h + ptr_bytes) = true -> word_ok m (h + 2 * ptr_bytes) = true ->
  is_u ptr_bits o -> is_u ptr_bits s -> is_u ptr_bits p ->
  exists m', (forall B (k : M mem B),
      (do! store (hdr_orig_size h) o in do! store (hdr_block_size h) s in
       do! store (hdr_padding h) p in k) m = k m')
    /\ same_outside h (h + sizeof_Header) m m'
    /\ word_at m' (hdr_orig_size h) = o /\ word_at m' (hdr_block_size h) = s
    /\ word_at m' (hdr_padding h) = p.
Proof.
  intros Hw1 Hw2 Hw3 Ho Hs Hp. unfold hdr_orig_size, hdr_block_size, hdr_padding, sizeof_Header.
  assert (0 < ptr_bytes) by (destruct ptr_bytes_cases; lia).
  eexists. split; [intros B k; rewrite 3 store_Ok by done; reflexivity|]. split_and!.
  - repeat (apply same_outside_set_word; [lia|lia|]). apply same_outside_refl.
  - rewrite 2 word_at_set_ne by lia. by apply word_at_set_same.
  - rewrite word_at_set_ne by lia. by apply word_at_set_same.
  - by apply word_at_set_same.
Qed.

(** ** Allocation *)

(** The alignment and the size a request is rounded to. *)
Definition al_eff (al : Z) : Z := if al <? sizeof_max_align_t then sizeof_max_align_t else al.

Definition size_eff (orig al : Z) : Z :=
  align_up (if orig <? sizeof_Free_List_Node then sizeof_Free_List_Node else orig) (al_eff al).

(** A request that does not come close to wrapping around. *)
Definition alloc_request (orig al : Z) : Prop :=
  0 <= orig /\ pow2_ptr al /\ orig + 4 * Z.max al sizeof_max_align_t <= 2 ^ ptr_bits.

Lemma al_eff_pow2 al : pow2_ptr al -> pow2_ptr (al_eff al).
Proof. intros. unfold al_eff. break_if; [apply pow2_ptr_max_align|done]. Qed.

Lemma alloc_request_ok orig al :
  alloc_request orig al ->
  let sz := size_eff orig al in
  request_ok sz (al_eff al) /\ sizeof_Header < sz /\ orig <= sz
  /\ sizeof_Free_List_Node <= sz /\ sz mod al_eff al = 0
  /\ align_forward_size (St := mem)
       (if orig <? sizeof_Free_List_Node then sizeof_Free_List_Node else orig) (al_eff al)
     = mret_ sz.
Proof.
  intros (Ho & Hal & Hb) sz. pose proof sizes_abi as (_ & Hn & Hh & _).
  pose proof (al_eff_pow2 _ Hal) as Hp. pose proof (pow2_ptr_range _ Hp) as Hr.
  assert (Hae : al_eff al = Z.max al sizeof_max_align_t) by (unfold al_eff; break_if; lia).
  set (s0 := if orig <? sizeof_Free_List_Node then sizeof_Free_List_Node else orig) in *.
  assert (Hs0 : Z.max orig sizeof_Free_List_Node = s0) by (unfold s0; break_if; lia).
  pose proof (align_up_bounds s0 (al_eff al) ltac:(lia)) as Hsz.
  assert (Hm : sz mod al_eff al = 0) by (apply align_up_mod; lia).
  unfold size_eff in sz. fold s0 in sz. fold sz in Hsz.
  assert (al_eff al <= sz).
  { apply Z.mod_divide in Hm; [|lia]. destruct Hm as [k Hk].
    assert (0 < k * al_eff al) by lia. assert (0 < k) by (apply (Z.mul_pos_cancel_r _ (al_eff al)); lia).
    rewrite Hk. rewrite <- (Z.mul_1_l (al_eff al)) at 1. apply Z.mul_le_mono_nonneg_r; lia. }
  split_and!; [|lia|lia|lia|done|].
  - unfold request_ok. split_and!; [done|lia|lia].
  - unfold align_forward_size. rewrite (is_power_of_two_true _ Hp). cbn.
    pose proof (align_forward_val_eq s0 (al_eff al) Hp ltac:(unfold is_u; lia)) as E.
    unfold align_forward_val in E. unfold mbind_, mret_. rewrite E.
    unfold sz. rewrite wptr_small by lia. done.
Qed.

(** What a successful allocation of [orig] bytes returns and leaves. *)
Definition allocated (fl : Free_List) (m : mem) (orig al : Z) (L : list block) (s : Z)
    (R : list block) (p : Z) (fl' : Free_List) (m' : mem) : Prop :=
  let a := fl_data fl + total L in
  let pad := padding_ref a (al_eff al) sizeof_Header in
  let required := space_at (size_eff orig al) (al_eff al) a in
  required <= s
  /\ p = a + pad
  /\ p mod al_eff al = 0
  /\ rep fl' m' (take L s R required orig (pad - sizeof_Header))
  /\ within_free (fl_data fl) (L ++ Free s :: R) m m'
  /\ fl_data fl' = fl_data fl /\ fl_size fl' = fl_size fl /\ fl_policy fl' = fl_policy fl.

Lemma alloc_take fl m L s R orig al :
  rep fl m (L ++ Free s :: R) -> alloc_request orig al ->
  let a := fl_data fl + total L in
  let pad := padding_ref a (al_eff al) sizeof_Header in
  let required := space_at (size_eff orig al) (al_eff al) a in
  required <= s ->
  wf (fl_data fl) (fl_data fl + fl_size fl) (take L s R required orig (pad - sizeof_Header))
  /\ (a + pad) mod al_eff al = 0 /\ (a + pad) mod sizeof_max_align_t = 0
  /\ (a + required) mod sizeof_max_align_t = 0.
Proof.
  intros Hrep Hreq a pad required Hle. pose proof sizes_abi as (_ & Hn & Hh & _).
  destruct (alloc_request_ok orig al Hreq) as (_ & Hsz1 & Hsz2 & Hsz3 & Hsz4 & _).
  destruct Hreq as (Ho & Hal & Hb). pose proof (al_eff_pow2 _ Hal) as Hp.
  pose proof (pow2_ptr_range _ Hp).
  assert (Hdiv : (sizeof_max_align_t | al_eff al)).
  { apply pow2_ptr_divide; [apply pow2_ptr_max_align|done|]. unfold al_eff. break_if; lia. }
  pose proof (padding_ref_header a (al_eff al) sizeof_Header ltac:(lia)) as Hpad. fold pad in Hpad.
  assert (Hal1 : (a + pad) mod al_eff al = 0) by (apply padding_ref_aligned; lia).
  assert (Hal2 : (a + pad) mod sizeof_max_align_t = 0) by (eapply mod_0_trans; [lia|done|done]).
  assert (Hal3 : (a + required) mod sizeof_max_align_t = 0).
  { eapply mod_0_trans; [lia|done|]. unfold required, space_at. fold pad.
    replace (a + (size_eff orig al + pad)) with (a + pad + size_eff orig al) by lia.
    by apply mod_add_0. }
  split_and!; try done. assert (Hrq : required = size_eff orig al + pad) by done.
  clearbody required pad.
  apply take_wf; [by destruct Hrep|lia|lia|lia|lia|lia| |done]. fold a.
  by replace (a + (pad - sizeof_Header) + sizeof_Header) with (a + pad) by lia.
Qed.

(** The new block's header is written: the memory represents the new row. *)
Lemma rep_taken fl m L s R required orig pad head' m2 m3 :
  let a := fl_data fl + total L in
  let B' := take L s R required orig pad in
  rep fl m (L ++ Free s :: R) -> wf (fl_data fl) (fl_data fl + fl_size fl) B' ->
  lseg m2 head' (free_nodes (fl_data fl) B') 0 ->
  within_free (fl_data fl) (L ++ Free s :: R) m m2 ->
  same_outside (a + pad) (a + pad + sizeof_Header) m2 m3 ->
  0 <= pad -> pad + sizeof_Header <= take_size s required -> take_size s required <= s ->
  hdr_at m3 (a, take_size s required, orig, pad) ->
  rep (mkFL (fl_data fl) (fl_size fl) (wptr (fl_used fl + take_size s required)) head'
            (fl_policy fl)) m3 B'
  /\ within_free (fl_data fl) (L ++ Free s :: R) m m3.
Proof.
  intros a B' Hrep Hwf Hl HW HO Hp Hfit Hts Hh. pose proof sizes_abi as (Hp0 & Hn & Hhs & _).
  pose proof Hrep as [Hlo Hhi Hv [Ht Hbs _] Hu _ Hhd].
  assert (HW3 : within_free (fl_data fl) (L ++ Free s :: R) m m3).
  { eapply within_free_trans; [done|]. apply (within_free_outside _ _ _ _ _ _ (a, s) HO); cbn; [|lia|lia].
    rewrite free_nodes_app; cbn. apply elem_of_app. right. constructor. }
  split; [|done]. split; cbn; try done.
  - unfold valid. destruct HW3 as [-> _]. done.
  - unfold B'. rewrite take_used, <- Hu. apply wptr_small.
    destruct Hwf as [Ht' Hb' _]. pose proof (total_used_bounds _ _ Hb') as Hb2.
    unfold B' in Hb2, Ht'. rewrite take_used, <- Hu in Hb2. lia.
  - eapply lseg_ext; [|done]. intros n Hnn x Hx. apply HO.
    destruct Hwf as [_ Hb' _]. pose proof (free_used_disjoint _ _ Hb') as HD.
    pose proof (free_nodes_in _ _ Hb') as HI. rewrite Forall_forall in HD, HI.
    specialize (HD n Hnn). specialize (HI n Hnn). rewrite Forall_forall in HD.
    specialize (HD (a, take_size s required, orig, pad)). cbn in HD. unfold node_in in HI.
    assert (n.1 + n.2 <= a \/ a + take_size s required <= n.1).
    { apply HD. unfold B'. rewrite used_take. apply elem_of_app. right. constructor. }
    lia.
  - pose proof (within_free_hdrs _ _ _ _ Hbs HW3 Hhd) as HH.
    unfold B'. rewrite used_take. rewrite used_blocks_app in HH. cbn in HH.
    apply Forall_app in HH as [HH1 HH2]. apply Forall_app. split; [done|]. by constructor.
Qed.

(** The words of a header inside the managed memory can be accessed. *)
Lemma hdr_word_ok m lo size a pad i :
  valid m lo size = true -> lo <= a -> sizeof_Header <= pad -> a + pad <= lo + size ->
  (a + pad) mod sizeof_max_align_t = 0 -> 0 <= i <= 2 ->
  word_ok m (a + (pad - sizeof_Header) + i * ptr_bytes) = true.
Proof.
  intros Hv ??? Hal Hi. pose proof sizes_abi as (Hp0 & _). unfold sizeof_Header in *.
  apply (word_ok_sub m lo size); [done|nia|nia|].
  replace (a + (pad - 3 * ptr_bytes) + i * ptr_bytes)
    with (a + pad + (i - 3) * ptr_bytes) by lia.
  apply mod_add_0; [by apply mod_ptr_bytes|apply Z_mod_mult].
Qed.

Lemma alloc_commit fl m L s R orig al :
  rep fl m (L ++ Free s :: R) -> alloc_request orig al ->
  let a := fl_data fl + total L in
  let pad := padding_ref a (al_eff al) sizeof_Header in
  let required := space_at (size_eff orig al) (al_eff al) a in
  required <= s ->
  exists fl' m',
    (let! '(rs, head) := free_list_split (fl_head fl) a required s in
     let! head := free_list_node_remove head (last_addr (free_nodes (fl_data fl) L)) a in
     do! store (hdr_orig_size (a + (pad - sizeof_Header))) orig in
     do! store (hdr_block_size (a + (pad - sizeof_Header))) rs in
     do! store (hdr_padding (a + (pad - sizeof_Header))) (pad - sizeof_Header) in
     mret_ (wptr (a + (pad - sizeof_Header) + sizeof_Header),
            mkFL (fl_data fl) (fl_size fl) (wptr (fl_used fl + rs)) head (fl_policy fl))) m
    = Ok ((a + pad, fl'), m')
    /\ allocated fl m orig al L s R (a + pad) fl' m'.
Proof.
  intros Hrep Hreq a pad required Hle. pose proof sizes_abi as (Hp0 & Hn & Hh & _).
  destruct (alloc_take fl m L s R orig al Hrep Hreq Hle) as (Hwf & Hal1 & Hal2 & Hal3).
  fold a pad required in Hwf, Hal1, Hal2, Hal3.
  destruct (alloc_request_ok orig al Hreq) as (_ & Hsz1 & Hsz2 & Hsz3 & _ & _).
  pose proof (padding_ref_header a (al_eff al) sizeof_Header) as Hpad. fold pad in Hpad.
  specialize (Hpad ltac:(destruct Hreq as (_ & Hal & _); apply pow2_ptr_range, al_eff_pow2, Hal)).
  assert (Hrq : required = size_eff orig al + pad) by done.
  destruct (carve_ok fl m L s R required orig (pad - sizeof_Header) Hrep) as
    (head & m1 & head' & m2 & He1 & He2 & Hl & HW); [lia|lia|done|]. fold a in He1, He2.
  pose proof Hrep as [Hlo Hhi Hv [Ht Hbs _] Hu _ Hhd]. destruct Hreq as (Ho & _).
  pose proof (rep_free_node _ _ _ _ _ Hrep) as (HA1 & HA2 & _ & HA4); cbn in HA1, HA2, HA4.
  fold a in HA1, HA2, HA4.
  assert (Hts : required <= take_size s required <= s) by (unfold take_size; break_if; lia).
  set (h := a + (pad - sizeof_Header)) in *.
  assert (Hv2 : valid m2 (fl_data fl) (fl_size fl) = true)
    by (destruct HW as [Hr _]; unfold valid; by rewrite Hr).
  assert (Hw : forall i, 0 <= i <= 2 -> word_ok m2 (h + i * ptr_bytes) = true).
  { intros i Hi. eapply hdr_word_ok; [done|lia|lia|lia|done|done]. }
  destruct (hdr_write m2 h orig (take_size s required) (pad - sizeof_Header)) as
    (m3 & He3 & HO & Hh1 & Hh2 & Hh3); [|..|unfold is_u; lia|unfold is_u; lia|unfold is_u; lia|].
  { specialize (Hw 0). by rewrite Z.mul_0_l, Z.add_0_r in Hw; apply Hw. }
  { specialize (Hw 1). by rewrite Z.mul_1_l in Hw; apply Hw. }
  { by apply Hw. }
  rewrite (mbind_Ok _ _ _ _ _ He1). cbv beta iota. rewrite (mbind_Ok _ _ _ _ _ He2), He3.
  destruct (rep_taken fl m L s R required orig (pad - sizeof_Header) head' m2 m3) as [Hrep' HW'];
    try done; try lia.
  do 2 eexists. split; [unfold mret_; do 3 f_equal; rewrite wptr_small; unfold h; lia|].
  unfold allocated. fold a pad required. split_and!; done.
Qed.

(** What [free_list_alloc] does with the node its search returned. *)
Definition alloc_at (fl : Free_List) (orig al : Z) (r : Z * Z * Z) : M mem (Z * Free_List) :=
  let '(node, prev_node, padding) := r in
  if node =? 0 then mret_ (0, fl) else
  let! block_size := load (node_block_size node) in
  let! '(rs, head) := free_list_split (fl_head fl) node
                        (wptr (size_eff orig al + padding)) block_size in
  let! head := free_list_node_remove head prev_node node in
  do! store (hdr_orig_size (wptr (node + wptr (padding - sizeof_Header)))) orig in
  do! store (hdr_block_size (wptr (node + wptr (padding - sizeof_Header)))) rs in
  do! store (hdr_padding (wptr (node + wptr (padding - sizeof_Header))))
            (wptr (padding - sizeof_Header)) in
  mret_ (wptr (wptr (node + wptr (padding - sizeof_Header)) + sizeof_Header),
         mkFL (fl_data fl) (fl_size fl) (wptr (fl_used fl + rs)) head (fl_policy fl)).

Lemma alloc_search fl m B orig al :
  rep fl m B -> alloc_request orig al ->
  exists r, free_list_alloc fl orig al m = alloc_at fl orig al r m
    /\ found (fl_policy fl) (size_eff orig al) (al_eff al) (free_nodes (fl_data fl) B) r.
Proof.
  intros Hrep Hreq. destruct (alloc_request_ok orig al Hreq) as (Hrq & Hh & _ & _ & _ & Hsz).
  destruct (search_ok fl m B _ _ Hrep Hrq Hh) as (r & He & Hf). exists r. split; [|done].
  unfold free_list_alloc. fold (al_eff al). rewrite Hsz. rewrite mbind_ret.
  rewrite (mbind_Ok _ _ _ _ _ He). by destruct r as [[node prev] padding].
Qed.

(** The addresses and sizes the block's header is computed from do not wrap. *)
Lemma alloc_bounds fl m L s R orig al :
  rep fl m (L ++ Free s :: R) -> alloc_request orig al ->
  let a := fl_data fl + total L in
  let pad := padding_ref a (al_eff al) sizeof_Header in
  size_eff orig al + pad <= s ->
  0 < a /\ a + s < 2 ^ ptr_bits /\ sizeof_Header <= pad /\ 0 <= size_eff orig al
  /\ word_ok m (a + ptr_bytes) = true /\ word_at m (a + ptr_bytes) = s.
Proof.
  intros Hrep Hreq a pad Hle. pose proof (rep_free_node _ _ _ _ _ Hrep) as Hna. fold a in Hna.
  pose proof (rep_hi _ _ _ Hrep) as Hhi.
  pose proof (node_in_ok _ _ _ _ (rep_lo _ _ _ Hrep) Hhi (rep_valid _ _ _ Hrep) Hna)
    as (Ha & _ & _ & Hw). destruct Hna as (_ & H2 & _); cbn in *.
  destruct (alloc_request_ok orig al Hreq) as ((_ & Hs0 & _) & _). destruct Hreq as (_ & Hp & _).
  pose proof (rep_list _ _ _ Hrep) as Hl. rewrite free_nodes_app in Hl. cbn in Hl.
  apply lseg_app in Hl as (r & _ & _ & Hbs & _). split_and!; [lia|lia| |lia|done|done].
  apply padding_ref_header. by apply pow2_ptr_range, al_eff_pow2.
Qed.

(** The free block of size [s] between [L] and [R] is the one the policy names
    for the request. *)
Definition policy_block (fl : Free_List) (orig al : Z) (L : list block) (s : Z) (R : list block)
  : Prop :=
  let a := fl_data fl + total L in
  chosen (fl_policy fl) (size_eff orig al) (al_eff al)
    (free_nodes (fl_data fl) L) (a, s) (free_nodes (a + s) R).

(** [free_list_alloc] returns NULL and changes nothing when no free block is
    large enough; otherwise it takes the block the policy names. *)
Lemma alloc_chosen fl m B orig al :
  rep fl m B -> alloc_request orig al ->
  (free_list_alloc fl orig al m = Ok ((0, fl), m)
   /\ Forall (fun n => fits (size_eff orig al) (al_eff al) n = false) (free_nodes (fl_data fl) B))
  \/ (exists L s R p fl' m', B = L ++ Free s :: R /\ policy_block fl orig al L s R
       /\ free_list_alloc fl orig al m = Ok ((p, fl'), m')
       /\ allocated fl m orig al L s R p fl' m').
Proof.
  intros Hrep Hreq. destruct (alloc_search fl m B orig al Hrep Hreq) as (r & -> & Hf).
  destruct Hf as [prev pad HF|F1 n F2 HF Hfit HC]; [left; done|right].
  destruct n as [a s]. apply free_nodes_split in HF as (L & R & -> & -> & -> & ->).
  unfold fits in Hfit; cbn [fst snd] in Hfit. apply Z.leb_le in Hfit.
  destruct (alloc_commit fl m L s R orig al Hrep Hreq Hfit) as (fl' & m' & He' & Hal).
  do 6 eexists. split; [done|]. split; [exact HC|]. split; [|done]. rewrite <- He'.
  pose proof (alloc_bounds fl m L s R orig al Hrep Hreq Hfit) as (Ha & Hhi & Hpad & Hsz0 & Hw & Hbs).
  unfold alloc_at, space_at in *. cbn [fst]. pose proof sizes_abi as (_ & _ & Hhd & _).
  set (a := fl_data fl + total L) in *. set (pad := padding_ref _ _ _) in *.
  rewrite (proj2 (Z.eqb_neq a 0)) by lia. unfold node_block_size at 1.
  rewrite load_Ok by done. rewrite Hbs.
  rewrite (wptr_small (pad - sizeof_Header)) by lia.
  rewrite (wptr_small (a + _)) by lia. by rewrite (wptr_small (size_eff orig al + pad)) by lia.
Qed.

Lemma alloc_ok fl m B orig al :
  rep fl m B -> alloc_request orig al ->
  (free_list_alloc fl orig al m = Ok ((0, fl), m)
   /\ Forall (fun n => fits (size_eff orig al) (al_eff al) n = false) (free_nodes (fl_data fl) B))
  \/ (exists L s R p fl' m', B = L ++ Free s :: R
       /\ free_list_alloc fl orig al m = Ok ((p, fl'), m')
       /\ allocated fl m orig al L s R p fl' m').
Proof.
  intros Hrep Hreq. destruct (alloc_chosen _ _ _ _ _ Hrep Hreq) as
    [?|(L & s & R & p & fl' & m' & HB & _ & He & Hal)]; [by left|right; by eauto 10].
Qed.
End Alloc.
