(* ===== verification/FreeListFree.v ===== *)
(** * free_list_free keeps the invariant

    The search for the place of the released block, its insertion and the two
    merges, against [release] of FreeListSpec. *)
From S2P Require Export FreeListAlloc.

Section FreeOp.
Context {A : abi}.

(** ** Inserting the released block in address order *)
Lemma node_insert_at lo hi m head F1 F2 x sx :
  lseg m head (F1 ++ F2) 0 -> Forall (node_ok m) (F1 ++ F2) -> node_ok m (x, sx) ->
  word_at m (x + ptr_bytes) = sx ->
  StronglySorted node_before (F1 ++ (x, sx) :: F2) -> Forall (node_in lo hi) (F1 ++ (x, sx) :: F2) ->
  exists head' m',
    free_list_node_insert head (last_addr F1) x m = Ok (head', m')
    /\ lseg m' head' (F1 ++ (x, sx) :: F2) 0 /\ touched (x :: F1.*1) m m'.
Proof.
  intros Hl Hok Hx Hsx HS HI. pose proof (sorted_apart _ _ _ _ _ HS HI) as Hap.
  induction F1 as [|[a s] F1 _] using rev_ind.
  - destruct (node_insert_head m head F2 x sx) as (m' & He & Hl' & Ht); try done. eauto.
  - rewrite last_addr_snoc; cbn. rewrite <- app_assoc in *; cbn in *.
    pose proof (sorted_apart _ _ _ _ _ HS HI) as Hap1; cbn in Hap1.
    destruct (node_insert_after m head F1 a s F2 x sx) as (m' & He & Hl' & Ht); try done.
    + apply (Hap (a, s)). apply elem_of_app. right. constructor.
    + intros n Hn. apply elem_of_app in Hn.
      split; [apply Hap1|apply Hap]; rewrite ?elem_of_app, ?elem_of_cons; tauto.
    + do 2 eexists. split_and!; [done|done|]. eapply touched_mono; [done|].
      rewrite fmap_app. set_solver.
Qed.

(** Walking over the nodes before [x]. *)
Lemma free_search_iterate m head x F0 G F2 p :
  lseg m p (G ++ F2) 0 -> Forall (node_ok m) (G ++ F2) ->
  Forall (fun k => k.1 < x) G -> Forall (fun k => x < k.1) F2 ->
  iterate (free_search_step head x) (S (length G)) (p, last_addr F0) m =
  match F2 with
  | [] => Ok (inr (0, last_addr (F0 ++ G), head), m)
  | n :: _ => (let! head := free_list_node_insert head (last_addr (F0 ++ G)) x in
               mret_ (inr (n.1, last_addr (F0 ++ G), head))) m
  end.
Proof.
  revert F0 p. induction G as [|[a s] G IH]; intros F0 p Hl Hok HG H2.
  - rewrite app_nil_r. cbn in Hl, Hok. cbn [length iterate].
    destruct F2 as [|[y sy] F2]; cbn in *; [by subst|].
    destruct Hl as (-> & _). apply Forall_cons in Hok as [(Hy & _) _].
    apply Forall_cons in H2 as [Hxy _]; cbn in *. unfold mbind_ at 1. cbn [free_search_step].
    rewrite (proj2 (Z.eqb_neq y 0)), (proj2 (Z.ltb_lt x y)) by lia.
    unfold mbind_. by destruct (free_list_node_insert _ _ _ m) as [[h m']|].
  - cbn in Hl. destruct Hl as (-> & Hs & Hl). cbn in Hok.
    apply Forall_cons in Hok as [(Ha & _ & Hw & _) Hok].
    apply Forall_cons in HG as [Hax HG]; cbn [fst snd] in *.
    cbn [length iterate]. unfold mbind_ at 1. cbn [free_search_step].
    rewrite (proj2 (Z.eqb_neq a 0)), (proj2 (Z.ltb_ge x a)) by lia.
    unfold node_next. rewrite load_Ok by done. unfold mret_ at 1.
    specialize (IH (F0 ++ [(a, s)]) (word_at m a) Hl Hok HG H2).
    rewrite last_addr_snoc, <- app_assoc in IH. exact IH.
Qed.

Lemma place_ok lo hi m head F1 F2 x sx :
  lseg m head (F1 ++ F2) 0 -> Forall (node_ok m) (F1 ++ F2) -> node_ok m (x, sx) ->
  word_at m (x + ptr_bytes) = sx ->
  StronglySorted node_before (F1 ++ (x, sx) :: F2) -> Forall (node_in lo hi) (F1 ++ (x, sx) :: F2) ->
  Z.of_nat (S (length F1)) <= 2 ^ Z.of_nat (Z.to_nat ptr_bits) ->
  exists head' m',
    free_list_place head x m = Ok ((last_addr F1, head'), m')
    /\ lseg m' head' (F1 ++ (x, sx) :: F2) 0 /\ touched (x :: F1.*1) m m'.
Proof.
  intros Hl Hok Hx Hsx HS HI Hlen.
  destruct (node_insert_at lo hi m head F1 F2 x sx) as (head' & m' & He & Hl' & Ht); try done.
  exists head', m'. split; [|done]. pose proof sizes_abi as (_ & Hn & _).
  destruct (sorted_before _ _ _ HS) as [HB1 HB2].
  pose proof (free_search_iterate m head x [] F1 F2 head Hl Hok) as Hit.
  assert (Hx2 : x + sizeof_Free_List_Node <= x + sx).
  { apply Forall_app in HI as [_ HI]. apply Forall_cons in HI as [(_ & _ & ? & _) _]; cbn in *. lia. }
  specialize (Hit ltac:(apply Forall_app in HI as [HI _]; rewrite Forall_forall in HB1, HI |- *;
    intros k Hk; specialize (HB1 k Hk); specialize (HI k Hk); unfold node_before, node_in in *;
    cbn in HB1; lia)).
  specialize (Hit ltac:(eapply Forall_impl; [apply HB2|]; intros k; unfold node_before; cbn; lia)).
  unfold free_list_place. cbn [app] in Hit. change (last_addr []) with 0 in Hit.
  destruct F2 as [|[y sy] F2].
  - rewrite (mbind_Ok _ _ _ _ _ (iterate_loop _ _ _ _ _ _ _ Hlen Hit)). cbn.
    rewrite (mbind_Ok _ _ _ _ _ He). done.
  - rewrite (mbind_Ok _ _ _ _ _ He) in Hit.
    rewrite (mbind_Ok _ _ _ _ _ (iterate_loop _ _ _ _ _ _ _ Hlen Hit)). cbn.
    apply Forall_app in Hok as [_ Hok]. apply Forall_cons in Hok as [(Hy & _) _]; cbn in Hy.
    rewrite (proj2 (Z.eqb_neq y 0)) by lia. done.
Qed.

(** ** Merging with the neighbours *)
Lemma lseg_resize m p F1 x s F2 s' :
  lseg m p (F1 ++ (x, s) :: F2) 0 -> (forall k, k ∈ F1 ++ F2 -> apart k.1 x) ->
  0 <= s' < 2 ^ ptr_bits ->
  lseg (set_word m (x + ptr_bytes) s') p (F1 ++ (x, s') :: F2) 0.
Proof.
  intros Hl Hap Hs. pose proof (touched_size m x s') as Ht.
  assert (HN : forall n N, n ∈ F1 \/ n ∈ F2 -> N ∈ [x] -> apart n.1 N).
  { intros n N Hn HN. assert (N = x) as -> by set_solver. apply Hap, elem_of_app, Hn. }
  apply lseg_app in Hl as (r & Hl1 & -> & _ & Hl2). apply lseg_app. exists x. cbn.
  split_and!; [|done|by apply word_at_set_same|].
  - eapply lseg_touched; [done| |done]. intros n N ??. apply HN; auto.
  - rewrite word_at_set_ne by lia. eapply lseg_touched; [done| |done].
    intros n N ??. apply HN; auto.
Qed.

(** Two nodes of the list become one: the second is absorbed by the first. *)
Lemma absorb_ok lo hi m head F1 x sx y sy F2 :
  lseg m head (F1 ++ (x, sx) :: (y, sy) :: F2) 0 ->
  Forall (node_ok m) (F1 ++ (x, sx) :: (y, sy) :: F2) ->
  StronglySorted node_before (F1 ++ (x, sx) :: (y, sy) :: F2) ->
  Forall (node_in lo hi) (F1 ++ (x, sx) :: (y, sy) :: F2) ->
  0 <= sx + sy < 2 ^ ptr_bits ->
  exists head' m',
    free_list_node_remove head x y (set_word m (x + ptr_bytes) (sx + sy)) = Ok (head', m')
    /\ lseg m' head' (F1 ++ (x, sx + sy) :: F2) 0 /\ touched (x :: F1.*1) m m'.
Proof.
  intros Hl Hok HS HI Hsum. pose proof (sorted_apart _ _ _ _ _ HS HI) as Hap; cbn in Hap.
  pose proof (touched_size m x (sx + sy)) as Ht.
  pose proof (lseg_resize _ _ _ _ _ _ (sx + sy) Hl Hap Hsum) as Hl1.
  set (m1 := set_word m (x + ptr_bytes) (sx + sy)) in *.
  destruct (node_remove_ok m1 head (F1 ++ [(x, sx + sy)]) F2 y sy) as (head' & m' & He & Hl' & Ht').
  - by rewrite <- app_assoc.
  - rewrite <- app_assoc; cbn. apply Forall_app in Hok as [Hok1 Hok2].
    apply Forall_cons in Hok2 as [Hx Hok2].
    apply Forall_app; split; [|constructor].
    + eapply Forall_impl; [apply Hok1|]. intros n. by apply touched_node_ok with (N := [x]).
    + apply (touched_node_ok [x] m); [done|]. destruct Hx as (H1 & _ & H3 & H4). exact (conj H1 (conj Hsum (conj H3 H4))).
    + eapply Forall_impl; [apply Hok2|]. intros n. by apply touched_node_ok with (N := [x]).
  - intros n F HF k Hk. apply app_inj_tail in HF as [<- <-]. cbn. apply Hap.
    rewrite !elem_of_app, !elem_of_cons in *. tauto.
  - rewrite last_addr_snoc in He; cbn in He. exists head', m'. split; [done|].
    rewrite <- app_assoc in Hl'. split; [done|].
    eapply touched_trans; [eapply touched_mono; [done|set_solver]|].
    eapply touched_mono; [done|]. rewrite fmap_app. set_solver.
Qed.

(** The part of [rep] that holds between the insertion and the merges: the
    free list is right, but two free blocks may be neighbours. *)
Record listed (lo size : Z) (m : mem) (head : Z) (B : list block) : Prop := {
  li_lo : 0 < lo;
  li_hi : lo + size < 2 ^ ptr_bits;
  li_valid : valid m lo size = true;
  li_total : total B = size;
  li_blocks : blocks_ok lo B;
  li_list : lseg m head (free_nodes lo B) 0
}.

Lemma listed_facts lo size m head B :
  listed lo size m head B ->
  Forall (node_in lo (lo + size)) (free_nodes lo B)
  /\ Forall (node_ok m) (free_nodes lo B)
  /\ StronglySorted node_before (free_nodes lo B).
Proof.
  intros [Hlo Hhi Hv <- Hb _]. pose proof (free_nodes_in _ _ Hb) as HI.
  split_and!; [done| |by apply free_nodes_sorted].
  eapply Forall_impl; [apply HI|]. intros n Hn. by eapply node_in_ok.
Qed.

Lemma blocks_ok_merge lo L s s' R :
  blocks_ok lo (L ++ Free s :: Free s' :: R) -> blocks_ok lo (L ++ Free (s + s') :: R).
Proof.
  rewrite !blocks_ok_app; cbn. unfold block_ok; cbn. rewrite Z.add_assoc.
  pose proof sizes_abi. intuition lia.
Qed.

Lemma within_free_merge lo L s s' R m m' :
  0 <= s -> 0 <= s' ->
  within_free lo (L ++ Free s :: Free s' :: R) m m' -> within_free lo (L ++ Free (s + s') :: R) m m'.
Proof.
  intros ?? [Hr H]. split; [done|]. intros y Hy. apply H. intros n Hn Hin.
  rewrite free_nodes_app in Hn, Hy. cbn in Hn, Hy. rewrite Z.add_assoc in Hy.
  rewrite elem_of_app, !elem_of_cons in Hn.
  assert (Hc : forall k, k ∈ free_nodes lo L \/ k = (lo + total L, s + s')
                         \/ k ∈ free_nodes (lo + total L + s + s') R -> ~ (k.1 <= y < k.1 + k.2)).
  { intros k Hk. apply Hy. rewrite elem_of_app, elem_of_cons. tauto. }
  destruct Hn as [Hn|[->|[->|Hn]]].
  - apply (Hc n); auto.
  - specialize (Hc (lo + total L, s + s')); cbn in *. apply Hc; [auto|lia].
  - specialize (Hc (lo + total L, s + s')); cbn in *. apply Hc; [auto|lia].
  - apply (Hc n); auto.
Qed.

(** Two neighbouring free blocks become one. *)
Lemma merge_ok lo size m head L s s' R :
  listed lo size m head (L ++ Free s :: Free s' :: R) ->
  let x := lo + total L in
  word_ok m (x + ptr_bytes) = true
  /\ exists head' m',
    free_list_node_remove head x (x + s) (set_word m (x + ptr_bytes) (s + s')) = Ok (head', m')
    /\ listed lo size m' head' (L ++ Free (s + s') :: R)
    /\ within_free lo (L ++ Free (s + s') :: R) m m'.
Proof.
  intros Hli x. destruct (listed_facts _ _ _ _ _ Hli) as (HI & Hok & HS).
  pose proof Hli as [Hlo Hhi Hv Ht Hb Hl]. rewrite free_nodes_app in HI, Hok, HS, Hl.
  cbn in HI, Hok, HS, Hl. fold x in HI, Hok, HS, Hl. pose proof sizes_abi as (_ & Hn & _).
  assert (Hx : node_in lo (lo + size) (x, s) /\ node_in lo (lo + size) (x + s, s')).
  { apply Forall_app in HI as [_ HI]. apply Forall_cons in HI as [? HI].
    by apply Forall_cons in HI as [? _]. }
  destruct Hx as [(X1 & X2 & X3 & X4) (Y1 & Y2 & Y3 & Y4)]; cbn in *.
  destruct (absorb_ok lo (lo + size) m head (free_nodes lo L) x s (x + s) s'
              (free_nodes (x + s + s') R)) as (head' & m' & He & Hl' & Htd); try done; [lia|].
  split.
  { apply Forall_app in Hok as [_ Hok]. by apply Forall_cons in Hok as [(_ & _ & _ & ?) _]. }
  exists head', m'. split; [done|]. split.
  - split; try done.
    + by erewrite touched_valid.
    + rewrite <- Ht, !total_app; cbn. lia.
    + by apply blocks_ok_merge.
    + rewrite free_nodes_app; cbn. fold x. by rewrite Z.add_assoc.
  - eapply within_free_merge; [lia|lia|]. eapply within_free_touched; [done|].
    intros a Ha. rewrite free_nodes_app; cbn. fold x. apply elem_of_cons in Ha as [->|Ha].
    + exists (x, s). rewrite elem_of_app, elem_of_cons. cbn. split; [tauto|lia].
    + apply list_elem_of_fmap in Ha as (n & -> & Hn'). exists n. rewrite elem_of_app.
      split; [tauto|]. apply Forall_app in HI as [HI _]. rewrite Forall_forall in HI.
      specialize (HI n Hn'). unfold node_in in HI. lia.
Qed.

Lemma lseg_node m p F1 x s F2 q :
  lseg m p (F1 ++ (x, s) :: F2) q ->
  word_at m (x + ptr_bytes) = s /\ lseg m (word_at m x) F2 q.
Proof. intros Hl. apply lseg_app in Hl as (r & _ & _ & ? & ?). done. Qed.

Lemma coalesce_next_ok lo size m head L s R :
  listed lo size m head (L ++ Free s :: R) ->
  let '(s1, R1) := join_right s R in
  exists head' m',
    coalesce_next head (lo + total L) m = Ok (head', m')
    /\ listed lo size m' head' (L ++ Free s1 :: R1)
    /\ within_free lo (L ++ Free s1 :: R1) m m'.
Proof.
  intros Hli. destruct (listed_facts _ _ _ _ _ Hli) as (HI & Hok & HS).
  pose proof Hli as [Hlo Hhi Hv Ht Hb Hl]. rewrite free_nodes_app in HI, Hok, HS, Hl.
  cbn in HI, Hok, HS, Hl. set (x := lo + total L) in *. pose proof sizes_abi as (_ & Hn & _).
  apply lseg_node in Hl as [Hsx Hl2]. apply Forall_app in HI as [_ HI], Hok as [_ Hok].
  apply Forall_cons in HI as [(X1 & X2 & X3 & X4) HI], Hok as [(Hx & Hs & Hw1 & Hw2) Hok]; cbn in *.
  unfold coalesce_next, node_next, node_block_size.
  destruct R as [|[s'|s' o p] R]; cbn [join_right].
  - cbn in Hl2. rewrite load_Ok by done. rewrite Hl2. do 2 eexists. split; [done|]. by split.
  - cbn in HI, Hok, Hl2. destruct Hl2 as (Hnx & Hsy & _).
    apply Forall_cons in HI as [(Y1 & Y2 & Y3 & _) _], Hok as [(Hy & _ & _ & Hw3) _]; cbn in *.
    destruct (merge_ok _ _ _ _ _ _ _ _ Hli) as (_ & head' & m' & He & Hli' & HW). fold x in He.
    rewrite load_Ok by done. rewrite Hnx, (proj2 (Z.eqb_neq (x + s) 0)) by lia.
    rewrite load_Ok by done. rewrite Hsx, wptr_small, Z.eqb_refl by lia.
    rewrite load_Ok by done. rewrite store_Ok by done. rewrite Hsy, wptr_small by lia. eauto.
  - rewrite load_Ok by done. cbn in HI, Hok, Hl2. apply blocks_ok_app in Hb as [_ Hb]. cbn in Hb.
    destruct Hb as (_ & (_ & Hs' & _) & Hb). cbn in Hs', Hb. fold x in Hb.
    assert (Hne : word_at m x <> x + s).
    { apply lseg_start in Hl2. rewrite Hl2. pose proof (free_nodes_in _ _ Hb) as HF.
      destruct (free_nodes (x + s + s') R) as [|n F]; [lia|].
      apply Forall_cons in HF as [(? & _) _]. lia. }
    destruct (word_at m x =? 0); [by do 2 eexists|].
    rewrite load_Ok by done. rewrite Hsx, wptr_small by lia.
    rewrite (proj2 (Z.eqb_neq _ _)) by lia. by do 2 eexists.
Qed.

Lemma coalesce_prev_ok lo size m head L s R :
  listed lo size m head (L ++ Free s :: R) ->
  let '(L1, s1) := join_left L s in
  exists head' m',
    coalesce_prev head (last_addr (free_nodes lo L)) (lo + total L) m = Ok (head', m')
    /\ listed lo size m' head' (L1 ++ Free s1 :: R)
    /\ within_free lo (L1 ++ Free s1 :: R) m m'.
Proof.
  intros Hli. destruct (listed_facts _ _ _ _ _ Hli) as (HI & Hok & HS).
  pose proof Hli as [Hlo Hhi Hv Ht Hb Hl]. pose proof sizes_abi as (_ & Hn & _).
  unfold coalesce_prev, node_block_size.
  induction L as [|[s0|s0 o p] L _] using rev_ind; rewrite ?join_left_snoc; cbn [is_free].
  - do 2 eexists. done.
  - rewrite <- app_assoc in *; cbn in *.
    destruct (merge_ok _ _ _ _ _ _ _ _ Hli) as (Hw & head' & m' & He & Hli' & HW).
    rewrite free_nodes_app in HI, Hok, Hl. cbn in HI, Hok, Hl. set (w := lo + total L) in *.
    apply Forall_app in HI as [_ HI], Hok as [_ Hok].
    apply Forall_cons in HI as [(X1 & X2 & X3 & _) HI], Hok as [(Hx & _) Hok].
    apply Forall_cons in HI as [(Y1 & Y2 & Y3 & _) _], Hok as [(Hy & _ & _ & Hw3) _]; cbn in *.
    apply lseg_node in Hl as [Hsx Hl2]. cbn in Hl2. destruct Hl2 as (_ & Hsy & _).
    rewrite free_nodes_app; cbn. fold w. rewrite last_addr_snoc; cbn.
    rewrite total_app; cbn. replace (lo + (total L + (s0 + 0))) with (w + s0) by lia.
    rewrite (proj2 (Z.eqb_neq w 0)) by lia. rewrite load_Ok by done. rewrite Hsx, wptr_small by lia.
    rewrite Z.eqb_refl. rewrite load_Ok by done. rewrite store_Ok by done.
    rewrite Hsy, wptr_small by lia. eauto.
  - rewrite !free_nodes_app; cbn. rewrite app_nil_r, total_app; cbn.
    apply blocks_ok_app in Hb as [Hb _]. apply blocks_ok_app in Hb as [HbL Hb]. cbn in Hb.
    destruct Hb as [(_ & Hs0 & _) _]. cbn in Hs0.
    destruct (decide (free_nodes lo L = [])) as [E|E].
    { rewrite E. by do 2 eexists. }
    destruct (exists_last E) as (F & [w sw] & EF). rewrite EF, last_addr_snoc; cbn.
    pose proof (free_nodes_in _ _ HbL) as HF. rewrite EF in HF. apply Forall_app in HF as [_ HF].
    apply Forall_cons in HF as [(W1 & W2 & W3 & _) _]; cbn in *.
    rewrite !free_nodes_app, EF in Hok, Hl, HI. cbn in Hok, Hl, HI.
    rewrite <- !app_assoc in Hok, Hl, HI. cbn in Hok, Hl, HI.
    apply lseg_node in Hl as [Hsw _]. apply Forall_app in Hok as [_ Hok].
    apply Forall_app in HI as [_ HI]. apply Forall_cons in HI as [(_ & V2 & _) _]; cbn in V2.
    apply Forall_cons in Hok as [(_ & _ & _ & Hw) _]; cbn in Hw.
    rewrite (proj2 (Z.eqb_neq w 0)) by lia. rewrite load_Ok by done.
    rewrite Hsw, wptr_small by lia. rewrite (proj2 (Z.eqb_neq _ _)) by lia. by do 2 eexists.
Qed.

Lemma coalescence_ok fl m L s R :
  listed (fl_data fl) (fl_size fl) m (fl_head fl) (L ++ Free s :: R) ->
  exists head' m',
    free_list_coalescence fl (last_addr (free_nodes (fl_data fl) L)) (fl_data fl + total L) m
    = Ok (fl_set_head fl head', m')
    /\ listed (fl_data fl) (fl_size fl) m' head' (release L s R)
    /\ within_free (fl_data fl) (release L s R) m m'.
Proof.
  intros Hli. unfold free_list_coalescence, release.
  pose proof (coalesce_next_ok _ _ _ _ _ _ _ Hli) as H1. destruct (join_right s R) as [s1 R1].
  destruct H1 as (h1 & m1 & He1 & Hli1 & HW1). rewrite (mbind_Ok _ _ _ _ _ He1).
  pose proof (coalesce_prev_ok _ _ _ _ _ _ _ Hli1) as H2.
  destruct (join_left L s1) as [L1 s2] eqn:EL.
  destruct H2 as (h2 & m2 & He2 & Hli2 & HW2). rewrite (mbind_Ok _ _ _ _ _ He2).
  do 2 eexists. split; [done|]. split; [done|]. eapply within_free_trans; [|done].
  unfold join_left in EL. destruct (last L) as [[s0|]|] eqn:E; simplify_eq; try done.
  apply last_Some in E as [L' ->]. rewrite removelast_last. rewrite <- app_assoc in HW1. cbn in HW1.
  destruct Hli1 as [_ _ _ _ Hb _]. rewrite <- app_assoc in Hb. apply blocks_ok_app in Hb as [_ Hb].
  cbn in Hb. destruct Hb as ((_ & Hs0 & _) & (_ & Hs1 & _) & _); cbn in *.
  pose proof sizes_abi as (_ & Hn & _). apply within_free_merge; [lia|lia|done].
Qed.

Lemma within_free_release lo L s R m m' :
  blocks_ok lo (L ++ Free s :: R) ->
  within_free lo (L ++ Free s :: R) m m' -> within_free lo (release L s R) m m'.
Proof.
  intros Hb HW. pose proof sizes_abi as (_ & Hn & _).
  apply blocks_ok_app in Hb as [HbL Hb]. cbn in Hb. destruct Hb as [(_ & Hs & _) HbR]; cbn in Hs, HbR.
  destruct (release_cases L s R) as (L1 & s0 & s1 & R1 & -> & HL & HR).
  assert (HW1 : within_free lo (L ++ Free (s + s1) :: R1) m m' /\ 0 <= s1).
  { destruct HR as [(-> & -> & _)| ->]; [by rewrite Z.add_0_r|].
    cbn in HbR. destruct HbR as [(_ & Hs1 & _) _]; cbn in Hs1.
    split; [|lia]. apply within_free_merge; [lia|lia|done]. }
  destruct HW1 as [HW1 Hs1]. rewrite <- Z.add_assoc.
  destruct HL as [(-> & -> & _)| ->]; [by rewrite Z.add_0_l|].
  apply blocks_ok_app in HbL as [_ HbL]. cbn in HbL. destruct HbL as [(_ & Hs0 & _) _]; cbn in Hs0.
  rewrite <- app_assoc in HW1. apply within_free_merge; [lia|lia|done].
Qed.

(** A row with a block in use, seen as a row in which that block is free. *)
Lemma rep_as_free fl m L s o p R :
  rep fl m (L ++ Used s o p :: R) ->
  blocks_ok (fl_data fl) (L ++ Free s :: R) /\ total (L ++ Free s :: R) = fl_size fl
  /\ lseg m (fl_head fl) (free_nodes (fl_data fl) L ++ free_nodes (fl_data fl + total L + s) R) 0
  /\ hdr_at m (fl_data fl + total L, s, o, p)
  /\ block_ok (fl_data fl + total L) (Used s o p)
  /\ Forall (hdr_at m) (used_blocks (fl_data fl) L ++ used_blocks (fl_data fl + total L + s) R).
Proof.
  intros [Hlo Hhi Hv [Ht Hb _] _ Hl Hh].
  rewrite total_app in Ht. rewrite free_nodes_app in Hl. rewrite used_blocks_app in Hh.
  apply blocks_ok_app in Hb as [HbL [Hb HbR]]. cbn in *.
  apply Forall_app in Hh as [Hh1 Hh2]. apply Forall_cons in Hh2 as [Hh Hh2].
  rewrite blocks_ok_app, total_app; cbn. destruct Hb as (? & ? & ?), Hh as (? & ? & ?).
  split_and!; try done; try lia. by apply Forall_app.
Qed.

Lemma rep_released fl m L s o p R m' head' :
  rep fl m (L ++ Used s o p :: R) ->
  listed (fl_data fl) (fl_size fl) m' head' (release L s R) ->
  within_free (fl_data fl) (release L s R) m m' ->
  rep (fl_set_head (fl_set_used fl (wptr (fl_used fl - s))) head') m' (release L s R).
Proof.
  intros Hrep [Hlo Hhi Hv Ht Hb Hl] HW. pose proof (release_wf _ _ _ _ _ _ _ (rep_wf _ _ _ Hrep)) as Hwf.
  destruct (rep_as_free _ _ _ _ _ _ _ Hrep) as (_ & _ & _ & _ & _ & Hh).
  split; cbn; try done.
  - rewrite (release_used L s o p R), (rep_used _ _ _ Hrep). apply wptr_small.
    rewrite <- (release_used L s o p R). pose proof (total_used_bounds _ _ Hb). lia.
  - eapply within_free_hdrs; [done|done|]. by rewrite release_used_blocks.
Qed.

(** What [free_list_free] does once the node of the block is written: the
    continuation of its first four memory accesses. *)
Definition free_finish (fl : Free_List) (free_node : Z) : M mem Free_List :=
  let! '(prev_node, head) := free_list_place (fl_head fl) free_node in
  let! block_size := load (node_block_size free_node) in
  free_list_coalescence (fl_set_used (fl_set_head fl head) (wptr (fl_used fl - block_size)))
                        prev_node free_node.

(** The memory in which the block [a] has become a node of its size. *)
Definition as_node (m : mem) (a s : Z) : mem := set_word (set_word m (a + ptr_bytes) s) a 0.

Lemma as_node_touched m a s : touched [a] m (as_node m a s).
Proof. eapply touched_trans; [apply touched_size|apply touched_next]. Qed.

(** The block of a row in use, as a node of the row in which it is free. *)
Lemma used_node fl m L s o p R :
  rep fl m (L ++ Used s o p :: R) ->
  node_in (fl_data fl) (fl_data fl + fl_size fl) (fl_data fl + total L, s)
  /\ node_ok m (fl_data fl + total L, s)
  /\ Forall (node_in (fl_data fl) (fl_data fl + fl_size fl))
       (free_nodes (fl_data fl) L
        ++ (fl_data fl + total L, s) :: free_nodes (fl_data fl + total L + s) R).
Proof.
  intros Hrep. destruct (rep_as_free _ _ _ _ _ _ _ Hrep) as (Hb & Ht & _).
  pose proof Hrep as [Hlo Hhi Hv _ _ _ _].
  pose proof (free_nodes_in _ _ Hb) as HI. rewrite Ht, free_nodes_app in HI. cbn in HI.
  pose proof HI as [_ HI']%Forall_app. apply Forall_cons in HI' as [HI' _].
  split_and!; [done| |done]. by eapply node_in_ok.
Qed.

Lemma free_begin fl m L s o p R :
  rep fl m (L ++ Used s o p :: R) ->
  free_list_free fl (fl_data fl + total L + p + sizeof_Header) m
  = free_finish fl (fl_data fl + total L) (as_node m (fl_data fl + total L) s).
Proof.
  intros Hrep. destruct (rep_as_free _ _ _ _ _ _ _ Hrep) as (_ & _ & _ & (_ & Hh2 & Hh3) & Hbk & _).
  destruct (used_node _ _ _ _ _ _ _ Hrep) as ((A1 & A2 & _ & _) & (Ha0 & Hs0 & Hw1 & Hw2) & _).
  pose proof Hrep as [Hlo Hhi Hv _ _ _ _]. set (a := fl_data fl + total L) in *.
  pose proof sizes_abi as (_ & Hn & Hhs & _).
  destruct Hbk as (Hal & Hs & Ho & Hp & Hfit & Hfit2 & Hal2). cbn in *.
  assert (Hw : forall i, 0 <= i <= 2 -> word_ok m (a + p + i * ptr_bytes) = true).
  { intros i Hi. pose proof (hdr_word_ok m _ _ a (p + sizeof_Header) i Hv) as Hw.
    replace (a + (p + sizeof_Header - sizeof_Header)) with (a + p) in Hw by lia.
    apply Hw; [lia|lia|lia| |done]. by rewrite Z.add_assoc. }
  pose proof (Hw 1 ltac:(lia)) as Hwb. rewrite Z.mul_1_l in Hwb.
  unfold free_list_free. rewrite (proj2 (Z.eqb_neq _ 0)) by lia. cbv zeta.
  rewrite (wptr_small (a + p + sizeof_Header - sizeof_Header)) by lia.
  replace (a + p + sizeof_Header - sizeof_Header) with (a + p) by lia.
  unfold hdr_padding at 1. rewrite load_Ok by (by apply Hw). unfold hdr_padding in Hh3. rewrite Hh3.
  rewrite wptr_small by lia. replace (a + p - p) with a by lia.
  unfold hdr_block_size at 1. rewrite load_Ok by done. unfold hdr_block_size in Hh2. rewrite Hh2.
  unfold node_block_size at 1, node_next at 1. by rewrite 2 store_Ok by done.
Qed.

(** The block is put back into the list, in address order. *)
Lemma free_place_ok fl m L s o p R :
  rep fl m (L ++ Used s o p :: R) ->
  exists h' m',
    free_list_place (fl_head fl) (fl_data fl + total L) (as_node m (fl_data fl + total L) s)
    = Ok ((last_addr (free_nodes (fl_data fl) L), h'), m')
    /\ listed (fl_data fl) (fl_size fl) m' h' (L ++ Free s :: R)
    /\ touched ((fl_data fl + total L) :: (free_nodes (fl_data fl) L).*1) m m'.
Proof.
  intros Hrep. destruct (rep_as_free _ _ _ _ _ _ _ Hrep) as (Hb & Ht & Hl & _).
  destruct (used_node _ _ _ _ _ _ _ Hrep) as (Hna & Hoka & HI).
  pose proof Hrep as [Hlo Hhi Hv _ _ _ _]. set (a := fl_data fl + total L) in *.
  pose proof (free_nodes_sorted _ _ Hb) as HS. rewrite free_nodes_app in HS. cbn in HS. fold a in HS.
  pose proof (as_node_touched m a s) as Ht2. pose proof sizes_abi as (_ & Hn & _).
  destruct (place_ok (fl_data fl) (fl_data fl + fl_size fl) (as_node m a s) (fl_head fl)
              (free_nodes (fl_data fl) L) (free_nodes (a + s) R) a s)
    as (h3 & m3 & He3 & Hl3 & Ht3).
  { eapply lseg_touched; [done| |done]. intros n N Hn' HN. assert (N = a) as -> by set_solver.
    exact (sorted_apart _ _ _ _ _ HS HI n Hn'). }
  { rewrite Forall_forall in HI |- *. intros n Hn'. eapply touched_node_ok; [done|].
    eapply node_in_ok; [done|done|done|]. apply HI. rewrite elem_of_app, elem_of_cons in *. tauto. }
  { by eapply touched_node_ok. }
  { destruct Hna as (A1 & A2 & _ & _). cbn in *.
    unfold as_node. rewrite word_at_set_ne by lia. apply word_at_set_same. destruct Hoka as (_ & ? & _). cbn in *. lia. }
  { done. }
  { done. }
  { pose proof (rep_length _ _ _ Hrep) as Hlen. rewrite free_nodes_app, length_app in Hlen. lia. }
  do 2 eexists. split; [done|]. split.
  - split; cbn; try done.
    + by erewrite touched_valid, touched_valid by done.
    + rewrite free_nodes_app; cbn. done.
  - eapply touched_trans; [eapply touched_mono; [done|set_solver]|done].
Qed.

Lemma placed_within_free lo hi L s R m m' :
  Forall (node_in lo hi) (free_nodes lo L ++ (lo + total L, s) :: free_nodes (lo + total L + s) R) ->
  touched ((lo + total L) :: (free_nodes lo L).*1) m m' -> within_free lo (L ++ Free s :: R) m m'.
Proof.
  intros HI HT. eapply within_free_touched; [done|]. pose proof sizes_abi as (_ & Hn & _).
  rewrite Forall_forall in HI. intros y Hy. rewrite free_nodes_app; cbn.
  apply elem_of_cons in Hy as [->|(n & -> & Hn')%list_elem_of_fmap].
  - exists (lo + total L, s). assert (Hin : (lo + total L, s) ∈
      free_nodes lo L ++ (lo + total L, s) :: free_nodes (lo + total L + s) R) by set_solver.
    split; [done|]. specialize (HI _ Hin). unfold node_in in HI. cbn in *. lia.
  - exists n. rewrite elem_of_app. split; [tauto|].
    specialize (HI n ltac:(rewrite elem_of_app; tauto)). unfold node_in in HI. lia.
Qed.

(** [free_list_free] of a pointer the allocator handed out releases its block. *)
Lemma free_ok fl m L s o p R :
  rep fl m (L ++ Used s o p :: R) ->
  exists fl' m',
    free_list_free fl (fl_data fl + total L + p + sizeof_Header) m = Ok (fl', m')
    /\ rep fl' m' (release L s R)
    /\ within_free (fl_data fl) (release L s R) m m'
    /\ fl_data fl' = fl_data fl /\ fl_size fl' = fl_size fl /\ fl_policy fl' = fl_policy fl.
Proof.
  intros Hrep. rewrite (free_begin _ _ _ _ _ _ _ Hrep). unfold free_finish.
  destruct (free_place_ok _ _ _ _ _ _ _ Hrep) as (h3 & m3 & He3 & Hli3 & Ht3).
  destruct (used_node _ _ _ _ _ _ _ Hrep) as (_ & (_ & _ & _ & Hw2) & HI).
  rewrite (mbind_Ok _ _ _ _ _ He3). cbv beta iota.
  pose proof (li_list _ _ _ _ _ Hli3) as Hl3. rewrite free_nodes_app in Hl3. cbn in Hl3.
  destruct (lseg_node _ _ _ _ _ _ _ Hl3) as [Hbs _]. unfold node_block_size at 1.
  rewrite load_Ok by (by rewrite (touched_word_ok _ _ _ _ Ht3)). rewrite Hbs.
  destruct (coalescence_ok (fl_set_used (fl_set_head fl h3) (wptr (fl_used fl - s))) m3 L s R)
    as (h4 & m4 & He4 & Hli4 & HW4); [done|].
  cbn in He4, Hli4, HW4. do 2 eexists. split; [exact He4|].
  assert (HW : within_free (fl_data fl) (release L s R) m m4).
  { eapply within_free_trans; [|done]. apply within_free_release.
    - by destruct (rep_as_free _ _ _ _ _ _ _ Hrep).
    - by eapply placed_within_free. }
  split_and!; try done.
  exact (rep_released fl m L s o p R m4 h4 Hrep Hli4 HW).
Qed.
End FreeOp.
