(* ===== verification/FreeListTrace.v ===== *)
(** * The free-list allocator under arbitrary use

    A client of the allocator: it allocates, writes into what it was given,
    frees and frees everything, in any order. The client runs the code of
    FreeList on [mem]; the invariant ties its live pointers and their contents
    to a row of FreeListSpec, and holds along every sequence of operations. *)
From S2P Require Export FreeListFree.

(** An allocation the client holds: the pointer, the size it asked for and
    the bytes it last wrote at the pointer. *)
Record live := mkLive { lv_ptr : Z; lv_size : Z; lv_data : list Z }.

Record client := mkClient { cl_fl : Free_List; cl_live : list live }.

Variant op :=
| OAlloc (size align : Z)
| OWrite (i : nat) (data : list Z)
| OFree (i : nat)
| OFreeAll.

Section Client.
Context {A : abi}.

Definition do_alloc (c : client) (size align : Z) : M mem client :=
  let! '(p, fl) := free_list_alloc (cl_fl c) size align in
  mret_ (mkClient fl (if p =? 0 then cl_live c else mkLive p size [] :: cl_live c)).

(** A client writes no more than it asked for. *)
Definition do_write (c : client) (i : nat) (data : list Z) : M mem client :=
  match cl_live c !! i with
  | None => mret_ c
  | Some l =>
      let data := list.take (Z.to_nat (lv_size l)) data in
      do! write_data (lv_ptr l) data in
      mret_ (mkClient (cl_fl c) (<[i := mkLive (lv_ptr l) (lv_size l) data]> (cl_live c)))
  end.

Definition do_free (c : client) (i : nat) : M mem client :=
  match cl_live c !! i with
  | None => mret_ c
  | Some l =>
      let! fl := free_list_free (cl_fl c) (lv_ptr l) in
      mret_ (mkClient fl (delete i (cl_live c)))
  end.

Definition do_op (c : client) (o : op) : M mem client :=
  match o with
  | OAlloc size align => do_alloc c size align
  | OWrite i data => do_write c i data
  | OFree i => do_free c i
  | OFreeAll => let! fl := free_list_free_all (cl_fl c) in mret_ (mkClient fl [])
  end.

Fixpoint do_ops (c : client) (os : list op) : M mem client :=
  match os with
  | [] => mret_ c
  | o :: os => let! c := do_op c o in do_ops c os
  end.

Definition op_ok (o : op) : Prop :=
  match o with OAlloc size align => alloc_request size align | _ => True end.

(** ** The invariant *)

(** The pointer and the size of a block in use. *)
Definition payload (u : Z * Z * Z * Z) : Z * Z :=
  let '(a, s, o, p) := u in (a + p + sizeof_Header, o).

Definition lv_payload (l : live) : Z * Z := (lv_ptr l, lv_size l).

Definition data_ok (m : mem) (l : live) : Prop :=
  Z.of_nat (length (lv_data l)) <= lv_size l
  /\ read_bytes m (lv_ptr l) (length (lv_data l)) = lv_data l.

Record client_inv (lo sz : Z) (c : client) (m : mem) (B : list block) : Prop := {
  ci_rep : rep (cl_fl c) m B;
  ci_size : 0 < sz /\ fl_size (cl_fl c) = sz /\ fl_data (cl_fl c) = lo;
  ci_live : lv_payload <$> cl_live c ≡ₚ payload <$> used_blocks (fl_data (cl_fl c)) B;
  ci_data : Forall (data_ok m) (cl_live c)
}.

(** ** Lemmas *)
Lemma insert_Permutation {X} (l : list X) i x y :
  l !! i = Some y -> <[i := x]> l ≡ₚ x :: delete i l.
Proof.
  revert i. induction l as [|z l IH]; intros [|i] Hi; cbn in *; [done|done|done|].
  rewrite IH by done. apply Permutation_swap.
Qed.

Lemma used_blocks_sorted lo B :
  blocks_ok lo B ->
  StronglySorted (fun u v => u.1.1.1 + u.1.1.2 <= v.1.1.1) (used_blocks lo B).
Proof.
  revert lo. induction B as [|b B IH]; intros lo; cbn; [constructor|].
  intros [_ HB]. destruct b; cbn in *; [by apply IH|].
  constructor; [by apply IH|]. eapply Forall_impl; [by apply used_blocks_in|].
  intros [[[a s] o] p]; cbn. lia.
Qed.

Lemma sorted_pairs {X} (R : X -> X -> Prop) l i j x y :
  StronglySorted R l -> l !! i = Some x -> l !! j = Some y -> (i < j)%nat -> R x y.
Proof.
  intros HS. revert i j. induction HS as [|z l HS IH Hz]; intros i j Hi Hj Hij; [done|].
  destruct j as [|j]; [lia|]. destruct i as [|i]; cbn in *.
  - simplify_eq. rewrite Forall_forall in Hz. apply Hz. by eapply list_elem_of_lookup_2.
  - apply (IH i j); [done|done|lia].
Qed.

(** Two different entries of the blocks in use do not overlap. *)
Lemma used_used_disjoint lo B i j a s o p a' s' o' p' :
  blocks_ok lo B -> i <> j ->
  used_blocks lo B !! i = Some (a, s, o, p) -> used_blocks lo B !! j = Some (a', s', o', p') ->
  a + s <= a' \/ a' + s' <= a.
Proof.
  intros Hb Hij Hi Hj. pose proof (used_blocks_sorted _ _ Hb) as HS.
  destruct (decide (i < j)%nat).
  - left. exact (sorted_pairs _ _ _ _ _ _ HS Hi Hj ltac:(lia)).
  - right. exact (sorted_pairs _ _ _ _ _ _ HS Hj Hi ltac:(lia)).
Qed.

Lemma data_ok_same m m' l lo hi :
  data_ok m l -> same_inside lo hi m m' -> lo <= lv_ptr l -> lv_ptr l + lv_size l <= hi ->
  data_ok m' l.
Proof.
  intros [Hl Hr] HS ??. split; [done|]. rewrite <- Hr at 2. apply read_bytes_ext.
  intros x Hx. apply HS. lia.
Qed.

Lemma payload_in_block lo B u :
  blocks_ok lo B -> u ∈ used_blocks lo B ->
  u.1.1.1 <= (payload u).1 /\ (payload u).1 + (payload u).2 <= u.1.1.1 + u.1.1.2
  /\ 0 <= (payload u).2 /\ (payload u).1 mod sizeof_max_align_t = 0
  /\ lo <= u.1.1.1 /\ u.1.1.1 + u.1.1.2 <= lo + total B
  /\ u.1.1.1 + u.2 + sizeof_Header = (payload u).1 /\ 0 <= u.2.
Proof.
  intros Hb Hu. pose proof (used_blocks_in _ _ Hb) as HU. rewrite Forall_forall in HU.
  specialize (HU u Hu). destruct u as [[[a s] o] p]. cbn in *.
  destruct HU as (? & ? & _ & ? & ? & ? & ? & ? & ?). cbn in *.
  pose proof sizes_abi as (_ & _ & ? & _). split_and!; try done; lia.
Qed.

(** Contents survive writes to free blocks. *)
Lemma live_kept lo B m m' ls :
  blocks_ok lo B -> within_free lo B m m' ->
  lv_payload <$> ls ≡ₚ payload <$> used_blocks lo B ->
  Forall (data_ok m) ls -> Forall (data_ok m') ls.
Proof.
  intros Hb HW HP HD. rewrite Forall_forall in HD |- *. intros l Hl.
  assert (Hin : lv_payload l ∈ payload <$> used_blocks lo B).
  { rewrite <- HP. by apply list_elem_of_fmap_2. }
  apply list_elem_of_fmap in Hin as (u & Hu & Hin).
  destruct (payload_in_block _ _ _ Hb Hin) as (H1 & H2 & _).
  destruct u as [[[a s] o] p]. rewrite <- Hu in H1, H2. cbn in H1, H2.
  eapply data_ok_same; [by apply HD|by eapply within_free_used|done|done].
Qed.

(** The client's [i]-th allocation is a block in use of the row. *)
Lemma live_block lo sz c m B i l :
  client_inv lo sz c m B -> cl_live c !! i = Some l ->
  exists L s p R, B = L ++ Used s (lv_size l) p :: R
    /\ lv_ptr l = fl_data (cl_fl c) + total L + p + sizeof_Header
    /\ lv_payload <$> delete i (cl_live c)
       ≡ₚ payload <$> (used_blocks (fl_data (cl_fl c)) L
                       ++ used_blocks (fl_data (cl_fl c) + total L + s) R).
Proof.
  intros [_ _ HP _] Hl.
  assert (Hin : lv_payload l ∈ payload <$> used_blocks (fl_data (cl_fl c)) B).
  { rewrite <- HP. apply list_elem_of_fmap_2. by eapply list_elem_of_lookup_2. }
  apply list_elem_of_fmap in Hin as ([[[a s] o] p] & Hu & Hin).
  apply used_blocks_split in Hin as (L & R & -> & ->).
  unfold lv_payload, payload in Hu. injection Hu as Hp Ho. subst o.
  exists L, s, p, R. split_and!; [done|done|].
  rewrite (delete_Permutation _ _ _ Hl), used_blocks_app in HP. cbn in HP.
  rewrite fmap_app in HP |- *. cbn in HP. rewrite <- Permutation_middle in HP.
  unfold lv_payload at 1 in HP. rewrite Hp in HP. by apply Permutation_cons_inv in HP.
Qed.

(** Writes to free blocks stay in the managed memory. *)
Lemma within_free_region fl m0 B m m' :
  rep fl m0 B -> within_free (fl_data fl) B m m' ->
  same_outside (fl_data fl) (fl_data fl + fl_size fl) m m'.
Proof.
  intros Hrep [Hr HW]. split; [done|]. intros x Hx. apply HW. intros n Hn.
  pose proof (rep_nodes_in _ _ _ Hrep) as HF. rewrite Forall_forall in HF. specialize (HF n Hn).
  unfold node_in in HF. lia.
Qed.

(** ** Every operation keeps the invariant, and writes only managed memory *)
Lemma do_alloc_inv lo sz c m B size align :
  client_inv lo sz c m B -> alloc_request size align ->
  exists c' m' B', do_alloc c size align m = Ok (c', m') /\ client_inv lo sz c' m' B'
    /\ same_outside lo (lo + sz) m m'.
Proof.
  intros [Hrep Hsz HP HD] Hreq. unfold do_alloc.
  destruct (alloc_ok _ _ _ _ _ Hrep Hreq) as
    [(He & _)|(L & s & R & p & fl' & m' & -> & He & Hal)].
  - rewrite (mbind_Ok _ _ _ _ _ He). cbn. exists (mkClient (cl_fl c) (cl_live c)), m, B. by split_and!.
  - rewrite (mbind_Ok _ _ _ _ _ He). destruct Hal as (Hle & Hp & _ & Hrep' & HW & Hd & Hs' & _).
    assert (Hp0 : p <> 0).
    { destruct Hrep as [Hlo _ _ [_ Hb _] _ _ _]. apply blocks_ok_app in Hb as [Hb _].
      apply blocks_ok_total in Hb. pose proof sizes_abi as (_ & _ & ? & ?).
      pose proof (padding_ref_header (fl_data (cl_fl c) + total L) (al_eff align) sizeof_Header) as H1.
      destruct Hreq as (_ & Hpw & _). pose proof (pow2_ptr_range _ (al_eff_pow2 _ Hpw)). lia. }
    rewrite (proj2 (Z.eqb_neq _ _) Hp0).
    do 3 eexists. split; [done|]. split.
    2: { destruct Hsz as (_ & <- & <-). by eapply within_free_region. }
    split; cbn; [done|lia| |].
    + rewrite Hd, used_take, fmap_app. cbn. rewrite <- Permutation_middle. rewrite HP.
      rewrite used_blocks_app; cbn. rewrite fmap_app.
      replace (lv_payload (mkLive p size [])) with
        (fl_data (cl_fl c) + total L + (padding_ref (fl_data (cl_fl c) + total L) (al_eff align)
           sizeof_Header - sizeof_Header) + sizeof_Header, size); [done|].
      unfold lv_payload; cbn. f_equal. lia.
    + constructor; [|by eapply live_kept; [apply Hrep|..]].
      split; cbn; [by destruct Hreq|done].
Qed.

Lemma do_free_inv lo sz c m B i :
  client_inv lo sz c m B -> exists c' m' B', do_free c i m = Ok (c', m') /\ client_inv lo sz c' m' B'
    /\ same_outside lo (lo + sz) m m'.
Proof.
  intros Hinv. unfold do_free. destruct (cl_live c !! i) as [l|] eqn:Hl; [|exists c, m, B; by split_and!].
  destruct (live_block _ _ _ _ _ _ _ Hinv Hl) as (L & s & p & R & -> & -> & HP).
  destruct Hinv as [Hrep Hsz _ HD].
  destruct (free_ok _ _ _ _ _ _ _ Hrep) as (fl' & m' & He & Hrep' & HW & Hd & Hs' & _).
  rewrite (mbind_Ok _ _ _ _ _ He). do 3 eexists. split; [done|].
  assert (HP' : lv_payload <$> delete i (cl_live c)
                ≡ₚ payload <$> used_blocks (fl_data (cl_fl c)) (release L s R)).
  { by rewrite release_used_blocks. }
  split.
  2: { destruct Hsz as (_ & <- & <-). rewrite <- Hd, <- Hs'. eapply within_free_region; [done|by rewrite Hd]. }
  split; cbn; [done|lia|by rewrite Hd|].
  eapply live_kept; [|done|done|by apply Forall_delete].
  destruct (rep_wf _ _ _ Hrep') as [_ Hb _]. by rewrite Hd in Hb.
Qed.

(** A write to the payload of a block in use leaves the allocator alone. *)
Lemma rep_payload_write fl m m' L s o p R :
  rep fl m (L ++ Used s o p :: R) ->
  let a := fl_data fl + total L in
  same_outside (a + p + sizeof_Header) (a + s) m m' ->
  rep fl m' (L ++ Used s o p :: R).
Proof.
  intros Hrep a HO. pose proof Hrep as [Hlo Hhi Hv Hwf Hu Hl Hh]. pose proof Hwf as [_ Hb _].
  set (B := L ++ Used s o p :: R) in *.
  assert (Hi : used_blocks (fl_data fl) B !! length (used_blocks (fl_data fl) L)
               = Some (a, s, o, p)).
  { unfold B. rewrite used_blocks_app, lookup_app_r by lia. by rewrite Nat.sub_diag. }
  pose proof (payload_in_block _ _ _ Hb (list_elem_of_lookup_2 _ _ _ Hi)) as Hin. cbn in Hin.
  split; try done.
  - by erewrite same_outside_valid by done.
  - eapply lseg_ext; [|done]. intros n Hn. pose proof (free_used_disjoint _ _ Hb) as HD.
    pose proof (rep_nodes_in _ _ _ Hrep) as HF. rewrite Forall_forall in HD, HF.
    specialize (HD n Hn). rewrite Forall_forall in HD.
    specialize (HD _ (list_elem_of_lookup_2 _ _ _ Hi)). specialize (HF n Hn).
    unfold node_in, sizeof_Free_List_Node in HF. cbn in HD. pose proof sizes_abi as (? & _).
    intros x Hx. apply HO. unfold sizeof_Free_List_Node in Hx. lia.
  - rewrite Forall_forall in Hh |- *. intros [[[a' s'] o'] p'] Hu'. specialize (Hh _ Hu').
    pose proof (payload_in_block _ _ _ Hb Hu') as Hin'. cbn in Hin'.
    apply list_elem_of_lookup in Hu' as [j Hj].
    assert (Hd : a + s <= a' \/ a' + p' + sizeof_Header <= a + p + sizeof_Header).
    { destruct (decide (j = length (used_blocks (fl_data fl) L))) as [->|Hne].
      - simplify_eq. lia.
      - destruct (used_used_disjoint _ _ _ _ _ _ _ _ _ _ _ _ Hb Hne Hj Hi); [right|left]; lia. }
    destruct Hh as (H1 & H2 & H3). unfold sizeof_Header in *.
    unfold hdr_at, hdr_orig_size, hdr_block_size, hdr_padding in *. pose proof sizes_abi as (? & _).
    split_and!; (erewrite word_at_outside; [done..|lia]).
Qed.

(** The other blocks in use are before or after a block in use. *)
Lemma other_blocks lo L s o p R u :
  blocks_ok lo (L ++ Used s o p :: R) ->
  u ∈ used_blocks lo L ++ used_blocks (lo + total L + s) R ->
  u.1.1.1 <= (payload u).1 /\ (payload u).1 + (payload u).2 <= u.1.1.1 + u.1.1.2
  /\ (u.1.1.1 + u.1.1.2 <= lo + total L \/ lo + total L + s <= u.1.1.1).
Proof.
  intros [HbL [_ HbR]]%blocks_ok_app [Hu|Hu]%elem_of_app.
  - pose proof (payload_in_block _ _ _ HbL Hu). lia.
  - pose proof (payload_in_block _ _ _ HbR Hu). cbn in *. lia.
Qed.

(** memcpy into a payload, as far as the client asked for. *)
Lemma payload_write_ok fl m L s o p R d :
  rep fl m (L ++ Used s o p :: R) -> Z.of_nat (length d) <= o ->
  let q := fl_data fl + total L + p + sizeof_Header in
  exists m', write_data q d m = Ok (tt, m')
    /\ same_outside q (q + o) m m' /\ read_bytes m' q (length d) = d.
Proof.
  intros Hrep Hlen q. pose proof Hrep as [_ _ Hv [Ht Hb _] _ _ _].
  pose proof (payload_in_block _ _ (fl_data fl + total L, s, o, p) Hb) as Hin.
  rewrite used_blocks_app in Hin. specialize (Hin ltac:(set_solver)). cbn in Hin. fold q in Hin.
  unfold write_data. destruct (Z.eqb_spec (Z.of_nat (length d)) 0) as [E|E].
  { destruct d; [|done]. exists m. by split_and!. }
  rewrite (valid_sub _ _ _ _ _ Hv) by lia. eexists. split; [done|]. split.
  - eapply same_outside_weaken; [apply write_bytes_outside|lia|lia].
  - by apply read_write_same.
Qed.

(** Bytes of one held block change, whoever changed them. *)
Lemma client_scribble lo sz c m B i l m' data :
  client_inv lo sz c m B -> cl_live c !! i = Some l ->
  same_outside (lv_ptr l) (lv_ptr l + lv_size l) m m' -> data_ok m' (mkLive (lv_ptr l) (lv_size l) data) ->
  client_inv lo sz (mkClient (cl_fl c) (<[i := mkLive (lv_ptr l) (lv_size l) data]> (cl_live c))) m' B.
Proof.
  intros Hinv Hl HO Hd. pose proof Hinv as [Hrep Hsz HP HD].
  destruct (live_block _ _ _ _ _ _ _ Hinv Hl) as (L & s & p & R & -> & Hp & HP').
  pose proof (payload_in_block _ _ (fl_data (cl_fl c) + total L, s, lv_size l, p)
                (wf_blocks _ _ _ (rep_wf _ _ _ Hrep))) as Hin.
  rewrite used_blocks_app in Hin. specialize (Hin ltac:(set_solver)). cbn in Hin.
  split; cbn.
  - eapply rep_payload_write; [done|]. eapply same_outside_weaken; [exact HO|lia|lia].
  - done.
  - rewrite list_fmap_insert. rewrite list_insert_id; [done|]. by rewrite list_lookup_fmap, Hl.
  - rewrite (insert_Permutation _ _ _ _ Hl). constructor; [done|]. apply (Forall_delete _ _ i) in HD.
    rewrite Forall_forall in HD |- *. intros k Hk.
    assert (Hk' : lv_payload k ∈ lv_payload <$> delete i (cl_live c)) by (by apply list_elem_of_fmap_2).
    rewrite HP' in Hk'. apply list_elem_of_fmap in Hk' as (u & Hu & Hk').
    apply (other_blocks _ _ _ (lv_size l) p) in Hk' as (H1 & H2 & H3); [|apply Hrep].
    rewrite <- Hu in H1, H2. cbn in H1, H2.
    eapply (data_ok_same m m'); [by apply HD| |done|done]. intros x Hx. apply HO. lia.
Qed.

Lemma do_write_inv lo sz c m B i data :
  client_inv lo sz c m B -> exists c' m', do_write c i data m = Ok (c', m') /\ client_inv lo sz c' m' B
    /\ same_outside lo (lo + sz) m m'.
Proof.
  intros Hinv. unfold do_write. destruct (cl_live c !! i) as [l|] eqn:Hl; [|exists c, m; by split_and!].
  set (d := list.take _ data). pose proof Hinv as [Hrep Hsz HP HD].
  destruct (live_block _ _ _ _ _ _ _ Hinv Hl) as (L & s & p & R & -> & Hp & HP').
  assert (Hd : Z.of_nat (length d) <= lv_size l).
  { rewrite Forall_forall in HD. destruct (HD l) as [Hsl _]; [by eapply list_elem_of_lookup_2|].
    unfold d. rewrite length_take. lia. }
  destruct (payload_write_ok _ _ _ _ _ _ _ d Hrep Hd) as (m' & He & HO & Hr). rewrite <- Hp in *.
  rewrite (mbind_Ok _ _ _ _ _ He). do 2 eexists. split; [done|]. split.
  - eapply client_scribble; [done|done| |by split]. eapply same_outside_weaken; [exact HO|lia|lia].
  - destruct Hsz as (_ & <- & <-). destruct (rep_wf _ _ _ Hrep) as [Ht Hb _].
    pose proof (payload_in_block _ _ (fl_data (cl_fl c) + total L, s, lv_size l, p) Hb) as Hin.
    rewrite used_blocks_app in Hin. specialize (Hin ltac:(set_solver)). cbn in Hin.
    eapply same_outside_weaken; [exact HO|lia|lia].
Qed.

Lemma free_all_inv lo sz c m B :
  client_inv lo sz c m B ->
  exists c' m' B', (let! fl := free_list_free_all (cl_fl c) in mret_ (mkClient fl [])) m = Ok (c', m')
    /\ client_inv lo sz c' m' B' /\ cl_live c' = [] /\ same_outside lo (lo + sz) m m'.
Proof.
  intros [Hrep Hsz _ _]. pose proof Hrep as [Hlo Hhi Hv [Ht Hb _] _ _ _].
  assert (Hal : fl_data (cl_fl c) mod sizeof_max_align_t = 0
                /\ sizeof_Free_List_Node <= fl_size (cl_fl c)).
  { destruct B as [|b B]; cbn in *; [lia|]. destruct Hb as [(? & ? & _) Hb].
    apply blocks_ok_total in Hb. split; [done|lia]. }
  destruct (free_all_ok (cl_fl c) m) as (m' & He & Hrep' & HO); [tauto..|].
  rewrite (mbind_Ok _ _ _ _ _ He). do 3 eexists. split; [done|].
  split_and!; [|done|by destruct Hsz as (_ & <- & <-)]. split; cbn; [done|done|done|constructor].
Qed.

Lemma do_op_inv lo sz c m B o :
  client_inv lo sz c m B -> op_ok o ->
  exists c' m' B', do_op c o m = Ok (c', m') /\ client_inv lo sz c' m' B'.
Proof.
  intros Hinv Hok. destruct o as [size al|i d|i|]; cbn in *.
  - destruct (do_alloc_inv _ _ _ _ _ _ _ Hinv Hok) as (? & ? & ? & ? & ? & _). eauto.
  - destruct (do_write_inv _ _ c m B i d Hinv) as (? & ? & ? & ? & _). eauto.
  - destruct (do_free_inv _ _ _ _ _ i Hinv) as (? & ? & ? & ? & ? & _). eauto.
  - destruct (free_all_inv _ _ _ _ _ Hinv) as (? & ? & ? & ? & ? & _). eauto.
Qed.

Lemma do_ops_inv lo sz c m B os :
  client_inv lo sz c m B -> Forall op_ok os ->
  exists c' m' B', do_ops c os m = Ok (c', m') /\ client_inv lo sz c' m' B'.
Proof.
  intros Hinv Hok. revert c m B Hinv. induction Hok as [|o os Ho _ IH]; intros c m B Hinv; cbn.
  { by do 3 eexists. }
  destruct (do_op_inv _ _ _ _ _ _ Hinv Ho) as (c1 & m1 & B1 & He & Hinv1).
  rewrite (mbind_Ok _ _ _ _ _ He). by eapply IH.
Qed.

(** What the client holds is aligned and inside the managed memory. *)
Lemma live_payload_in lo sz c m B l :
  client_inv lo sz c m B -> l ∈ cl_live c ->
  lv_ptr l mod sizeof_max_align_t = 0 /\ lo <= lv_ptr l /\ 0 <= lv_size l
  /\ lv_ptr l + lv_size l <= lo + sz.
Proof.
  intros [Hrep (_ & Hsz & Hlo) HP HD] Hl. destruct (rep_wf _ _ _ Hrep) as [Ht Hb _].
  assert (Hin : lv_payload l ∈ payload <$> used_blocks (fl_data (cl_fl c)) B).
  { rewrite <- HP. by apply list_elem_of_fmap_2. }
  apply list_elem_of_fmap in Hin as (u & Hu & Hin).
  pose proof (payload_in_block _ _ _ Hb Hin) as Hp. rewrite <- Hu in Hp. cbn in Hp.
  split_and!; [tauto|lia..].
Qed.

(** Two blocks the client holds do not overlap. *)
Lemma live_disjoint lo sz c m B i j l k :
  client_inv lo sz c m B -> i <> j -> cl_live c !! i = Some l -> cl_live c !! j = Some k ->
  lv_ptr l + lv_size l <= lv_ptr k \/ lv_ptr k + lv_size k <= lv_ptr l.
Proof.
  intros Hinv Hij Hl Hk.
  pose proof (rep_wf _ _ _ (ci_rep _ _ _ _ _ Hinv)) as [_ Hb _].
  destruct (live_block _ _ _ _ _ _ _ Hinv Hl) as (L & s & p & R & -> & Hp & HP).
  assert (Hin : lv_payload k ∈ lv_payload <$> delete i (cl_live c)).
  { apply list_elem_of_fmap_2. destruct (decide (i < j)%nat).
    - apply (list_elem_of_lookup_2 _ (pred j)). rewrite list_lookup_delete_ge by lia.
      by replace (S (pred j)) with j by lia.
    - apply (list_elem_of_lookup_2 _ j). by rewrite list_lookup_delete_lt by lia. }
  rewrite HP in Hin. apply list_elem_of_fmap in Hin as (u & Hu & Hin).
  apply (other_blocks _ _ _ (lv_size l) p) in Hin as (H1 & H2 & H3); [|done].
  rewrite <- Hu in H1, H2. cbn in H1, H2.
  pose proof (payload_in_block _ _ (fl_data (cl_fl c) + total L, s, lv_size l, p) Hb) as Hin.
  rewrite used_blocks_app in Hin. specialize (Hin ltac:(set_solver)). cbn in Hin. lia.
Qed.

(** The allocator does not depend on memory it does not manage. *)
Lemma rep_frame fl m m' B :
  rep fl m B -> regions m' = regions m -> same_inside (fl_data fl) (fl_data fl + fl_size fl) m m' ->
  rep fl m' B.
Proof.
  intros Hrep Hr HS. pose proof Hrep as [? ? Hv [Ht Hb ?] ? Hl Hh]. split; try done.
  - unfold valid. by rewrite Hr.
  - eapply lseg_ext; [|done]. intros n Hn x Hx. apply HS.
    pose proof (rep_nodes_in _ _ _ Hrep) as HF. rewrite Forall_forall in HF. specialize (HF n Hn).
    unfold node_in in HF. lia.
  - rewrite Forall_forall in Hh |- *. intros u Hu. specialize (Hh u Hu).
    pose proof (payload_in_block _ _ _ Hb Hu) as Hin. destruct u as [[[a s] o] p]. cbn in Hin.
    unfold hdr_at, hdr_orig_size, hdr_block_size, hdr_padding, sizeof_Header in *.
    pose proof sizes_abi as (? & _).
    destruct Hh as (H1 & H2 & H3).
    split_and!; (rewrite (word_at_ext m m'); [done|intros x Hx; apply HS; lia]).
Qed.

Lemma client_inv_frame lo sz c m m' B :
  client_inv lo sz c m B -> regions m' = regions m -> same_inside lo (lo + sz) m m' ->
  client_inv lo sz c m' B.
Proof.
  intros [Hrep (Hpos & Hsz & Hlo) HP HD] Hr HS. split; try done.
  - eapply rep_frame; [done|done|]. by rewrite Hlo, Hsz.
  - rewrite Forall_forall in HD |- *. intros l Hl. destruct (rep_wf _ _ _ Hrep) as [Ht Hb _].
    assert (Hin : lv_payload l ∈ payload <$> used_blocks (fl_data (cl_fl c)) B).
    { rewrite <- HP. by apply list_elem_of_fmap_2. }
    apply list_elem_of_fmap in Hin as (u & Hu & Hin).
    pose proof (payload_in_block _ _ _ Hb Hin) as Hp. rewrite <- Hu in Hp. cbn in Hp.
    eapply data_ok_same; [by apply HD|done|lia|lia].
Qed.

(** A freshly initialised allocator and a client that holds nothing. *)
Definition start (fl : Free_List) (data size : Z) : M mem client :=
  let! fl := free_list_init fl data size in mret_ (mkClient fl []).

(** The memory handed to [free_list_init]. *)
Definition region_ok (m : mem) (data size : Z) : Prop :=
  sizeof_Free_List_Node <= data /\ data + size < 2 ^ ptr_bits /\ valid m data size = true
  /\ sizeof_max_align_t + sizeof_Free_List_Node <= size.

Lemma start_inv fl data size m :
  region_ok m data size ->
  exists c m', start fl data size m = Ok (c, m')
    /\ client_inv (align_up data sizeof_max_align_t) (data + size - align_up data sizeof_max_align_t)
          c m' [Free (fl_size (cl_fl c))]
    /\ fl_policy (cl_fl c) = fl_policy fl /\ cl_live c = [].
Proof.
  intros (H1 & H2 & H3 & H4). destruct (init_ok fl data size m H1 H2 H3 H4) as (m' & He & Hr & _).
  unfold start. rewrite (mbind_Ok _ _ _ _ _ He). do 2 eexists. split; [done|].
  pose proof sizes_abi as (_ & Hn & _). pose proof (align_up_bounds data sizeof_max_align_t ltac:(lia)).
  split_and!; cbn; try done; try lia. split; cbn; try done; lia.
Qed.
End Client.
