(* ===== verification/FreeListThms.v ===== *)
(** * What the free-list allocator guarantees

    The properties of lib/allocators.c's free list, for both ABIs and both
    placement policies. They are stated for the C code itself; the lemmas they
    rest on are in the FreeList files. *)
From S2P Require Export FreeListTrace.

Section Theorems.
Context {A : abi}.

(** The client's blocks do not overlap. *)
Definition disjoint_live (ls : list live) : Prop :=
  forall i j l k, i <> j -> ls !! i = Some l -> ls !! j = Some k ->
    lv_ptr l + lv_size l <= lv_ptr k \/ lv_ptr k + lv_size k <= lv_ptr l.

(** [l] is aligned, inside the managed memory, and has the contents written last. *)
Definition live_good (data size : Z) (m : mem) (l : live) : Prop :=
  lv_ptr l mod sizeof_max_align_t = 0
  /\ data <= lv_ptr l /\ 0 <= lv_size l /\ lv_ptr l + lv_size l <= data + size
  /\ data_ok m l.

Definition run (fl : Free_List) (data size : Z) (os : list op) : M mem client :=
  let! c := start fl data size in do_ops c os.

Lemma run_inv fl data size m os :
  region_ok m data size -> Forall op_ok os ->
  exists c m' B, run fl data size os m = Ok (c, m')
    /\ client_inv (align_up data sizeof_max_align_t)
         (data + size - align_up data sizeof_max_align_t) c m' B.
Proof.
  intros Hr Hos. destruct (start_inv fl _ _ _ Hr) as (c & m1 & He & Hinv & _).
  unfold run. rewrite (mbind_Ok _ _ _ _ _ He). by eapply do_ops_inv.
Qed.

(** C3: Memory safety and integrity of the allocator under arbitrary use. After
    [free_list_init] on a mapped region, every sequence of allocations, writes
    into allocated blocks, frees and free-alls runs to the end (no assertion
    fails, no access leaves the region, no loop runs away), every live
    pointer is aligned to max_align_t and inside the region, every allocation
    still holds the bytes its owner wrote last, and what the allocator keeps in
    the region is a well-formed row of blocks that tiles it, whose blocks in
    use are the client's ([client_inv]). The requests are those whose size plus
    four times their alignment does not pass SIZE_MAX ([op_ok]);
    [alloc_huge_wraps] is why. *)
Theorem client_safe fl data size m os :
  region_ok m data size -> Forall op_ok os ->
  exists c m' B, run fl data size os m = Ok (c, m')
    /\ Forall (live_good data size m') (cl_live c)
    /\ client_inv (align_up data sizeof_max_align_t)
         (data + size - align_up data sizeof_max_align_t) c m' B.
Proof.
  intros Hr Hos. destruct (run_inv fl _ _ _ _ Hr Hos) as (c & m' & B & He & Hinv).
  exists c, m', B. split; [done|]. split; [|done]. pose proof (ci_data _ _ _ _ _ Hinv) as HD.
  rewrite Forall_forall in HD |- *. intros l Hl.
  pose proof (live_payload_in _ _ _ _ _ _ Hinv Hl) as (? & ? & ? & ?).
  pose proof sizes_abi as (_ & Hn & _).
  pose proof (align_up_bounds data sizeof_max_align_t (Z.lt_le_trans _ _ _ (proj1 Hn) (proj2 Hn))).
  split_and!; try done; try lia. by apply HD.
Qed.

(** The blocks a client holds at any time never overlap. *)
Theorem client_disjoint fl data size m os c m' :
  region_ok m data size -> Forall op_ok os ->
  run fl data size os m = Ok (c, m') -> disjoint_live (cl_live c).
Proof.
  intros Hr Hos He. destruct (run_inv fl _ _ _ _ Hr Hos) as (c1 & m1 & B & He1 & Hinv).
  rewrite He in He1. injection He1 as <- <-. intros i j l k Hij Hl Hk. by eapply live_disjoint.
Qed.

(** When nothing is allocated, the free list is one node over all the memory. *)
Lemma all_freed lo sz c m B :
  client_inv lo sz c m B -> cl_live c = [] ->
  fl_head (cl_fl c) = lo /\ word_at m (node_next lo) = 0 /\ word_at m (node_block_size lo) = sz
  /\ fl_size (cl_fl c) = sz /\ fl_used (cl_fl c) = 0
  /\ word_ok m (node_next lo) = true /\ word_ok m (node_block_size lo) = true /\ 0 < lo.
Proof.
  intros [Hrep (Hpos & Hsz & Hlo) HP _] Hl. pose proof (rep_nodes_ok _ _ _ Hrep) as Hok.
  destruct Hrep as [H0 _ _ Hwf Hu Hls _].
  rewrite Hl in HP. cbn in HP. apply Permutation_nil in HP. apply fmap_nil_inv in HP.
  apply wf_all_free in Hwf as ->; [|lia|done].
  cbn in Hls, Hu, Hok. rewrite Hlo in Hls, Hok, H0. destruct Hls as (Hh & Hbs & Hnx).
  apply Forall_cons in Hok as [(_ & _ & Hw1 & Hw2) _]. cbn in Hw1, Hw2. unfold node_next, node_block_size.
  split_and!; try done. rewrite Hbs. lia.
Qed.

(** No memory is lost to fragmentation for good: whatever the history, when
    nothing is allocated any more the free list is one node that covers the
    whole managed memory, and [used] is 0. This is what the allocator's
    torture test checks at its end. *)
Theorem client_all_freed fl data size m os c m' :
  region_ok m data size -> Forall op_ok os ->
  run fl data size os m = Ok (c, m') -> cl_live c = [] ->
  let lo := align_up data sizeof_max_align_t in
  fl_head (cl_fl c) = lo /\ word_at m' (node_next lo) = 0
  /\ word_at m' (node_block_size lo) = data + size - lo
  /\ fl_size (cl_fl c) = data + size - lo /\ fl_used (cl_fl c) = 0.
Proof.
  intros Hr Hos He Hl lo. destruct (run_inv fl _ _ _ _ Hr Hos) as (c1 & m1 & B & He1 & Hinv).
  rewrite He in He1. injection He1 as <- <-.
  destruct (all_freed _ _ _ _ _ Hinv Hl) as (? & ? & ? & ? & ? & _). by split_and!.
Qed.

(** ** One operation at a time *)

(** C14: [free_list_alloc] implements the abstract allocator: for a request that
    does not come close to SIZE_MAX ([alloc_request]: size plus four times the
    alignment), it returns NULL and changes nothing when no free block can hold
    the padded request; otherwise it carves the block out of the free block the
    placement policy names ([policy_block]: under first fit the lowest one that
    fits, under best fit the lowest of those that leave the least over),
    returning a pointer with the requested alignment and writing only to memory
    that was free ([allocated]). *)
Theorem alloc_refines fl m B orig al :
  rep fl m B -> alloc_request orig al ->
  exists r fl' m', free_list_alloc fl orig al m = Ok ((r, fl'), m')
    /\ (r = 0 <-> Forall (fun n => fits (size_eff orig al) (al_eff al) n = false)
                         (free_nodes (fl_data fl) B))
    /\ (r = 0 -> fl' = fl /\ m' = m)
    /\ (r <> 0 -> r mod al = 0 /\ exists L s R, B = L ++ Free s :: R
                  /\ policy_block fl orig al L s R
                  /\ allocated fl m orig al L s R r fl' m').
Proof.
  intros Hrep Hreq. destruct (alloc_chosen _ _ _ _ _ Hrep Hreq) as
    [(He & HF)|(L & s & R & p & fl' & m' & -> & HC & He & Hal)].
  { exists 0, fl, m. by split_and!. }
  exists p, fl', m'. split; [done|]. pose proof Hal as (Hle & Hp & Hmod & _).
  pose proof Hreq as (_ & Hpw & _). pose proof (al_eff_pow2 _ Hpw) as Hpe.
  pose proof (pow2_ptr_range _ Hpe) as Her. pose proof (pow2_ptr_range _ Hpw) as Hr.
  assert (Hp0 : p <> 0).
  { destruct Hrep as [Hlo _ _ [_ Hb _] _ _ _]. apply blocks_ok_app in Hb as [Hb _].
    apply blocks_ok_total in Hb. pose proof sizes_abi as (_ & _ & Hh & _).
    pose proof (padding_ref_header (fl_data fl + total L) (al_eff al) sizeof_Header (proj1 Her)). lia. }
  split_and!; [|done|].
  - split; [done|]. intros HF. rewrite free_nodes_app in HF. apply Forall_app in HF as [_ HF].
    cbn in HF. apply Forall_cons in HF as [HF _]. unfold fits in HF. cbn in HF. lia.
  - intros _. split; [|by eauto 10]. eapply mod_0_trans; [|apply pow2_ptr_divide; [done|exact Hpe|]|done].
    + lia.
    + unfold al_eff. break_if; lia.
Qed.

(** C16: [free_list_free] implements release: freeing the pointer of any block
    in use returns normally, turns the block into free space merged with its
    free neighbours on both sides, subtracts its size from [used], and writes
    nothing outside free memory. *)
Theorem free_refines fl m L s o p R :
  rep fl m (L ++ Used s o p :: R) ->
  exists fl' m',
    free_list_free fl (fl_data fl + total L + p + sizeof_Header) m = Ok (fl', m')
    /\ rep fl' m' (release L s R) /\ fl_used fl' = fl_used fl - s
    /\ within_free (fl_data fl) (release L s R) m m'.
Proof.
  intros Hrep. destruct (free_ok _ _ _ _ _ _ _ Hrep) as (fl' & m' & He & Hr & HW & _).
  exists fl', m'. split_and!; try done.
  rewrite (rep_used _ _ _ Hr), (rep_used _ _ _ Hrep). apply release_used.
Qed.

(** A block cut out of a free block of a coalesced row, and what follows it. *)
Lemma take_release L s R required orig pad :
  coalesced (L ++ Free s :: R) ->
  exists R', take L s R required orig pad = L ++ Used (take_size s required) orig pad :: R'
             /\ release L (take_size s required) R' = L ++ Free s :: R.
Proof.
  intros (_ & [HR _] & HL)%coalesced_app. cbn in HR, HL. specialize (HR eq_refl).
  assert (HjL : forall x, join_left L x = (L, x)).
  { intros x. unfold join_left, ends_free in *. destruct (last L) as [[|]|]; [|done..].
    by specialize (HL eq_refl). }
  unfold take, take_size. break_if; eexists; (split; [done|]); unfold release; cbn.
  - rewrite HjL. do 3 f_equal. lia.
  - destruct R as [|[|] R]; cbn in *; [|done|]; by rewrite HjL.
Qed.

(** The struct is determined by what it represents. *)
Lemma rep_unique fl fl' m m' B :
  rep fl m B -> rep fl' m' B ->
  fl_data fl' = fl_data fl -> fl_size fl' = fl_size fl -> fl_policy fl' = fl_policy fl -> fl' = fl.
Proof.
  intros [_ _ _ _ Hu Hl _] [_ _ _ _ Hu' Hl' _] Hd Hs Hp.
  apply lseg_start in Hl, Hl'. rewrite Hd in Hl'. destruct fl, fl'; cbn in *. congruence.
Qed.

(** Allocating and freeing at once is a round trip: the allocator is back in
    exactly the state it was in, with the same row of blocks. *)
Theorem alloc_free_roundtrip fl m B orig al r fl' m' :
  rep fl m B -> alloc_request orig al ->
  free_list_alloc fl orig al m = Ok ((r, fl'), m') ->
  exists m'', free_list_free fl' r m' = Ok (fl, m'') /\ rep fl m'' B.
Proof.
  intros Hrep Hreq He. destruct (alloc_ok _ _ _ _ _ Hrep Hreq) as
    [(He' & _)|(L & s & R & p & fl1 & m1 & -> & He' & Hal)]; rewrite He in He'; simplify_eq.
  { by exists m. }
  destruct Hal as (_ & -> & _ & Hrep' & _ & Hd & Hs & Hpol).
  destruct (take_release L s R (space_at (size_eff orig al) (al_eff al) (fl_data fl + total L)) orig
    (padding_ref (fl_data fl + total L) (al_eff al) sizeof_Header - sizeof_Header)
    (wf_coalesced _ _ _ (rep_wf _ _ _ Hrep))) as (R' & HT & HR).
  rewrite HT in Hrep'. destruct (free_ok _ _ _ _ _ _ _ Hrep') as (fl2 & m2 & He2 & Hr2 & _ & ? & ? & ?).
  rewrite Hd in He2.
  replace (fl_data fl + total L + (padding_ref (fl_data fl + total L) (al_eff al) sizeof_Header
             - sizeof_Header) + sizeof_Header)
    with (fl_data fl + total L + padding_ref (fl_data fl + total L) (al_eff al) sizeof_Header)
    in He2 by lia.
  rewrite HR in Hr2. assert (fl2 = fl) as -> by (eapply rep_unique; [exact Hrep|done|congruence..]).
  by eauto.
Qed.

(** ** Placement *)

(** Best fit is optimal: when some free block fits, [free_list_find_best]
    returns a block that fits such that no block that fits leaves less over,
    together with the block's predecessor in the list and its padding. *)
Theorem find_best_minimal fl m B size al node prev padding :
  rep fl m B -> request_ok size al -> sizeof_Header < size ->
  free_list_find_best fl size al m = Ok ((node, prev, padding), m) -> node <> 0 ->
  exists F1 s F2, free_nodes (fl_data fl) B = F1 ++ (node, s) :: F2
    /\ prev = last_addr F1 /\ padding = padding_ref node al sizeof_Header
    /\ space_at size al node <= s
    /\ Forall (fun k => fits size al k = true ->
                        s - space_at size al node <= k.2 - space_at size al k.1)
              (free_nodes (fl_data fl) B).
Proof.
  intros Hrep Hreq Hh He Hn.
  assert (Hbf : (node, prev, padding)
    = best_fit size al (free_nodes (fl_data fl) B) (mkBest (fl_head fl) 0 0 0 0 SIZE_MAX)).
  { unfold free_list_find_best in He. erewrite iterate_loop in He; [by injection He| |].
    - by eapply rep_length.
    - eapply find_best_iterate; [done|done|by apply rep_list|by eapply rep_nodes_ok|done]. }
  destruct (best_fit_cases size al (free_nodes (fl_data fl) B)
              (mkBest (fl_head fl) 0 0 0 0 SIZE_MAX))
    as [(E & _)|(F1 & [a s] & F2 & HF & Hfit & _ & _ & Hmin & E)]; rewrite E in Hbf; cbn in Hbf.
  { injection Hbf as -> _ _. done. }
  injection Hbf as -> -> ->. exists F1, s, F2. unfold fits in Hfit. cbn in *.
  split_and!; try done; lia.
Qed.

(** First fit is first: [free_list_find_first] returns the lowest block that
    fits; every free block before it is too small. *)
Theorem find_first_lowest fl m B size al node prev padding :
  rep fl m B -> request_ok size al -> sizeof_Header < size ->
  free_list_find_first fl size al m = Ok ((node, prev, padding), m) -> node <> 0 ->
  exists F1 s F2, free_nodes (fl_data fl) B = F1 ++ (node, s) :: F2
    /\ prev = last_addr F1 /\ padding = padding_ref node al sizeof_Header
    /\ space_at size al node <= s
    /\ Forall (fun k => k.1 < node /\ k.2 < space_at size al k.1) F1.
Proof.
  intros Hrep Hreq Hh He Hn.
  assert (Hff : (node, prev, padding) = first_fit size al (free_nodes (fl_data fl) B) 0 0).
  { unfold free_list_find_first in He. erewrite iterate_loop in He; [by injection He| |].
    - by eapply rep_length.
    - eapply find_first_iterate; [done|done|by apply rep_list|by eapply rep_nodes_ok]. }
  destruct (first_fit_cases size al (free_nodes (fl_data fl) B) 0 0)
    as [(? & ? & E & _)|(F1 & [a s] & F2 & HF & Hfit & Hnone & E)]; rewrite E in Hff; cbn in Hff.
  { injection Hff as -> _ _. done. }
  injection Hff as -> -> ->. exists F1, s, F2. unfold fits in *. cbn in *.
  pose proof (rep_sorted _ _ _ Hrep) as HS. rewrite HF in HS.
  apply sorted_before in HS as [HS _]. pose proof (rep_nodes_in _ _ _ Hrep) as HI.
  rewrite HF in HI. apply Forall_app in HI as [HI _].
  split_and!; try done; [lia|]. rewrite Forall_forall in Hnone, HS, HI |- *. intros k Hk.
  specialize (Hnone k Hk). specialize (HS k Hk). specialize (HI k Hk). unfold node_before, node_in in *.
  pose proof sizes_abi as (_ & Hns & _). cbn in *. lia.
Qed.
End Theorems.

(** ** Witnesses and limits: the theorems at concrete inputs

    A region of 64 KiB on the board, managed with either policy. *)
Definition arm_mem : mem := Mem [(4096, 65536)] ∅.

Definition fl0 (policy : Placement_Policy) : Free_List := mkFL 0 0 0 0 policy.

Definition some_ops : list op :=
  [OAlloc 100 16; OAlloc 10 64; OWrite 0 [1; 2; 3]; OFree 1; OAlloc 50 8; OAlloc 70000 8].

Lemma arm_region : region_ok (A := ARMv7) arm_mem 4096 65536.
Proof. split_and!; by vm_compute. Qed.

Lemma arm_request size k :
  0 <= size < 2 ^ 31 -> 0 <= k < 16 -> alloc_request (A := ARMv7) size (2 ^ k).
Proof.
  intros Hs Hk. pose proof (Z.pow_le_mono_r 2 k 16 ltac:(lia) ltac:(lia)) as Hp.
  unfold alloc_request, pow2_ptr, ptr_bits, ptr_bytes, sizeof_max_align_t.
  split_and!; [lia| |lia]. exists k. split; [lia|done].
Qed.

Lemma some_ops_ok : Forall (op_ok (A := ARMv7)) some_ops.
Proof.
  unfold some_ops. repeat (apply Forall_cons_2); try exact I; [..|apply Forall_nil_2].
  - exact (arm_request 100 4 ltac:(lia) ltac:(lia)).
  - exact (arm_request 10 6 ltac:(lia) ltac:(lia)).
  - exact (arm_request 50 3 ltac:(lia) ltac:(lia)).
  - exact (arm_request 70000 3 ltac:(lia) ltac:(lia)).
Qed.

Lemma client_safe_witness :
  exists c m' B, run (A := ARMv7) (fl0 Placement_Policy_Find_Best) 4096 65536 some_ops arm_mem
               = Ok (c, m')
    /\ Forall (live_good (A := ARMv7) 4096 65536 m') (cl_live c)
    /\ client_inv (A := ARMv7) 4096 65536 c m' B.
Proof.
  exact (client_safe (A := ARMv7) (fl0 Placement_Policy_Find_Best) 4096 65536 arm_mem some_ops
           arm_region some_ops_ok).
Defined.

Lemma client_disjoint_witness :
  exists c m', run (A := ARMv7) (fl0 Placement_Policy_Find_First) 4096 65536 some_ops arm_mem
               = Ok (c, m')
    /\ length (cl_live c) = 2%nat /\ disjoint_live (cl_live c).
Proof.
  do 2 eexists. assert (He : run (A := ARMv7) (fl0 Placement_Policy_Find_First) 4096 65536 some_ops
    arm_mem = Ok (_, _)) by (vm_compute; reflexivity).
  split; [exact He|]. split; [reflexivity|].
  exact (client_disjoint (A := ARMv7) _ _ _ _ _ _ _ arm_region some_ops_ok He).
Defined.

Lemma client_all_freed_witness :
  exists c m',
    run (A := ARMv7) (fl0 Placement_Policy_Find_First) 4096 65536
        (some_ops ++ [OFree 1; OFree 0]) arm_mem = Ok (c, m')
    /\ fl_head (cl_fl c) = 4096 /\ fl_used (cl_fl c) = 0.
Proof.
  do 2 eexists. assert (He : run (A := ARMv7) (fl0 Placement_Policy_Find_First) 4096 65536
    (some_ops ++ [OFree 1; OFree 0]) arm_mem = Ok (_, _)) by (vm_compute; reflexivity).
  split; [exact He|].
  assert (Hos : Forall (op_ok (A := ARMv7)) (some_ops ++ [OFree 1; OFree 0])).
  { apply Forall_app_2; [exact some_ops_ok|repeat constructor]. }
  destruct (client_all_freed (A := ARMv7) _ _ _ _ _ _ _ arm_region Hos He eq_refl)
    as (H1 & _ & _ & _ & H2).
  split; [exact H1|exact H2].
Defined.

(** A row in memory, with a block in use, to instantiate [rep]. *)
Lemma arm_rep_free pol :
  exists fl m, rep (A := ARMv7) fl m [Free 65536] /\ fl_data fl = 4096 /\ fl_policy fl = pol.
Proof.
  destruct (start_inv (A := ARMv7) (fl0 pol) 4096 65536 arm_mem arm_region)
    as (c & m & _ & [Hr (_ & Hs & Hd) _ _] & Hp & _).
  exists (cl_fl c), m. rewrite Hs in Hr. split_and!; [exact Hr|exact Hd|exact Hp].
Qed.

Lemma arm_rep_used :
  exists fl m, rep (A := ARMv7) fl m [Used 128 100 4; Free 65408] /\ fl_data fl = 4096.
Proof.
  destruct (arm_rep_free Placement_Policy_Find_Best) as (fl & m & Hr & Hd & _).
  destruct (alloc_ok (A := ARMv7) _ _ _ 100 16 Hr (arm_request 100 4 ltac:(lia) ltac:(lia)))
    as [(_ & HF)|(L & s & R & p & fl' & m' & HB & _ & Hal)].
  - rewrite Hd in HF. cbn [free_nodes] in HF. apply Forall_cons in HF as [HF _]. by vm_compute in HF.
  - destruct L as [|b [|b' L]]; simplify_list_eq. destruct Hal as (_ & _ & _ & Hr' & _ & Hd' & _).
    rewrite Hd in *. exists fl', m'. split; [exact Hr'|exact Hd'].
Qed.

Lemma alloc_refines_witness :
  exists fl m, rep (A := ARMv7) fl m [Free 65536]
    /\ exists r fl' m', free_list_alloc (A := ARMv7) fl 100 16 m = Ok ((r, fl'), m').
Proof.
  destruct (arm_rep_free Placement_Policy_Find_Best) as (fl & m & Hr & _). exists fl, m. split; [exact Hr|].
  destruct (alloc_refines (A := ARMv7) fl m _ 100 16 Hr (arm_request 100 4 ltac:(lia) ltac:(lia)))
    as (r & fl' & m' & He & _). exists r, fl', m'. exact He.
Defined.

Lemma free_refines_witness :
  exists fl m fl' m', rep (A := ARMv7) fl m [Used 128 100 4; Free 65408]
    /\ free_list_free (A := ARMv7) fl 4112 m = Ok (fl', m')
    /\ rep (A := ARMv7) fl' m' [Free 65536].
Proof.
  destruct arm_rep_used as (fl & m & Hr & Hd).
  destruct (free_refines (A := ARMv7) fl m [] 128 100 4 [Free 65408] Hr)
    as (fl' & m' & He & Hr' & _). rewrite Hd in He. exists fl, m, fl', m'.
  split; [exact Hr|]. split; [exact He|exact Hr'].
Defined.

Lemma alloc_free_roundtrip_witness :
  exists fl m r fl' m' m'', rep (A := ARMv7) fl m [Free 65536]
    /\ free_list_alloc (A := ARMv7) fl 100 16 m = Ok ((r, fl'), m')
    /\ free_list_free (A := ARMv7) fl' r m' = Ok (fl, m'').
Proof.
  destruct (arm_rep_free Placement_Policy_Find_Best) as (fl & m & Hr & _).
  pose proof (arm_request 100 4 ltac:(lia) ltac:(lia)) as Hq.
  assert (He : exists r fl' m', free_list_alloc (A := ARMv7) fl 100 16 m = Ok ((r, fl'), m')).
  { destruct (alloc_ok (A := ARMv7) _ _ _ _ _ Hr Hq) as [(He & _)|(? & ? & ? & ? & ? & ? & _ & He & _)];
      eauto. }
  destruct He as (r & fl' & m' & He).
  destruct (alloc_free_roundtrip (A := ARMv7) _ _ _ _ _ _ _ _ Hr Hq He) as (m'' & He2 & _).
  exists fl, m, r, fl', m', m''. split; [exact Hr|]. split; [exact He|exact He2].
Defined.

Lemma arm_request_ok : request_ok (A := ARMv7) 128 16 /\ sizeof_Header (A := ARMv7) < 128.
Proof.
  split; [|by vm_compute]. split; [|by vm_compute]. exists 4. by vm_compute.
Qed.

(** What either search finds in an empty allocator. *)
Lemma arm_search pol :
  exists fl m, rep (A := ARMv7) fl m [Free 65536] /\ fl_data fl = 4096
    /\ match pol with
       | Placement_Policy_Find_Best => free_list_find_best (A := ARMv7) fl 128 16
       | Placement_Policy_Find_First => free_list_find_first (A := ARMv7) fl 128 16
       end m = Ok ((4096, 0, 16), m).
Proof.
  destruct (arm_rep_free pol) as (fl & m & Hr & Hd & Hp). destruct arm_request_ok as [Hq Hh].
  exists fl, m. split_and!; [exact Hr|exact Hd|].
  destruct (search_ok (A := ARMv7) _ _ _ _ _ Hr Hq Hh) as (r & He & Hf). rewrite Hp in He.
  rewrite He. do 2 f_equal. rewrite Hd in Hf. cbn in Hf. inversion Hf as [? ? HF|F1 n F2 HF ? ?]; subst.
  - apply Forall_cons in HF as [HF _]. by vm_compute in HF.
  - destruct F1 as [|? [|? F1]]; simplify_list_eq. by vm_compute.
Qed.

Lemma find_best_minimal_witness :
  exists fl m, free_list_find_best (A := ARMv7) fl 128 16 m = Ok ((4096, 0, 16), m)
    /\ exists F1 s F2, free_nodes 4096 [Free 65536] = F1 ++ (4096, s) :: F2.
Proof.
  destruct (arm_search Placement_Policy_Find_Best) as (fl & m & Hr & Hd & He).
  exists fl, m. split; [exact He|].
  destruct (find_best_minimal (A := ARMv7) _ _ _ _ _ _ _ _ Hr (proj1 arm_request_ok)
    (proj2 arm_request_ok) He ltac:(lia)) as (F1 & s & F2 & HF & _).
  rewrite Hd in HF. exists F1, s, F2. exact HF.
Defined.

Lemma find_first_lowest_witness :
  exists fl m, free_list_find_first (A := ARMv7) fl 128 16 m = Ok ((4096, 0, 16), m)
    /\ exists F1 s F2, free_nodes 4096 [Free 65536] = F1 ++ (4096, s) :: F2.
Proof.
  destruct (arm_search Placement_Policy_Find_First) as (fl & m & Hr & Hd & He).
  exists fl, m. split; [exact He|].
  destruct (find_first_lowest (A := ARMv7) _ _ _ _ _ _ _ _ Hr (proj1 arm_request_ok)
    (proj2 arm_request_ok) He ltac:(lia)) as (F1 & s & F2 & HF & _).
  rewrite Hd in HF. exists F1, s, F2. exact HF.
Defined.

(** A request close to SIZE_MAX is not refused: rounding it up to the
    alignment wraps to 0, so asking for 4 GiB - 4 bytes on the board succeeds
    and the block that is handed out is 16 bytes long, header included. *)
Theorem alloc_huge_wraps :
  exists fl m', (let! fl := free_list_init (A := ARMv7) (fl0 Placement_Policy_Find_Best) 4096 65536 in
                 free_list_alloc (A := ARMv7) fl (2 ^ 32 - 4) 16) arm_mem = Ok ((4112, fl), m')
    /\ fl_used fl = 16.
Proof. do 2 eexists. split; [vm_compute; reflexivity|reflexivity]. Qed.

(** The guard of [free_list_init] does not keep out a buffer that is smaller
    than its alignment gap: 8 bytes at 4097 pass the assertion, and the
    allocator then believes that it manages almost the whole address space. *)
Theorem init_undersized_accepted :
  exists fl m', free_list_init (A := ARMv7) (fl0 Placement_Policy_Find_Best) 4097 8 arm_mem
                = Ok (fl, m')
    /\ fl_data fl = 4112 /\ fl_size fl = 2 ^ 32 - 7.
Proof. do 2 eexists. split; [vm_compute; reflexivity|split; reflexivity]. Qed.
