(* ===== verification/Torture.v ===== *)
(** * The allocator's torture test (tools/test_allocator.c)

    The test allocates and frees blocks of random sizes, paints each with a
    pattern, checks the pattern before freeing, and asserts at the end that the
    free list has coalesced into one node. [rand] is any function of the number
    of calls made so far, malloc(3) any mapped region: the test passes for all
    of them. (The array of records, whose malloc the test does not check, is
    taken to be there; the progress messages are left out.) A failed check (exit(1)) stops the program like an assertion. *)
From S2P Require Export FreeListThms.

Definition ARENA_SIZE : Z := 1024 * 1024 * 128.
Definition MAX_ACTIVE_ALLOCS : nat := Z.to_nat 20000.
Definition TEST_ITERATIONS : Z := 2000000.

Record Allocation_Record := mkRec { ar_ptr : Z; ar_size : Z; ar_pattern : Z }.

(** The memory and the local variables; active_count is the length of the
    records; [t_rand] counts the calls of rand(3). *)
Record tst := mkT {
  t_mem : mem; t_fl : Free_List; t_recs : list Allocation_Record; t_peak : Z; t_rand : nat }.

Section Torture.
Context {A : abi} (rand : nat -> Z).

Definition rand_ : M tst Z :=
  fun t => Ok (rand (t_rand t), mkT (t_mem t) (t_fl t) (t_recs t) (t_peak t) (S (t_rand t))).

Definition mem_ {X} (c : M mem X) : M tst X :=
  fun t => match c (t_mem t) with
           | Ok (x, m) => Ok (x, mkT m (t_fl t) (t_recs t) (t_peak t) (t_rand t))
           | Trap e => Trap e
           end.

Definition set_fl (fl : Free_List) : M tst unit :=
  modify_ (fun t => mkT (t_mem t) fl (t_recs t) (t_peak t) (t_rand t)).
Definition set_recs (r : list Allocation_Record) : M tst unit :=
  modify_ (fun t => mkT (t_mem t) (t_fl t) r (t_peak t) (t_rand t)).
Definition set_peak (p : Z) : M tst unit :=
  modify_ (fun t => mkT (t_mem t) (t_fl t) (t_recs t) p (t_rand t)).

Definition get_torture_size : M tst Z :=
  let! r := rand_ in
  let r := r mod 100 in
  if r <? 15 then let! x := rand_ in mret_ (x mod 16 + 1)
  else if r <? 80 then let! x := rand_ in mret_ (x mod 2048 + 17)
  else let! x := rand_ in mret_ (x mod (1024 * 1024 * 2) + 2049).

(** active_records[active_count] = ...; active_count++ *)
Definition track (r : Allocation_Record) : M tst unit :=
  let! t := get_ in
  if (MAX_ACTIVE_ALLOCS <=? length (t_recs t))%nat then trap_ TSegv else
  set_recs (t_recs t ++ [r]).

Definition torture_alloc : M tst unit :=
  let! size := get_torture_size in
  let! r := rand_ in
  let alignment := if r mod 2 =? 0 then 8 else 16 in
  let! t := get_ in
  let! '(ptr, fl) := mem_ (free_list_alloc (t_fl t) size alignment) in
  do! set_fl fl in
  if ptr =? 0 then mret_ tt else
  let! r := rand_ in
  let pattern := Z.land r 0xFF in
  do! mem_ (write_data ptr (replicate (Z.to_nat size) pattern)) in
  do! track (mkRec ptr size pattern) in
  if t_peak t <? fl_used fl then set_peak (fl_used fl) else mret_ tt.

(** The integrity check; exit(1) when a byte is not the pattern. *)
Definition check_pattern (rec : Allocation_Record) : M tst unit :=
  for_ (ar_size rec) (fun k _ =>
    let! b := mem_ (read_data (ar_ptr rec + k) 1) in
    if bool_decide (b = [ar_pattern rec]) then mret_ tt else trap_ TAssert) tt.

Definition torture_free : M tst unit :=
  let! r := rand_ in
  let! t := get_ in
  let idx := Z.to_nat (r mod Z.of_nat (length (t_recs t))) in
  match t_recs t !! idx, last (t_recs t) with
  | Some rec, Some final =>
      do! check_pattern rec in
      let! fl := mem_ (free_list_free (t_fl t) (ar_ptr rec)) in
      do! set_fl fl in
      set_recs (list.take (pred (length (t_recs t))) (<[idx := final]> (t_recs t)))
  | _, _ => trap_ TSegv
  end.

(** The body of the loop: allocate when nothing is active, free when the array
    is full, otherwise by a coin. *)
Definition torture_step : M tst unit :=
  let! r := rand_ in
  let! t := get_ in
  let do_alloc := negb (r mod 2 =? 0) in
  let do_alloc := if (length (t_recs t) =? 0)%nat then true else do_alloc in
  let do_alloc := if (length (t_recs t) =? MAX_ACTIVE_ALLOCS)%nat then false else do_alloc in
  if do_alloc then torture_alloc else torture_free.

Definition free_rec (rec : Allocation_Record) : M tst unit :=
  let! t := get_ in
  let! fl := mem_ (free_list_free (t_fl t) (ar_ptr rec)) in
  set_fl fl.

Fixpoint teardown (recs : list Allocation_Record) : M tst unit :=
  match recs with
  | [] => mret_ tt
  | rec :: recs => do! free_rec rec in teardown recs
  end.

(** The asserts at the end. *)
Definition verify_coalescence : M tst unit :=
  let! t := get_ in
  do! assert_ (fl_used (t_fl t) =? 0) in
  let final_node := fl_head (t_fl t) in
  do! assert_ (negb (final_node =? 0)) in
  let! next := mem_ (load (node_next final_node)) in
  do! assert_ (next =? 0) in
  let! size := mem_ (load (node_block_size final_node)) in
  assert_ (size =? fl_size (t_fl t)).

Definition fl_set_policy (fl : Free_List) (p : Placement_Policy) : Free_List :=
  mkFL (fl_data fl) (fl_size fl) (fl_used fl) (fl_head fl) p.

(** [backing_memory] is what malloc(3) answers; [iterations] is the bound of the
    loop. *)
Definition torture (backing_memory iterations : Z) : M tst unit :=
  do! assert_ (negb (backing_memory =? 0)) in
  let! t := get_ in
  let! fl := mem_ (free_list_init (t_fl t) backing_memory ARENA_SIZE) in
  do! set_fl (fl_set_policy fl Placement_Policy_Find_Best) in
  do! set_recs [] in
  do! set_peak 0 in
  do! for_ iterations (fun _ _ => torture_step) tt in
  let! t := get_ in
  do! teardown (t_recs t) in
  verify_coalescence.

Definition run_allocator_torture_test (backing_memory : Z) : M tst unit := torture backing_memory TEST_ITERATIONS.

(** ** The invariant: the records are what the allocator's client holds *)
Definition live_of (r : Allocation_Record) : live :=
  mkLive (ar_ptr r) (ar_size r) (replicate (Z.to_nat (ar_size r)) (ar_pattern r)).

Definition tinv (lo sz : Z) (t : tst) : Prop :=
  exists B, client_inv lo sz (mkClient (t_fl t) (live_of <$> t_recs t)) (t_mem t) B.

(** What a step may touch: not what the invariant is about. *)
Definition same_t (t t' : tst) : Prop := t_mem t' = t_mem t /\ t_fl t' = t_fl t /\ t_recs t' = t_recs t.

Lemma tinv_same lo sz t t' : same_t t t' -> tinv lo sz t -> tinv lo sz t'.
Proof. intros (E1 & E2 & E3) [B HB]. exists B. by rewrite E1, E2, E3. Qed.

Lemma client_inv_perm lo sz fl ls ls' m B :
  ls ≡ₚ ls' -> client_inv lo sz (mkClient fl ls) m B -> client_inv lo sz (mkClient fl ls') m B.
Proof.
  intros HP [H1 H2 H3 H4]. cbn in *. split; cbn; [done|done| |].
  - by rewrite <- HP.
  - by rewrite <- HP.
Qed.

Lemma wp_rand (Q : Z -> tst -> Prop) t :
  (forall t', same_t t t' -> Q (rand (t_rand t)) t') -> wp rand_ Q t.
Proof. intros HQ. eexists _, _. split; [reflexivity|]. by apply HQ. Qed.

Lemma wp_mem {X} (c : M mem X) (Q : X -> tst -> Prop) t :
  wp c (fun x m => Q x (mkT m (t_fl t) (t_recs t) (t_peak t) (t_rand t))) (t_mem t) -> wp (mem_ c) Q t.
Proof. intros (x & m & He & HQ). eexists _, _. split; [|exact HQ]. unfold mem_. by rewrite He. Qed.

Lemma wp_get {St} (Q : St -> St -> Prop) t : Q t t -> wp get_ Q t.
Proof. intros HQ. by exists t, t. Qed.

Lemma wp_modify {St} (f : St -> St) (Q : unit -> St -> Prop) t : Q tt (f t) -> wp (modify_ f) Q t.
Proof. intros HQ. by exists tt, (f t). Qed.

(** The sizes the test asks for, at both alignments. *)
Lemma torture_size t :
  wp get_torture_size (fun size t' => 1 <= size <= 2099200 /\ same_t t t') t.
Proof.
  assert (Hm : forall x k, 0 < k -> 0 <= x mod k < k) by (intros; by apply Z.mod_pos_bound).
  unfold get_torture_size. apply wp_bind, wp_rand. intros t1 (E1 & E2 & E3). cbv zeta.
  repeat (apply wp_if; intros _); apply wp_bind, wp_rand; intros t2 (F1 & F2 & F3); apply wp_ret;
    (split; [|by split_and!; congruence]).
  - specialize (Hm (rand (t_rand t1)) 16). lia.
  - specialize (Hm (rand (t_rand t1)) 2048). lia.
  - specialize (Hm (rand (t_rand t1)) (1024 * 1024 * 2)). lia.
Qed.

Lemma torture_request size r : 1 <= size <= 2099200 -> alloc_request size (if r mod 2 =? 0 then 8 else 16).
Proof.
  intros Hs. assert (Hp : forall k, 0 <= k <= 4 -> pow2_ptr (2 ^ k)).
  { intros k Hk. exists k. unfold ptr_bits, ptr_bytes. destruct A; (split; [lia|done]). }
  pose proof ptr_max_pos. unfold alloc_request, sizeof_max_align_t.
  destruct (r mod 2 =? 0); (split; [lia|]; split; [|destruct A; lia]); [apply (Hp 3)|apply (Hp 4)]; lia.
Qed.

Lemma torture_alloc_wp lo sz t :
  tinv lo sz t -> (length (t_recs t) < MAX_ACTIVE_ALLOCS)%nat ->
  wp torture_alloc (fun _ t' => tinv lo sz t' /\ (length (t_recs t') <= S (length (t_recs t)))%nat) t.
Proof.
  intros Hi Hlt. unfold torture_alloc. apply wp_bind. eapply wp_mono; [apply torture_size|].
  intros size t1 [Hs S1]. apply wp_bind, wp_rand. intros t2 S2. cbv zeta. apply wp_bind, wp_get.
  assert (S12 : same_t t t2) by (destruct S1 as (? & ? & ?), S2 as (? & ? & ?); split_and!; congruence).
  destruct (tinv_same _ _ _ _ S12 Hi) as [B HB]. destruct S12 as (_ & _ & Er). set (al := if _ =? _ then 8 else 16).
  destruct (do_alloc_inv _ _ _ _ _ size al HB (torture_request _ _ Hs)) as (c & m & B1 & He & HB1 & _).
  unfold do_alloc in He. apply mbind_inv in He as ([p fl] & m1 & He & Hret). cbn [cl_fl cl_live] in *.
  unfold mret_ in Hret. injection Hret as <- ->. apply wp_bind, wp_mem. exists (p, fl), m. split; [exact He|].
  apply wp_bind, wp_modify. cbn [t_mem t_recs t_peak t_rand]. destruct (Z.eqb_spec p 0) as [->|Hp].
  { apply wp_ret. split; [by exists B1|]. cbn. rewrite Er. lia. }
  apply wp_bind, wp_rand. intros t3 (E1 & E2 & E3). cbn in E1, E2, E3. set (pat := Z.land _ 255).
  destruct (do_write_inv _ _ _ _ _ 0 (replicate (Z.to_nat size) pat) HB1) as (c2 & m2 & He2 & HB2 & _).
  unfold do_write in He2. cbn [cl_live lookup list_lookup lv_size lv_ptr cl_fl] in He2.
  apply mbind_inv in He2 as ([] & m3 & He2 & Hret). unfold mret_ in Hret. injection Hret as <- ->.
  rewrite take_ge in He2, HB2 by (rewrite length_replicate; lia).
  apply wp_bind, wp_mem. rewrite E1. exists tt, m2. split; [exact He2|]. apply wp_bind. unfold track.
  apply wp_bind, wp_get. cbn [t_recs]. rewrite E3, Er, (proj2 (Nat.leb_gt _ _) Hlt).
  apply wp_modify. cbn [t_mem t_fl t_recs t_peak t_rand]. rewrite E2.
  assert (Hfin : forall pk n, tinv lo sz (mkT m2 fl (t_recs t ++ [mkRec p size pat]) pk n)).
  { intros pk n. exists B1. cbn [t_mem t_fl t_recs]. eapply client_inv_perm; [|exact HB2].
    rewrite fmap_app, Er. exact (Permutation_cons_append (live_of <$> t_recs t) (live_of (mkRec p size pat))). }
  apply wp_if; intros _; [apply wp_modify|apply wp_ret]; (split; [apply Hfin|]); cbn; rewrite length_app; cbn; lia.
Qed.

Lemma check_pattern_wp lo sz t i rec (Q : unit -> tst -> Prop) :
  tinv lo sz t -> t_recs t !! i = Some rec -> Q tt t -> wp (check_pattern rec) Q t.
Proof.
  intros [B HB] Hrec HQ. pose proof (ci_data _ _ _ _ _ HB) as HD. cbn [cl_live] in HD.
  rewrite Forall_fmap in HD. pose proof (Forall_lookup_1 _ _ _ _ HD Hrec) as [_ Hr]. cbn in Hr.
  rewrite length_replicate in Hr.
  destruct (live_payload_in _ _ _ _ _ (live_of rec) HB) as (_ & H1 & H2 & H3).
  { apply list_elem_of_fmap_2. by eapply list_elem_of_lookup_2. }
  cbn in H1, H2, H3. destruct (ci_size _ _ _ _ _ HB) as (_ & Hsz & Hlo). cbn in Hsz, Hlo.
  pose proof (rep_valid _ _ _ (ci_rep _ _ _ _ _ HB)) as Hval. cbn in Hval. rewrite Hsz, Hlo in Hval.
  destruct (for_ok (fun k (_ : unit) =>
    let! b := mem_ (read_data (ar_ptr rec + k) 1) in
    if bool_decide (b = [ar_pattern rec]) then mret_ tt else trap_ TAssert) (fun _ _ t' => t' = t) (ar_size rec) tt t H2)
    as ([] & t' & He & ->); [|done|by exists tt, t].
  intros k [] t' Hk ->. exists tt, t. split; [|done]. unfold mbind_, mem_, read_data. cbn [Z.eqb].
  rewrite (valid_sub _ _ _ _ _ Hval) by lia. change (Z.to_nat 1) with 1%nat. cbn [read_bytes].
  pose proof (f_equal (fun l => l !! Z.to_nat k) Hr) as Hk'. cbn in Hk'.
  rewrite read_bytes_lookup, lookup_replicate_2, Z2Nat.id in Hk' by lia. injection Hk' as Hk'. rewrite Hk'.
  rewrite bool_decide_true by done. by destruct t.
Qed.

(** Swapping the last record in and dropping the end removes one record. *)
Lemma swap_remove {X} (l : list X) i x y :
  l !! i = Some x -> last l = Some y -> list.take (pred (length l)) (<[i := y]> l) ≡ₚ delete i l.
Proof.
  intros Hi Hl. destruct (last_Some l y) as [Hex _]. destruct (Hex Hl) as [l' ->]. clear Hex Hl.
  rewrite length_app. cbn [length]. replace (pred (length l' + 1)) with (length l') by lia.
  destruct (decide (i < length l')%nat) as [Hlt|Hge].
  - rewrite insert_app_l by done. rewrite take_app_length' by (by rewrite length_insert).
    rewrite lookup_app_l in Hi by done. rewrite delete_take_drop, take_app_le, drop_app_le by lia.
    rewrite (insert_Permutation _ _ _ _ Hi), delete_take_drop.
    rewrite Permutation_cons_append, <- app_assoc. done.
  - apply lookup_lt_Some in Hi. rewrite length_app in Hi. cbn in Hi. assert (i = length l') as -> by lia.
    replace (<[length l' := y]> (l' ++ [y])) with (l' ++ [y]).
    2: { rewrite insert_app_r_alt by lia. by rewrite Nat.sub_diag. }
    rewrite take_app_length, delete_take_drop, take_app_length, drop_ge by (rewrite length_app; cbn; lia).
    by rewrite app_nil_r.
Qed.

Lemma free_live_wp lo sz t recs B i rec (Q : Free_List -> tst -> Prop) :
  client_inv lo sz (mkClient (t_fl t) (live_of <$> recs)) (t_mem t) B -> recs !! i = Some rec ->
  (forall fl m B, client_inv lo sz (mkClient fl (live_of <$> delete i recs)) m B ->
     Q fl (mkT m (t_fl t) (t_recs t) (t_peak t) (t_rand t))) ->
  wp (mem_ (free_list_free (t_fl t) (ar_ptr rec))) Q t.
Proof.
  intros HB Hrec HQ. destruct (do_free_inv _ _ _ _ _ i HB) as (c & m & B1 & He & HB1 & _).
  unfold do_free in He. cbn [cl_live cl_fl] in He. rewrite list_lookup_fmap, Hrec in He. cbn in He.
  apply mbind_inv in He as (fl & m1 & He & Hret). unfold mret_ in Hret. injection Hret as <- ->.
  apply wp_mem. exists fl, m. split; [exact He|]. eapply HQ. rewrite list_fmap_delete. exact HB1.
Qed.

Lemma torture_free_wp lo sz t :
  tinv lo sz t -> t_recs t <> [] ->
  wp torture_free (fun _ t' => tinv lo sz t' /\ (length (t_recs t') <= length (t_recs t))%nat) t.
Proof.
  intros Hi Hne. unfold torture_free. apply wp_bind, wp_rand. intros t1 S1. apply wp_bind, wp_get.
  apply (tinv_same _ _ _ _ S1) in Hi. destruct S1 as (_ & _ & Er). rewrite <- Er in Hne |- *. cbv zeta.
  assert (Hlen : 0 < Z.of_nat (length (t_recs t1))) by (destruct (t_recs t1); [done|cbn; lia]).
  pose proof (Z.mod_pos_bound (rand (t_rand t)) _ Hlen) as Hb. set (idx := Z.to_nat _).
  destruct (lookup_lt_is_Some_2 (t_recs t1) idx ltac:(unfold idx; lia)) as [rec Hrec]. rewrite Hrec.
  destruct (last (t_recs t1)) as [final|] eqn:Hl; [|by apply last_None in Hl].
  apply wp_bind. eapply check_pattern_wp; [done|exact Hrec|]. apply wp_bind.
  destruct Hi as [B0 HB0]. eapply free_live_wp; [exact HB0|exact Hrec|]. intros fl m B HB. apply wp_bind, wp_modify, wp_modify. cbn.
  split; [|rewrite length_take, length_insert; lia]. exists B. cbn [t_mem t_fl t_recs].
  eapply client_inv_perm; [|exact HB]. apply fmap_Permutation. symmetry. by eapply swap_remove.
Qed.

Lemma torture_step_wp lo sz t :
  tinv lo sz t -> (length (t_recs t) <= MAX_ACTIVE_ALLOCS)%nat ->
  wp (torture_step) (fun _ t' => tinv lo sz t' /\ (length (t_recs t') <= MAX_ACTIVE_ALLOCS)%nat) t.
Proof.
  intros Hi Hle. unfold torture_step. apply wp_bind, wp_rand. intros t1 S1. apply wp_bind, wp_get.
  apply (tinv_same _ _ _ _ S1) in Hi. destruct S1 as (_ & _ & Er). rewrite <- Er in Hle. cbv zeta.
  destruct (Nat.eqb_spec (length (t_recs t1)) MAX_ACTIVE_ALLOCS) as [Hm|Hm].
  - eapply wp_mono; [apply (torture_free_wp lo sz t1 Hi)|].
    + intros Hn. rewrite Hn in Hm. by vm_compute in Hm.
    + intros _ t' [H1 H2]. split; [done|lia].
  - assert (Ha : wp torture_alloc (fun _ t' => tinv lo sz t' /\ (length (t_recs t') <= MAX_ACTIVE_ALLOCS)%nat) t1).
    { eapply wp_mono; [apply (torture_alloc_wp lo sz t1 Hi); lia|]. intros _ t' [H1 H2]. split; [done|lia]. }
    destruct (Nat.eqb_spec (length (t_recs t1)) 0) as [H0|H0]; [done|]. apply wp_if; intros _; [done|].
    eapply wp_mono; [apply (torture_free_wp lo sz t1 Hi)|].
    + intros Hn. by rewrite Hn in H0.
    + intros _ t' [H1 H2]. split; [done|lia].
Qed.

Lemma teardown_wp lo sz recs t B :
  client_inv lo sz (mkClient (t_fl t) (live_of <$> recs)) (t_mem t) B ->
  wp (teardown recs) (fun _ t' => exists B', client_inv lo sz (mkClient (t_fl t') []) (t_mem t') B') t.
Proof.
  revert t B. induction recs as [|rec recs IH]; intros t B HB; cbn [teardown].
  { apply wp_ret. by exists B. }
  apply wp_bind. unfold free_rec. apply wp_bind, wp_get, wp_bind.
  apply (free_live_wp lo sz t (rec :: recs) B 0 rec); [done|done|]. intros fl m B1 HB1.
  apply wp_modify. by eapply IH.
Qed.

Lemma verify_wp lo sz t B :
  client_inv lo sz (mkClient (t_fl t) []) (t_mem t) B -> wp verify_coalescence (fun _ t' => t' = t) t.
Proof.
  intros HB. destruct (all_freed _ _ _ _ _ HB eq_refl) as (Hh & Hn & Hb & Hs & Hu & Hw1 & Hw2 & H0). cbn in Hh, Hs, Hu.
  unfold verify_coalescence. apply wp_bind, wp_get, wp_bind, wp_assert; [by rewrite Hu|]. cbv zeta. rewrite Hh.
  apply wp_bind, wp_assert; [lia|]. apply wp_bind, wp_mem. exists 0, (t_mem t). split; [unfold load; by rewrite Hw1, Hn|].
  apply wp_bind, wp_assert; [done|]. apply wp_bind, wp_mem. cbn [t_mem]. exists sz, (t_mem t).
  split; [unfold load; by rewrite Hw2, Hb|]. apply wp_assert; [cbn; lia|]. by destruct t.
Qed.

Lemma rep_policy fl m B p : rep fl m B -> rep (fl_set_policy fl p) m B.
Proof. by intros []. Qed.

Lemma torture_wp backing n t :
  region_ok (t_mem t) backing ARENA_SIZE -> 0 <= n -> wp (torture backing n) (fun _ _ => True) t.
Proof.
  intros Hr Hn. unfold torture. assert (Hb : 0 < backing).
  { destruct Hr as (Hr & _). pose proof sizes_abi as (_ & ? & _). lia. }
  apply wp_bind, wp_assert; [lia|]. apply wp_bind, wp_get, wp_bind, wp_mem.
  destruct (start_inv (t_fl t) _ _ _ Hr) as (c & m & He & HB & _ & Hl). unfold start in He.
  apply mbind_inv in He as (fl & m1 & He & Hret). unfold mret_ in Hret. injection Hret as <- ->.
  exists fl, m. split; [exact He|]. apply wp_bind, wp_modify, wp_bind, wp_modify, wp_bind, wp_modify.
  cbn [t_mem t_fl t_recs t_peak t_rand]. set (t0 := mkT _ _ _ _ _).
  set (lo := align_up backing sizeof_max_align_t) in *. set (sz := backing + ARENA_SIZE - lo) in *.
  apply wp_bind. destruct (for_ok (fun _ (_ : unit) => torture_step) (fun _ _ t' =>
    tinv lo sz t' /\ (length (t_recs t') <= MAX_ACTIVE_ALLOCS)%nat) n tt t0 Hn) as ([] & t1 & Hloop & [[B1 HB1] _]).
  - intros _ [] t' _ [Hi Hlen]. destruct (torture_step_wp lo sz t' Hi Hlen) as ([] & t2 & H1 & H2). eauto.
  - split; [|cbn; lia]. eexists. cbn [t0 t_mem t_fl t_recs fmap list_fmap]. destruct HB as [H1 H2 H3 H4]. cbn in *.
    split; cbn; [by apply rep_policy|exact H2|exact H3|constructor].
  - exists tt, t1. split; [exact Hloop|]. apply wp_bind, wp_get, wp_bind. eapply wp_mono; [by eapply teardown_wp|].
    intros [] t2 [B2 HB2]. eapply wp_mono; [by eapply verify_wp|]. done.
Qed.

(** C17: The allocator's torture test passes, whatever rand(3) answers and
    wherever malloc(3) puts the arena: in two million allocations and frees of
    random sizes and alignments with best fit, no block's pattern is ever
    overwritten, no pointer is rejected by the allocator, the record array never
    overflows, and after the teardown nothing is in use and the free list is a
    single node that spans the arena. *)
Theorem torture_test_passes backing_memory t :
  region_ok (t_mem t) backing_memory ARENA_SIZE ->
  exists t', run_allocator_torture_test backing_memory t = Ok (tt, t').
Proof.
  intros Hr. destruct (torture_wp backing_memory TEST_ITERATIONS t Hr ltac:(by vm_compute)) as ([] & t' & He & _).
  by exists t'.
Qed.
End Torture.

(** Memory with the arena at 1 MiB, and a simple generator. *)
Definition torture_start : tst := mkT (Mem [(1048576, ARENA_SIZE)] ∅) (fl0 Placement_Policy_Find_First) [] 0 0.

Lemma torture_test_passes_witness :
  exists t', run_allocator_torture_test (A := ARMv7) (fun n => Z.of_nat (n * n + 7)) 1048576 torture_start = Ok (tt, t').
Proof.
  apply (torture_test_passes (A := ARMv7)). split_and!; by vm_compute.
Defined.
