(* ===== verification/Bitstreams.v ===== *)
(** * The test bitstreams (include/strela.h)

    The configurations of the processing elements that come with the library:
    one that passes every column through, one that clamps negative words to 0.
    Five words for each of the sixteen elements. *)
From S2P Require Export Prelude.

Definition bypass_kernel_bitstream : list Z :=
 [0x00000021; 0x00000000; 0x00000000; 0x00000000; 0x00000000;
  0x00000021; 0x00000000; 0x00000000; 0x00000000; 0x00000000;
  0x00000021; 0x00000000; 0x00000000; 0x00000000; 0x00000000;
  0x00000021; 0x00000000; 0x00000000; 0x00000000; 0x00000000;
  0x00000021; 0x00000000; 0x00000000; 0x00000000; 0x00000000;
  0x00000021; 0x00000000; 0x00000000; 0x00000000; 0x00000000;
  0x00000021; 0x00000000; 0x00000000; 0x00000000; 0x00000000;
  0x00000021; 0x00000000; 0x00000000; 0x00000000; 0x00000000;
  0x00000021; 0x00000000; 0x00000000; 0x00000000; 0x00000000;
  0x00000021; 0x00000000; 0x00000000; 0x00000000; 0x00000000;
  0x00000021; 0x00000000; 0x00000000; 0x00000000; 0x00000000;
  0x00000021; 0x00000000; 0x00000012; 0x00000000; 0x00000000;
  0x00000021; 0x00000000; 0x00000000; 0x00000000; 0x00000000;
  0x00000021; 0x00000000; 0x00000000; 0x00000000; 0x00000000;
  0x00000021; 0x00000000; 0x00000000; 0x00000000; 0x00000000;
  0x00000021; 0x00000000; 0x00000000; 0x00000000; 0x00000000].

Definition relu_kernel_bitstream : list Z :=
 [0x00000021; 0x00000000; 0x00000000; 0x00000000; 0x00000000;
  0x00000021; 0x00000000; 0x00000000; 0x00000000; 0x00000000;
  0x00004083; 0x20cc0300; 0x000000a0; 0x00000000; 0x00000000;
  0x00000241; 0x020c0300; 0x00000099; 0x00000000; 0x00000000;
  0x00000000; 0x00000000; 0x00000000; 0x00000000; 0x00000000;
  0x00000000; 0x00000000; 0x00000000; 0x00000000; 0x00000000;
  0x00000011; 0x00000000; 0x00000000; 0x00000000; 0x00000000;
  0x00400008; 0x00000200; 0x00000000; 0x00000000; 0x00000000;
  0x00000000; 0x00000000; 0x00000000; 0x00000000; 0x00000000;
  0x00000000; 0x00000000; 0x00000000; 0x00000000; 0x00000000;
  0x00000000; 0x00000000; 0x00000000; 0x00000000; 0x00000000;
  0x00000000; 0x00000000; 0x00000000; 0x00000000; 0x00000000;
  0x00000000; 0x00000000; 0x00000000; 0x00000000; 0x00000000;
  0x00000000; 0x00000000; 0x00000000; 0x00000000; 0x00000000;
  0x00000000; 0x00000000; 0x00000000; 0x00000000; 0x00000000;
  0x00000000; 0x00000000; 0x00000000; 0x00000000; 0x00000000].

(** The bytes of an array of 32-bit words, as a caller passes it. *)
Definition word_bytes (w : Z) : list Z :=
  [w mod 256; w / 256 mod 256; w / 256 ^ 2 mod 256; w / 256 ^ 3 mod 256].

Definition words_bytes (ws : list Z) : list Z := concat (word_bytes <$> ws).
