(* ===== verification/LibData.v ===== *)
(** * The user-space library: its data and its system calls

    The structs of include/strela.h and lib/strela.c, and the operating system
    below the library. A system call is an event with its arguments and its
    answer; the answers come from [Sys], which may be any functions of what
    happened so far. What the library relies on is the class [SysLaws]: the
    documented behaviour of the calls it makes. *)
From S2P Require Export Pool FreeList Uapi.

(** ** Constants *)
Definition STRELA_PE_ROWS : Z := 4.
Definition STRELA_PE_COLS : Z := 4.
Definition STRELA_NPE : Z := STRELA_PE_ROWS * STRELA_PE_COLS.
Definition STRELA_KERNEL_SIZE : Z := STRELA_NPE * 5.

(** "strela" *)
Definition STRELA_DRM_NAME : list Z := [115; 116; 114; 101; 108; 97].

Definition STRELA_ERR_OK : Z := 0.
Definition STRELA_ERR_BAD_ARG : Z := 1.
Definition STRELA_ERR_NO_MEM : Z := 2.

(** sizeof (strela_word), which is int32_t. *)
Definition sizeof_word : Z := 4.

Definition STRELA_DEVICE_MAX : Z := 8.
Definition STRELA_JOBS_MAX : nat := 16.
Definition STRELA_KERNEL_MEMORY_SIZE : Z := sizeof_word * STRELA_KERNEL_SIZE * 128.
Definition STRELA_TENSOR_MEMORY_SIZE : Z := 1024 * 1024 * 50.
Definition CACHELINE_SIZE : Z := 64.

Definition ENODEV : Z := 19.
Definition EINTR : Z := 4.

(** ** Handles and configurations of the API (include/strela.h) *)
Record strela_kernel := mkKernel { k_valid : bool; k_handle : Z }.

Record strela_buffer := mkBuffer { b_valid : bool; b_offset_words : Z; b_size_words : Z }.

Record strela_conf := mkConf {
  inp0_offset : Z; inp0_count : Z; inp0_stride : Z;
  inp1_offset : Z; inp1_count : Z; inp1_stride : Z;
  inp2_offset : Z; inp2_count : Z; inp2_stride : Z;
  inp3_offset : Z; inp3_count : Z; inp3_stride : Z;
  out0_offset : Z; out0_count : Z;
  out1_offset : Z; out1_count : Z;
  out2_offset : Z; out2_count : Z;
  out3_offset : Z; out3_count : Z
}.

Record strela_job := mkJobH { jh_valid : bool; jh_handle : Z }.

Variant strela_job_state := STRELA_JOB_PENDING | STRELA_JOB_OK | STRELA_JOB_FAILED.

#[export] Instance job_state_eq_dec : EqDecision strela_job_state.
Proof. solve_decision. Defined.

(** memset to 0. *)
Definition kernel0 : strela_kernel := mkKernel false 0.
Definition buffer0 : strela_buffer := mkBuffer false 0 0.
Definition jobh0 : strela_job := mkJobH false 0.

(** ** The device of the library (lib/strela.c) *)
Variant strela_job_phase :=
| STRELA_JOB_FREE | STRELA_JOB_CONFIGURED | STRELA_JOB_SUBMITTED | STRELA_JOB_DONE.

#[export] Instance lib_phase_eq_dec : EqDecision strela_job_phase.
Proof. solve_decision. Defined.

(** The value of the enumerator. *)
Definition phase_num (p : strela_job_phase) : Z :=
  match p with
  | STRELA_JOB_FREE => 0
  | STRELA_JOB_CONFIGURED => 1
  | STRELA_JOB_SUBMITTED => 2
  | STRELA_JOB_DONE => 3
  end.

Record strela_job_slot := mkSlot {
  sl_phase : strela_job_phase;
  sl_submit : drm_strela_submit;
  sl_fence_fd : Z;
  sl_status : Z
}.

Definition submit0 : drm_strela_submit :=
  mkSubmit (mkUBinding 0 0 0) (replicate STRELA_NUM_IO_COLS (mkUStrided 0 0 0 0))
           (replicate STRELA_NUM_IO_COLS (mkUBinding 0 0 0)) 0 0 0 0.

Definition slot0 : strela_job_slot := mkSlot STRELA_JOB_FREE submit0 0 0.

Definition slot_set_phase (s : strela_job_slot) (p : strela_job_phase) : strela_job_slot :=
  mkSlot p (sl_submit s) (sl_fence_fd s) (sl_status s).
Definition slot_set_fd (s : strela_job_slot) (fd : Z) : strela_job_slot :=
  mkSlot (sl_phase s) (sl_submit s) fd (sl_status s).
Definition slot_set_status (s : strela_job_slot) (x : Z) : strela_job_slot :=
  mkSlot (sl_phase s) (sl_submit s) (sl_fence_fd s) x.

Record strela_dev := mkSDev {
  d_fd : Z;
  d_tensors_bo_handle : Z;
  d_tensors_bo_map : Z;
  d_kernels_bo_handle : Z;
  d_kernels_bo_map : Z;
  d_backward_compat_job : strela_job;
  d_initialized : bool;
  d_errnum : Z;
  d_kernel_pool : Pool;
  d_buffer_free_list : Free_List;
  d_jobs : list strela_job_slot
}.

(** A device of the static array, or after memset to 0. *)
Definition dev0 : strela_dev :=
  mkSDev 0 0 0 0 0 jobh0 false 0 (mkPool 0 0 0 0) (mkFL 0 0 0 0 Placement_Policy_Find_First)
         (replicate STRELA_JOBS_MAX slot0).

Definition dev_set_errnum (d : strela_dev) (e : Z) : strela_dev :=
  mkSDev (d_fd d) (d_tensors_bo_handle d) (d_tensors_bo_map d) (d_kernels_bo_handle d)
         (d_kernels_bo_map d) (d_backward_compat_job d) (d_initialized d) e (d_kernel_pool d)
         (d_buffer_free_list d) (d_jobs d).
Definition dev_set_pool (d : strela_dev) (p : Pool) : strela_dev :=
  mkSDev (d_fd d) (d_tensors_bo_handle d) (d_tensors_bo_map d) (d_kernels_bo_handle d)
         (d_kernels_bo_map d) (d_backward_compat_job d) (d_initialized d) (d_errnum d) p
         (d_buffer_free_list d) (d_jobs d).
Definition dev_set_free_list (d : strela_dev) (fl : Free_List) : strela_dev :=
  mkSDev (d_fd d) (d_tensors_bo_handle d) (d_tensors_bo_map d) (d_kernels_bo_handle d)
         (d_kernels_bo_map d) (d_backward_compat_job d) (d_initialized d) (d_errnum d)
         (d_kernel_pool d) fl (d_jobs d).
Definition dev_set_jobs (d : strela_dev) (j : list strela_job_slot) : strela_dev :=
  mkSDev (d_fd d) (d_tensors_bo_handle d) (d_tensors_bo_map d) (d_kernels_bo_handle d)
         (d_kernels_bo_map d) (d_backward_compat_job d) (d_initialized d) (d_errnum d)
         (d_kernel_pool d) (d_buffer_free_list d) j.
Definition dev_set_compat (d : strela_dev) (j : strela_job) : strela_dev :=
  mkSDev (d_fd d) (d_tensors_bo_handle d) (d_tensors_bo_map d) (d_kernels_bo_handle d)
         (d_kernels_bo_map d) j (d_initialized d) (d_errnum d) (d_kernel_pool d)
         (d_buffer_free_list d) (d_jobs d).

(** ** System calls *)
Variant syscall :=
| SC_opendir
| SC_closedir
| SC_openat (name : list Z)
| SC_version (fd : Z)
| SC_close (fd : Z)
| SC_mmap (fd size offset : Z)
| SC_munmap (addr size : Z)
| SC_gem_new (fd : Z) (args : drm_strela_gem_new)
| SC_gem_sync (fd : Z) (args : drm_strela_gem_sync)
| SC_submit (fd : Z) (args : drm_strela_submit)
| SC_syncobj_create (fd : Z)
| SC_syncobj_destroy (fd handle : Z)
| SC_syncobj_wait (fd handle : Z)
| SC_handle_to_fd (fd handle : Z)
| SC_file_info (fd : Z)
| SC_poll (fd timeout_ms : Z).

(** A call and its answer: an errno, or what the call returns. A call that
    returns two values (the handle and the offset of a new buffer) uses both. *)
Record sevent := Sev { ev_call : syscall; ev_ret : Z + Z * Z }.

Class Sys := {
  sys : list sevent -> syscall -> Z + Z * Z;
  (** The names in /dev/accel and the errno readdir(3) ends with. *)
  sys_listing : list sevent -> list (list Z) * Z;
  (** The name of the driver behind a DRM file. *)
  sys_drm_name : list sevent -> Z -> list Z
}.

(** ** What a log says about resources *)

(** How often [fd] was opened, less how often it was closed: Linux gives a
    descriptor up even when close(2) reports an error. *)
Definition fd_delta (fd : Z) (e : sevent) : Z :=
  match e with
  | Sev (SC_openat _) (inr (x, _)) => if x =? fd then 1 else 0
  | Sev (SC_handle_to_fd _ _) (inr (x, _)) => if x =? fd then 1 else 0
  | Sev (SC_close x) _ => if x =? fd then -1 else 0
  | _ => 0
  end.

Fixpoint fd_held (fd : Z) (l : list sevent) : Z :=
  match l with
  | [] => 0
  | e :: l => fd_delta fd e + fd_held fd l
  end.

(** The same for a sync object of the device [dfd]: handles are per open file. *)
Definition so_delta (dfd h : Z) (e : sevent) : Z :=
  match e with
  | Sev (SC_syncobj_create d) (inr (x, _)) => if (d =? dfd) && (x =? h) then 1 else 0
  | Sev (SC_syncobj_destroy d x) (inr _) => if (d =? dfd) && (x =? h) then -1 else 0
  | _ => 0
  end.

Fixpoint so_held (dfd h : Z) (l : list sevent) : Z :=
  match l with
  | [] => 0
  | e :: l => so_delta dfd h e + so_held dfd h l
  end.

(** The mappings that exist. *)
Fixpoint mapped (l : list sevent) : list (Z * Z) :=
  match l with
  | [] => []
  | Sev (SC_mmap _ size _) (inr (a, _)) :: l => (a, size) :: mapped l
  | Sev (SC_munmap a size) (inr _) :: l => list_difference (mapped l) [(a, size)]
  | _ :: l => mapped l
  end.

(** The directory streams that are open. *)
Fixpoint dirs_open (l : list sevent) : Z :=
  match l with
  | [] => 0
  | Sev SC_opendir (inr _) :: l => 1 + dirs_open l
  | Sev SC_closedir _ :: l => dirs_open l - 1
  | _ :: l => dirs_open l
  end.

Definition apart (r r' : Z * Z) : Prop := r.1 + r.2 <= r'.1 \/ r'.1 + r'.2 <= r.1.

(** The documented behaviour of the calls the library relies on: errno is
    positive; a descriptor is not negative, a sync object handle not 0; mmap(2)
    answers with pages that were not mapped; giving back what is held
    succeeds; and a negative descriptor is never ready. *)
Class SysLaws `{A : abi} (OS : Sys) : Prop := {
  law_errno l c e : sys l c = inl e -> 0 < e;
  law_openat l name fd y : sys l (SC_openat name) = inr (fd, y) -> 0 <= fd;
  law_export l dfd h fd y : sys l (SC_handle_to_fd dfd h) = inr (fd, y) -> 0 <= fd;
  law_create l dfd h y : sys l (SC_syncobj_create dfd) = inr (h, y) -> 0 < h;
  law_mmap l fd size off a y : sys l (SC_mmap fd size off) = inr (a, y) ->
    a mod 4096 = 0 /\ 4096 <= a /\ a + size < 2 ^ ptr_bits /\ Forall (apart (a, size)) (mapped l);
  law_munmap l a size : (a, size) ∈ mapped l -> exists r, sys l (SC_munmap a size) = inr r;
  law_close l fd : 0 < fd_held fd l -> exists r, sys l (SC_close fd) = inr r;
  law_destroy l dfd h : 0 < so_held dfd h l -> exists r, sys l (SC_syncobj_destroy dfd h) = inr r;
  law_poll_negative l fd t n y : fd < 0 -> sys l (SC_poll fd t) = inr (n, y) -> n = 0
}.

(** A condition on the process, not documented behaviour: no signal handler
    runs, and the kernel does not run out of memory, while the library waits
    without a timeout for a fence it holds. poll(2) and the wait for a sync
    object may fail with EINTR otherwise, and strela_job_slot_finish then
    aborts. Everything that frees or closes a job in flight needs it. *)
Class Undisturbed (OS : Sys) : Prop := {
  und_poll l fd : 0 < fd_held fd l -> exists r, sys l (SC_poll fd (-1)) = inr r;
  und_wait l dfd h : 0 < so_held dfd h l -> exists r, sys l (SC_syncobj_wait dfd h) = inr r
}.

(** ** The state of a call: the device, the memory and what was asked of the
    operating system, the latest call first. *)
Record lst := mkL { ls_dev : strela_dev; ls_mem : mem; ls_log : list sevent }.

Definition lst_set_dev (s : lst) (d : strela_dev) : lst := mkL d (ls_mem s) (ls_log s).
Definition lst_set_mem (s : lst) (m : mem) : lst := mkL (ls_dev s) m (ls_log s).
Definition lst_add (s : lst) (e : sevent) : lst := mkL (ls_dev s) (ls_mem s) (e :: ls_log s).

(** Code that only works on memory. *)
Definition on_mem {X} (c : M mem X) : M lst X :=
  fun s => match c (ls_mem s) with
           | Ok (x, m) => Ok (x, lst_set_mem s m)
           | Trap t => Trap t
           end.

Definition dev_ : M lst strela_dev := fun s => Ok (ls_dev s, s).

Definition update_dev (f : strela_dev -> strela_dev) : M lst unit :=
  modify_ (fun s => lst_set_dev s (f (ls_dev s))).

(** dev->res.errnum = e *)
Definition set_errnum (e : Z) : M lst unit := update_dev (fun d => dev_set_errnum d e).

Definition sys_ `{Sys} (c : syscall) : M lst (Z + Z * Z) :=
  fun s => let r := sys (ls_log s) c in Ok (r, lst_add s (Sev c r)).

(** A call whose result is only looked at for an error: 0 or the errno. *)
Definition errno_of (r : Z + Z * Z) : Z := match r with inl e => e | inr _ => 0 end.

(** abort(3) when a call fails. *)
Definition sys_or_abort `{Sys} (c : syscall) : M lst unit :=
  let! r := sys_ c in
  match r with inl _ => trap_ TAssert | inr _ => mret_ tt end.

(** mmap and munmap change which addresses can be used. *)
Definition MAP_FAILED `{abi} : Z := 2 ^ ptr_bits - 1.

Definition mmap_ `{abi} `{Sys} (fd size offset : Z) : M lst (Z + Z) :=
  let! r := sys_ (SC_mmap fd size offset) in
  match r with
  | inl e => mret_ (inl e)
  | inr (a, _) =>
      do! modify_ (fun s => lst_set_mem s (Mem ((a, size) :: regions (ls_mem s)) (bytes (ls_mem s)))) in
      mret_ (inr a)
  end.

(** munmap, with abort(3) when it fails. *)
Definition munmap_ `{Sys} (addr size : Z) : M lst unit :=
  do! sys_or_abort (SC_munmap addr size) in
  modify_ (fun s => lst_set_mem s
    (Mem (list_difference (regions (ls_mem s)) [(addr, size)]) (bytes (ls_mem s)))).
