(* ===== verification/LibApi.v ===== *)
(** * The library's kernels and buffers (lib/strela.c)

    The sticky error of a device, the pool of kernel bitstreams and the tensor
    buffers. A device is passed by pointer in C; here it is the device of the
    state. An array the caller passes is the list of its bytes, and reading
    past its end is a fault. *)
From S2P Require Export LibData.

Definition is_aligned (ptr align : Z) : bool := ptr mod align =? 0.

(** ** The sticky error *)
Definition strela_dev_initialized (dev : strela_dev) : bool := d_initialized dev.

Definition strela_dev_ok (dev : strela_dev) : bool :=
  d_initialized dev && (d_errnum dev =? STRELA_ERR_OK).

Definition strela_dev_get_err (dev : strela_dev) : Z := d_errnum dev.

Definition strela_dev_reset_err : M lst unit :=
  let! dev := dev_ in
  if d_initialized dev then set_errnum STRELA_ERR_OK else mret_ tt.

(** if (strela_dev_ok(dev)) { ... } *)
Definition when_ok (k : strela_dev -> M lst unit) : M lst unit :=
  let! dev := dev_ in
  if strela_dev_ok dev then k dev else mret_ tt.

(** The caller's array of [n] bytes. *)
Definition caller_array (data : list Z) (n : Z) : M lst (list Z) :=
  if n <=? Z.of_nat (length data) then mret_ (take (Z.to_nat n) data) else trap_ TSegv.

Section Api.
Context `{A : abi} `{OS : Sys}.

Definition strela_sync (handle flags offset_words words : Z) : M lst unit :=
  when_ok (fun dev =>
    if words =? 0 then mret_ tt else
    let! r := sys_ (SC_gem_sync (d_fd dev)
      (mkGemSync handle flags (wptr (offset_words * sizeof_word)) (wptr (words * sizeof_word)))) in
    match r with inl errno => set_errnum errno | inr _ => mret_ tt end).

(** ** Kernels *)
Definition kernel_bad (kernel : strela_kernel) : bool := negb (k_valid kernel) || (128 <=? k_handle kernel).

Definition strela_kernel_alloc : M lst strela_kernel :=
  let! dev := dev_ in
  if negb (strela_dev_ok dev) then mret_ kernel0 else
  let! '(ptr, pool) := on_mem (pool_alloc (d_kernel_pool dev)) in
  do! update_dev (fun d => dev_set_pool d pool) in
  if negb (ptr =? 0) then
    let handle := u32 (wptr (ptr - pool_buf pool) / (STRELA_KERNEL_SIZE * 4)) in
    do! assert_ (handle <? 128) in
    mret_ (mkKernel true handle)
  else
    do! set_errnum (- STRELA_ERR_NO_MEM) in
    mret_ kernel0.

(** The address of the chunk of a kernel. *)
Definition kernel_ptr (dev : strela_dev) (kernel : strela_kernel) : Z :=
  wptr (pool_buf (d_kernel_pool dev) + u32 (u32 (k_handle kernel * STRELA_KERNEL_SIZE) * 4)).

Definition strela_kernel_set (kernel : strela_kernel) (data : list Z) : M lst unit :=
  do! when_ok (fun _ =>
    if kernel_bad kernel then set_errnum (- STRELA_ERR_BAD_ARG) else mret_ tt) in
  when_ok (fun dev =>
    let! src := caller_array data (STRELA_KERNEL_SIZE * 4) in
    do! on_mem (write_data (kernel_ptr dev kernel) src) in
    strela_sync (d_kernels_bo_handle dev) (Z.lor DRM_STRELA_SYNC_FINI DRM_STRELA_SYNC_WRITE)
                (u32 (k_handle kernel * STRELA_KERNEL_SIZE)) STRELA_KERNEL_SIZE).

(** Freeing one kernel is not implemented in the library: it prints a message. *)
Definition strela_kernel_free (kernel : strela_kernel) : M lst unit :=
  do! when_ok (fun _ =>
    if kernel_bad kernel then set_errnum (- STRELA_ERR_BAD_ARG) else mret_ tt) in
  when_ok (fun _ => mret_ tt).

Definition strela_kernel_free_all : M lst unit :=
  when_ok (fun dev =>
    let! pool := on_mem (pool_free_all (d_kernel_pool dev)) in
    update_dev (fun d => dev_set_pool d pool)).

(** ** Buffers *)
Definition internal_ptr_to_buffer_offset (ptr : Z) : M lst Z :=
  let! dev := dev_ in
  if negb (strela_dev_ok dev) then trap_ TAssert else
  mret_ (wptr (ptr - d_tensors_bo_map dev) / sizeof_word).

Definition strela_buffer_alloc (size_words : Z) : M lst strela_buffer :=
  let! dev := dev_ in
  if negb (strela_dev_ok dev) then mret_ buffer0 else
  let size_bytes := wptr (size_words * sizeof_word) in
  if size_words <=? size_bytes then
    let page_allignment := 64 in
    let! '(ptr, fl) := on_mem (free_list_alloc (d_buffer_free_list dev) size_bytes page_allignment) in
    do! update_dev (fun d => dev_set_free_list d fl) in
    if negb (ptr =? 0) then
      let! offset := internal_ptr_to_buffer_offset ptr in
      mret_ (mkBuffer true offset size_words)
    else
      do! set_errnum (- STRELA_ERR_NO_MEM) in
      mret_ buffer0
  else
    do! set_errnum (- STRELA_ERR_BAD_ARG) in
    mret_ buffer0.

Definition strela_buffer_to_ptr (buffer : strela_buffer) : M lst Z :=
  let! dev := dev_ in
  if negb (b_valid buffer) || negb (strela_dev_ok dev) then trap_ TAssert else
  mret_ (wptr (d_tensors_bo_map dev + wptr (b_offset_words buffer * sizeof_word))).

Definition strela_buffer_from_ptr (ptr : Z) : M lst strela_buffer :=
  let! dev := dev_ in
  if negb (strela_dev_ok dev) then mret_ buffer0 else
  if (d_tensors_bo_map dev <=? ptr)
     && (ptr <? wptr (d_tensors_bo_map dev + STRELA_TENSOR_MEMORY_SIZE)) then
    let! offset := internal_ptr_to_buffer_offset ptr in
    let! size := on_mem (load (hdr_orig_size (wptr (ptr - sizeof_Header)))) in
    if negb (size mod sizeof_word =? 0) then trap_ TAssert else
    mret_ (mkBuffer true offset (size / sizeof_word))
  else mret_ buffer0.

Definition strela_buffer_set_data (buffer : strela_buffer) (data : list Z) : M lst unit :=
  when_ok (fun _ =>
    if negb (b_valid buffer) then set_errnum (- STRELA_ERR_BAD_ARG) else
    let! strela_buf := strela_buffer_to_ptr buffer in
    let! src := caller_array data (wptr (b_size_words buffer * sizeof_word)) in
    on_mem (write_data strela_buf src)).

(** The bytes written to the caller's array; [None] when it is left alone. *)
Definition strela_buffer_get_data (buffer : strela_buffer) : M lst (option (list Z)) :=
  let! dev := dev_ in
  if negb (strela_dev_ok dev) then mret_ None else
  if negb (b_valid buffer) then do! set_errnum (- STRELA_ERR_BAD_ARG) in mret_ None else
  let! strela_buf := strela_buffer_to_ptr buffer in
  let! data := on_mem (read_data strela_buf (wptr (b_size_words buffer * sizeof_word))) in
  mret_ (Some data).

Definition strela_buffer_free (buffer : strela_buffer) : M lst unit :=
  when_ok (fun dev =>
    if negb (b_valid buffer) then set_errnum (- STRELA_ERR_BAD_ARG) else
    let! ptr := strela_buffer_to_ptr buffer in
    let! fl := on_mem (free_list_free (d_buffer_free_list dev) ptr) in
    update_dev (fun d => dev_set_free_list d fl)).

Definition strela_buffer_free_all : M lst unit :=
  when_ok (fun dev =>
    let! fl := on_mem (free_list_free_all (d_buffer_free_list dev)) in
    update_dev (fun d => dev_set_free_list d fl)).

(** The test of [strela_buffer_sync]. *)
Definition sync_bad (buffer : strela_buffer) (offset count : Z) : bool :=
  let total := STRELA_TENSOR_MEMORY_SIZE / sizeof_word in
  negb (b_valid buffer)
  || (b_size_words buffer <? offset)
  || (wptr (b_size_words buffer - offset) <? count)
  || (total <? b_offset_words buffer)
  || (wptr (total - b_offset_words buffer) <? b_size_words buffer).

Definition strela_buffer_sync (buffer : strela_buffer) (flags offset count : Z) : M lst unit :=
  do! when_ok (fun _ =>
    if sync_bad buffer offset count then set_errnum (- STRELA_ERR_BAD_ARG) else mret_ tt) in
  when_ok (fun dev =>
    strela_sync (d_tensors_bo_handle dev) flags (wptr (b_offset_words buffer + offset)) count).

Definition CACHELINE_WORDS : Z := CACHELINE_SIZE / sizeof_word.

Definition strela_buffer_flush (buffer : strela_buffer) (offset count : Z) : M lst unit :=
  let mask := wptr (Z.lnot (CACHELINE_WORDS - 1)) in
  let start := Z.land offset mask in
  let end_ := Z.land (wptr (wptr (wptr (offset + count) + CACHELINE_WORDS) - 1)) mask in
  if negb (count =? 0) then
    strela_buffer_sync buffer (Z.lor DRM_STRELA_SYNC_FINI DRM_STRELA_SYNC_WRITE) start
                       (wptr (end_ - start))
  else mret_ tt.

Definition strela_buffer_inval (buffer : strela_buffer) (offset count : Z) : M lst unit :=
  do! (if negb (is_aligned (wptr (offset * sizeof_word)) CACHELINE_SIZE)
          || negb (is_aligned (wptr (count * sizeof_word)) CACHELINE_SIZE)
       then set_errnum (- STRELA_ERR_BAD_ARG) else mret_ tt) in
  strela_buffer_sync buffer (Z.lor DRM_STRELA_SYNC_PREP DRM_STRELA_SYNC_READ) offset count.
End Api.
