(* ===== verification/LibJob.v ===== *)
(** * The library's jobs (lib/strela.c)

    A job is a slot of the device: free, configured, submitted or done. A slot
    that is not free owns a sync object, and from its first submit on the file
    descriptor of a fence. *)
From S2P Require Export LibApi.

Section Job.
Context `{A : abi} `{OS : Sys}.

(** A pointer to a slot is its index. *)
Definition get_slot (i : nat) : M lst strela_job_slot :=
  let! dev := dev_ in
  match d_jobs dev !! i with Some s => mret_ s | None => trap_ TSegv end.

Definition update_slot (i : nat) (f : strela_job_slot -> strela_job_slot) : M lst unit :=
  update_dev (fun d => dev_set_jobs d (alter f i (d_jobs d))).

(** The status of the fence in a sync object: 1 when it signalled, 0 when it is
    pending, or a negative errno. *)
Definition ioctl_syncobj_status (fd handle : Z) : M lst Z :=
  let! export := sys_ (SC_handle_to_fd fd handle) in
  match export with
  | inl errno => mret_ (- errno)
  | inr (efd, _) =>
      let! info := sys_ (SC_file_info efd) in
      let ret := match info with inl errno => - errno | inr (status, _) => status end in
      do! sys_ (SC_close efd) in
      mret_ ret
  end.

Definition strela_job_slot_finish (i : nat) : M lst unit :=
  let! slot := get_slot i in
  if negb (bool_decide (sl_phase slot = STRELA_JOB_SUBMITTED)) then mret_ tt else
  let! dev := dev_ in
  do! (if negb (sl_fence_fd slot =? -1)
       then sys_or_abort (SC_poll (sl_fence_fd slot) (-1))
       else sys_or_abort (SC_syncobj_wait (d_fd dev) (sub_out_syncobj (sl_submit slot)))) in
  update_slot i (fun s => slot_set_phase s STRELA_JOB_DONE).

Definition strela_job_slot_release (i : nat) : M lst unit :=
  let! dev := dev_ in
  do! assert_ (strela_dev_initialized dev) in
  do! strela_job_slot_finish i in
  let! slot := get_slot i in
  if bool_decide (sl_phase slot = STRELA_JOB_FREE) then mret_ tt else
  do! (if negb (sl_fence_fd slot =? -1) then sys_or_abort (SC_close (sl_fence_fd slot)) else mret_ tt) in
  do! (if negb (sub_out_syncobj (sl_submit slot) =? 0)
       then sys_or_abort (SC_syncobj_destroy (d_fd dev) (sub_out_syncobj (sl_submit slot)))
       else mret_ tt) in
  update_slot i (fun _ => slot_set_fd slot0 (-1)).

Fixpoint release_slots (i n : nat) : M lst unit :=
  match n with
  | O => mret_ tt
  | S n => do! strela_job_slot_release i in release_slots (S i) n
  end.

Definition strela_job_free_all : M lst unit :=
  when_ok (fun _ => release_slots 0 STRELA_JOBS_MAX).

(** The first free slot. *)
Definition find_free (jobs : list strela_job_slot) : option nat :=
  fst <$> list_find (fun s => sl_phase s = STRELA_JOB_FREE) jobs.

(** The arguments of the submit ioctl for a configuration; the fields of the
    ioctl are 32 bits wide. *)
Definition conf_submit (dev : strela_dev) (kernel : strela_kernel) (conf : strela_conf) (out_syncobj : Z)
  : drm_strela_submit :=
  let tensors := d_tensors_bo_handle dev in
  mkSubmit
    (mkUBinding (d_kernels_bo_handle dev) (u32 (k_handle kernel * STRELA_KERNEL_SIZE)) STRELA_KERNEL_SIZE)
    [mkUStrided tensors (u32 (inp0_offset conf)) (u32 (inp0_count conf)) (u32 (inp0_stride conf));
     mkUStrided tensors (u32 (inp1_offset conf)) (u32 (inp1_count conf)) (u32 (inp1_stride conf));
     mkUStrided tensors (u32 (inp2_offset conf)) (u32 (inp2_count conf)) (u32 (inp2_stride conf));
     mkUStrided tensors (u32 (inp3_offset conf)) (u32 (inp3_count conf)) (u32 (inp3_stride conf))]
    [mkUBinding tensors (u32 (out0_offset conf)) (u32 (out0_count conf));
     mkUBinding tensors (u32 (out1_offset conf)) (u32 (out1_count conf));
     mkUBinding tensors (u32 (out2_offset conf)) (u32 (out2_count conf));
     mkUBinding tensors (u32 (out3_offset conf)) (u32 (out3_count conf))]
    out_syncobj 0 0 0.

Definition strela_job_config (kernel : strela_kernel) (conf : strela_conf) : M lst strela_job :=
  do! when_ok (fun _ =>
    if kernel_bad kernel then set_errnum (- STRELA_ERR_BAD_ARG) else mret_ tt) in
  let! dev := dev_ in
  let job := if strela_dev_ok dev then find_free (d_jobs dev) else None in
  do! when_ok (fun _ =>
    match job with None => set_errnum (- STRELA_ERR_NO_MEM) | Some _ => mret_ tt end) in
  let! dev := dev_ in
  let! syncobj := (if strela_dev_ok dev then
                     let! r := sys_ (SC_syncobj_create (d_fd dev)) in
                     match r with
                     | inl errno => do! set_errnum errno in mret_ 0
                     | inr (h, _) => mret_ h
                     end
                   else mret_ 0) in
  let! dev := dev_ in
  match job with
  | None => if strela_dev_ok dev then trap_ TSegv else mret_ jobh0
  | Some i =>
      if strela_dev_ok dev then
        do! update_slot i (fun s =>
              mkSlot STRELA_JOB_CONFIGURED (conf_submit dev kernel conf syncobj) (-1) (sl_status s)) in
        mret_ (mkJobH true (Z.of_nat i))
      else do! strela_job_slot_release i in mret_ jobh0
  end.

Definition phase_singleton (p : strela_job_phase) : Z := u32 (Z.shiftl 1 (phase_num p)).

(** As in the code, the result is the negation of the membership test. *)
Definition phase_is_in (p : strela_job_phase) (bit_set : Z) : bool :=
  Z.land (phase_singleton p) bit_set =? 0.

Definition strela_job_slot_get (job : strela_job) (valid_phases_set : Z) : M lst (option nat) :=
  let! dev := dev_ in
  let! slot := (if strela_dev_ok dev then
    if negb (jh_valid job) || (Z.of_nat STRELA_JOBS_MAX <=? jh_handle job) then
      do! set_errnum (- STRELA_ERR_BAD_ARG) in mret_ None
    else
      let i := Z.to_nat (jh_handle job) in
      let! s := get_slot i in
      if phase_is_in (sl_phase s) valid_phases_set then
        do! set_errnum (- STRELA_ERR_BAD_ARG) in mret_ None
      else mret_ (Some i)
    else mret_ None) in
  let! dev := dev_ in
  do! assert_ (Bool.eqb (bool_decide (is_Some slot)) (strela_dev_ok dev)) in
  mret_ slot.

(** A slot pointer that is NULL. *)
Definition the_slot (slot : option nat) : M lst nat :=
  match slot with Some i => mret_ i | None => trap_ TSegv end.

Definition strela_job_free (job : strela_job) : M lst unit :=
  let! slot := strela_job_slot_get job (2 ^ 32 - 1) in
  when_ok (fun _ => let! i := the_slot slot in strela_job_slot_release i).

Definition PHASES_SUBMIT : Z :=
  Z.lor (phase_singleton STRELA_JOB_CONFIGURED) (phase_singleton STRELA_JOB_DONE).
Definition PHASES_WAIT : Z :=
  Z.lor (phase_singleton STRELA_JOB_SUBMITTED) (phase_singleton STRELA_JOB_DONE).

Definition strela_job_submit (job : strela_job) : M lst bool :=
  let! slot := strela_job_slot_get job PHASES_SUBMIT in
  do! when_ok (fun dev =>
    let! i := the_slot slot in
    let! s := get_slot i in
    let! r := sys_ (SC_submit (d_fd dev) (sl_submit s)) in
    match r with inl errno => set_errnum errno | inr _ => mret_ tt end) in
  do! when_ok (fun dev =>
    let! i := the_slot slot in
    let! s := get_slot i in
    do! (if bool_decide (sl_phase s = STRELA_JOB_DONE)
         then sys_or_abort (SC_close (sl_fence_fd s)) else mret_ tt) in
    do! update_slot i (fun s => slot_set_phase s STRELA_JOB_SUBMITTED) in
    let! export := sys_ (SC_handle_to_fd (d_fd dev) (sub_out_syncobj (sl_submit s))) in
    match export with
    | inl errno => set_errnum errno
    | inr (fd, _) => update_slot i (fun s => slot_set_fd s fd)
    end) in
  let! dev := dev_ in
  mret_ (strela_dev_ok dev).

Definition strela_job_update (i : nat) (timeout_ms : Z) : M lst unit :=
  let! slot := get_slot i in
  do! assert_ (phase_num STRELA_JOB_CONFIGURED <? phase_num (sl_phase slot)) in
  if bool_decide (sl_phase slot = STRELA_JOB_DONE) then mret_ tt else
  let! ready := sys_ (SC_poll (sl_fence_fd slot) timeout_ms) in
  match ready with
  | inl errno => if negb (errno =? EINTR) then set_errnum errno else mret_ tt
  | inr (n, _) =>
      if n =? 0 then mret_ tt else
      let! info := sys_ (SC_file_info (sl_fence_fd slot)) in
      match info with
      | inl errno => set_errnum errno
      | inr (status, _) =>
          update_slot i (fun s => slot_set_phase (slot_set_status s status) STRELA_JOB_DONE)
      end
  end.

Definition strela_job_poll (job : strela_job) : M lst strela_job_state :=
  let! slot := strela_job_slot_get job PHASES_WAIT in
  let! dev := dev_ in
  if negb (strela_dev_ok dev) then mret_ STRELA_JOB_FAILED else
  let! i := the_slot slot in
  do! strela_job_update i 0 in
  let! s := get_slot i in
  mret_ (if negb (bool_decide (sl_phase s = STRELA_JOB_DONE)) then STRELA_JOB_PENDING
         else if 0 <? sl_status s then STRELA_JOB_OK else STRELA_JOB_FAILED).

Definition strela_job_wait (job : strela_job) (timeout_ms : Z) : M lst bool :=
  let! slot := strela_job_slot_get job PHASES_WAIT in
  do! when_ok (fun _ => let! i := the_slot slot in strela_job_update i timeout_ms) in
  let! dev := dev_ in
  if negb (strela_dev_ok dev) then mret_ false else
  let! i := the_slot slot in
  let! s := get_slot i in
  mret_ (bool_decide (sl_phase s = STRELA_JOB_DONE)).

Definition strela_job_fd (job : strela_job) : M lst Z :=
  let! slot := strela_job_slot_get job PHASES_WAIT in
  let! dev := dev_ in
  if negb (strela_dev_ok dev) then mret_ (-1) else
  let! i := the_slot slot in
  let! s := get_slot i in
  mret_ (sl_fence_fd s).

(** ** The interface with one job *)
Definition strela_config (kernel : strela_kernel) (conf : strela_conf) : M lst unit :=
  let! dev := dev_ in
  do! (if jh_valid (d_backward_compat_job dev) then strela_job_free (d_backward_compat_job dev)
       else mret_ tt) in
  let! job := strela_job_config kernel conf in
  update_dev (fun d => dev_set_compat d job).

Definition strela_execute : M lst strela_job_state :=
  let! dev := dev_ in
  let job := d_backward_compat_job dev in
  do! strela_job_submit job in
  do! strela_job_wait job 2000 in
  let! state := strela_job_poll job in
  do! assert_ (negb (bool_decide (state = STRELA_JOB_PENDING))) in
  mret_ state.
End Job.
