(* ===== verification/LibInit.v ===== *)
(** * Finding, opening and closing a device (lib/strela.c)

    The iteration over /dev/accel, counting and opening the devices of the
    STRELA driver, mapping their two buffer objects, and giving everything
    back. The static array of devices is indexed by the caller; every call
    works on one entry, the device of the state. *)
From S2P Require Export LibJob.

Section Init.
Context `{A : abi} `{OS : Sys}.

(** ** /dev/accel *)

(** What is left of a directory stream: the names to come and the errno
    readdir(3) ends with. *)
Definition DIR : Type := list (list Z) * Z.

Record accel_iter := mkIter {
  it_dir : option DIR;
  it_errno : Z;
  it_valid : bool;
  it_name : list Z
}.

(** The C string in a char array. *)
Fixpoint cstring (l : list Z) : list Z :=
  match l with
  | [] => []
  | c :: l => if c =? 0 then [] else c :: cstring l
  end.

(** sizeof drm_name *)
Definition sizeof_drm_name : nat := 16.

Definition accel_openat (name : list Z) : M lst (Z * list Z) :=
  let! r := sys_ (SC_openat name) in
  match r with
  | inl _ => mret_ (-1, [])
  | inr (fd, _) =>
      let! s := get_ in
      let! v := sys_ (SC_version fd) in
      match v with
      | inl _ => do! sys_ (SC_close fd) in mret_ (-1, [])
      | inr _ => mret_ (fd, cstring (take (sizeof_drm_name - 1) (sys_drm_name (ls_log s) fd)))
      end
  end.

Definition accel_iter_close (it : accel_iter) : M lst accel_iter :=
  match it_dir it with
  | None => mret_ it
  | Some _ => do! sys_ SC_closedir in mret_ (mkIter None (it_errno it) false [])
  end.

(** The loop of [accel_iter_next] over the names that are left: names that
    start with a dot are skipped, and the end of the directory closes it. *)
Fixpoint next_name (names : list (list Z)) (e : Z) (it : accel_iter) : M lst accel_iter :=
  match names with
  | [] => accel_iter_close (mkIter (Some ([], e)) e false (it_name it))
  | n :: names =>
      if bool_decide (head n = Some 46) then next_name names e it
      else mret_ (mkIter (Some (names, e)) (it_errno it) true n)
  end.

Definition accel_iter_next (it : accel_iter) : M lst accel_iter :=
  match it_dir it with
  | None => mret_ (mkIter None (it_errno it) false (it_name it))
  | Some (names, e) => next_name names e it
  end.

(** No directory at all means that there are no devices. *)
Definition accel_iter_make : M lst accel_iter :=
  let! s := get_ in
  let! r := sys_ SC_opendir in
  match r with
  | inl errno => accel_iter_next (mkIter None (if errno =? 2 then 0 else errno) false [])
  | inr _ => accel_iter_next (mkIter (Some (sys_listing (ls_log s))) 0 true [])
  end.

(** The number of entries a loop over the directory can still see. *)
Definition entries_left (it : accel_iter) : nat :=
  match it_dir it with Some (names, _) => S (length names) | None => 1 end.

Fixpoint count_loop (fuel : nat) (it : accel_iter) (count : Z) : M lst (accel_iter * Z) :=
  if negb (it_valid it) then mret_ (it, count) else
  match fuel with
  | O => trap_ TFuel
  | S fuel =>
      let! '(fd, drm_name) := accel_openat (it_name it) in
      let! count := (if negb (fd =? -1) then
                       do! sys_ (SC_close fd) in
                       mret_ (if bool_decide (STRELA_DRM_NAME = drm_name) then u32 (count + 1) else count)
                     else mret_ count) in
      let! it := accel_iter_next it in
      count_loop fuel it count
  end.

(** The return value and *count. *)
Definition strela_dev_count : M lst (Z * Z) :=
  let! it := accel_iter_make in
  let! '(it, count) := count_loop (entries_left it) it 0 in
  mret_ (if it_errno it =? 0 then 0 else -1, count).

(** The descriptor of the [which]-th STRELA device, or -1. *)
Fixpoint find_loop (fuel : nat) (which : Z) (it : accel_iter) (count : Z) : M lst Z :=
  if negb (it_valid it) then mret_ (-1) else
  match fuel with
  | O => trap_ TFuel
  | S fuel =>
      let! '(fd, drm_name) := accel_openat (it_name it) in
      if negb (fd =? -1) then
        if bool_decide (STRELA_DRM_NAME = drm_name) && (count =? which) then
          do! accel_iter_close it in
          mret_ fd
        else
          do! sys_ (SC_close fd) in
          let! it := accel_iter_next it in
          find_loop fuel which it
            (if bool_decide (STRELA_DRM_NAME = drm_name) then u32 (count + 1) else count)
      else
        let! it := accel_iter_next it in
        find_loop fuel which it count
  end.

Definition find_device (which : Z) : M lst Z :=
  let! it := accel_iter_make in
  find_loop (entries_left it) which it 0.

(** ** Opening and closing *)
Definition strela_dev_deinit_internal
  (tensors_base tensors_size kernels_base kernels_size device_fd : Z) : M lst unit :=
  do! (if negb (tensors_base =? 0) && negb (tensors_base =? MAP_FAILED)
       then munmap_ tensors_base tensors_size else mret_ tt) in
  do! (if negb (kernels_base =? 0) && negb (kernels_base =? MAP_FAILED)
       then munmap_ kernels_base kernels_size else mret_ tt) in
  if negb (device_fd =? -1) then sys_or_abort (SC_close device_fd) else mret_ tt.

(** One allocation of [strela_dev_init]: a buffer object of [size] bytes and
    its mapping, skipped after an error. The handle and the address. *)
Definition init_bo (fd size : Z) : M lst (Z * Z) :=
  let! dev := dev_ in
  if negb (d_errnum dev =? STRELA_ERR_OK) then mret_ (0, 0) else
  let! r := sys_ (SC_gem_new fd (mkGemNew size 0)) in
  match r with
  | inl errno => do! set_errnum errno in mret_ (0, 0)
  | inr (handle, offset) =>
      let! a := mmap_ fd size offset in
      match a with
      | inl errno => do! set_errnum errno in mret_ (handle, MAP_FAILED)
      | inr base => mret_ (handle, base)
      end
  end.

(** The end of opening: the allocators of the device, or giving back what was
    acquired before an error. *)
Definition open_finish (fd kernels_handle kernels_base tensors_handle tensors_base : Z) : M lst unit :=
  let! dev := dev_ in
  if d_errnum dev =? STRELA_ERR_OK then
    let! pool := on_mem (pool_init kernels_base STRELA_KERNEL_MEMORY_SIZE
                           (sizeof_word * STRELA_KERNEL_SIZE) sizeof_word) in
    let! fl := on_mem (free_list_init (d_buffer_free_list dev) tensors_base STRELA_TENSOR_MEMORY_SIZE) in
    update_dev (fun d =>
      mkSDev fd tensors_handle tensors_base kernels_handle kernels_base jobh0 true (d_errnum d)
             pool fl (replicate STRELA_JOBS_MAX slot0))
  else
    do! assert_ (negb (d_initialized dev)) in
    strela_dev_deinit_internal tensors_base STRELA_TENSOR_MEMORY_SIZE
                               kernels_base STRELA_KERNEL_MEMORY_SIZE fd.

(** The part of [strela_dev_init] for a device that is not initialised yet. *)
Definition dev_open (which : Z) : M lst unit :=
  let! fd := find_device which in
  do! (if fd =? -1 then set_errnum ENODEV else mret_ tt) in
  let! '(kernels_handle, kernels_base) := init_bo fd STRELA_KERNEL_MEMORY_SIZE in
  let! '(tensors_handle, tensors_base) := init_bo fd STRELA_TENSOR_MEMORY_SIZE in
  open_finish fd kernels_handle kernels_base tensors_handle tensors_base.

Definition strela_dev_init (which_strela : Z) : M lst unit :=
  if STRELA_DEVICE_MAX <=? which_strela then trap_ TAssert else
  do! set_errnum STRELA_ERR_OK in
  let! dev := dev_ in
  do! (if negb (d_initialized dev) then dev_open which_strela else mret_ tt) in
  let! dev := dev_ in
  do! (if d_initialized dev then
         do! assert_ (d_errnum dev =? STRELA_ERR_OK) in
         do! strela_job_free_all in
         do! strela_buffer_free_all in
         strela_kernel_free_all
       else mret_ tt) in
  let! dev := dev_ in
  assert_ (Bool.eqb (negb (d_errnum dev =? 0)) (negb (d_initialized dev))).

Definition strela_dev_deinit : M lst unit :=
  let! dev := dev_ in
  do! (if d_initialized dev then
         do! strela_job_free_all in
         let! dev := dev_ in
         strela_dev_deinit_internal (d_tensors_bo_map dev) STRELA_TENSOR_MEMORY_SIZE
                                    (d_kernels_bo_map dev) STRELA_KERNEL_MEMORY_SIZE (d_fd dev)
       else mret_ tt) in
  update_dev (fun _ => dev0).
End Init.
