(* ===== verification/LibInv.v ===== *)
(** * What the library's job slots own

    The descriptors and sync objects of a session are those of its slots: a
    slot that is not free owns its sync object and, once it was submitted, the
    descriptor of its fence. *)
From S2P Require Export LibInit.

(** ** Sums over slots *)
Fixpoint sumZ {X} (f : X -> Z) (l : list X) : Z :=
  match l with
  | [] => 0
  | x :: l => f x + sumZ f l
  end.

Lemma sumZ_insert {X} (f : X -> Z) l i x y :
  l !! i = Some x -> sumZ f (<[i := y]> l) = sumZ f l - f x + f y.
Proof.
  revert i. induction l as [|z l IH]; intros [|i] Hi; try done.
  - cbn in *. simplify_eq. lia.
  - change (<[S i := y]> (z :: l)) with (z :: <[i := y]> l). cbn [sumZ]. rewrite (IH i Hi). lia.
Qed.

Lemma sumZ_nonneg {X} (f : X -> Z) l : (forall x, 0 <= f x) -> 0 <= sumZ f l.
Proof. intros Hf. induction l as [|x l IH]; cbn; [lia|]. pose proof (Hf x). lia. Qed.

Lemma sumZ_ge {X} (f : X -> Z) l i x :
  (forall x, 0 <= f x) -> l !! i = Some x -> f x <= sumZ f l.
Proof.
  intros Hf. revert i. induction l as [|z l IH]; intros [|i] Hi; cbn in *; simplify_eq.
  - pose proof (sumZ_nonneg f l Hf). lia.
  - pose proof (IH _ Hi). pose proof (Hf z). lia.
Qed.

Lemma sumZ_replicate {X} (f : X -> Z) n x : sumZ f (replicate n x) = Z.of_nat n * f x.
Proof. induction n as [|n IH]; cbn [replicate sumZ]; [lia|]. rewrite IH. lia. Qed.

Lemma alter_insert {X} (f : X -> X) (l : list X) (i : nat) x : l !! i = Some x -> alter f i l = <[i := f x]> l.
Proof.
  revert i. induction l as [|z l IH]; intros [|i] Hi; try done.
  - cbn in *. by simplify_eq.
  - change (alter f (S i) (z :: l)) with (z :: alter f i l). by rewrite (IH i Hi).
Qed.

(** ** Ownership *)
Definition slot_used (s : strela_job_slot) : bool := negb (bool_decide (sl_phase s = STRELA_JOB_FREE)).

Definition owns_fd (fd : Z) (s : strela_job_slot) : Z :=
  if slot_used s && negb (sl_fence_fd s =? -1) && (sl_fence_fd s =? fd) then 1 else 0.

Definition owns_so (h : Z) (s : strela_job_slot) : Z :=
  if slot_used s && (sub_out_syncobj (sl_submit s) =? h) then 1 else 0.

(** What holds of a slot by its phase. *)
Definition slot_ok (s : strela_job_slot) : Prop :=
  sl_phase s = STRELA_JOB_FREE
  \/ (0 < sub_out_syncobj (sl_submit s)
      /\ (sl_phase s = STRELA_JOB_CONFIGURED -> sl_fence_fd s = -1)
      /\ (sl_phase s = STRELA_JOB_SUBMITTED -> -1 <= sl_fence_fd s)
      /\ (sl_phase s = STRELA_JOB_DONE -> 0 <= sl_fence_fd s)).

(** The log agrees with the slots: beyond what [l0] left behind, the device
    and the slots' fences are the open descriptors, and the slots' sync
    objects the existing ones. *)
Record job_inv (l0 : list sevent) (s : lst) : Prop := {
  ji_init : d_initialized (ls_dev s) = true;
  ji_fd : 0 <= d_fd (ls_dev s);
  ji_len : length (d_jobs (ls_dev s)) = STRELA_JOBS_MAX;
  ji_slots : Forall slot_ok (d_jobs (ls_dev s));
  ji_fds : forall fd, fd_held fd (ls_log s) =
    fd_held fd l0 + (if d_fd (ls_dev s) =? fd then 1 else 0) + sumZ (owns_fd fd) (d_jobs (ls_dev s));
  ji_sos : forall d h, so_held d h (ls_log s) =
    so_held d h l0 + (if d_fd (ls_dev s) =? d then sumZ (owns_so h) (d_jobs (ls_dev s)) else 0);
  ji_maps : mapped (ls_log s) =
    (d_tensors_bo_map (ls_dev s), STRELA_TENSOR_MEMORY_SIZE)
    :: (d_kernels_bo_map (ls_dev s), STRELA_KERNEL_MEMORY_SIZE) :: mapped l0;
  ji_dirs : dirs_open (ls_log s) = dirs_open l0;
  ji_fresh : Forall (apart (d_tensors_bo_map (ls_dev s), STRELA_TENSOR_MEMORY_SIZE)) (mapped l0)
    /\ Forall (apart (d_kernels_bo_map (ls_dev s), STRELA_KERNEL_MEMORY_SIZE)) (mapped l0)
}.

(** What was there before is held at least as often as it was given back. *)
Definition log_ok (l : list sevent) : Prop :=
  (forall fd, 0 <= fd_held fd l) /\ (forall dfd h, 0 <= so_held dfd h l).

(** What the job functions leave alone. *)
Record job_frame (s s' : lst) : Prop := {
  jf_mem : ls_mem s' = ls_mem s;
  jf_fd : d_fd (ls_dev s') = d_fd (ls_dev s);
  jf_th : d_tensors_bo_handle (ls_dev s') = d_tensors_bo_handle (ls_dev s);
  jf_tm : d_tensors_bo_map (ls_dev s') = d_tensors_bo_map (ls_dev s);
  jf_kh : d_kernels_bo_handle (ls_dev s') = d_kernels_bo_handle (ls_dev s);
  jf_km : d_kernels_bo_map (ls_dev s') = d_kernels_bo_map (ls_dev s);
  jf_init : d_initialized (ls_dev s') = d_initialized (ls_dev s);
  jf_pool : d_kernel_pool (ls_dev s') = d_kernel_pool (ls_dev s);
  jf_fl : d_buffer_free_list (ls_dev s') = d_buffer_free_list (ls_dev s)
}.

#[export] Instance job_frame_preorder : PreOrder job_frame.
Proof.
  split; [done|]. intros s1 s2 s3 [] []. split; congruence.
Qed.

Lemma owns_fd_nonneg fd s : 0 <= owns_fd fd s.
Proof. unfold owns_fd. by destruct (_ && _). Qed.

Lemma owns_so_nonneg h s : 0 <= owns_so h s.
Proof. unfold owns_so. by destruct (_ && _). Qed.

(** Nothing of a slot changes but its status, or its phase within those that
    own the same things. *)
Lemma owns_same s s' :
  slot_used s' = slot_used s -> sl_fence_fd s' = sl_fence_fd s -> sl_submit s' = sl_submit s ->
  (forall fd, owns_fd fd s' = owns_fd fd s) /\ (forall h, owns_so h s' = owns_so h s).
Proof. intros H1 H2 H3. unfold owns_fd, owns_so. by rewrite H1, H2, H3. Qed.

Section Inv.
Context `{A : abi} `{OS : Sys}.

(** An event that neither opens nor closes anything. *)
Definition quiet (e : sevent) : Prop :=
  (forall fd, fd_delta fd e = 0) /\ (forall d h, so_delta d h e = 0)
  /\ forall l, mapped (e :: l) = mapped l /\ dirs_open (e :: l) = dirs_open l.

Definition quiet_call (c : syscall) : bool :=
  match c with
  | SC_version _ | SC_gem_new _ _ | SC_gem_sync _ _ | SC_submit _ _ | SC_syncobj_wait _ _
  | SC_file_info _ | SC_poll _ _ => true
  | _ => false
  end.

Lemma quiet_call_ok c r : quiet_call c = true -> quiet (Sev c r).
Proof. destruct c; intros; try done; destruct r; done. Qed.

(** A failed call gives and takes nothing, close(2) apart. *)
Definition give_up_call (c : syscall) : bool :=
  match c with SC_close _ | SC_closedir => true | _ => false end.

Lemma quiet_fail c e : give_up_call c = false -> quiet (Sev c (inl e)).
Proof. destruct c; done. Qed.

Lemma job_inv_quiet l0 s e : quiet e -> job_inv l0 s -> job_inv l0 (lst_add s e).
Proof.
  intros (H1 & H2 & H3) [? ? ? ? Hf Hs Hm Hd ?]. destruct (H3 (ls_log s)) as [H4 H5].
  split; cbn [lst_add ls_dev ls_log]; try done.
  - intros fd. cbn. rewrite H1, Hf. lia.
  - intros d h. cbn. rewrite H2, Hs. lia.
  - by rewrite H4.
  - by rewrite H5.
Qed.

Lemma job_inv_dev l0 s d :
  job_inv l0 s -> d_initialized d = true -> d_jobs d = d_jobs (ls_dev s) -> d_fd d = d_fd (ls_dev s) ->
  d_tensors_bo_map d = d_tensors_bo_map (ls_dev s) -> d_kernels_bo_map d = d_kernels_bo_map (ls_dev s) ->
  job_inv l0 (lst_set_dev s d).
Proof.
  intros [? ? ? ? Hf Hs Hm Hd ?] H1 H2 H3 H4 H5. split; cbn [lst_set_dev ls_dev ls_log].
  1-4: congruence. all: rewrite ?H2, ?H3, ?H4, ?H5; done.
Qed.

Lemma job_inv_errnum l0 s e :
  job_inv l0 s -> job_inv l0 (lst_set_dev s (dev_set_errnum (ls_dev s) e)).
Proof. intros Hi. by apply job_inv_dev; [|apply Hi|..]. Qed.

(** Replacing a slot, and what it owns. *)
Lemma job_inv_update l0 s i x y jobs l' :
  job_inv l0 s -> d_jobs (ls_dev s) !! i = Some x -> slot_ok y ->
  jobs = <[i := y]> (d_jobs (ls_dev s)) ->
  (forall fd, fd_held fd l' = fd_held fd (ls_log s) - owns_fd fd x + owns_fd fd y) ->
  (forall d h, so_held d h l' = so_held d h (ls_log s)
     + (if d_fd (ls_dev s) =? d then owns_so h y - owns_so h x else 0)) ->
  mapped l' = mapped (ls_log s) -> dirs_open l' = dirs_open (ls_log s) ->
  job_inv l0 (mkL (dev_set_jobs (ls_dev s) jobs) (ls_mem s) l').
Proof.
  intros [? ? Hl Hok Hf Hs Hm Hd ?] Hx Hy -> H1 H2 H3 H4. split; cbn -[sumZ]; try done.
  - by rewrite length_insert.
  - by apply Forall_insert.
  - intros fd. rewrite (sumZ_insert _ _ _ _ _ Hx), H1, Hf. lia.
  - intros d h. rewrite (sumZ_insert _ _ _ _ _ Hx), H2, Hs. destruct (_ =? d); lia.
  - congruence.
  - congruence.
Qed.

(** Replacing a slot by one that owns the same. *)
Lemma job_inv_slot l0 s i x y :
  job_inv l0 s -> d_jobs (ls_dev s) !! i = Some x -> slot_ok y ->
  (forall fd, owns_fd fd y = owns_fd fd x) -> (forall h, owns_so h y = owns_so h x) ->
  job_inv l0 (lst_set_dev s (dev_set_jobs (ls_dev s) (<[i := y]> (d_jobs (ls_dev s))))).
Proof.
  intros Hi Hx Hy H1 H2. apply (job_inv_update l0 s i x y); try done.
  - intros fd. rewrite H1. lia.
  - intros d' h. rewrite H2. destruct (_ =? d'); lia.
Qed.
End Inv.
