(* ===== verification/LibJobInv.v ===== *)
(** * Every job function keeps the slots in order

    Each function of the job interface returns, and keeps [job_inv]: whatever
    the operating system answers, the descriptors and sync objects that exist
    are those the slots own. *)
From S2P Require Export LibInv.

Section Rules.
Context `{A : abi} `{OS : Sys}.

Lemma wp_dev (Q : strela_dev -> lst -> Prop) s : Q (ls_dev s) s -> wp dev_ Q s.
Proof. intros HQ. by exists (ls_dev s), s. Qed.

Lemma wp_update_dev f (Q : unit -> lst -> Prop) s :
  Q tt (lst_set_dev s (f (ls_dev s))) -> wp (update_dev f) Q s.
Proof. intros HQ. by eexists _, _. Qed.

Lemma wp_sys c (Q : Z + Z * Z -> lst -> Prop) s :
  Q (sys (ls_log s) c) (lst_add s (Sev c (sys (ls_log s) c))) -> wp (sys_ c) Q s.
Proof. intros HQ. by eexists _, _. Qed.

Lemma wp_sys_or_abort c (Q : unit -> lst -> Prop) s :
  (exists r, sys (ls_log s) c = inr r /\ Q tt (lst_add s (Sev c (inr r)))) -> wp (sys_or_abort c) Q s.
Proof.
  intros (r & He & HQ). unfold sys_or_abort. apply wp_bind, wp_sys. rewrite He. by apply wp_ret.
Qed.

Lemma wp_when_ok k (Q : unit -> lst -> Prop) s :
  (strela_dev_ok (ls_dev s) = true -> wp (k (ls_dev s)) Q s) ->
  (strela_dev_ok (ls_dev s) = false -> Q tt s) -> wp (when_ok k) Q s.
Proof.
  intros H1 H2. unfold when_ok. apply wp_bind, wp_dev. destruct (strela_dev_ok _); [by apply H1|].
  by apply wp_ret, H2.
Qed.

Lemma wp_get_slot i x (Q : strela_job_slot -> lst -> Prop) s :
  d_jobs (ls_dev s) !! i = Some x -> Q x s -> wp (get_slot i) Q s.
Proof. intros Hx HQ. unfold get_slot. apply wp_bind, wp_dev. rewrite Hx. by apply wp_ret. Qed.

Lemma wp_update_slot i x f (Q : unit -> lst -> Prop) s :
  d_jobs (ls_dev s) !! i = Some x ->
  Q tt (lst_set_dev s (dev_set_jobs (ls_dev s) (<[i := f x]> (d_jobs (ls_dev s))))) ->
  wp (update_slot i f) Q s.
Proof.
  intros Hx HQ. unfold update_slot. apply wp_update_dev. by rewrite (alter_insert _ _ _ _ Hx).
Qed.
End Rules.

Section Jobs.
Context `{A : abi} `{OS : Sys} `{HL : !SysLaws OS} `{HU : !Undisturbed OS}.
Context (l0 : list sevent) (Hl0 : log_ok l0).

Lemma slot_fd_held s i x :
  job_inv l0 s -> d_jobs (ls_dev s) !! i = Some x -> slot_used x = true -> sl_fence_fd x <> -1 ->
  0 < fd_held (sl_fence_fd x) (ls_log s).
Proof.
  intros Hi Hx Hu Hfd. rewrite (ji_fds _ _ Hi). destruct Hl0 as [Hf _].
  specialize (Hf (sl_fence_fd x)).
  pose proof (sumZ_ge (owns_fd (sl_fence_fd x)) _ _ _ (owns_fd_nonneg _) Hx) as Hg.
  unfold owns_fd at 1 in Hg. rewrite Hu, (proj2 (Z.eqb_neq _ _) Hfd), Z.eqb_refl in Hg. cbn in Hg.
  destruct (d_fd (ls_dev s) =? _); lia.
Qed.

Lemma slot_so_held s i x :
  job_inv l0 s -> d_jobs (ls_dev s) !! i = Some x -> slot_used x = true ->
  0 < so_held (d_fd (ls_dev s)) (sub_out_syncobj (sl_submit x)) (ls_log s).
Proof.
  intros Hi Hx Hu. rewrite (ji_sos _ _ Hi), Z.eqb_refl. destruct Hl0 as [_ Hs].
  specialize (Hs (d_fd (ls_dev s)) (sub_out_syncobj (sl_submit x))).
  pose proof (sumZ_ge (owns_so (sub_out_syncobj (sl_submit x))) _ _ _ (owns_so_nonneg _) Hx) as Hg.
  unfold owns_so at 1 in Hg. rewrite Hu, Z.eqb_refl in Hg. cbn in Hg. lia.
Qed.

Lemma job_slot_ok s i x : job_inv l0 s -> d_jobs (ls_dev s) !! i = Some x -> slot_ok x.
Proof. intros Hi Hx. pose proof (ji_slots _ _ Hi) as H. rewrite Forall_lookup in H. eauto. Qed.

(** A slot that gives up what it owns. *)
Definition slot_freed : strela_job_slot := slot_set_fd slot0 (-1).

Lemma slot_freed_owns : (forall fd, owns_fd fd slot_freed = 0) /\ (forall h, owns_so h slot_freed = 0).
Proof. done. Qed.

(** What giving a slot up does to the log. *)
Definition give_up_fd (x : strela_job_slot) (l : list sevent) (r : Z * Z) : list sevent :=
  if negb (sl_fence_fd x =? -1) then Sev (SC_close (sl_fence_fd x)) (inr r) :: l else l.

Lemma give_up_fd_counts x l r :
  slot_used x = true ->
  (forall fd, fd_held fd (give_up_fd x l r) = fd_held fd l - owns_fd fd x)
  /\ (forall d h, so_held d h (give_up_fd x l r) = so_held d h l)
  /\ mapped (give_up_fd x l r) = mapped l /\ dirs_open (give_up_fd x l r) = dirs_open l.
Proof.
  intros Hu. unfold give_up_fd, owns_fd. rewrite Hu.
  destruct (sl_fence_fd x =? -1); cbn; split_and!; try done; intros fd; [lia|].
  destruct (sl_fence_fd x =? fd); lia.
Qed.

(** The calls of [strela_job_slot_release] after the wait, on a slot [y] that
    owns what slot [x] of [s] owned. *)
Lemma release_tail s s1 i x y jobs l (Q : unit -> lst -> Prop) :
  job_inv l0 s -> d_jobs (ls_dev s) !! i = Some x -> slot_used x = true ->
  sl_fence_fd y = sl_fence_fd x -> sl_submit y = sl_submit x ->
  jobs !! i = Some y -> <[i := slot_freed]> jobs = <[i := slot_freed]> (d_jobs (ls_dev s)) ->
  (exists e, quiet e /\ l = e :: ls_log s) \/ l = ls_log s ->
  s1 = mkL (dev_set_jobs (ls_dev s) jobs) (ls_mem s) l ->
  (forall s', job_inv l0 s' -> job_frame s s' -> d_jobs (ls_dev s') = <[i := slot_freed]> (d_jobs (ls_dev s)) ->
              d_errnum (ls_dev s') = d_errnum (ls_dev s) -> Q tt s') ->
  wp (do! (if negb (sl_fence_fd y =? -1) then sys_or_abort (SC_close (sl_fence_fd y)) else mret_ tt) in
      do! (if negb (sub_out_syncobj (sl_submit y) =? 0)
           then sys_or_abort (SC_syncobj_destroy (d_fd (ls_dev s)) (sub_out_syncobj (sl_submit y)))
           else mret_ tt) in
      update_slot i (fun _ => slot_set_fd slot0 (-1))) Q s1.
Proof.
  intros Hi Hx Hu -> -> Hy Hjobs Hl -> HQ.
  assert (Hcnt : (forall fd, fd_held fd l = fd_held fd (ls_log s))
                 /\ (forall d h, so_held d h l = so_held d h (ls_log s))
                 /\ mapped l = mapped (ls_log s) /\ dirs_open l = dirs_open (ls_log s)).
  { destruct Hl as [(e & (H1 & H2 & H3) & ->)| ->]; [|done]. destruct (H3 (ls_log s)) as [-> ->].
    split_and!; try done; intros; cbn; rewrite ?H1, ?H2; lia. }
  destruct Hcnt as (Hc1 & Hc2 & Hc3 & Hc4).
  pose proof (job_slot_ok _ _ _ Hi Hx) as Hok. pose proof (slot_so_held _ _ _ Hi Hx Hu) as Hso.
  assert (Hso0 : sub_out_syncobj (sl_submit x) <> 0).
  { destruct Hok as [Hf|(? & _)]; [|lia]. unfold slot_used in Hu. by rewrite Hf in Hu. }
  apply wp_bind. eapply (wp_mono _ (fun _ s' => exists r,
    s' = mkL (dev_set_jobs (ls_dev s) jobs) (ls_mem s) (give_up_fd x l r))).
  { unfold give_up_fd. destruct (sl_fence_fd x =? -1) eqn:Hfd; cbn [negb].
    - apply wp_ret. by exists (0, 0).
    - apply wp_sys_or_abort. destruct (law_close l (sl_fence_fd x)) as [r Hr].
      { rewrite Hc1. apply (slot_fd_held _ _ _ Hi Hx Hu). lia. }
      exists r. split; [done|]. by exists r. }
  intros _ s' (r & ->). destruct (give_up_fd_counts x l r Hu) as (Hg1 & Hg2 & Hg3 & Hg4).
  rewrite (proj2 (Z.eqb_neq _ _) Hso0). cbn [negb].
  apply wp_bind, wp_sys_or_abort. cbn [ls_log].
  destruct (law_destroy (give_up_fd x l r) (d_fd (ls_dev s)) (sub_out_syncobj (sl_submit x))) as [r2 Hr2].
  { by rewrite Hg2, Hc2. }
  exists r2. split; [done|]. eapply wp_update_slot; [exact Hy|].
  apply HQ; [|by split|cbn; exact Hjobs|done].
  apply (job_inv_update _ s i x slot_freed); try done; [by left|..].
  - intros fd. cbn. rewrite Hg1, Hc1. rewrite (proj1 slot_freed_owns). lia.
  - intros d h. cbn. rewrite Hg2, Hc2, (proj2 slot_freed_owns).
    unfold owns_so. rewrite Hu. destruct (_ =? d), (_ =? h); cbn; lia.
  - cbn. congruence.
  - cbn. congruence.
Qed.

Lemma release_wp s i (Q : unit -> lst -> Prop) :
  job_inv l0 s -> (i < STRELA_JOBS_MAX)%nat ->
  (forall s' y, job_inv l0 s' -> job_frame s s' -> sl_phase y = STRELA_JOB_FREE ->
     d_jobs (ls_dev s') = <[i := y]> (d_jobs (ls_dev s)) ->
     d_errnum (ls_dev s') = d_errnum (ls_dev s) -> Q tt s') ->
  wp (strela_job_slot_release i) Q s.
Proof.
  intros Hi Hlt HQ. rewrite <- (ji_len _ _ Hi) in Hlt.
  destruct (lookup_lt_is_Some_2 _ _ Hlt) as [x Hx].
  unfold strela_job_slot_release. apply wp_bind, wp_dev, wp_bind, wp_assert; [apply Hi|].
  assert (Hself : s = mkL (dev_set_jobs (ls_dev s) (d_jobs (ls_dev s))) (ls_mem s) (ls_log s)).
  { by destruct s as [[] m l]. }
  unfold strela_job_slot_finish. apply wp_bind, wp_bind, (wp_get_slot i x); [done|].
  destruct (decide (sl_phase x = STRELA_JOB_SUBMITTED)) as [Hph|Hph].
  - rewrite bool_decide_true by done. cbn [negb]. apply wp_bind, wp_dev.
    assert (Hu : slot_used x = true) by (unfold slot_used; by rewrite Hph).
    set (c := if negb (sl_fence_fd x =? -1) then SC_poll (sl_fence_fd x) (-1)
              else SC_syncobj_wait (d_fd (ls_dev s)) (sub_out_syncobj (sl_submit x))).
    assert (Hc : exists r, sys (ls_log s) c = inr r).
    { unfold c. destruct (Z.eqb_spec (sl_fence_fd x) (-1)); cbn [negb].
      - apply und_wait. by apply (slot_so_held _ i).
      - apply und_poll. by apply (slot_fd_held _ i). }
    destruct Hc as [r Hr]. assert (Hq : quiet (Sev c (inr r))).
    { apply quiet_call_ok. unfold c. by destruct (negb _). }
    apply wp_bind. apply (wp_mono _ (fun _ s' => s' = lst_add s (Sev c (inr r)))).
    { unfold c in *. destruct (negb _); apply wp_sys_or_abort; by exists r. }
    intros _ s' ->. apply (wp_update_slot i x); [done|].
    apply wp_bind, (wp_get_slot i (slot_set_phase x STRELA_JOB_DONE)).
    { cbn. by rewrite list_lookup_insert_eq by done. }
    cbn [sl_phase slot_set_phase]. rewrite bool_decide_false by done.
    eapply (release_tail s _ i x _ (<[i := slot_set_phase x STRELA_JOB_DONE]> (d_jobs (ls_dev s)))); try done.
    + by rewrite list_lookup_insert_eq.
    + by rewrite list_insert_insert_eq.
    + left. eauto.
    + intros s' H1 H2 H3 H4. by eapply (HQ s' slot_freed).
  - rewrite bool_decide_false by done. cbn [negb]. apply wp_ret, wp_bind, (wp_get_slot i x); [done|].
    destruct (decide (sl_phase x = STRELA_JOB_FREE)) as [Hf|Hf].
    + rewrite bool_decide_true by done. apply wp_ret, (HQ s x); try done. by rewrite list_insert_id.
    + rewrite bool_decide_false by done.
      apply (release_tail s s i x x (d_jobs (ls_dev s)) (ls_log s)); try done; [|by right|].
      * unfold slot_used. by rewrite bool_decide_false.
      * intros s' H1 H2 H3 H4. by eapply (HQ s' slot_freed).
Qed.
(** What every job function guarantees. *)
Definition job_post {X} (s : lst) (_ : X) (s' : lst) : Prop := job_inv l0 s' /\ job_frame s s'.

Lemma job_post_trans {X} s1 s2 (x : X) s3 : job_frame s1 s2 -> job_post s2 x s3 -> job_post s1 x s3.
Proof. intros Hf [? ?]. split; [done|]. by transitivity s2. Qed.

Lemma release_slots_wp n i s :
  job_inv l0 s -> (i + n <= STRELA_JOBS_MAX)%nat ->
  wp (release_slots i n) (fun x s' => job_post s x s'
    /\ d_errnum (ls_dev s') = d_errnum (ls_dev s)
    /\ (forall k, (k < i)%nat -> d_jobs (ls_dev s') !! k = d_jobs (ls_dev s) !! k)
    /\ (forall k x, (i <= k < i + n)%nat -> d_jobs (ls_dev s') !! k = Some x ->
         sl_phase x = STRELA_JOB_FREE)) s.
Proof.
  revert i s. induction n as [|n IH]; intros i s Hi Hle; cbn [release_slots].
  { apply wp_ret. split_and!; try done. intros; lia. }
  apply wp_bind, release_wp; [done|lia|]. intros s1 y H1 Hf1 Hy Hj1 He1.
  eapply wp_mono; [apply (IH (S i) s1 H1); lia|]. intros u s2 ([H2 Hf2] & He2 & Hlt & Hfree).
  split_and!; [split; [done|by transitivity s1]|congruence|..].
  - intros k Hk. rewrite Hlt by lia. rewrite Hj1, list_lookup_insert_ne by lia. done.
  - intros k x Hk Hx. destruct (decide (k = i)) as [Hk2|]; [|apply (Hfree k); [lia|done]]. subst k.
    rewrite Hlt in Hx by lia. rewrite Hj1 in Hx. rewrite list_lookup_insert_eq in Hx; [by simplify_eq|].
    rewrite (ji_len _ _ Hi). lia.
Qed.

(** Nothing is owned by free slots. *)
Lemma free_owns s : sl_phase s = STRELA_JOB_FREE -> (forall fd, owns_fd fd s = 0) /\ (forall h, owns_so h s = 0).
Proof. intros H. unfold owns_fd, owns_so, slot_used. by rewrite H. Qed.

Definition all_free (s : lst) : Prop := Forall (fun x => sl_phase x = STRELA_JOB_FREE) (d_jobs (ls_dev s)).

Lemma all_free_sums s :
  all_free s -> (forall fd, sumZ (owns_fd fd) (d_jobs (ls_dev s)) = 0)
                /\ (forall h, sumZ (owns_so h) (d_jobs (ls_dev s)) = 0).
Proof.
  unfold all_free. induction 1 as [|x l Hx _ [IH1 IH2]]; [done|].
  destruct (free_owns _ Hx) as [H1 H2]. cbn. split; intros; rewrite ?H1, ?H2, ?IH1, ?IH2; done.
Qed.

Lemma job_free_all_wp s :
  job_inv l0 s ->
  wp strela_job_free_all (fun x s' => job_post s x s' /\ d_errnum (ls_dev s') = d_errnum (ls_dev s)
                                      /\ (strela_dev_ok (ls_dev s) = true -> all_free s')
                                      /\ (strela_dev_ok (ls_dev s) = false -> s' = s)) s.
Proof.
  intros Hi. unfold strela_job_free_all. apply wp_when_ok; intros Hok.
  - eapply wp_mono; [by apply release_slots_wp|]. intros u s' ([H1 H2] & He & _ & Hf).
    split_and!; try done; [|congruence]. intros _. apply Forall_lookup. intros k x Hx. apply (Hf k); [|done].
    apply lookup_lt_Some in Hx. rewrite (ji_len _ _ H1) in Hx. lia.
  - split_and!; try done. congruence.
Qed.

Lemma set_errnum_wp s e (Q : unit -> lst -> Prop) :
  (job_frame s (lst_set_dev s (dev_set_errnum (ls_dev s) e)) -> Q tt (lst_set_dev s (dev_set_errnum (ls_dev s) e))) ->
  wp (set_errnum e) Q s.
Proof. intros HQ. apply wp_update_dev, HQ. by split. Qed.

(** [strela_job_slot_get] answers a slot in one of the phases, or leaves the
    device with an error. *)
Definition names (job : strela_job) (i : nat) : Prop :=
  jh_valid job = true /\ jh_handle job < Z.of_nat STRELA_JOBS_MAX /\ i = Z.to_nat (jh_handle job).

Definition got (s : lst) (job : strela_job) (phases : Z) (r : option nat) (s' : lst) : Prop :=
  job_post s r s' /\
  match r with
  | Some i => s' = s /\ strela_dev_ok (ls_dev s) = true /\ (i < STRELA_JOBS_MAX)%nat /\ names job i
      /\ exists x, d_jobs (ls_dev s) !! i = Some x /\ phase_is_in (sl_phase x) phases = false
  | None => strela_dev_ok (ls_dev s') = false
  end.

Lemma slot_get_wp s job phases :
  job_inv l0 s -> wp (strela_job_slot_get job phases) (got s job phases) s.
Proof.
  intros Hi. unfold strela_job_slot_get. apply wp_bind, wp_dev, wp_bind.
  assert (Hbad : wp (do! set_errnum (- STRELA_ERR_BAD_ARG) in mret_ (None (A := nat))) (got s job phases) s).
  { apply wp_bind, set_errnum_wp. intros Hf. apply wp_ret. split; [split; [by apply job_inv_errnum|done]|].
    unfold strela_dev_ok. cbn. by rewrite andb_false_r. }
  eapply (wp_mono _ (got s job phases)).
  - apply wp_if; intros Hok; [|by apply wp_ret].
    apply wp_if; intros Hb; [exact Hbad|]. apply orb_false_iff in Hb as [Hv Hb]. apply negb_false_iff in Hv.
    assert (Hn : names job (Z.to_nat (jh_handle job))) by (split_and!; [done|lia|done]).
    assert (Hlt : (Z.to_nat (jh_handle job) < STRELA_JOBS_MAX)%nat) by (unfold STRELA_JOBS_MAX in *; lia).
    pose proof Hlt as Hlt'. rewrite <- (ji_len _ _ Hi) in Hlt'.
    destruct (lookup_lt_is_Some_2 _ _ Hlt') as [x Hx].
    apply wp_bind, (wp_get_slot _ x); [done|]. apply wp_if; intros Hp; [exact Hbad|].
    apply wp_ret. split; [by split|]. eauto 10.
  - intros r s' Hg. apply wp_bind, wp_dev, wp_bind, wp_assert; [|by apply wp_ret].
    destruct Hg as [_ Hg]. destruct r as [i|].
    + destruct Hg as (-> & -> & _). by rewrite bool_decide_true.
    + rewrite Hg. by rewrite bool_decide_false by (by intros []).
Qed.

Lemma job_free_wp s job : job_inv l0 s -> wp (strela_job_free job) (job_post s) s.
Proof.
  intros Hi. unfold strela_job_free. apply wp_bind. eapply wp_mono; [by apply slot_get_wp|].
  intros r s1 [[Hi1 Hf1] Hr]. apply wp_when_ok; intros Hok; [|by split].
  destruct r as [i|]; [|congruence]. destruct Hr as (-> & _ & Hlt & _). apply wp_bind, wp_ret.
  apply release_wp; [done..|]. intros s' y ?????. by split.
Qed.
(** Using the slot of [strela_job_slot_get] when there is no error. *)
Lemma use_slot_wp {X} s job phases (k : option nat -> M lst X) (Q : X -> lst -> Prop) :
  job_inv l0 s ->
  (forall i x, names job i -> strela_dev_ok (ls_dev s) = true -> (i < STRELA_JOBS_MAX)%nat ->
     d_jobs (ls_dev s) !! i = Some x -> phase_is_in (sl_phase x) phases = false ->
     wp (k (Some i)) Q s) ->
  (forall s', job_post s tt s' -> strela_dev_ok (ls_dev s') = false -> wp (k None) Q s') ->
  wp (let! slot := strela_job_slot_get job phases in k slot) Q s.
Proof.
  intros Hi H1 H2. apply wp_bind. eapply wp_mono; [by apply slot_get_wp|].
  intros [i|] s1 [Hp Hr]; [|by apply H2]. destruct Hr as (-> & Hok & Hlt & Hn & x & Hx & Hph). eauto.
Qed.

Lemma wait_phase x :
  phase_is_in (sl_phase x) PHASES_WAIT = false ->
  sl_phase x = STRELA_JOB_SUBMITTED \/ sl_phase x = STRELA_JOB_DONE.
Proof. destruct (sl_phase x); cbn; auto; done. Qed.

Lemma submit_phase x :
  phase_is_in (sl_phase x) PHASES_SUBMIT = false ->
  sl_phase x = STRELA_JOB_CONFIGURED \/ sl_phase x = STRELA_JOB_DONE.
Proof. destruct (sl_phase x); cbn; auto; done. Qed.

Lemma job_post_quiet s e : quiet e -> job_inv l0 s -> job_post s tt (lst_add s e).
Proof. intros Hq Hi. split; [by apply job_inv_quiet|by split]. Qed.

Lemma job_post_errnum s s' e :
  job_post s tt s' -> job_post s tt (lst_set_dev s' (dev_set_errnum (ls_dev s') e)).
Proof. intros [Hi Hf]. split; [by apply job_inv_errnum|]. transitivity s'; [done|by split]. Qed.

Lemma update_wp s i x timeout :
  job_inv l0 s -> d_jobs (ls_dev s) !! i = Some x ->
  sl_phase x = STRELA_JOB_SUBMITTED \/ sl_phase x = STRELA_JOB_DONE ->
  wp (strela_job_update i timeout) (fun u s' => job_post s u s' /\
    exists y, d_jobs (ls_dev s') !! i = Some y) s.
Proof.
  intros Hi Hx Hph. unfold strela_job_update. apply wp_bind, (wp_get_slot i x); [done|].
  apply wp_bind, wp_assert; [by destruct Hph as [-> | ->]|].
  apply wp_if; intros Hd; [apply wp_ret; split; [by split|by exists x]|].
  apply bool_decide_eq_false in Hd. destruct Hph as [Hph|]; [|done].
  assert (Hlook : forall s', job_post s tt s' -> d_jobs (ls_dev s') = d_jobs (ls_dev s) ->
            job_post s tt s' /\ exists y, d_jobs (ls_dev s') !! i = Some y).
  { intros s' Hp ->. eauto. }
  apply wp_bind, wp_sys. set (c := SC_poll _ _). destruct (sys (ls_log s) c) as [e|[n z]] eqn:He.
  - assert (Hp : job_post s tt (lst_add s (Sev c (inl e)))) by (by apply job_post_quiet).
    apply wp_if; intros _; [|apply wp_ret; by apply Hlook].
    apply wp_update_dev. apply Hlook; [|done]. by apply job_post_errnum.
  - assert (Hp : job_post s tt (lst_add s (Sev c (inr (n, z))))) by (by apply job_post_quiet).
    apply wp_if; intros Hn; [apply wp_ret; by apply Hlook|].
    assert (Hfd : 0 <= sl_fence_fd x).
    { destruct (decide (sl_fence_fd x < 0)); [|lia]. apply law_poll_negative in He; [|done]. lia. }
    apply wp_bind, wp_sys. cbn [ls_log lst_add]. set (c2 := SC_file_info _). set (s1 := lst_add s _) in *.
    assert (Hp2 : forall r, job_post s tt (lst_add s1 (Sev c2 r))).
    { intros r. eapply job_post_trans; [apply Hp|]. apply job_post_quiet; [by apply quiet_call_ok|apply Hp]. }
    destruct (sys _ c2) as [e2|[status w]].
    + apply wp_update_dev. apply Hlook; [|done]. by apply job_post_errnum.
    + apply (wp_update_slot i x); [done|]. specialize (Hp2 (inr (status, w))).
      set (y := slot_set_phase _ _). destruct (owns_same x y) as [Hy1 Hy2]; [|done..|].
      { unfold slot_used, y. cbn. by rewrite Hph. }
      split; [split|].
      * apply (job_inv_slot _ _ _ x); try done; [apply Hp2|]. pose proof (job_slot_ok _ _ _ Hi Hx) as Hok.
        destruct Hok as [|(? & _)]; [congruence|]. right. unfold y; cbn. by split_and!.
      * transitivity (lst_add s1 (Sev c2 (inr (status, w)))); [apply Hp2|by split].
      * exists y. cbn. rewrite list_lookup_insert_eq; [done|]. rewrite (ji_len _ _ Hi).
        apply lookup_lt_Some in Hx. by rewrite (ji_len _ _ Hi) in Hx.
Qed.

Lemma job_poll_wp s job : job_inv l0 s -> wp (strela_job_poll job) (job_post s) s.
Proof.
  intros Hi. unfold strela_job_poll. apply (use_slot_wp s); [done|..].
  - intros i x Hn Hok Hlt Hx Hph. apply wp_bind, wp_dev. rewrite Hok. cbn [negb].
    apply wp_bind, wp_ret, wp_bind. eapply wp_mono; [eapply update_wp; [done..|by apply wait_phase]|].
    intros u s1 [Hp (y & Hy)]. apply wp_bind, (wp_get_slot i y); [done|]. by apply wp_ret.
  - intros s1 Hp Hok. apply wp_bind, wp_dev. rewrite Hok. by apply wp_ret.
Qed.

Lemma job_wait_wp s job t : job_inv l0 s -> wp (strela_job_wait job t) (job_post s) s.
Proof.
  intros Hi. unfold strela_job_wait. apply (use_slot_wp s); [done|..].
  - intros i x Hn Hok Hlt Hx Hph. apply wp_bind, wp_when_ok; [intros _|congruence].
    apply wp_bind, wp_ret. eapply wp_mono; [eapply update_wp; [done..|by apply wait_phase]|].
    intros u s1 [Hp (y & Hy)]. apply wp_bind, wp_dev. apply wp_if; intros _; [by apply wp_ret|].
    apply wp_bind, wp_ret, wp_bind, (wp_get_slot i y); [done|]. by apply wp_ret.
  - intros s1 Hp Hok. apply wp_bind, wp_when_ok; [congruence|intros _].
    apply wp_bind, wp_dev. rewrite Hok. by apply wp_ret.
Qed.

Lemma job_fd_wp s job : job_inv l0 s -> wp (strela_job_fd job) (job_post s) s.
Proof.
  intros Hi. unfold strela_job_fd. apply (use_slot_wp s); [done|..].
  - intros i x Hn Hok Hlt Hx Hph. apply wp_bind, wp_dev. rewrite Hok. cbn [negb].
    apply wp_bind, wp_ret, wp_bind, (wp_get_slot i x); [done|]. by apply wp_ret.
  - intros s1 Hp Hok. apply wp_bind, wp_dev. rewrite Hok. by apply wp_ret.
Qed.

(** The library resubmits a job that is done: it closes the old fence and
    exports the new one. The export finds a free descriptor then, the one that
    was closed last. A first export may fail. *)
Context (HE : forall l fd r dfd h, exists r', sys (Sev (SC_close fd) (inr r) :: l) (SC_handle_to_fd dfd h) = inr r').

Lemma ok_errnum d : strela_dev_ok d = true -> d_errnum d = 0.
Proof. unfold strela_dev_ok, STRELA_ERR_OK. intros [_ H]%andb_prop. lia. Qed.

Lemma errnum_not_ok d e : e <> 0 -> strela_dev_ok (dev_set_errnum d e) = false.
Proof. intros He. unfold strela_dev_ok, STRELA_ERR_OK. cbn [d_errnum dev_set_errnum].
  rewrite (proj2 (Z.eqb_neq _ _) He). apply andb_false_r. Qed.

(** A job that is in the driver without an exported fence. *)
Lemma job_inv_submitted s i x :
  job_inv l0 s -> d_jobs (ls_dev s) !! i = Some x -> sl_phase x = STRELA_JOB_CONFIGURED ->
  job_inv l0 (lst_set_dev s (dev_set_jobs (ls_dev s)
    (<[i := slot_set_phase x STRELA_JOB_SUBMITTED]> (d_jobs (ls_dev s))))).
Proof.
  intros Hi Hx Hph. destruct (job_slot_ok _ _ _ Hi Hx) as [|(Hso & Hc & _)]; [congruence|]. specialize (Hc Hph).
  assert (Hu : slot_used x = true) by (unfold slot_used; by rewrite Hph).
  destruct (owns_same x (slot_set_phase x STRELA_JOB_SUBMITTED) (eq_sym Hu) eq_refl eq_refl) as [H1 H2].
  apply (job_inv_slot _ s i x); try done. right. cbn. split_and!; [done|done|lia|done].
Qed.

(** Unless there is an error, the slot is in the driver and has its fence. *)
Definition running (i : nat) (s : lst) : Prop :=
  strela_dev_ok (ls_dev s) = true ->
  exists y, d_jobs (ls_dev s) !! i = Some y /\ sl_phase y = STRELA_JOB_SUBMITTED /\ 0 <= sl_fence_fd y.

(** The second half of [strela_job_submit]: the job is in the driver. *)
Lemma submitted_wp s i x (Q : unit -> lst -> Prop) :
  job_inv l0 s -> d_jobs (ls_dev s) !! i = Some x ->
  sl_phase x = STRELA_JOB_CONFIGURED \/ sl_phase x = STRELA_JOB_DONE ->
  (forall s', job_post s tt s' -> running i s' -> Q tt s') ->
  wp (do! (if bool_decide (sl_phase x = STRELA_JOB_DONE)
           then sys_or_abort (SC_close (sl_fence_fd x)) else mret_ tt) in
      do! update_slot i (fun s => slot_set_phase s STRELA_JOB_SUBMITTED) in
      let! export := sys_ (SC_handle_to_fd (d_fd (ls_dev s)) (sub_out_syncobj (sl_submit x))) in
      match export with
      | inl errno => set_errnum errno
      | inr (fd, _) => update_slot i (fun s => slot_set_fd s fd)
      end) Q s.
Proof.
  intros Hi Hx Hph HQ. pose proof (job_slot_ok _ _ _ Hi Hx) as Hok.
  assert (Hlen : (i < length (d_jobs (ls_dev s)))%nat) by (by apply lookup_lt_Some in Hx).
  assert (Hu : slot_used x = true) by (unfold slot_used; by destruct Hph as [-> | ->]).
  destruct Hok as [Hf|(Hso & Hc & _ & Hd)]; [by destruct Hph; congruence|].
  apply wp_bind. eapply (wp_mono _ (fun _ s' => exists r, s' = mkL (ls_dev s) (ls_mem s) (give_up_fd x (ls_log s) r))).
  { unfold give_up_fd. destruct Hph as [Hph|Hph]; rewrite Hph.
    - rewrite bool_decide_false by done. rewrite (Hc Hph). apply wp_ret. exists (0, 0). by destruct s.
    - rewrite bool_decide_true by done. specialize (Hd Hph). rewrite (proj2 (Z.eqb_neq _ _)) by lia.
      apply wp_sys_or_abort. destruct (law_close (ls_log s) (sl_fence_fd x)) as [r Hr].
      { apply (slot_fd_held _ i); [done..|lia]. }
      exists r. split; [done|]. by exists r. }
  intros _ s1 (r & ->). destruct (give_up_fd_counts x (ls_log s) r Hu) as (Hg1 & Hg2 & Hg3 & Hg4).
  apply wp_bind, (wp_update_slot i x); [done|]. apply wp_bind, wp_sys. cbn [lst_set_dev ls_log ls_dev ls_mem].
  destruct (sys (give_up_fd x (ls_log s) r) _) as [e|[fd z]] eqn:Hex.
  - assert (Hcf : sl_phase x = STRELA_JOB_CONFIGURED).
    { destruct Hph as [Hph|Hph]; [done|exfalso]. specialize (Hd Hph). unfold give_up_fd in Hex.
      rewrite (proj2 (Z.eqb_neq (sl_fence_fd x) (-1))) in Hex by lia. cbn [negb] in Hex.
      edestruct HE as [r' Hr']. rewrite Hr' in Hex. done. }
    specialize (Hc Hcf). apply set_errnum_wp. intros Hf. apply law_errno in Hex.
    apply HQ; [split; [|by split]|intros Hk; cbn in Hk; rewrite errnum_not_ok in Hk; [done|lia]].
    apply job_inv_errnum. cbn [lst_add ls_dev ls_mem ls_log]. unfold give_up_fd. rewrite Hc. cbn [Z.eqb negb].
    apply (job_inv_quiet _ (lst_set_dev s _)); [by apply quiet_fail|by apply job_inv_submitted].
  - pose proof (law_export _ _ _ _ _ Hex) as Hfd.
    apply (wp_update_slot i (slot_set_phase x STRELA_JOB_SUBMITTED)).
    { cbn. by rewrite list_lookup_insert_eq. }
    cbn. rewrite list_insert_insert_eq. set (y := slot_set_fd _ fd).
    apply HQ; [split; [|by split]|intros _; exists y; split; [by apply list_lookup_insert_eq|by cbn]].
    apply (job_inv_update _ s i x y); try done.
    + right. cbn. split_and!; [done|done|lia|done].
    + intros k. assert (Hy : owns_fd k y = if fd =? k then 1 else 0).
      { unfold owns_fd, y. cbn. by rewrite (proj2 (Z.eqb_neq fd (-1))) by lia. }
      cbn -[y]. rewrite Hg1, Hy. lia.
    + intros d h. assert (Hy : owns_so h y = owns_so h x) by (unfold owns_so; by rewrite Hu).
      cbn -[y]. rewrite Hg2, Hy. destruct (_ =? d); lia.
Qed.

Lemma job_submit_full_wp s job :
  job_inv l0 s ->
  wp (strela_job_submit job) (fun b s' => job_post s b s' /\
    (strela_dev_ok (ls_dev s') = true -> exists i, names job i /\ running i s')) s.
Proof.
  intros Hi. unfold strela_job_submit. apply (use_slot_wp s); [done|..].
  - intros i x Hn Hok Hlt Hx Hph. apply wp_bind, wp_when_ok; [intros _|congruence].
    apply wp_bind, wp_ret, wp_bind, (wp_get_slot i x); [done|]. apply wp_bind, wp_sys.
    set (c := SC_submit _ _). assert (Hp : forall r, job_post s tt (lst_add s (Sev c r))).
    { intros r. apply job_post_quiet; [by apply quiet_call_ok|done]. }
    destruct (sys (ls_log s) c) as [e|r] eqn:He.
    + apply wp_update_dev. apply law_errno in He. apply wp_bind, wp_when_ok.
      { cbn [ls_dev lst_set_dev]. intros Hk. rewrite errnum_not_ok in Hk; [done|lia]. }
      intros _. apply wp_bind, wp_dev, wp_ret. split; [apply (job_post_errnum s _ e (Hp (inl e)))|].
      cbn. intros Hk. rewrite errnum_not_ok in Hk; [done|lia].
    + apply wp_ret. apply wp_bind, wp_when_ok; [intros _|cbn [ls_dev lst_add]; congruence].
      apply wp_bind, wp_ret, wp_bind, (wp_get_slot i x); [done|].
      apply (submitted_wp (lst_add s (Sev c (inr r))) i x); [apply (Hp (inr r))|done|by apply submit_phase|].
      intros s' Hp' Hr. apply wp_bind, wp_dev, wp_ret. split; [|by eauto].
      eapply job_post_trans; [apply (Hp (inr r))|apply Hp'].
  - intros s1 Hp Hok. apply wp_bind, wp_when_ok; [congruence|intros _].
    apply wp_bind, wp_when_ok; [congruence|intros _]. apply wp_bind, wp_dev, wp_ret. split; [apply Hp|congruence].
Qed.

Lemma job_submit_wp s job : job_inv l0 s -> wp (strela_job_submit job) (job_post s) s.
Proof. intros Hi. eapply wp_mono; [by apply job_submit_full_wp|]. by intros b s' [? _]. Qed.

Lemma find_free_Some jobs i :
  find_free jobs = Some i -> exists x, jobs !! i = Some x /\ sl_phase x = STRELA_JOB_FREE.
Proof.
  unfold find_free. intros H. apply fmap_Some in H as ([k x] & H & ->).
  apply list_find_Some in H as (H1 & H2 & _). eauto.
Qed.

(** The last part of [strela_job_config], with a fresh sync object. *)
Lemma configured_wp s i x kernel conf h z :
  job_inv l0 s -> d_jobs (ls_dev s) !! i = Some x -> sl_phase x = STRELA_JOB_FREE -> 0 < h ->
  job_post s tt (lst_set_dev (lst_add s (Sev (SC_syncobj_create (d_fd (ls_dev s))) (inr (h, z))))
    (dev_set_jobs (ls_dev s) (<[i := mkSlot STRELA_JOB_CONFIGURED
       (conf_submit (ls_dev s) kernel conf h) (-1) (sl_status x)]> (d_jobs (ls_dev s))))).
Proof.
  intros Hi Hx Hf Hh. split; [|by split]. destruct (free_owns _ Hf) as [H1 H2].
  apply (job_inv_update _ s i x (mkSlot STRELA_JOB_CONFIGURED
       (conf_submit (ls_dev s) kernel conf h) (-1) (sl_status x))); try done.
  - right. cbn. by split_and!.
  - intros fd. rewrite H1. unfold owns_fd; cbn. rewrite andb_false_r. cbn. lia.
  - intros d k. rewrite H2. cbn. unfold owns_so, slot_used; cbn. rewrite bool_decide_false by done.
    destruct (_ =? d), (h =? k); cbn; lia.
Qed.

(** After an error nothing happens any more. *)
Lemma when_not_ok s k : strela_dev_ok (ls_dev s) = false -> when_ok k s = Ok (tt, s).
Proof. intros H. unfold when_ok, mbind_, dev_. by rewrite H. Qed.

Lemma job_config_failed s kernel conf :
  strela_dev_ok (ls_dev s) = false ->
  (let! dev := dev_ in
   let job := if strela_dev_ok dev then find_free (d_jobs dev) else None in
   do! when_ok (fun _ =>
     match job with None => set_errnum (- STRELA_ERR_NO_MEM) | Some _ => mret_ tt end) in
   let! dev := dev_ in
   let! syncobj := (if strela_dev_ok dev then
                      let! r := sys_ (SC_syncobj_create (d_fd dev)) in
                      match r with
                      | inl errno => do! set_errnum errno in mret_ 0
                      | inr (h, _) => mret_ h
                      end
                    else mret_ 0) in
   let! dev := dev_ in
   match job with
   | None => if strela_dev_ok dev then trap_ TSegv else mret_ jobh0
   | Some i =>
       if strela_dev_ok dev then
         do! update_slot i (fun s =>
               mkSlot STRELA_JOB_CONFIGURED (conf_submit dev kernel conf syncobj) (-1) (sl_status s)) in
         mret_ (mkJobH true (Z.of_nat i))
       else do! strela_job_slot_release i in mret_ jobh0
   end) s = Ok (jobh0, s).
Proof.
  intros Hok. unfold when_ok, mbind_, dev_, mret_. rewrite !Hok. by rewrite ?Hok.
Qed.

(** The slot behind a valid handle of [strela_job_config]. *)
Definition config_done (s : lst) (kernel : strela_kernel) (conf : strela_conf) (job : strela_job) (s' : lst) : Prop :=
  jh_valid job = true ->
  kernel_bad kernel = false /\ strela_dev_ok (ls_dev s') = true
  /\ exists x h, d_jobs (ls_dev s') !! Z.to_nat (jh_handle job) = Some x
       /\ sl_phase x = STRELA_JOB_CONFIGURED /\ sl_submit x = conf_submit (ls_dev s) kernel conf h.

Lemma job_config_full_wp s kernel conf :
  job_inv l0 s ->
  wp (strela_job_config kernel conf) (fun job s' => job_post s job s' /\ config_done s kernel conf job s') s.
Proof.
  intros Hi. unfold strela_job_config. apply wp_bind. apply wp_when_ok; intros Hok.
  2: { exists jobh0, s. split; [by apply job_config_failed|by split]. }
  apply wp_if; intros Hb.
  { apply set_errnum_wp. intros Hf. exists jobh0, (lst_set_dev s (dev_set_errnum (ls_dev s) (- STRELA_ERR_BAD_ARG))).
    split; [|by split; [split; [apply job_inv_errnum|exact Hf]|]].
    apply job_config_failed. by apply errnum_not_ok. }
  apply wp_ret, wp_bind, wp_dev. cbv zeta. rewrite Hok. apply wp_bind.
  destruct (find_free (d_jobs (ls_dev s))) as [i|] eqn:Hff.
  2: { apply wp_when_ok; [intros _|congruence]. apply set_errnum_wp. intros Hf. apply wp_bind, wp_dev.
       cbn [ls_dev lst_set_dev]. rewrite errnum_not_ok by done. apply wp_bind, wp_ret, wp_bind, wp_dev.
       cbn [ls_dev lst_set_dev]. rewrite errnum_not_ok by done. apply wp_ret.
       by split; [split; [apply job_inv_errnum|exact Hf]|]. }
  apply find_free_Some in Hff as (x & Hx & Hfree).
  assert (Hlt : (i < STRELA_JOBS_MAX)%nat) by (rewrite <- (ji_len _ _ Hi); by apply lookup_lt_Some in Hx).
  apply wp_when_ok; [intros _|congruence]. apply wp_ret, wp_bind, wp_dev. rewrite Hok.
  apply wp_bind, wp_bind, wp_sys. set (c := SC_syncobj_create _).
  destruct (sys (ls_log s) c) as [e|[h z]] eqn:He.
  - assert (Hp : job_post s tt (lst_add s (Sev c (inl e)))) by (apply job_post_quiet; [by apply quiet_fail|done]).
    apply law_errno in He. apply wp_bind, wp_update_dev. apply wp_ret, wp_bind, wp_dev.
    cbn [ls_dev lst_set_dev lst_add]. rewrite errnum_not_ok by lia. apply wp_bind.
    apply (job_post_errnum s _ e) in Hp as [Hi2 Hf2].
    apply release_wp; [done..|]. intros s' y H1 H2 _ _ _. apply wp_ret. split; [split; [done|]|done].
    etransitivity; [exact Hf2|exact H2].
  - apply law_create in He. apply wp_ret, wp_bind, wp_dev. cbn [ls_dev lst_add]. rewrite Hok.
    apply wp_bind, (wp_update_slot i x); [done|]. apply wp_ret.
    split; [apply (configured_wp s i x kernel conf h z); done|]. intros _. split; [done|]. split; [exact Hok|].
    eexists _, h. split; [cbn; rewrite Nat2Z.id; rewrite list_lookup_insert_eq;
      [done|by apply lookup_lt_Some in Hx]|done].
Qed.

Lemma job_config_wp s kernel conf : job_inv l0 s -> wp (strela_job_config kernel conf) (job_post s) s.
Proof. intros Hi. eapply wp_mono; [by apply job_config_full_wp|]. by intros x s' [? _]. Qed.

Lemma old_config_wp s kernel conf : job_inv l0 s -> wp (strela_config kernel conf) (job_post s) s.
Proof.
  intros Hi. unfold strela_config. apply wp_bind, wp_dev, wp_bind.
  apply (wp_mono _ (job_post s)).
  { apply wp_if; intros _; [by apply job_free_wp|by apply wp_ret]. }
  intros u s1 [Hi1 Hf1]. apply wp_bind. eapply wp_mono; [by apply job_config_wp|].
  intros job s2 [Hi2 Hf2]. apply wp_update_dev. split; [|transitivity s1; [done|by transitivity s2]].
  by apply job_inv_dev; [|apply Hi2|..].
Qed.
End Jobs.
