(* ===== verification/LibMem.v ===== *)
(** * The library's memory: buffers and kernels in use

    A client of the library holds buffers and kernels; the invariant ties its
    handles and the contents it wrote to the two allocators below. Each
    function of the buffer and kernel interface keeps the invariant. *)
From S2P Require Export FreeListTrace LibJobInv.

(** What a client holds: buffers with the bytes last written to them, kernels
    by handle with their bitstream. *)
Record session := mkSess {
  ss_bufs : list (strela_buffer * list Z);
  ss_kernels : list (Z * list Z)
}.

Definition KERNEL_BYTES : Z := STRELA_KERNEL_SIZE * 4.

(** A buffer as the allocator's client sees it. *)
Definition buf_live (base : Z) (b : strela_buffer * list Z) : live :=
  mkLive (base + b_offset_words b.1 * sizeof_word) (b_size_words b.1 * sizeof_word) b.2.

Definition kernel_addr (base : Z) (k : Z * list Z) : Z := base + k.1 * KERNEL_BYTES.

(** A buffer handle of this library: it starts at a cache line. *)
Definition buf_ok (b : strela_buffer * list Z) : Prop :=
  b_valid b.1 = true /\ 0 <= b_offset_words b.1 /\ b_offset_words b.1 mod CACHELINE_WORDS = 0
  /\ 0 <= b_size_words b.1.

Definition kernel_ok (m : mem) (base : Z) (k : Z * list Z) : Prop :=
  0 <= k.1 < 128 /\ Z.of_nat (length k.2) = KERNEL_BYTES
  /\ read_bytes m (kernel_addr base k) (length k.2) = k.2.

(** A mapping mmap(2) may answer with. *)
Definition map_ok `{abi} (r : Z * Z) : Prop :=
  r.1 mod 4096 = 0 /\ 4096 <= r.1 /\ r.1 + r.2 < 2 ^ ptr_bits.

Record mem_inv `{abi} (s : lst) (ss : session) : Prop := {
  mi_init : d_initialized (ls_dev s) = true;
  mi_tensors : map_ok (d_tensors_bo_map (ls_dev s), STRELA_TENSOR_MEMORY_SIZE);
  mi_kernels : map_ok (d_kernels_bo_map (ls_dev s), STRELA_KERNEL_MEMORY_SIZE);
  mi_apart : apart (d_tensors_bo_map (ls_dev s), STRELA_TENSOR_MEMORY_SIZE)
                   (d_kernels_bo_map (ls_dev s), STRELA_KERNEL_MEMORY_SIZE);
  mi_fl : exists B, client_inv (d_tensors_bo_map (ls_dev s)) STRELA_TENSOR_MEMORY_SIZE
    (mkClient (d_buffer_free_list (ls_dev s)) (buf_live (d_tensors_bo_map (ls_dev s)) <$> ss_bufs ss))
    (ls_mem s) B;
  mi_bufs : Forall buf_ok (ss_bufs ss);
  mi_pool : exists F, pool_rep (d_kernel_pool (ls_dev s)) (ls_mem s) F
    (kernel_addr (d_kernels_bo_map (ls_dev s)) <$> ss_kernels ss);
  mi_pool_buf : pool_buf (d_kernel_pool (ls_dev s)) = d_kernels_bo_map (ls_dev s)
    /\ pool_buf_len (d_kernel_pool (ls_dev s)) = STRELA_KERNEL_MEMORY_SIZE
    /\ pool_chunk_size (d_kernel_pool (ls_dev s)) = KERNEL_BYTES;
  mi_kerns : Forall (kernel_ok (ls_mem s) (d_kernels_bo_map (ls_dev s))) (ss_kernels ss)
}.

(** ** What a client does with its handles *)
Section Client.
Context `{A : abi} `{OS : Sys}.

(** The client keeps a handle it got. *)
Definition keep_buffer (ss : session) (b : strela_buffer) : session :=
  if b_valid b then mkSess ((b, []) :: ss_bufs ss) (ss_kernels ss) else ss.

Definition do_buffer_alloc (ss : session) (size_words : Z) : M lst session :=
  let! b := strela_buffer_alloc size_words in
  mret_ (keep_buffer ss b).

(** The client's array holds at least the buffer. *)
Definition do_buffer_set (ss : session) (i : nat) (data : list Z) : M lst session :=
  match ss_bufs ss !! i with
  | Some (b, _) =>
      let n := b_size_words b * sizeof_word in
      if Z.of_nat (length data) <? n then mret_ ss else
      let! dev := dev_ in
      do! strela_buffer_set_data b data in
      mret_ (if strela_dev_ok dev
             then mkSess (<[i := (b, take (Z.to_nat n) data)]> (ss_bufs ss)) (ss_kernels ss) else ss)
  | None => mret_ ss
  end.

Definition do_buffer_free (ss : session) (i : nat) : M lst session :=
  match ss_bufs ss !! i with
  | Some (b, _) =>
      let! dev := dev_ in
      do! strela_buffer_free b in
      mret_ (if strela_dev_ok dev then mkSess (delete i (ss_bufs ss)) (ss_kernels ss) else ss)
  | None => mret_ ss
  end.

Definition do_buffer_free_all (ss : session) : M lst session :=
  let! dev := dev_ in
  do! strela_buffer_free_all in
  mret_ (if strela_dev_ok dev then mkSess [] (ss_kernels ss) else ss).

(** Flushing or invalidating a part of a buffer, whatever the part. *)
Definition do_buffer_sync (ss : session) (flush : bool) (i : nat) (offset count : Z) : M lst session :=
  match ss_bufs ss !! i with
  | Some (b, _) =>
      do! (if flush then strela_buffer_flush b offset count else strela_buffer_inval b offset count) in
      mret_ ss
  | None => mret_ ss
  end.

(** A new kernel is zeroed. *)
Definition keep_kernel (ss : session) (k : strela_kernel) : session :=
  if k_valid k
  then mkSess (ss_bufs ss) ((k_handle k, replicate (Z.to_nat KERNEL_BYTES) 0) :: ss_kernels ss)
  else ss.

Definition do_kernel_alloc (ss : session) : M lst session :=
  let! k := strela_kernel_alloc in
  mret_ (keep_kernel ss k).

Definition do_kernel_set (ss : session) (i : nat) (data : list Z) : M lst session :=
  match ss_kernels ss !! i with
  | Some (h, _) =>
      if Z.of_nat (length data) <? KERNEL_BYTES then mret_ ss else
      let! dev := dev_ in
      do! strela_kernel_set (mkKernel true h) data in
      mret_ (if strela_dev_ok dev
             then mkSess (ss_bufs ss) (<[i := (h, take (Z.to_nat KERNEL_BYTES) data)]> (ss_kernels ss))
             else ss)
  | None => mret_ ss
  end.

Definition do_kernel_free_all (ss : session) : M lst session :=
  let! dev := dev_ in
  do! strela_kernel_free_all in
  mret_ (if strela_dev_ok dev then mkSess (ss_bufs ss) [] else ss).
End Client.

Section Inv.
Context `{A : abi} `{OS : Sys}.

(** The device after a memory function: only its error, pool and free list changed. *)
Record same_dev (d d' : strela_dev) : Prop := {
  sdv_fd : d_fd d' = d_fd d;
  sdv_th : d_tensors_bo_handle d' = d_tensors_bo_handle d;
  sdv_tm : d_tensors_bo_map d' = d_tensors_bo_map d;
  sdv_kh : d_kernels_bo_handle d' = d_kernels_bo_handle d;
  sdv_km : d_kernels_bo_map d' = d_kernels_bo_map d;
  sdv_compat : d_backward_compat_job d' = d_backward_compat_job d;
  sdv_init : d_initialized d' = d_initialized d;
  sdv_jobs : d_jobs d' = d_jobs d
}.

(** What every memory function guarantees. *)
Definition mem_post (s : lst) (ss : session) (s' : lst) : Prop :=
  mem_inv s' ss /\ forall l0, job_inv l0 s -> job_inv l0 s'.

Lemma wp_on_mem {X} (c : M mem X) (Q : X -> lst -> Prop) s :
  wp c (fun x m => Q x (lst_set_mem s m)) (ls_mem s) -> wp (on_mem c) Q s.
Proof.
  intros (x & m & He & HQ). exists x, (lst_set_mem s m). split; [|done]. unfold on_mem. by rewrite He.
Qed.

Lemma job_inv_mem l0 s m : job_inv l0 s -> job_inv l0 (lst_set_mem s m).
Proof. by intros []. Qed.

Lemma job_inv_pool l0 s p : job_inv l0 s -> job_inv l0 (lst_set_dev s (dev_set_pool (ls_dev s) p)).
Proof. by intros []. Qed.

Lemma job_inv_fl l0 s fl : job_inv l0 s -> job_inv l0 (lst_set_dev s (dev_set_free_list (ls_dev s) fl)).
Proof. by intros []. Qed.

Lemma mem_inv_errnum s ss e : mem_inv s ss -> mem_inv (lst_set_dev s (dev_set_errnum (ls_dev s) e)) ss.
Proof. by intros []. Qed.

Lemma mem_inv_log s ss e : mem_inv s ss -> mem_inv (lst_add s e) ss.
Proof. by intros []. Qed.

(** Setting the error of the device keeps everything. *)
Lemma set_errnum_post s s0 ss e :
  mem_inv s ss -> (forall l0, job_inv l0 s0 -> job_inv l0 s) ->
  wp (set_errnum e) (fun _ s' => mem_post s0 ss s') s.
Proof.
  intros Hm Hj. apply wp_update_dev. split; [by apply mem_inv_errnum|].
  intros l0 Hi. by apply job_inv_errnum, Hj.
Qed.

(** The job functions do not touch the memory. *)
Lemma mem_inv_frame s s' ss : job_frame s s' -> mem_inv s ss -> mem_inv s' ss.
Proof.
  intros [Hm Hfd Hth Htm Hkh Hkm Hin Hp Hfl] [H1 H2 H3 H4 H5 H6 H7 H8 H9].
  split; rewrite ?Hm, ?Htm, ?Hkm, ?Hin, ?Hp, ?Hfl; done.
Qed.
(** ** Frames *)
Lemma kernel_ok_same m m' base k :
  kernel_ok m base k ->
  (forall x, kernel_addr base k <= x < kernel_addr base k + KERNEL_BYTES -> byte_at m' x = byte_at m x) ->
  kernel_ok m' base k.
Proof.
  intros (H1 & H2 & H3) HS. split; [done|]. split; [done|]. rewrite <- H3 at 2. apply read_bytes_ext.
  intros x Hx. apply HS. lia.
Qed.

Lemma kernel_in base k :
  0 <= k.1 < 128 -> base <= kernel_addr base k
                    /\ kernel_addr base k + KERNEL_BYTES <= base + STRELA_KERNEL_MEMORY_SIZE.
Proof. unfold kernel_addr, KERNEL_BYTES, STRELA_KERNEL_MEMORY_SIZE, STRELA_KERNEL_SIZE, STRELA_NPE,
  STRELA_PE_ROWS, STRELA_PE_COLS, sizeof_word. lia. Qed.

(** The buffers changed, the kernels did not. *)
Lemma mem_inv_buffers s s' ss bufs B :
  mem_inv s ss -> same_dev (ls_dev s) (ls_dev s') ->
  d_kernel_pool (ls_dev s') = d_kernel_pool (ls_dev s) ->
  client_inv (d_tensors_bo_map (ls_dev s)) STRELA_TENSOR_MEMORY_SIZE
    (mkClient (d_buffer_free_list (ls_dev s')) (buf_live (d_tensors_bo_map (ls_dev s)) <$> bufs)) (ls_mem s') B ->
  same_outside (d_tensors_bo_map (ls_dev s)) (d_tensors_bo_map (ls_dev s) + STRELA_TENSOR_MEMORY_SIZE)
    (ls_mem s) (ls_mem s') ->
  Forall buf_ok bufs -> mem_inv s' (mkSess bufs (ss_kernels ss)).
Proof.
  intros [H1 H2 H3 H4 H5 H6 [F H7] (Hb & Hl & Hc) H9] Hd Hp Hcl HO Hbufs.
  assert (Hin : forall x, d_kernels_bo_map (ls_dev s) <= x < d_kernels_bo_map (ls_dev s) + STRELA_KERNEL_MEMORY_SIZE ->
            byte_at (ls_mem s') x = byte_at (ls_mem s) x).
  { intros x Hx. apply HO. unfold apart in H4. cbn in H4. lia. }
  destruct Hd as [Hd1 Hd2 Hd3 Hd4 Hd5 Hd6 Hd7 Hd8].
  split; rewrite ?Hd3, ?Hd5, ?Hd7, ?Hp; try done.
  - by exists B.
  - exists F. eapply pool_rep_frame; [done|apply HO|]. intros f x Hf Hx. apply Hin.
    pose proof (pool_rep_in _ _ _ _ f H7 ltac:(set_solver)). lia.
  - eapply Forall_impl; [exact H9|]. intros k Hk. eapply kernel_ok_same; [done|].
    intros x Hx. apply Hin. pose proof (kernel_in (d_kernels_bo_map (ls_dev s)) k (proj1 Hk)). lia.
Qed.

(** The kernels changed, the buffers did not. *)
Lemma mem_inv_pool s s' ss kernels F :
  mem_inv s ss -> same_dev (ls_dev s) (ls_dev s') ->
  d_buffer_free_list (ls_dev s') = d_buffer_free_list (ls_dev s) ->
  same_pool (d_kernel_pool (ls_dev s)) (d_kernel_pool (ls_dev s')) ->
  pool_rep (d_kernel_pool (ls_dev s')) (ls_mem s') F (kernel_addr (d_kernels_bo_map (ls_dev s)) <$> kernels) ->
  same_outside (d_kernels_bo_map (ls_dev s)) (d_kernels_bo_map (ls_dev s) + STRELA_KERNEL_MEMORY_SIZE)
    (ls_mem s) (ls_mem s') ->
  Forall (kernel_ok (ls_mem s') (d_kernels_bo_map (ls_dev s))) kernels ->
  mem_inv s' (mkSess (ss_bufs ss) kernels).
Proof.
  intros [H1 H2 H3 H4 [B H5] H6 _ (Hb & Hl & Hc) _] Hd Hfl Hsame Hp HO Hk.
  destruct Hd as [Hd1 Hd2 Hd3 Hd4 Hd5 Hd6 Hd7 Hd8].
  split; rewrite ?Hd3, ?Hd5, ?Hd7, ?Hfl; try done.
  - exists B. eapply client_inv_frame; [done|apply HO|]. intros x Hx. apply HO.
    unfold apart in H4. cbn in H4. lia.
  - by exists F.
  - rewrite Hsame. by cbn.
Qed.
End Inv.
