(* ===== verification/LibBuffers.v ===== *)
(** * The buffer functions keep the client's buffers

    Each buffer function of the library returns, keeps [mem_inv], and does to
    the client's buffers what the corresponding step of the allocator does. *)
From S2P Require Export LibMem.

Section Buffers.
Context `{A : abi} `{OS : Sys} `{HL : !SysLaws OS}.

Lemma tensor_size_small : 0 < STRELA_TENSOR_MEMORY_SIZE < 2 ^ 31.
Proof. by vm_compute. Qed.

(** Where a held buffer is. *)
Lemma buf_bounds s ss i b data :
  mem_inv s ss -> ss_bufs ss !! i = Some (b, data) ->
  let base := d_tensors_bo_map (ls_dev s) in
  b_valid b = true /\ 0 <= b_offset_words b /\ 0 <= b_size_words b
  /\ b_offset_words b mod CACHELINE_WORDS = 0
  /\ (b_offset_words b + b_size_words b) * sizeof_word <= STRELA_TENSOR_MEMORY_SIZE
  /\ wptr (b_size_words b * sizeof_word) = b_size_words b * sizeof_word
  /\ wptr (base + wptr (b_offset_words b * sizeof_word)) = base + b_offset_words b * sizeof_word.
Proof.
  intros Hm Hb. cbv zeta. destruct (mi_fl _ _ Hm) as [B Hcl]. pose proof (mi_bufs _ _ Hm) as Hok.
  rewrite Forall_lookup in Hok. destruct (Hok _ _ Hb) as (Hv & Ho & Ha & Hs). cbn in *.
  destruct (mi_tensors _ _ Hm) as (_ & H4 & Hend). cbn in *.
  set (base := d_tensors_bo_map (ls_dev s)) in *.
  assert (Hin : buf_live base (b, data) ∈ buf_live base <$> ss_bufs ss).
  { apply list_elem_of_fmap_2. by eapply list_elem_of_lookup_2. }
  destruct (live_payload_in _ _ _ _ _ _ Hcl Hin) as (_ & H1 & H2 & H3).
  cbn in H1, H2, H3. unfold sizeof_word in *. pose proof tensor_size_small. pose proof ptr_max_pos.
  split_and!; try done; try lia; rewrite !wptr_small; try lia; rewrite !wptr_small; lia.
Qed.

Lemma to_ptr_wp s ss i b data (Q : Z -> lst -> Prop) :
  mem_inv s ss -> ss_bufs ss !! i = Some (b, data) -> strela_dev_ok (ls_dev s) = true ->
  Q (d_tensors_bo_map (ls_dev s) + b_offset_words b * sizeof_word) s ->
  wp (strela_buffer_to_ptr b) Q s.
Proof.
  intros Hm Hb Hok HQ. destruct (buf_bounds _ _ _ _ _ Hm Hb) as (Hv & _ & _ & _ & _ & _ & He).
  unfold strela_buffer_to_ptr. apply wp_bind, wp_dev. rewrite Hv, Hok, He. by apply wp_ret.
Qed.

(** The requests the size arithmetic of the allocator can represent. *)
Definition words_ok (size_words : Z) : Prop :=
  0 <= size_words /\ size_words * sizeof_word + 256 <= 2 ^ ptr_bits.

Lemma pow2_ptr_64 : pow2_ptr 64.
Proof. unfold pow2_ptr, ptr_bits, ptr_bytes. exists 6. destruct A; (split; [lia|done]). Qed.

Lemma words_request w : words_ok w -> alloc_request (w * sizeof_word) 64.
Proof.
  intros [H1 H2]. unfold sizeof_word in *. split; [lia|]. split; [apply pow2_ptr_64|].
  unfold sizeof_max_align_t. destruct A; lia.
Qed.

(** A pointer the allocator answers has the alignment it was asked for. *)
Lemma alloc_aligned fl m B size p fl' m' :
  rep fl m B -> alloc_request size 64 -> free_list_alloc fl size 64 m = Ok ((p, fl'), m') ->
  p <> 0 -> p mod 64 = 0.
Proof.
  intros Hrep Hreq He Hp.
  destruct (alloc_ok _ _ _ _ _ Hrep Hreq) as [(He' & _)|(L & s & R & p' & fl1 & m1 & -> & He' & Hal)].
  - rewrite He' in He. by simplify_eq.
  - rewrite He' in He. simplify_eq. destruct Hal as (_ & _ & Hal & _). unfold al_eff in Hal.
    unfold sizeof_max_align_t in Hal. destruct A; done.
Qed.

(** A new buffer, from the pointer the allocator answers. *)
Lemma new_buffer base p w :
  base mod 4096 = 0 -> base <= p -> p - base < 2 ^ ptr_bits -> p mod 64 = 0 -> 0 <= w ->
  buf_ok (mkBuffer true (wptr (p - base) / sizeof_word) w, [])
  /\ buf_live base (mkBuffer true (wptr (p - base) / sizeof_word) w, []) = mkLive p (w * sizeof_word) [].
Proof.
  intros Hb Hle Hlt Hp Hw. rewrite wptr_small by lia.
  assert (Hd : (p - base) mod 64 = 0).
  { rewrite Zminus_mod, Hp, (mod_0_trans base 64 4096); [done|lia|by exists 64|done]. }
  apply Z.mod_divide in Hd as [k Hk]; [|lia]. unfold sizeof_word. rewrite Hk.
  replace (k * 64 / 4) with (k * 16) by (replace (k * 64) with (k * 16 * 4) by lia; by rewrite Z.div_mul by lia).
  split.
  - unfold buf_ok; cbn. split_and!; [done|lia| |done]. change CACHELINE_WORDS with 16. apply Z_mod_mult.
  - unfold buf_live; cbn. unfold sizeof_word. f_equal. lia.
Qed.

(** What an allocation does to a device: its slots stay, and it ends with no
    error or with that of exhausted memory. *)
Definition alloc_result (s s' : lst) : Prop :=
  d_jobs (ls_dev s') = d_jobs (ls_dev s)
  /\ (strela_dev_ok (ls_dev s) = true ->
      strela_dev_ok (ls_dev s') = true \/ d_errnum (ls_dev s') = - STRELA_ERR_NO_MEM)
  /\ (strela_dev_ok (ls_dev s) = false -> s' = s).

Lemma buffer_alloc_full_wp s ss w :
  mem_inv s ss -> words_ok w ->
  wp (strela_buffer_alloc w) (fun b s' => mem_post s (keep_buffer ss b) s' /\ alloc_result s s') s.
Proof.
  intros Hm Hw. unfold strela_buffer_alloc.
  apply wp_bind, wp_dev. destruct (strela_dev_ok (ls_dev s)) eqn:Hok; cbn [negb].
  2: { apply wp_ret. split; [by split|]. split_and!; [done|congruence|done]. }
  pose proof Hw as [Hw0 Hw1]. pose proof (words_request _ Hw) as Hreq. unfold sizeof_word in Hw1 |- *.
  rewrite wptr_small by lia. cbv zeta. replace (w <=? w * 4) with true by lia.
  destruct (mi_fl _ _ Hm) as [B Hcl]. destruct (mi_tensors _ _ Hm) as (Hpg & Hlo & Hhi). cbn in Hpg, Hlo, Hhi.
  destruct (do_alloc_inv _ _ _ _ _ _ _ Hcl Hreq) as (c' & m' & B' & He & Hcl' & HO).
  unfold do_alloc in He. apply mbind_inv in He as ([p fl] & m1 & He & Hret). cbn [cl_fl] in He.
  unfold mret_ in Hret. simplify_eq. unfold sizeof_word in *.
  apply wp_bind, wp_on_mem. exists (p, fl), m'. split; [done|].
  apply wp_bind, wp_update_dev. set (s1 := lst_set_dev _ _).
  assert (Hj1 : forall l0, job_inv l0 s -> job_inv l0 s1).
  { intros l0 Hi. by apply (job_inv_fl _ (lst_set_mem s m')), job_inv_mem. }
  destruct (Z.eqb_spec p 0) as [->|Hp]; cbn [negb].
  - apply wp_bind, wp_update_dev, wp_ret. split; [|split_and!; [done|by right|congruence]].
    split; [|intros l0 Hi; by apply job_inv_errnum, Hj1]. apply mem_inv_errnum. destruct ss as [bufs ks].
    eapply (mem_inv_buffers s s1 (mkSess bufs ks)); try done; apply Hm.
  - pose proof (alloc_aligned _ _ _ _ _ _ _ (ci_rep _ _ _ _ _ Hcl) Hreq He Hp) as Hal.
    assert (Hin : d_tensors_bo_map (ls_dev s) <= p /\ p + w * 4 <= d_tensors_bo_map (ls_dev s) + STRELA_TENSOR_MEMORY_SIZE).
    { destruct (live_payload_in _ _ _ _ _ (mkLive p (w * 4) []) Hcl') as (_ & H1 & _ & H3); [set_solver|].
      cbn in H1, H3. lia. }
    pose proof tensor_size_small. pose proof ptr_max_pos.
    destruct (new_buffer (d_tensors_bo_map (ls_dev s)) p w) as [Hbok Hbl]; [done|lia|lia|done|done|].
    unfold internal_ptr_to_buffer_offset. apply wp_bind, wp_bind, wp_dev.
    change (strela_dev_ok (ls_dev s1)) with (strela_dev_ok (ls_dev s)). rewrite Hok. cbn [negb].
    apply wp_ret, wp_ret. unfold keep_buffer. cbn [b_valid]. split; [|split_and!; [done|by left|congruence]]. split; [|done].
    eapply (mem_inv_buffers s s1 ss); try done.
    + change (d_tensors_bo_map (ls_dev s1)) with (d_tensors_bo_map (ls_dev s)).
      rewrite fmap_cons, Hbl. exact Hcl'.
    + constructor; [done|apply Hm].
Qed.

Lemma buffer_alloc_wp s ss w :
  mem_inv s ss -> words_ok w -> wp (do_buffer_alloc ss w) (mem_post s) s.
Proof.
  intros Hm Hw. apply wp_bind. eapply wp_mono; [by apply buffer_alloc_full_wp|].
  intros b s' [Hp _]. by apply wp_ret.
Qed.
(** A memory step of the buffers inside a function that changes no more. *)
Lemma buffers_step s ss m' fl bufs B :
  mem_inv s ss -> Forall buf_ok bufs ->
  client_inv (d_tensors_bo_map (ls_dev s)) STRELA_TENSOR_MEMORY_SIZE
    (mkClient fl (buf_live (d_tensors_bo_map (ls_dev s)) <$> bufs)) m' B ->
  same_outside (d_tensors_bo_map (ls_dev s)) (d_tensors_bo_map (ls_dev s) + STRELA_TENSOR_MEMORY_SIZE)
    (ls_mem s) m' ->
  mem_post s (mkSess bufs (ss_kernels ss))
    (lst_set_dev (lst_set_mem s m') (dev_set_free_list (ls_dev s) fl)).
Proof.
  intros Hm Hb Hcl HO. split.
  - by eapply (mem_inv_buffers s _ ss).
  - intros l0 Hi. by apply (job_inv_fl _ (lst_set_mem s m')), job_inv_mem.
Qed.

Lemma sess_eta ss : mkSess (ss_bufs ss) (ss_kernels ss) = ss.
Proof. by destruct ss. Qed.

Lemma set_mem_eta s m : lst_set_dev (lst_set_mem s m)
  (dev_set_free_list (ls_dev s) (d_buffer_free_list (ls_dev s))) = lst_set_mem s m.
Proof. by destruct s as [[] ? ?]. Qed.

Lemma live_lookup base (bufs : list (strela_buffer * list Z)) (i : nat) b data :
  bufs !! i = Some (b, data) -> (buf_live base <$> bufs) !! i = Some (buf_live base (b, data)).
Proof. intros H. by rewrite list_lookup_fmap, H. Qed.

Lemma buffer_set_wp s ss i data :
  mem_inv s ss -> wp (do_buffer_set ss i data) (mem_post s) s.
Proof.
  intros Hm. unfold do_buffer_set. destruct (ss_bufs ss !! i) as [[b old]|] eqn:Hb; [|by apply wp_ret].
  destruct (buf_bounds _ _ _ _ _ Hm Hb) as (Hv & Ho & Hs & Ha & Hend & Hn & Hptr).
  apply wp_if; intros Hlen; [by apply wp_ret|]. apply wp_bind, wp_dev, wp_bind.
  unfold strela_buffer_set_data. apply wp_when_ok; intros Hok; [|rewrite Hok; by apply wp_ret].
  rewrite Hok, Hv. cbn [negb]. apply wp_bind. eapply to_ptr_wp; [done..|].
  apply wp_bind. unfold caller_array. rewrite Hn. rewrite (proj2 (Z.leb_le _ _)) by lia. apply wp_ret.
  destruct (mi_fl _ _ Hm) as [B Hcl].
  destruct (do_write_inv _ _ _ _ _ i data Hcl) as (c' & m' & He & Hcl' & HO).
  unfold do_write in He. cbn [cl_live] in He. rewrite (live_lookup _ _ _ _ _ Hb) in He.
  apply mbind_inv in He as ([] & m1 & He & Hret). unfold mret_ in Hret. injection Hret as <- ->.
  apply wp_on_mem. exists tt, m'. split; [exact He|]. apply wp_ret. rewrite <- (set_mem_eta s m').
  eapply (buffers_step s ss); [done| | |done].
  - apply Forall_insert; [apply Hm|]. pose proof (mi_bufs _ _ Hm) as Hall. rewrite Forall_lookup in Hall.
    exact (Hall _ _ Hb).
  - rewrite list_fmap_insert. exact Hcl'.
Qed.

Lemma buffer_free_wp s ss i : mem_inv s ss -> wp (do_buffer_free ss i) (mem_post s) s.
Proof.
  intros Hm. unfold do_buffer_free. destruct (ss_bufs ss !! i) as [[b old]|] eqn:Hb; [|by apply wp_ret].
  destruct (buf_bounds _ _ _ _ _ Hm Hb) as (Hv & _).
  apply wp_bind, wp_dev, wp_bind. unfold strela_buffer_free.
  apply wp_when_ok; intros Hok; [|rewrite Hok; by apply wp_ret].
  rewrite Hok, Hv. cbn [negb]. apply wp_bind. eapply to_ptr_wp; [done..|].
  destruct (mi_fl _ _ Hm) as [B Hcl].
  destruct (do_free_inv _ _ _ _ _ i Hcl) as (c' & m' & B' & He & Hcl' & HO).
  unfold do_free in He. cbn [cl_live cl_fl] in He. rewrite (live_lookup _ _ _ _ _ Hb) in He.
  apply mbind_inv in He as (fl & m1 & He & Hret). unfold mret_ in Hret. injection Hret as <- ->.
  apply wp_bind, wp_on_mem. exists fl, m'. split; [exact He|]. apply wp_update_dev, wp_ret.
  eapply (buffers_step s ss); [done| | |done].
  - apply Forall_delete, Hm.
  - rewrite list_fmap_delete. exact Hcl'.
Qed.

Lemma free_buffers_wp s ss :
  mem_inv s ss -> strela_dev_ok (ls_dev s) = true ->
  wp strela_buffer_free_all (fun _ s' => mem_post s (mkSess [] (ss_kernels ss)) s'
    /\ d_errnum (ls_dev s') = d_errnum (ls_dev s) /\ d_jobs (ls_dev s') = d_jobs (ls_dev s)) s.
Proof.
  intros Hm Hok. unfold strela_buffer_free_all. apply wp_when_ok; [intros _|congruence].
  destruct (mi_fl _ _ Hm) as [B Hcl].
  destruct (free_all_inv _ _ _ _ _ Hcl) as (c' & m' & B' & He & Hcl' & Hnil & HO).
  apply mbind_inv in He as (fl & m1 & He & Hret). unfold mret_ in Hret. injection Hret as <- ->.
  apply wp_bind, wp_on_mem. exists fl, m'. split; [exact He|]. apply wp_update_dev. split; [|done].
  eapply (buffers_step s ss); [done|constructor| |done]. exact Hcl'.
Qed.

Lemma buffer_free_all_wp s ss : mem_inv s ss -> wp (do_buffer_free_all ss) (mem_post s) s.
Proof.
  intros Hm. unfold do_buffer_free_all. apply wp_bind, wp_dev.
  destruct (strela_dev_ok (ls_dev s)) eqn:Hok; apply wp_bind.
  - eapply wp_mono; [by apply (free_buffers_wp s ss)|]. intros u s' [Hp _]. by apply wp_ret.
  - exists tt, s. split; [by apply when_not_ok|]. by apply wp_ret.
Qed.

(** ** Reading a buffer *)
Lemma take_read_bytes m a n k : (k <= n)%nat -> list.take k (read_bytes m a n) = read_bytes m a k.
Proof.
  revert a n. induction k as [|k IH]; intros a n Hk; [done|]. destruct n as [|n]; [lia|].
  cbn. f_equal. apply IH. lia.
Qed.

(** What reading a held buffer answers in a state with the same mapping. *)
Lemma buffer_get_bytes s ss i b data s' :
  mem_inv s ss -> ss_bufs ss !! i = Some (b, data) -> strela_dev_ok (ls_dev s') = true ->
  d_tensors_bo_map (ls_dev s') = d_tensors_bo_map (ls_dev s) -> regions (ls_mem s') = regions (ls_mem s) ->
  strela_buffer_get_data b s'
  = Ok (Some (read_bytes (ls_mem s') (d_tensors_bo_map (ls_dev s) + b_offset_words b * sizeof_word)
                         (Z.to_nat (b_size_words b * sizeof_word))), s').
Proof.
  intros Hm Hb Hok Hmap Hreg. destruct (buf_bounds _ _ _ _ _ Hm Hb) as (Hv & Ho & Hs & _ & Hend & Hn & Hptr).
  destruct (mi_fl _ _ Hm) as [B Hcl]. pose proof (rep_valid _ _ _ (ci_rep _ _ _ _ _ Hcl)) as Hval.
  destruct (ci_size _ _ _ _ _ Hcl) as (Hpos & Hsz & Hlo). cbn [cl_fl] in *. rewrite Hsz, Hlo in Hval.
  unfold strela_buffer_get_data, strela_buffer_to_ptr, mbind_, dev_. rewrite Hok, Hv. cbn [negb orb].
  rewrite Hok. cbn [negb orb mret_]. unfold mret_. rewrite Hmap, Hptr, Hn.
  unfold on_mem, read_data, mret_. destruct (Z.eqb_spec (b_size_words b * sizeof_word) 0) as [->|Hne]; [by destruct s'|].
  replace (valid (ls_mem s') _ _) with true; [by destruct s'|]. symmetry. unfold valid. rewrite Hreg.
  eapply (valid_sub _ _ _ _ _ Hval); unfold sizeof_word in *; lia.
Qed.

Lemma buffer_get_ok s ss i b data :
  mem_inv s ss -> ss_bufs ss !! i = Some (b, data) -> strela_dev_ok (ls_dev s) = true ->
  exists bytes, strela_buffer_get_data b s = Ok (Some bytes, s)
    /\ Z.of_nat (length bytes) = b_size_words b * sizeof_word
    /\ list.take (length data) bytes = data.
Proof.
  intros Hm Hb Hok. destruct (buf_bounds _ _ _ _ _ Hm Hb) as (_ & _ & Hs & _). destruct (mi_fl _ _ Hm) as [B Hcl].
  pose proof (ci_data _ _ _ _ _ Hcl) as HD. cbn [cl_live] in HD. rewrite Forall_lookup in HD.
  destruct (HD _ _ (live_lookup _ _ _ _ _ Hb)) as [Hdl Hdr]. cbn in Hdl, Hdr. unfold sizeof_word in *.
  eexists. split; [by apply (buffer_get_bytes s ss i b data)|]. unfold sizeof_word.
  split; [rewrite length_read_bytes; lia|rewrite take_read_bytes by lia; done].
Qed.
End Buffers.
