(* ===== verification/LibSync.v ===== *)
(** * Cache maintenance by the library

    Flushing rounds the part of a buffer to cache lines and asks the driver to
    write it back; invalidating insists on whole cache lines. Either is one
    ioctl on exactly the intended range, or an error without any ioctl. *)
From S2P Require Export LibBuffers.

Section Sync.
Context `{A : abi} `{OS : Sys} `{HL : !SysLaws OS}.

(** ** They keep what the client holds *)
Lemma sync_wp s0 s ss handle flags off words :
  mem_post s0 ss s -> wp (strela_sync handle flags off words) (fun _ s' => mem_post s0 ss s') s.
Proof.
  intros [Hm Hj]. unfold strela_sync. apply wp_when_ok; intros _; [|by split].
  apply wp_if; intros _; [by apply wp_ret|]. apply wp_bind, wp_sys. set (c := SC_gem_sync _ _).
  assert (Hp : forall r, mem_post s0 ss (lst_add s (Sev c r))).
  { intros r. split; [by apply mem_inv_log|]. intros l0 Hi.
    apply job_inv_quiet; [by apply quiet_call_ok|by apply Hj]. }
  destruct (sys _ c) as [e|r]; [|by apply wp_ret].
  apply set_errnum_post; apply (Hp (inl e)).
Qed.

Lemma buffer_sync_wp s0 s ss b flags off cnt :
  mem_post s0 ss s -> wp (strela_buffer_sync b flags off cnt) (fun _ s' => mem_post s0 ss s') s.
Proof.
  intros [Hm Hj]. unfold strela_buffer_sync. apply wp_bind.
  apply (wp_mono _ (fun _ s' => mem_post s0 ss s')).
  - apply wp_when_ok; intros _; [|by split]. apply wp_if; intros _; [by apply set_errnum_post|by apply wp_ret].
  - intros _ s1 Hp. apply wp_when_ok; intros _; [by apply sync_wp|done].
Qed.

Lemma do_sync_wp s ss flush i off cnt :
  mem_inv s ss -> wp (do_buffer_sync ss flush i off cnt) (mem_post s) s.
Proof.
  intros Hm. unfold do_buffer_sync. destruct (ss_bufs ss !! i) as [[b d]|]; [|by apply wp_ret].
  apply wp_bind. apply (wp_mono _ (fun _ s' => mem_post s ss s')); [|intros u s1 Hp; by apply wp_ret].
  destruct flush.
  - unfold strela_buffer_flush. apply wp_if; intros _; [by apply buffer_sync_wp|by apply wp_ret].
  - unfold strela_buffer_inval. apply wp_bind. apply (wp_mono _ (fun _ s' => mem_post s ss s')).
    + apply wp_if; intros _; [by apply set_errnum_post|by apply wp_ret].
    + intros _ s1 Hp. by apply buffer_sync_wp.
Qed.

(** ** What they ask of the driver *)

(** The answer of one ioctl: an event, and the error it may leave. *)
Definition after_call (s : lst) (c : syscall) : lst :=
  let r := sys (ls_log s) c in
  match r with
  | inl e => lst_set_dev (lst_add s (Sev c r)) (dev_set_errnum (ls_dev s) e)
  | inr _ => lst_add s (Sev c r)
  end.

Lemma sync_call s handle flags off words :
  strela_dev_ok (ls_dev s) = true -> words <> 0 ->
  strela_sync handle flags off words s =
  Ok (tt, after_call s (SC_gem_sync (d_fd (ls_dev s))
    (mkGemSync handle flags (wptr (off * sizeof_word)) (wptr (words * sizeof_word))))).
Proof.
  intros Hok Hw. unfold strela_sync, when_ok, mbind_, dev_. rewrite Hok, (proj2 (Z.eqb_neq _ _) Hw).
  unfold sys_, after_call. by destruct (sys _ _).
Qed.

Definition with_error (s : lst) (e : Z) : lst := lst_set_dev s (dev_set_errnum (ls_dev s) e).

(** [strela_buffer_sync] of a buffer the client holds. *)
Lemma buffer_sync_call s ss i b d flags off cnt :
  mem_inv s ss -> ss_bufs ss !! i = Some (b, d) -> strela_dev_ok (ls_dev s) = true ->
  0 <= off -> 0 < cnt < 2 ^ ptr_bits ->
  strela_buffer_sync b flags off cnt s =
  Ok (tt, if off + cnt <=? b_size_words b
          then after_call s (SC_gem_sync (d_fd (ls_dev s))
                 (mkGemSync (d_tensors_bo_handle (ls_dev s)) flags
                    ((b_offset_words b + off) * sizeof_word) (cnt * sizeof_word)))
          else with_error s (- STRELA_ERR_BAD_ARG)).
Proof.
  intros Hm Hb Hok Hoff Hcnt. destruct (buf_bounds _ _ _ _ _ Hm Hb) as (Hv & Ho & Hs & _ & Hend & _).
  pose proof tensor_size_small as Ht. pose proof ptr_max_pos as Hp. unfold sizeof_word in Hend.
  set (total := STRELA_TENSOR_MEMORY_SIZE / sizeof_word).
  assert (Htot : total * 4 = STRELA_TENSOR_MEMORY_SIZE) by (by vm_compute).
  assert (Hbad : sync_bad b off cnt = negb (off + cnt <=? b_size_words b)).
  { unfold sync_bad. fold total. rewrite Hv. cbn [negb orb].
    rewrite (wptr_small (total - _)) by lia.
    replace (total <? b_offset_words b) with false by lia.
    replace (total - b_offset_words b <? b_size_words b) with false by lia. rewrite !orb_false_r.
    destruct (Z.ltb_spec (b_size_words b) off); [by replace (off + cnt <=? b_size_words b) with false by lia|].
    rewrite wptr_small by lia. cbn [orb]. lia. }
  unfold strela_buffer_sync, when_ok, mbind_, dev_. rewrite Hok, Hbad.
  destruct (Z.leb_spec (off + cnt) (b_size_words b)); cbn [negb].
  - unfold mret_. rewrite Hok. rewrite sync_call by (done || lia).
    rewrite (wptr_small (b_offset_words b + off)) by lia. unfold sizeof_word.
    by rewrite !wptr_small by lia.
  - unfold set_errnum, update_dev, modify_. cbn [ls_dev lst_set_dev]. by rewrite errnum_not_ok.
Qed.
Lemma flush_mask x : 0 <= x < 2 ^ ptr_bits ->
  Z.land x (wptr (Z.lnot (CACHELINE_WORDS - 1))) = x / 16 * 16.
Proof. intros Hx. exact (land_mask_down ptr_bits 4 x ltac:(lia) Hx). Qed.

(** Rounding a range to cache lines. *)
Definition line_start (off : Z) : Z := off / CACHELINE_WORDS * CACHELINE_WORDS.
Definition line_end (off cnt : Z) : Z := (off + cnt + CACHELINE_WORDS - 1) / CACHELINE_WORDS * CACHELINE_WORDS.

Lemma line_bounds off cnt :
  line_start off <= off < line_start off + 16 /\ off + cnt <= line_end off cnt < off + cnt + 16.
Proof.
  unfold line_start, line_end. change CACHELINE_WORDS with 16.
  pose proof (Z.div_mod off 16). pose proof (Z.mod_pos_bound off 16).
  pose proof (Z.div_mod (off + cnt + 16 - 1) 16). pose proof (Z.mod_pos_bound (off + cnt + 16 - 1) 16). lia.
Qed.

(** A multiple of a cache line, in bytes. *)
Lemma line_bytes x : x mod CACHELINE_WORDS = 0 -> (x * sizeof_word) mod CACHELINE_SIZE = 0.
Proof.
  change CACHELINE_WORDS with 16. change CACHELINE_SIZE with 64. unfold sizeof_word. intros H.
  apply Z.mod_divide in H as [k ->]; [|done]. replace (k * 16 * 4) with (k * 64) by lia. apply Z_mod_mult.
Qed.

Lemma line_start_mod off : line_start off mod CACHELINE_WORDS = 0.
Proof. apply Z_mod_mult. Qed.

Lemma line_end_mod off cnt : line_end off cnt mod CACHELINE_WORDS = 0.
Proof. apply Z_mod_mult. Qed.

(** What flushing a part of a buffer does. *)
Lemma flush_call s ss i b d off cnt :
  mem_inv s ss -> ss_bufs ss !! i = Some (b, d) -> strela_dev_ok (ls_dev s) = true ->
  0 <= off -> 0 < cnt -> off + cnt <= b_size_words b ->
  let start := line_start off in
  let end_ := line_end off cnt in
  let args := mkGemSync (d_tensors_bo_handle (ls_dev s)) (Z.lor DRM_STRELA_SYNC_FINI DRM_STRELA_SYNC_WRITE)
                ((b_offset_words b + start) * sizeof_word) ((end_ - start) * sizeof_word) in
  start <= off /\ off + cnt <= end_
  /\ (end_ <= b_size_words b ->
       strela_buffer_flush b off cnt s = Ok (tt, after_call s (SC_gem_sync (d_fd (ls_dev s)) args))
       /\ gs_offset args mod CACHELINE_SIZE = 0 /\ gs_length args mod CACHELINE_SIZE = 0
       /\ 0 <= gs_offset args /\ gs_offset args + gs_length args <= STRELA_TENSOR_MEMORY_SIZE)
  /\ (b_size_words b < end_ ->
       strela_buffer_flush b off cnt s = Ok (tt, with_error s (- STRELA_ERR_BAD_ARG))).
Proof.
  intros Hm Hb Hok Hoff Hcnt Hin start end_ args.
  destruct (buf_bounds _ _ _ _ _ Hm Hb) as (_ & Ho & Hs & Hal & Hend & _).
  pose proof (line_bounds off cnt) as Hl. fold start end_ in Hl.
  pose proof tensor_size_small as Ht. pose proof ptr_max_pos as Hp. unfold sizeof_word in Hend.
  assert (Hst : 0 <= start) by (unfold start, line_start; change CACHELINE_WORDS with 16;
    pose proof (Z.div_pos off 16); lia).
  assert (He : strela_buffer_flush b off cnt =
               strela_buffer_sync b (Z.lor DRM_STRELA_SYNC_FINI DRM_STRELA_SYNC_WRITE) start (end_ - start)).
  { unfold strela_buffer_flush. rewrite (proj2 (Z.eqb_neq cnt 0)) by lia. cbn [negb].
    change CACHELINE_WORDS with 16 in *. rewrite (wptr_small (off + cnt)) by lia.
    rewrite (wptr_small (off + cnt + 16)) by lia. rewrite (wptr_small (off + cnt + 16 - 1)) by lia.
    change (16 - 1) with (CACHELINE_WORDS - 1).
    rewrite !flush_mask by lia. change (off / 16 * 16) with start.
    change ((off + cnt + 16 - 1) / 16 * 16) with end_. by rewrite wptr_small by lia. }
  rewrite He, (buffer_sync_call s ss i b d) by (done || lia).
  replace (start + (end_ - start)) with end_ by lia.
  split; [lia|]. split; [lia|]. split; intros Hle.
  - rewrite (proj2 (Z.leb_le _ _) Hle). split_and!; [done|..]; cbn [gs_offset gs_length args].
    + apply line_bytes, mod_add_0; [done|apply line_start_mod].
    + apply line_bytes. rewrite Zminus_mod. unfold end_, start. by rewrite line_end_mod, line_start_mod.
    + unfold sizeof_word. lia.
    + unfold sizeof_word. lia.
  - by rewrite (proj2 (Z.leb_gt _ _) Hle).
Qed.

(** Flushing a part of a buffer. The range is rounded outwards to cache
    lines, so it covers the part. When it stays inside the buffer, the library
    makes exactly one ioctl, to write back that range of the tensor memory; the
    range is cache-aligned and ends inside the memory. When rounding leaves
    the buffer, there is no ioctl and the device reports a bad argument. *)
Theorem buffer_flush_exact s ss i b d off cnt :
  mem_inv s ss -> ss_bufs ss !! i = Some (b, d) -> strela_dev_ok (ls_dev s) = true ->
  0 <= off -> 0 < cnt -> off + cnt <= b_size_words b ->
  let start := line_start off in
  let end_ := line_end off cnt in
  let args := mkGemSync (d_tensors_bo_handle (ls_dev s)) (Z.lor DRM_STRELA_SYNC_FINI DRM_STRELA_SYNC_WRITE)
                ((b_offset_words b + start) * sizeof_word) ((end_ - start) * sizeof_word) in
  start <= off /\ off + cnt <= end_
  /\ (end_ <= b_size_words b ->
       strela_buffer_flush b off cnt s = Ok (tt, after_call s (SC_gem_sync (d_fd (ls_dev s)) args))
       /\ gs_offset args mod CACHELINE_SIZE = 0 /\ gs_length args mod CACHELINE_SIZE = 0
       /\ 0 <= gs_offset args /\ gs_offset args + gs_length args <= STRELA_TENSOR_MEMORY_SIZE)
  /\ (b_size_words b < end_ ->
       strela_buffer_flush b off cnt s = Ok (tt, with_error s (- STRELA_ERR_BAD_ARG))).
Proof.
  apply flush_call.
Qed.

(** What invalidating a part of a buffer does. *)
Lemma inval_call s ss i b d off cnt :
  mem_inv s ss -> ss_bufs ss !! i = Some (b, d) -> strela_dev_ok (ls_dev s) = true ->
  0 <= off -> 0 < cnt -> off + cnt <= b_size_words b ->
  strela_buffer_inval b off cnt s =
  Ok (tt, if (off mod CACHELINE_WORDS =? 0) && (cnt mod CACHELINE_WORDS =? 0)
          then after_call s (SC_gem_sync (d_fd (ls_dev s))
                 (mkGemSync (d_tensors_bo_handle (ls_dev s)) (Z.lor DRM_STRELA_SYNC_PREP DRM_STRELA_SYNC_READ)
                    ((b_offset_words b + off) * sizeof_word) (cnt * sizeof_word)))
          else with_error s (- STRELA_ERR_BAD_ARG)).
Proof.
  intros Hm Hb Hok Hoff Hcnt Hin. destruct (buf_bounds _ _ _ _ _ Hm Hb) as (_ & Ho & Hs & _ & Hend & _).
  pose proof tensor_size_small as Ht. pose proof ptr_max_pos as Hp. unfold sizeof_word in Hend.
  assert (Hmod : forall x, 0 <= x -> x * 4 < 2 ^ 31 -> is_aligned (wptr (x * sizeof_word)) CACHELINE_SIZE
                                     = (x mod CACHELINE_WORDS =? 0)).
  { intros x Hx Hx2. unfold is_aligned, sizeof_word. change CACHELINE_SIZE with (16 * 4).
    change CACHELINE_WORDS with 16. rewrite wptr_small by lia. rewrite Z.mul_mod_distr_r by lia. lia. }
  unfold strela_buffer_inval, mbind_. rewrite !Hmod by lia.
  destruct (_ =? 0) eqn:E1, (cnt mod _ =? 0) eqn:E2; cbn [negb orb andb].
  1: { unfold mret_. rewrite (buffer_sync_call s ss i b d) by (done || lia).
       by rewrite (proj2 (Z.leb_le _ _) Hin). }
  all: unfold set_errnum, update_dev, modify_, strela_buffer_sync, mbind_; cbn [ls_dev lst_set_dev].
  all: rewrite !when_not_ok; [done|by apply errnum_not_ok..].
Qed.

(** Invalidating a part of a buffer. When the part is made of whole cache
    lines, the library makes exactly one ioctl, to invalidate exactly that
    part; otherwise there is no ioctl at all, so no neighbour's data is
    thrown away, and the device reports a bad argument. *)
Theorem buffer_inval_exact s ss i b d off cnt :
  mem_inv s ss -> ss_bufs ss !! i = Some (b, d) -> strela_dev_ok (ls_dev s) = true ->
  0 <= off -> 0 < cnt -> off + cnt <= b_size_words b ->
  strela_buffer_inval b off cnt s =
  Ok (tt, if (off mod CACHELINE_WORDS =? 0) && (cnt mod CACHELINE_WORDS =? 0)
          then after_call s (SC_gem_sync (d_fd (ls_dev s))
                 (mkGemSync (d_tensors_bo_handle (ls_dev s)) (Z.lor DRM_STRELA_SYNC_PREP DRM_STRELA_SYNC_READ)
                    ((b_offset_words b + off) * sizeof_word) (cnt * sizeof_word)))
          else with_error s (- STRELA_ERR_BAD_ARG)).
Proof. apply inval_call. Qed.
End Sync.
