(* ===== verification/LibKernels.v ===== *)
(** * The kernel functions keep the client's kernels

    Kernel handles are the chunks of the pool: distinct, below 128, and each
    bitstream stays as it was written. *)
From S2P Require Export LibSync.

Section Kernels.
Context `{A : abi} `{OS : Sys} `{HL : !SysLaws OS}.

Lemma kernel_chunk s ss x F :
  mem_inv s ss ->
  pool_rep (d_kernel_pool (ls_dev s)) (ls_mem s) F (kernel_addr (d_kernels_bo_map (ls_dev s)) <$> ss_kernels ss) ->
  x ∈ all_chunks (d_kernel_pool (ls_dev s)) ->
  exists h, 0 <= h < 128 /\ x = d_kernels_bo_map (ls_dev s) + h * KERNEL_BYTES.
Proof.
  intros Hm Hr Hx. destruct (mi_pool_buf _ _ Hm) as (Hb & Hl & Hc).
  apply (elem_of_all _ _ _ (pr_ok _ _ _ _ Hr)) in Hx as (i & -> & Hi). exists (Z.of_nat i).
  unfold chunk_count in Hi. rewrite Hl, Hc in Hi.
  change (STRELA_KERNEL_MEMORY_SIZE / KERNEL_BYTES) with 128 in Hi. unfold chunk. rewrite Hb, Hc. lia.
Qed.

Lemma kernel_bytes_320 : KERNEL_BYTES = 320.
Proof. done. Qed.

(** The contents of the other kernels, when only the chunk [x] changed. *)
Lemma other_kernels s ss F U m' x ks :
  mem_inv s ss -> pool_rep (d_kernel_pool (ls_dev s)) (ls_mem s) F U ->
  x ∈ F ++ U -> same_outside x (x + KERNEL_BYTES) (ls_mem s) m' ->
  Forall (fun k => kernel_addr (d_kernels_bo_map (ls_dev s)) k ∈ F ++ U
                   /\ kernel_addr (d_kernels_bo_map (ls_dev s)) k <> x) ks ->
  Forall (kernel_ok (ls_mem s) (d_kernels_bo_map (ls_dev s))) ks ->
  Forall (kernel_ok m' (d_kernels_bo_map (ls_dev s))) ks.
Proof.
  intros Hm Hr Hx HO Hks Hok. destruct (mi_pool_buf _ _ Hm) as (_ & _ & Hc).
  rewrite Forall_forall in Hks, Hok |- *. intros k Hk. specialize (Hok k Hk).
  destruct (Hks k Hk) as [Hin Hne]. eapply kernel_ok_same; [done|]. intros y Hy. apply HO.
  destruct (chunk_apart _ _ x _ (pr_ok _ _ _ _ Hr)
              (proj1 (pool_rep_in _ _ _ _ x Hr Hx)) (proj1 (pool_rep_in _ _ _ _ _ Hr Hin)) ltac:(done)) as [H|H];
    rewrite Hc in H; lia.
Qed.

Lemma read_replicate m a n c :
  (forall y, a <= y < a + Z.of_nat n -> byte_at m y = c) -> read_bytes m a n = replicate n c.
Proof.
  revert a. induction n as [|n IH]; intros a H; [done|]. cbn. rewrite H by lia. f_equal.
  apply IH. intros y Hy. apply H. lia.
Qed.

(** A chunk is inside the kernel memory. *)
Lemma chunk_outside s ss F U x m' :
  mem_inv s ss -> pool_rep (d_kernel_pool (ls_dev s)) (ls_mem s) F U -> x ∈ F ++ U ->
  same_outside x (x + KERNEL_BYTES) (ls_mem s) m' ->
  same_outside (d_kernels_bo_map (ls_dev s)) (d_kernels_bo_map (ls_dev s) + STRELA_KERNEL_MEMORY_SIZE)
    (ls_mem s) m'.
Proof.
  intros Hm Hr Hx HO. destruct (mi_pool_buf _ _ Hm) as (Hb & Hl & Hc).
  pose proof (pool_rep_in _ _ _ _ x Hr Hx) as (_ & _ & H1 & H2 & _). rewrite Hb, Hl, Hc in *.
  eapply same_outside_weaken; [done|lia|lia].
Qed.

Lemma kernel_handle s ss h :
  mem_inv s ss -> 0 <= h < 128 ->
  let kb := d_kernels_bo_map (ls_dev s) in
  u32 (wptr (kb + h * KERNEL_BYTES - kb) / (STRELA_KERNEL_SIZE * 4)) = h
  /\ wptr (kb + u32 (u32 (h * STRELA_KERNEL_SIZE) * 4)) = kb + h * KERNEL_BYTES
  /\ u32 (h * STRELA_KERNEL_SIZE) = h * STRELA_KERNEL_SIZE.
Proof.
  intros Hm Hh kb. destruct (mi_kernels _ _ Hm) as (_ & H4 & Hend). cbn in H4, Hend. fold kb in H4, Hend.
  change STRELA_KERNEL_MEMORY_SIZE with 40960 in Hend. pose proof ptr_max_pos.
  change (STRELA_KERNEL_SIZE * 4) with 320. change KERNEL_BYTES with 320. change STRELA_KERNEL_SIZE with 80.
  replace (kb + h * 320 - kb) with (h * 320) by lia. rewrite (wptr_small (h * 320)) by lia.
  rewrite Z.div_mul by lia. rewrite (wrap_small 32 (h * 80)) by lia. rewrite (wrap_small 32 (h * 80 * 4)) by lia.
  rewrite wrap_small by lia. split_and!; [done| |done]. rewrite wptr_small by lia. lia.
Qed.

(** An allocation fails only when all kernels are in use. *)
Lemma kernel_alloc_full_wp s ss :
  mem_inv s ss ->
  wp strela_kernel_alloc (fun k s' => mem_post s (keep_kernel ss k) s' /\ alloc_result s s'
    /\ k_valid k = strela_dev_ok (ls_dev s') /\ 0 <= k_handle k
    /\ (strela_dev_ok (ls_dev s) = true -> k_valid k = false -> length (ss_kernels ss) = 128%nat)) s.
Proof.
  intros Hm. unfold strela_kernel_alloc. apply wp_bind, wp_dev.
  destruct (strela_dev_ok (ls_dev s)) eqn:Hok; cbn [negb].
  2: { apply wp_ret. split; [done|]. split; [split_and!; [done|congruence|done]|]. by rewrite Hok. }
  destruct (mi_pool _ _ Hm) as [F Hr]. destruct (mi_pool_buf _ _ Hm) as (Hb & Hl & Hc).
  pose proof (pool_alloc_ok _ _ _ _ Hr) as Ha. destruct F as [|x F].
  - apply wp_bind, wp_on_mem. eexists _, _. split; [exact Ha|]. apply wp_bind, wp_update_dev. cbn [negb Z.eqb].
    apply wp_bind, wp_update_dev, wp_ret. split; [|split; [split_and!; [done|by right|congruence]|]].
    + split; [apply mem_inv_errnum; by destruct s as [[] ? ?]|]. intros l0 Hi. apply job_inv_errnum. by destruct s as [[] ? ?].
    + split; [cbn; by rewrite errnum_not_ok|]. split; [done|]. intros _ _. pose proof (pr_all _ _ _ _ Hr) as Hp.
      apply Permutation_length in Hp. cbn in Hp. rewrite length_fmap in Hp. rewrite Hp. unfold all_chunks, chunks.
      rewrite length_fmap, length_seq. unfold chunk_count. by rewrite Hl, Hc.
  - destruct Ha as (p' & m' & He & Hr' & Hs & HO & Hz).
    apply wp_bind, wp_on_mem. exists (x, p'), m'. split; [done|]. apply wp_bind, wp_update_dev.
    pose proof (pool_rep_in _ _ _ _ x Hr ltac:(set_solver)) as (Hin & Hx0 & _).
    rewrite (proj2 (Z.eqb_neq x 0)) by lia. cbn [negb]. cbv zeta.
    destruct (kernel_chunk _ _ _ _ Hm Hr Hin) as (h & Hh & Hxh).
    assert (Hb' : pool_buf p' = d_kernels_bo_map (ls_dev s)) by (rewrite Hs; exact Hb).
    destruct (kernel_handle _ _ _ Hm Hh) as (Hu & _ & _). rewrite Hb', Hxh, Hu.
    apply wp_bind, wp_assert; [lia|]. apply wp_ret. unfold keep_kernel. cbn [k_valid k_handle].
    rewrite Hc in HO, Hz. assert (Hxin : x ∈ (x :: F) ++ (kernel_addr (d_kernels_bo_map (ls_dev s)) <$> ss_kernels ss))
      by set_solver.
    split; [|split; [split_and!; [done|by left|congruence]|split_and!; [by rewrite <- Hok|lia|done]]].
    split; [|intros l0 Hi; by apply (job_inv_pool _ (lst_set_mem s m')), job_inv_mem].
    apply (mem_inv_pool s _ ss _ F); try done.
    + rewrite fmap_cons. unfold kernel_addr at 1; cbn [fst]. rewrite <- Hxh. exact Hr'.
    + by eapply chunk_outside.
    + constructor.
      * split; [done|]. cbn [fst snd]. rewrite length_replicate. split; [by rewrite kernel_bytes_320|].
        apply read_replicate. intros y Hy. apply Hz. unfold kernel_addr in Hy. cbn [fst] in Hy.
        rewrite kernel_bytes_320 in *. lia.
      * eapply other_kernels; [done|exact Hr|exact Hxin|exact HO| |apply Hm].
        apply Forall_forall. intros k Hk. pose proof (pool_rep_NoDup _ _ _ _ Hr) as HN.
        assert (Hka : kernel_addr (d_kernels_bo_map (ls_dev s)) k
                      ∈ kernel_addr (d_kernels_bo_map (ls_dev s)) <$> ss_kernels ss) by (by apply list_elem_of_fmap_2).
        split; [set_solver|]. cbn in HN. apply NoDup_cons in HN as [HN _]. set_solver.
Qed.

Lemma kernel_alloc_wp s ss : mem_inv s ss -> wp (do_kernel_alloc ss) (mem_post s) s.
Proof.
  intros Hm. apply wp_bind. eapply wp_mono; [by apply kernel_alloc_full_wp|]. intros k s' [Hp _]. by apply wp_ret.
Qed.

Lemma kernel_lookup s ss i h d F :
  mem_inv s ss ->
  pool_rep (d_kernel_pool (ls_dev s)) (ls_mem s) F (kernel_addr (d_kernels_bo_map (ls_dev s)) <$> ss_kernels ss) ->
  ss_kernels ss !! i = Some (h, d) ->
  0 <= h < 128
  /\ d_kernels_bo_map (ls_dev s) + h * KERNEL_BYTES
     ∈ (kernel_addr (d_kernels_bo_map (ls_dev s)) <$> ss_kernels ss)
  /\ forall j k, j <> i -> ss_kernels ss !! j = Some k ->
       kernel_addr (d_kernels_bo_map (ls_dev s)) k <> d_kernels_bo_map (ls_dev s) + h * KERNEL_BYTES.
Proof.
  intros Hm Hr Hi. pose proof (mi_kerns _ _ Hm) as Hk. rewrite Forall_lookup in Hk.
  destruct (Hk _ _ Hi) as [Hh _]. split; [exact Hh|]. split.
  - apply (list_elem_of_fmap_2 (kernel_addr _) _ (h, d)). by eapply list_elem_of_lookup_2.
  - intros j k Hj Hjk He. apply Hj. pose proof (pool_rep_NoDup _ _ _ _ Hr) as HN.
    apply NoDup_app in HN as (_ & _ & HN). eapply (NoDup_lookup _ j i); [exact HN|..].
    + rewrite list_lookup_fmap, Hjk. done.
    + rewrite list_lookup_fmap, Hi. cbn. unfold kernel_addr at 1; cbn. by rewrite He.
Qed.

(** Writing one kernel leaves every kernel of the session as it was recorded. *)
Lemma kernels_set s ss i h old l F :
  let x := d_kernels_bo_map (ls_dev s) + h * KERNEL_BYTES in
  mem_inv s ss ->
  pool_rep (d_kernel_pool (ls_dev s)) (ls_mem s) F
    (kernel_addr (d_kernels_bo_map (ls_dev s)) <$> ss_kernels ss) ->
  ss_kernels ss !! i = Some (h, old) -> Z.of_nat (length l) = KERNEL_BYTES ->
  Forall (kernel_ok (write_bytes (ls_mem s) x l) (d_kernels_bo_map (ls_dev s)))
         (<[i := (h, l)]> (ss_kernels ss)).
Proof.
  intros x Hm Hr Hi Hll. destruct (mi_pool_buf _ _ Hm) as (Hb & Hl & Hc).
  destruct (kernel_lookup _ _ _ _ _ _ Hm Hr Hi) as (Hh & Hin & Hother).
  pose proof (write_bytes_outside (ls_mem s) x l) as HO. rewrite Hll in HO.
  apply Forall_lookup. intros j k Hj. destruct (decide (j = i)) as [->|Hne].
  - rewrite list_lookup_insert_eq in Hj by (by apply lookup_lt_Some in Hi). simplify_eq.
    split; [done|]. split; [done|]. cbn [snd]. by apply read_write_same.
  - rewrite list_lookup_insert_ne in Hj by done.
    assert (Hall : Forall (kernel_ok (write_bytes (ls_mem s) x l) (d_kernels_bo_map (ls_dev s))) [k]).
    { eapply other_kernels; [done|exact Hr| |exact HO|..]; [set_solver|..].
      - constructor; [|done]. split; [|by eapply Hother]. apply elem_of_app. right.
        apply list_elem_of_fmap_2. by eapply list_elem_of_lookup_2.
      - constructor; [|done]. pose proof (mi_kerns _ _ Hm) as Hk. rewrite Forall_lookup in Hk. eauto. }
    by apply Forall_cons in Hall as [? _].
Qed.

Lemma kernel_set_wp s ss i data : mem_inv s ss -> wp (do_kernel_set ss i data) (mem_post s) s.
Proof.
  intros Hm. unfold do_kernel_set. destruct (ss_kernels ss !! i) as [[h old]|] eqn:Hi; [|by apply wp_ret].
  apply wp_if; intros Hlen; [by apply wp_ret|]. apply wp_bind, wp_dev, wp_bind.
  destruct (mi_pool _ _ Hm) as [F Hr]. destruct (mi_pool_buf _ _ Hm) as (Hb & Hl & Hc).
  destruct (kernel_lookup _ _ _ _ _ _ Hm Hr Hi) as (Hh & Hin & Hother).
  destruct (kernel_handle _ _ _ Hm Hh) as (_ & Hptr & _).
  unfold strela_kernel_set. apply wp_bind, wp_when_ok; intros Hok.
  2: { apply wp_when_ok; [congruence|]. intros _. rewrite Hok. by apply wp_ret. }
  unfold kernel_bad. cbn [k_valid k_handle negb orb]. replace (128 <=? h) with false by lia.
  apply wp_ret, wp_when_ok; [intros _|congruence]. apply wp_bind. unfold caller_array.
  change (STRELA_KERNEL_SIZE * 4) with KERNEL_BYTES. rewrite (proj2 (Z.leb_le _ _)) by lia. apply wp_ret.
  set (x := d_kernels_bo_map (ls_dev s) + h * KERNEL_BYTES) in *.
  set (l := list.take (Z.to_nat KERNEL_BYTES) data).
  assert (Hll : Z.of_nat (length l) = KERNEL_BYTES)
    by (unfold l; rewrite length_take; rewrite kernel_bytes_320 in *; lia).
  assert (Hv : valid (ls_mem s) x KERNEL_BYTES = true).
  { destruct (pool_rep_in _ _ _ _ x Hr ltac:(set_solver)) as (_ & _ & H1 & H2 & _).
    eapply valid_sub; [exact (po_valid _ _ (pr_ok _ _ _ _ Hr))|done|by rewrite <- Hc]. }
  apply wp_bind, wp_on_mem. exists tt, (write_bytes (ls_mem s) x l). split.
  { unfold kernel_ptr. cbn [k_handle]. rewrite Hb. fold x in Hptr. rewrite Hptr. unfold write_data.
    rewrite Hll, Hv. done. }
  pose proof (write_bytes_outside (ls_mem s) x l) as HO. rewrite Hll in HO.
  rewrite Hok. eapply wp_mono; [eapply (sync_wp s)|intros u s' Hp; apply wp_ret; exact Hp].
  split; [|intros l0; apply job_inv_mem]. apply (mem_inv_pool s _ ss _ F); try done.
  - unfold same_pool, pool_set_head. cbn [ls_dev lst_set_mem]. by destruct (d_kernel_pool (ls_dev s)).
  - rewrite list_fmap_insert. replace (kernel_addr _ (h, l)) with x by done.
    rewrite list_insert_id; [|rewrite list_lookup_fmap, Hi; done].
    eapply pool_write_held; [exact Hr|exact Hin|]. cbn [ls_dev lst_set_mem]. by rewrite Hc.
  - eapply chunk_outside; [done|exact Hr| |exact HO]. set_solver.
  - by eapply kernels_set.
Qed.

Lemma free_kernels_wp s ss :
  mem_inv s ss -> strela_dev_ok (ls_dev s) = true ->
  wp strela_kernel_free_all (fun _ s' => mem_post s (mkSess (ss_bufs ss) []) s'
    /\ d_errnum (ls_dev s') = d_errnum (ls_dev s) /\ d_jobs (ls_dev s') = d_jobs (ls_dev s)) s.
Proof.
  intros Hm Hok. unfold strela_kernel_free_all. apply wp_when_ok; [intros _|congruence].
  destruct (mi_pool _ _ Hm) as [F Hr]. destruct (mi_pool_buf _ _ Hm) as (Hb & Hl & Hc).
  destruct (pool_free_all_ok _ _ (pr_ok _ _ _ _ Hr)) as (hd & m' & He & Hr' & HO). rewrite Hb, Hl in HO.
  apply wp_bind, wp_on_mem. eexists _, m'. split; [exact He|]. apply wp_update_dev. split; [|done].
  split; [|intros l0 Hi; by apply (job_inv_pool _ (lst_set_mem s m')), job_inv_mem].
  by eapply (mem_inv_pool s _ ss).
Qed.

Lemma kernel_free_all_wp s ss : mem_inv s ss -> wp (do_kernel_free_all ss) (mem_post s) s.
Proof.
  intros Hm. unfold do_kernel_free_all. apply wp_bind, wp_dev.
  destruct (strela_dev_ok (ls_dev s)) eqn:Hok; apply wp_bind.
  - eapply wp_mono; [by apply (free_kernels_wp s ss)|]. intros u s' [Hp _]. by apply wp_ret.
  - exists tt, s. split; [by apply when_not_ok|]. by apply wp_ret.
Qed.
End Kernels.
