(* ===== verification/LibOpen.v ===== *)
(** * Finding and opening a device

    The search through /dev/accel ends, closes the directory and every
    descriptor it opened except the one it answers; opening a device either
    gives the library its descriptor and its two mappings or gives everything
    back. *)
From S2P Require Export LibKernels.

(** [s'] is [s] with [f fd] more references on each descriptor and [k] more
    open directory streams; device and memory are the same. *)
Record step_by (f : Z -> Z) (k : Z) (s s' : lst) : Prop := {
  sb_dev : ls_dev s' = ls_dev s;
  sb_mem : ls_mem s' = ls_mem s;
  sb_fds : forall fd, fd_held fd (ls_log s') = fd_held fd (ls_log s) + f fd;
  sb_sos : forall d h, so_held d h (ls_log s') = so_held d h (ls_log s);
  sb_maps : mapped (ls_log s') = mapped (ls_log s);
  sb_dirs : dirs_open (ls_log s') = dirs_open (ls_log s) + k
}.

Definition none (fd : Z) : Z := 0.
Definition one (x : Z) (fd : Z) : Z := if x =? fd then 1 else 0.

Lemma step_by_refl s : step_by none 0 s s.
Proof. split; intros; unfold none; lia || done. Qed.

Lemma step_by_trans f k g n h s1 s2 s3 :
  step_by f k s1 s2 -> step_by g n s2 s3 -> (forall fd, h fd = f fd + g fd) -> step_by h (k + n) s1 s3.
Proof.
  intros [H1 H2 H3 H4 H5 H6] [G1 G2 G3 G4 G5 G6] Hh. split; try congruence.
  - intros fd. rewrite G3, H3, Hh. lia.
  - lia.
Qed.

Section Open.
Context `{A : abi} `{OS : Sys} `{HL : !SysLaws OS}.

Lemma step_quiet s e : quiet e -> step_by none 0 s (lst_add s e).
Proof.
  intros (H1 & H2 & H3). destruct (H3 (ls_log s)) as [H4 H5].
  split; cbn [lst_add ls_dev ls_mem ls_log]; [done|done|..|done|lia].
  - intros fd. cbn. rewrite H1. unfold none. lia.
  - intros d h. cbn. rewrite H2. lia.
Qed.

Lemma step_close s fd r : step_by (fun x => - one fd x) 0 s (lst_add s (Sev (SC_close fd) r)).
Proof. split; try done; intros; cbn; unfold one; [|lia]. destruct (fd =? fd0); lia. Qed.

(** Take the composition of two steps as one. *)
Ltac steps H1 H2 := eapply eq_ind_r with (P := fun k => step_by _ k _ _);
  [eapply (step_by_trans _ _ _ _ _ _ _ _ H1 H2); intros ?; unfold none, one; try destruct (_ =? _); lia|lia].

Lemma openat_wp s name :
  wp (accel_openat name) (fun r s' =>
    (r.1 = -1 /\ step_by none 0 s s') \/ (0 <= r.1 /\ step_by (one r.1) 0 s s')) s.
Proof.
  unfold accel_openat. apply wp_bind, wp_sys.
  destruct (sys (ls_log s) (SC_openat name)) as [e|[fd z]] eqn:He.
  { apply wp_ret. left. split; [done|]. by apply step_quiet, quiet_fail. }
  pose proof (law_openat _ _ _ _ He) as Hfd.
  assert (H1 : step_by (one fd) 0 s (lst_add s (Sev (SC_openat name) (inr (fd, z))))).
  { split; try done; intros; cbn; unfold one; lia. }
  apply wp_bind. exists (lst_add s (Sev (SC_openat name) (inr (fd, z)))), (lst_add s (Sev (SC_openat name) (inr (fd, z)))).
  split; [done|]. apply wp_bind, wp_sys. set (s1 := lst_add s _) in *. set (c := SC_version fd).
  assert (H2 : forall r, step_by (one fd) 0 s (lst_add s1 (Sev c r))).
  { intros r. pose proof (step_quiet s1 (Sev c r) ltac:(by apply quiet_call_ok)) as Hq. steps H1 Hq. }
  destruct (sys _ c) as [e|r].
  - apply wp_bind, wp_sys, wp_ret. left. split; [done|]. specialize (H2 (inl e)).
    pose proof (step_close (lst_add s1 (Sev c (inl e))) fd
      (sys (ls_log (lst_add s1 (Sev c (inl e)))) (SC_close fd))) as Hc. steps H2 Hc.
  - apply wp_ret. right. split; [done|]. apply H2.
Qed.

(** ** The iterator *)
Definition it_open (it : accel_iter) : Z := if it_dir it then 1 else 0.

(** The iterator is valid as long as the directory is open. *)
Definition it_ok (it : accel_iter) : Prop := it_valid it = bool_decide (is_Some (it_dir it)).

Lemma iter_close_wp s it :
  wp (accel_iter_close it) (fun it' s' => it_dir it' = None /\ it_errno it' = it_errno it
    /\ (it_dir it <> None -> it_valid it' = false) /\ step_by none (- it_open it) s s') s.
Proof.
  unfold accel_iter_close, it_open. destruct (it_dir it) as [d|] eqn:Hd.
  - apply wp_bind, wp_sys, wp_ret. split_and!; try done. split; try done; intros; cbn; unfold none; lia.
  - apply wp_ret. split_and!; try done. apply step_by_refl.
Qed.

Lemma next_name_wp names e it s :
  wp (next_name names e it) (fun it' s' => it_ok it' /\ step_by none (it_open it' - 1) s s'
    /\ (it_valid it' = true -> (entries_left it' <= length names)%nat)) s.
Proof.
  revert s. induction names as [|n names IH]; intros s; cbn [next_name].
  - eapply wp_mono; [apply iter_close_wp|]. intros it' s' (H1 & _ & H2 & H3). cbn in H2, H3.
    rewrite H2 by done. unfold it_ok, it_open. rewrite H1, (H2 ltac:(done)). split_and!; try done.
  - apply wp_if; intros _.
    + eapply wp_mono; [apply IH|]. intros it' s' (H1 & H2 & H3). split_and!; try done. intros Hv.
      specialize (H3 Hv). cbn. lia.
    + apply wp_ret. split_and!; try done. apply step_by_refl.
Qed.

Lemma iter_next_wp it s :
  wp (accel_iter_next it) (fun it' s' => it_ok it' /\ step_by none (it_open it' - it_open it) s s'
    /\ (it_valid it' = true -> (entries_left it' < entries_left it)%nat)) s.
Proof.
  unfold accel_iter_next. destruct (it_dir it) as [[names e]|] eqn:Hd.
  - eapply wp_mono; [apply next_name_wp|]. intros it' s' (H1 & H2 & H3).
    unfold it_open at 2, entries_left at 2. rewrite Hd. split_and!; try done. intros Hv. specialize (H3 Hv). lia.
  - apply wp_ret. unfold it_open at 2. rewrite Hd. split_and!; try done. apply step_by_refl.
Qed.

Lemma iter_make_wp s :
  wp accel_iter_make (fun it s' => it_ok it /\ step_by none (it_open it) s s') s.
Proof.
  unfold accel_iter_make. apply wp_bind. exists s, s. split; [done|]. apply wp_bind, wp_sys.
  destruct (sys (ls_log s) SC_opendir) as [e|r] eqn:He.
  - eapply wp_mono; [apply iter_next_wp|]. intros it' s' (H1 & H2 & _). split; [done|].
    pose proof (step_quiet s (Sev SC_opendir (inl e)) ltac:(by apply quiet_fail)) as Hq.
    cbn in H2. steps Hq H2.
  - eapply wp_mono; [apply iter_next_wp|]. intros it' s' (H1 & H2 & _). split; [done|].
    assert (Ho : step_by none 1 s (lst_add s (Sev SC_opendir (inr r)))).
    { split; try done; intros; cbn; unfold none; lia. }
    cbn in H2. steps Ho H2.
Qed.

(** ** The searches *)
Lemma find_loop_wp fuel which it count s :
  it_ok it -> (entries_left it <= fuel)%nat ->
  wp (find_loop fuel which it count) (fun fd s' =>
    (fd = -1 /\ step_by none (- it_open it) s s') \/ (0 <= fd /\ step_by (one fd) (- it_open it) s s')) s.
Proof.
  revert it count s. induction fuel as [|fuel IH]; intros it count s Hok Hf.
  { unfold entries_left in Hf. destruct (it_dir it) as [[]|]; lia. }
  cbn [find_loop]. destruct (it_valid it) eqn:Hv; cbn [negb].
  2: { apply wp_ret. left. split; [done|]. unfold it_ok in Hok. rewrite Hv in Hok. symmetry in Hok.
       apply bool_decide_eq_false in Hok. unfold it_open. destruct (it_dir it); [by destruct Hok|apply step_by_refl]. }
  assert (Hrec : forall s1 count', step_by none 0 s s1 ->
    wp (let! it := accel_iter_next it in find_loop fuel which it count') (fun fd s' =>
      (fd = -1 /\ step_by none (- it_open it) s s') \/ (0 <= fd /\ step_by (one fd) (- it_open it) s s')) s1).
  { intros s1 count' H1. apply wp_bind. eapply wp_mono; [apply iter_next_wp|].
    intros it' s2 (Hok' & H2 & Hlt). assert (H12 : step_by none (it_open it' - it_open it) s s2) by steps H1 H2.
    destruct (it_valid it') eqn:Hv'.
    - eapply wp_mono; [apply IH; [done|specialize (Hlt eq_refl); lia]|].
      intros fd s3 [[-> H3]|[Hfd H3]]; [left|right]; (split; [done|steps H12 H3]).
    - destruct fuel; cbn [find_loop]; rewrite Hv'; apply wp_ret; left; (split; [done|]).
      all: unfold it_ok in Hok'; rewrite Hv' in Hok'; symmetry in Hok'; apply bool_decide_eq_false in Hok'.
      all: unfold it_open in H12 at 1; destruct (it_dir it'); [by destruct Hok'|].
      all: exact H12. }
  apply wp_bind. eapply wp_mono; [apply openat_wp|]. intros [fd name] s1 Hr. cbn [fst] in Hr.
  destruct Hr as [[-> H1]|[Hfd H1]]; [by apply Hrec|].
  rewrite (proj2 (Z.eqb_neq fd (-1))) by lia. cbn [negb]. apply wp_if; intros _.
  - apply wp_bind. eapply wp_mono; [apply iter_close_wp|]. intros it' s2 (_ & _ & _ & H2). apply wp_ret.
    right. split; [done|]. steps H1 H2.
  - apply wp_bind, wp_sys. apply Hrec.
    pose proof (step_close s1 fd (sys (ls_log s1) (SC_close fd))) as H2. steps H1 H2.
Qed.

Lemma find_device_wp which s :
  wp (find_device which) (fun fd s' =>
    (fd = -1 /\ step_by none 0 s s') \/ (0 <= fd /\ step_by (one fd) 0 s s')) s.
Proof.
  unfold find_device. apply wp_bind. eapply wp_mono; [apply iter_make_wp|]. intros it s1 [Hok H1].
  eapply wp_mono; [by apply find_loop_wp|].
  intros fd s2 [[-> H2]|[Hfd H2]]; [left|right]; (split; [done|steps H1 H2]).
Qed.
End Open.
