(* ===== verification/LibDevice.v ===== *)
(** * Opening and closing a device, all or nothing

    [strela_dev_init] leaves either a device with its descriptor, its two
    mappings and fresh allocators, or nothing; [strela_dev_deinit] gives
    everything back. *)
From S2P Require Export LibOpen.

(** The same descriptors, sync objects, mappings and directories are held. *)
Definition same_counts (l l' : list sevent) : Prop :=
  (forall fd, fd_held fd l' = fd_held fd l) /\ (forall d h, so_held d h l' = so_held d h l)
  /\ mapped l' = mapped l /\ dirs_open l' = dirs_open l.

#[export] Instance same_counts_preorder : PreOrder same_counts.
Proof.
  split; [done|]. intros l1 l2 l3 (H1 & H2 & H3 & H4) (G1 & G2 & G3 & G4).
  split_and!; intros; congruence.
Qed.

Lemma step_by_counts s s' : step_by none 0 s s' -> same_counts (ls_log s) (ls_log s').
Proof.
  intros [? ? H1 H2 H3 H4]. split_and!; try done; [|lia]. intros fd. rewrite H1. unfold none. lia.
Qed.

Lemma quiet_counts e l : quiet e -> same_counts l (e :: l).
Proof.
  intros (H1 & H2 & H3). destruct (H3 l) as [H4 H5]. split_and!; try done; intros; cbn; rewrite ?H1, ?H2; lia.
Qed.

(** Taking one mapping away again. *)
Lemma list_difference_cons (x : Z * Z) l : x ∉ l -> list_difference (x :: l) [x] = l.
Proof.
  intros Hx. cbn. case_decide; [|set_solver].
  induction l as [|y l IH]; [done|]. cbn. case_decide; [set_solver|]. f_equal. apply IH. set_solver.
Qed.

Lemma apart_not_in r l : 0 < r.2 -> Forall (apart r) l -> r ∉ l.
Proof. intros Hr HF Hin. rewrite Forall_forall in HF. specialize (HF _ Hin). unfold apart in HF. lia. Qed.

Section Device.
Context `{A : abi} `{OS : Sys} `{HL : !SysLaws OS} `{HU : !Undisturbed OS}.

Definition bo_failed (s : lst) (r : Z * Z) (s' : lst) : Prop :=
  exists e, 0 < e /\ (r.2 = 0 \/ r.2 = MAP_FAILED)
    /\ ls_dev s' = dev_set_errnum (ls_dev s) e /\ ls_mem s' = ls_mem s
    /\ same_counts (ls_log s) (ls_log s').

Definition bo_mapped (s : lst) (size : Z) (r : Z * Z) (s' : lst) : Prop :=
  map_ok (r.2, size) /\ Forall (apart (r.2, size)) (mapped (ls_log s))
  /\ ls_dev s' = ls_dev s
  /\ ls_mem s' = Mem ((r.2, size) :: regions (ls_mem s)) (bytes (ls_mem s))
  /\ (forall fd, fd_held fd (ls_log s') = fd_held fd (ls_log s))
  /\ (forall d h, so_held d h (ls_log s') = so_held d h (ls_log s))
  /\ mapped (ls_log s') = (r.2, size) :: mapped (ls_log s)
  /\ dirs_open (ls_log s') = dirs_open (ls_log s).

Lemma init_bo_wp s fd size :
  d_errnum (ls_dev s) = 0 ->
  wp (init_bo fd size) (fun r s' => bo_failed s r s' \/ bo_mapped s size r s') s.
Proof.
  intros He0. unfold init_bo. apply wp_bind, wp_dev. rewrite He0. cbn [negb STRELA_ERR_OK Z.eqb].
  apply wp_bind, wp_sys. set (c := SC_gem_new _ _). destruct (sys (ls_log s) c) as [e|[h off]] eqn:He.
  { apply law_errno in He. apply wp_bind, wp_update_dev, wp_ret. left. exists e.
    split; [done|]. split; [by left|]. split; [done|]. split; [done|]. by apply quiet_counts, quiet_call_ok. }
  assert (Hc : same_counts (ls_log s) (Sev c (inr (h, off)) :: ls_log s)) by (by apply quiet_counts, quiet_call_ok).
  unfold mmap_. apply wp_bind, wp_bind, wp_sys. cbn [lst_add ls_log]. set (s1 := lst_add s _).
  set (l1 := _ :: ls_log s) in *. set (c2 := SC_mmap fd size off).
  destruct (sys l1 c2) as [e|[a z]] eqn:He2.
  - apply law_errno in He2. apply wp_ret, wp_bind, wp_update_dev, wp_ret. left. exists e.
    assert (Hc2 : same_counts (ls_log s) (Sev c2 (inl e) :: l1)).
    { transitivity l1; [done|]. by apply quiet_counts, quiet_fail. }
    split; [done|]. split; [by right|]. split; [done|]. split; [done|]. exact Hc2.
  - apply law_mmap in He2 as (H1 & H2 & H3 & H4). destruct Hc as (Hc1 & Hc2 & Hc3 & Hc4).
    apply wp_bind. eexists _, _. split; [done|]. apply wp_ret, wp_ret. right. cbn [snd].
    rewrite Hc3 in H4. split; [done|]. split; [done|]. split; [done|]. split; [done|].
    split; [intros x; exact (Hc1 x)|]. split; [intros d x; exact (Hc2 d x)|].
    split; [exact (f_equal (cons (a, size)) Hc3)|exact Hc4].
Qed.
(** ** Giving back *)
Lemma munmap_wp s a size rest (Q : unit -> lst -> Prop) :
  mapped (ls_log s) = (a, size) :: rest -> (a, size) ∉ rest ->
  (forall s', ls_dev s' = ls_dev s -> bytes (ls_mem s') = bytes (ls_mem s) ->
     (forall fd, fd_held fd (ls_log s') = fd_held fd (ls_log s)) ->
     (forall d h, so_held d h (ls_log s') = so_held d h (ls_log s)) ->
     mapped (ls_log s') = rest -> dirs_open (ls_log s') = dirs_open (ls_log s) -> Q tt s') ->
  wp (munmap_ a size) Q s.
Proof.
  intros Hm Hn HQ. unfold munmap_. apply wp_bind, wp_sys_or_abort.
  destruct (law_munmap (ls_log s) a size) as [r Hr]; [rewrite Hm; set_solver|].
  exists r. split; [done|]. eexists _, _. split; [done|]. apply HQ; try done.
  cbn -[list_difference]. rewrite Hm. by apply list_difference_cons.
Qed.

Lemma not_map_failed a size :
  map_ok (a, size) -> 0 < size -> negb (a =? 0) && negb (a =? MAP_FAILED) = true.
Proof.
  unfold map_ok, MAP_FAILED; cbn. intros (_ & H1 & H2) Hs.
  rewrite (proj2 (Z.eqb_neq a 0)), (proj2 (Z.eqb_neq a _)) by lia. done.
Qed.

Lemma close_dev_wp s fd (Q : unit -> lst -> Prop) :
  0 <= fd -> 0 < fd_held fd (ls_log s) ->
  (forall r, Q tt (lst_add s (Sev (SC_close fd) (inr r)))) ->
  wp (if negb (fd =? -1) then sys_or_abort (SC_close fd) else mret_ tt) Q s.
Proof.
  intros Hfd Hh HQ. rewrite (proj2 (Z.eqb_neq fd (-1))) by lia. cbn [negb].
  apply wp_sys_or_abort. destruct (law_close _ _ Hh) as [r Hr]. exists r. by split.
Qed.

(** ** Opening *)

(** What is held when opening failed, or the device was not there: the same
    as before, and the device reports an error. *)
Definition not_opened (s s' : lst) : Prop :=
  d_initialized (ls_dev s') = false /\ 0 < d_errnum (ls_dev s')
  /\ same_counts (ls_log s) (ls_log s') /\ bytes (ls_mem s') = bytes (ls_mem s).

Definition opened (l0 : list sevent) (s' : lst) : Prop :=
  d_errnum (ls_dev s') = 0 /\ mem_inv s' (mkSess [] []) /\ job_inv l0 s' /\ all_free s'.

Lemma valid_head r rs b : valid (Mem (r :: rs) b) r.1 r.2 = true.
Proof. unfold valid. cbn. rewrite !(proj2 (Z.leb_le _ _)) by lia. done. Qed.

Lemma align_up_page a k : a mod 4096 = 0 -> 0 < k -> (k | 4096) -> align_up a k = a.
Proof.
  intros Ha Hk Hd. assert (Hm : a mod k = 0) by (by eapply mod_0_trans).
  apply Z.mod_divide in Hm as [q ->]; [|lia]. unfold align_up.
  replace (q * k + k - 1) with ((k - 1) + q * k) by lia. rewrite Z.div_add, Z.div_small by lia. lia.
Qed.

(** The kernel pool of a new device. *)
Lemma pool_init_wp m kb :
  map_ok (kb, STRELA_KERNEL_MEMORY_SIZE) -> valid m kb STRELA_KERNEL_MEMORY_SIZE = true ->
  exists p m', pool_init kb STRELA_KERNEL_MEMORY_SIZE (sizeof_word * STRELA_KERNEL_SIZE) sizeof_word m = Ok (p, m')
    /\ pool_rep p m' (rev (all_chunks p)) []
    /\ pool_buf p = kb /\ pool_chunk_size p = KERNEL_BYTES /\ pool_buf_len p = STRELA_KERNEL_MEMORY_SIZE
    /\ same_outside kb (kb + STRELA_KERNEL_MEMORY_SIZE) m m'.
Proof.
  intros (H1 & H2 & H3) Hv. cbn in H1, H2, H3. unfold sizeof_word.
  assert (Hu : align_up kb 4 = kb) by (apply align_up_page; [done|lia|by exists 1024]).
  assert (Hc : align_up (4 * STRELA_KERNEL_SIZE) 4 = KERNEL_BYTES) by (by vm_compute).
  destruct (pool_init_ok m kb STRELA_KERNEL_MEMORY_SIZE (4 * STRELA_KERNEL_SIZE) 4) as (p & m' & He & Hr & Hb & Hcs & Hl & HO).
  { unfold pool_args_ok. rewrite Hu, Hc. split; [|split; [split|split; [lia|split; [done|split; [done|]]]]].
    - unfold pow2_ptr, ptr_bits, ptr_bytes. exists 2. destruct A; (split; [lia|done]).
    - destruct ptr_bytes_cases as [-> | ->]; (eapply mod_0_trans; [| |exact H1]); try lia; [by exists 1024|by exists 512].
    - by destruct ptr_bytes_cases as [-> | ->].
    - change KERNEL_BYTES with 320. change STRELA_KERNEL_MEMORY_SIZE with 40960.
      change STRELA_KERNEL_SIZE with 80. lia. }
  rewrite Hu in *. rewrite Hc in *. exists p, m'. split_and!; try done. rewrite Hl. lia.
Qed.

(** The tensor allocator of a new device. *)
Lemma free_list_init_wp fl m tb :
  map_ok (tb, STRELA_TENSOR_MEMORY_SIZE) -> valid m tb STRELA_TENSOR_MEMORY_SIZE = true ->
  exists fl' m' B, free_list_init fl tb STRELA_TENSOR_MEMORY_SIZE m = Ok (fl', m')
    /\ client_inv tb STRELA_TENSOR_MEMORY_SIZE (mkClient fl' []) m' B
    /\ same_outside tb (tb + STRELA_TENSOR_MEMORY_SIZE) m m'.
Proof.
  intros (H1 & H2 & H3) Hv. cbn in H1, H2, H3. pose proof sizes_abi as (_ & Hn & _).
  assert (Hmx : sizeof_max_align_t <= 32) by (unfold sizeof_max_align_t; destruct A; lia).
  assert (Hu : align_up tb sizeof_max_align_t = tb).
  { apply align_up_page; [done|lia|]. unfold sizeof_max_align_t. destruct A; [by exists 256|by exists 128]. }
  destruct (init_ok fl tb STRELA_TENSOR_MEMORY_SIZE m) as (m' & He & Hr & HO); [lia|done|done| |].
  { change STRELA_TENSOR_MEMORY_SIZE with 52428800. lia. }
  cbv zeta in He, Hr. rewrite Hu in *. replace (STRELA_TENSOR_MEMORY_SIZE - (tb - tb)) with STRELA_TENSOR_MEMORY_SIZE in * by lia.
  do 3 eexists. split; [exact He|]. split; [|exact HO]. split; cbn; [exact Hr|done|done|constructor].
Qed.
Lemma init_bo_skip s fd size : d_errnum (ls_dev s) <> 0 -> init_bo fd size s = Ok ((0, 0), s).
Proof.
  intros He. unfold init_bo, mbind_, dev_, STRELA_ERR_OK. by rewrite (proj2 (Z.eqb_neq _ _) He).
Qed.

Lemma not_mapped a : a = 0 \/ a = MAP_FAILED -> negb (a =? 0) && negb (a =? MAP_FAILED) = false.
Proof. intros [-> | ->]; [done|]. by rewrite Z.eqb_refl, andb_false_r. Qed.

(** Undoing a failed opening: the kernel mapping, if there is one, and the
    descriptor. *)
Lemma undo_wp s0 s fd tb kb :
  tb = 0 \/ tb = MAP_FAILED -> 0 <= fd -> 0 <= fd_held fd (ls_log s0) ->
  (forall x, fd_held x (ls_log s) = fd_held x (ls_log s0) + one fd x) ->
  (forall d h, so_held d h (ls_log s) = so_held d h (ls_log s0)) ->
  dirs_open (ls_log s) = dirs_open (ls_log s0) ->
  ((kb = 0 \/ kb = MAP_FAILED) /\ mapped (ls_log s) = mapped (ls_log s0)
   \/ map_ok (kb, STRELA_KERNEL_MEMORY_SIZE)
      /\ mapped (ls_log s) = (kb, STRELA_KERNEL_MEMORY_SIZE) :: mapped (ls_log s0)
      /\ (kb, STRELA_KERNEL_MEMORY_SIZE) ∉ mapped (ls_log s0)) ->
  wp (strela_dev_deinit_internal tb STRELA_TENSOR_MEMORY_SIZE kb STRELA_KERNEL_MEMORY_SIZE fd)
     (fun _ s' => ls_dev s' = ls_dev s /\ bytes (ls_mem s') = bytes (ls_mem s)
                  /\ same_counts (ls_log s0) (ls_log s')) s.
Proof.
  intros Htb Hfd H0 Hf Hs Hd Hk. unfold strela_dev_deinit_internal. rewrite (not_mapped tb Htb).
  apply wp_bind, wp_ret, wp_bind.
  apply (wp_mono _ (fun _ s' => ls_dev s' = ls_dev s /\ bytes (ls_mem s') = bytes (ls_mem s)
    /\ (forall x, fd_held x (ls_log s') = fd_held x (ls_log s0) + one fd x)
    /\ (forall d h, so_held d h (ls_log s') = so_held d h (ls_log s0))
    /\ mapped (ls_log s') = mapped (ls_log s0) /\ dirs_open (ls_log s') = dirs_open (ls_log s0))).
  - destruct Hk as [[Hk Hm]|(Hk & Hm & Hn)].
    + rewrite (not_mapped kb Hk). by apply wp_ret.
    + rewrite (not_map_failed _ _ Hk) by done. eapply munmap_wp; [exact Hm|done|].
      intros s' H1 H2 H3 H4 H5 H6. split_and!; try done; intros; congruence.
  - intros u1 s1 (H1 & H2 & H3 & H4 & H5 & H6). apply close_dev_wp; [done|rewrite H3; unfold one; rewrite Z.eqb_refl; lia|].
    intros r. split; [done|]. split; [done|]. split_and!; try done. intros x. cbn. rewrite H3. unfold one.
    destruct (fd =? x); lia.
Qed.

(** The allocators and the slots of a device that was opened. *)
Lemma open_success l0 s fd kh kb th tb rs :
  d_errnum (ls_dev s) = 0 -> 0 <= fd ->
  map_ok (kb, STRELA_KERNEL_MEMORY_SIZE) -> map_ok (tb, STRELA_TENSOR_MEMORY_SIZE) ->
  apart (tb, STRELA_TENSOR_MEMORY_SIZE) (kb, STRELA_KERNEL_MEMORY_SIZE) ->
  regions (ls_mem s) = (tb, STRELA_TENSOR_MEMORY_SIZE) :: (kb, STRELA_KERNEL_MEMORY_SIZE) :: rs ->
  (forall x, fd_held x (ls_log s) = fd_held x l0 + one fd x) ->
  (forall d h, so_held d h (ls_log s) = so_held d h l0) ->
  mapped (ls_log s) = (tb, STRELA_TENSOR_MEMORY_SIZE) :: (kb, STRELA_KERNEL_MEMORY_SIZE) :: mapped l0 ->
  dirs_open (ls_log s) = dirs_open l0 ->
  Forall (apart (tb, STRELA_TENSOR_MEMORY_SIZE)) (mapped l0) ->
  Forall (apart (kb, STRELA_KERNEL_MEMORY_SIZE)) (mapped l0) ->
  wp (let! pool := on_mem (pool_init kb STRELA_KERNEL_MEMORY_SIZE
                             (sizeof_word * STRELA_KERNEL_SIZE) sizeof_word) in
      let! fl := on_mem (free_list_init (d_buffer_free_list (ls_dev s)) tb STRELA_TENSOR_MEMORY_SIZE) in
      update_dev (fun d =>
        mkSDev fd th tb kh kb jobh0 true (d_errnum d) pool fl (replicate STRELA_JOBS_MAX slot0)))
     (fun _ s' => opened l0 s') s.
Proof.
  intros He Hfd Hk Ht Hap Hreg Hf Hs Hmp Hdi Hft Hfk.
  assert (Hvk : valid (ls_mem s) kb STRELA_KERNEL_MEMORY_SIZE = true).
  { unfold valid. rewrite Hreg. cbn. rewrite !Z.leb_refl. cbn. by rewrite orb_true_r. }
  assert (Hvt : valid (ls_mem s) tb STRELA_TENSOR_MEMORY_SIZE = true).
  { unfold valid. rewrite Hreg. cbn. by rewrite !Z.leb_refl. }
  destruct (pool_init_wp _ _ Hk Hvk) as (p & m1 & Hp & Hrep & Hpb & Hpc & Hpl & HO1).
  apply wp_bind, wp_on_mem. exists p, m1. split; [exact Hp|].
  destruct (free_list_init_wp (d_buffer_free_list (ls_dev s)) m1 tb Ht) as (fl & m2 & B & Hfl & Hcl & HO2).
  { by erewrite same_outside_valid. }
  apply wp_bind, wp_on_mem. exists fl, m2. split; [exact Hfl|]. apply wp_update_dev.
  split; [exact He|]. split; [|split].
  - split; cbn; try done; [by exists B|]. exists (rev (all_chunks p)).
    eapply pool_rep_frame; [exact Hrep|apply HO2|]. intros x y Hx Hy. apply HO2.
    pose proof (pool_rep_in _ _ _ _ x Hrep ltac:(set_solver)) as (_ & _ & H1 & H2 & _).
    rewrite Hpb, Hpl, Hpc in *. unfold apart in Hap. cbn in Hap. lia.
  - split; cbn [ls_dev ls_log lst_set_dev d_fd d_jobs d_initialized d_tensors_bo_map d_kernels_bo_map lst_set_mem]; try done.
    + by repeat constructor.
    + intros x. rewrite Hf, sumZ_replicate, (proj1 (free_owns slot0 eq_refl)). unfold one. lia.
    + intros d h. rewrite Hs, sumZ_replicate, (proj2 (free_owns slot0 eq_refl)). destruct (_ =? d); lia.
  - by repeat constructor.
Qed.

(** The end of opening after an error: everything acquired since [s0] is given
    back, and the error stays. *)
Lemma open_failed s0 s fd kh kb th tb :
  d_errnum (ls_dev s) <> 0 -> d_initialized (ls_dev s) = false ->
  wp (strela_dev_deinit_internal tb STRELA_TENSOR_MEMORY_SIZE kb STRELA_KERNEL_MEMORY_SIZE fd)
     (fun _ s' => ls_dev s' = ls_dev s /\ bytes (ls_mem s') = bytes (ls_mem s0)
                  /\ same_counts (ls_log s0) (ls_log s')) s ->
  0 < d_errnum (ls_dev s) ->
  wp (open_finish fd kh kb th tb) (fun _ s' => not_opened s0 s') s.
Proof.
  intros He Hini Hundo Hpos. unfold open_finish. apply wp_bind, wp_dev. unfold STRELA_ERR_OK.
  rewrite (proj2 (Z.eqb_neq _ _) He). apply wp_bind, wp_assert; [by rewrite Hini|].
  eapply wp_mono; [exact Hundo|]. intros u s' (Hd & Hm & Hc). split; [by rewrite Hd|]. by rewrite Hd.
Qed.

(** No device was found: nothing was acquired. *)
Lemma open_missing s s1 :
  d_initialized (ls_dev s) = false -> step_by none 0 s s1 ->
  wp (do! set_errnum ENODEV in
      let! '(kh, kb) := init_bo (-1) STRELA_KERNEL_MEMORY_SIZE in
      let! '(th, tb) := init_bo (-1) STRELA_TENSOR_MEMORY_SIZE in
      open_finish (-1) kh kb th tb) (fun _ s' => not_opened s s') s1.
Proof.
  intros Hini H1. apply wp_bind, wp_update_dev. set (s2 := lst_set_dev _ _).
  assert (He2 : d_errnum (ls_dev s2) <> 0) by done.
  apply wp_bind. eexists _, _. split; [by apply init_bo_skip|]. apply wp_bind. eexists _, _.
  split; [by apply init_bo_skip|]. apply (open_failed s); [done|cbn; by rewrite (sb_dev _ _ _ _ H1)| |done].
  apply wp_ret. split; [done|]. split; [cbn; by rewrite (sb_mem _ _ _ _ H1)|by apply step_by_counts in H1].
Qed.

Lemma dev_open_wp s which :
  d_initialized (ls_dev s) = false -> d_errnum (ls_dev s) = 0 -> log_ok (ls_log s) ->
  wp (dev_open which) (fun _ s' => not_opened s s' \/ opened (ls_log s) s') s.
Proof.
  intros Hini Herr [Hlf Hls]. unfold dev_open. apply wp_bind. eapply wp_mono; [apply find_device_wp|].
  intros fd s1 [[-> H1]|[Hfd H1]].
  { change (-1 =? -1) with true. cbn iota. eapply wp_mono; [by apply (open_missing s)|]. intros u s' Hn. by left. }
  rewrite (proj2 (Z.eqb_neq fd (-1))) by lia. apply wp_bind, wp_ret, wp_bind.
  destruct H1 as [Hd1 Hm1 Hf1 Hs1 Hmp1 Hdi1]. rewrite Z.add_0_r in Hdi1.
  eapply wp_mono; [apply init_bo_wp; by rewrite Hd1|]. intros [kh kb] s2 [Hb|Hb].
  { destruct Hb as (e & He & Hkb & Hd2 & Hm2 & (Hc1 & Hc2 & Hc3 & Hc4)). cbn [snd] in Hkb.
    assert (He2 : d_errnum (ls_dev s2) <> 0) by (rewrite Hd2; cbn; lia).
    apply wp_bind. eexists _, _. split; [by apply init_bo_skip|]. apply (wp_mono _ (fun _ s' => not_opened s s')); [|by left].
    apply open_failed; [done|by rewrite Hd2, Hd1| |rewrite Hd2; cbn; lia].
    replace (bytes (ls_mem s)) with (bytes (ls_mem s2)) by congruence.
    apply (undo_wp s); try done; [by left|..|left; split; [done|congruence]]; intros; rewrite ?Hc1, ?Hc2, ?Hc4; auto. }
  destruct Hb as (Hkok & Hkap & Hd2 & Hm2 & Hf2 & Hs2 & Hmp2 & Hdi2). cbn [snd] in *.
  assert (Hkn : (kb, STRELA_KERNEL_MEMORY_SIZE) ∉ mapped (ls_log s)).
  { rewrite Hmp1 in Hkap. by apply apart_not_in. }
  apply wp_bind. eapply wp_mono; [apply init_bo_wp; by rewrite Hd2, Hd1|]. intros [th tb] s3 [Hb|Hb].
  { destruct Hb as (e & He & Htb & Hd3 & Hm3 & (Hc1 & Hc2 & Hc3 & Hc4)). cbn [snd] in Htb.
    assert (He3 : d_errnum (ls_dev s3) <> 0) by (rewrite Hd3; cbn; lia).
    apply (wp_mono _ (fun _ s' => not_opened s s')); [|by left].
    apply open_failed; [done|by rewrite Hd3, Hd2, Hd1| |rewrite Hd3; cbn; lia].
    replace (bytes (ls_mem s)) with (bytes (ls_mem s3)) by (by rewrite Hm3, Hm2, Hm1).
    apply (undo_wp s); try done; [..|right; split; [done|split; [congruence|done]]];
      intros; rewrite ?Hc1, ?Hc2, ?Hc4, ?Hf2, ?Hs2, ?Hdi2; auto. }
  destruct Hb as (Htok & Htap & Hd3 & Hm3 & Hf3 & Hs3 & Hmp3 & Hdi3). cbn [snd] in *.
  rewrite Hmp2 in Htap. apply Forall_cons in Htap as [Htk Htap]. unfold open_finish.
  apply wp_bind, wp_dev. assert (He3 : d_errnum (ls_dev s3) = 0) by congruence.
  rewrite He3. change (0 =? STRELA_ERR_OK) with true. cbn iota.
  eapply wp_mono; [eapply (open_success (ls_log s)); try done|intros u s4 Ho; by right];
    intros; rewrite ?Hm3, ?Hm2, ?Hf3, ?Hf2, ?Hs3, ?Hs2; auto; congruence.
Qed.

Lemma ok_of d : d_initialized d = true -> d_errnum d = 0 -> strela_dev_ok d = true.
Proof. intros H1 H2. unfold strela_dev_ok. by rewrite H1, H2. Qed.

(** Freeing everything a device holds. *)
Lemma reset_all_wp l0 s ss :
  log_ok l0 -> mem_inv s ss -> job_inv l0 s -> d_errnum (ls_dev s) = 0 ->
  wp (do! strela_job_free_all in do! strela_buffer_free_all in strela_kernel_free_all)
     (fun _ s' => opened l0 s') s.
Proof.
  intros Hl Hm Hj He. apply wp_bind. eapply wp_mono; [by apply (job_free_all_wp l0)|].
  intros u s1 ([Hj1 Hf1] & He1 & Hfree & _). rewrite He in He1.
  pose proof (mem_inv_frame _ _ _ Hf1 Hm) as Hm1.
  specialize (Hfree (ok_of _ (ji_init _ _ Hj) He)).
  apply wp_bind. eapply wp_mono; [apply (free_buffers_wp s1 ss Hm1), ok_of; [apply Hj1|done]|].
  intros u2 s2 ([Hm2 Hj2] & He2 & Hjb2). rewrite He1 in He2. specialize (Hj2 _ Hj1).
  eapply wp_mono; [apply (free_kernels_wp s2 _ Hm2), ok_of; [apply Hj2|done]|].
  intros u3 s3 ([Hm3 Hj3] & He3 & Hjb3). split; [congruence|]. split; [done|]. split; [by apply Hj3|].
  unfold all_free. by rewrite Hjb3, Hjb2.
Qed.

Lemma opened_init_wp l0 s ss :
  log_ok l0 -> mem_inv s ss -> job_inv l0 s -> d_errnum (ls_dev s) = 0 ->
  wp (let! dev := dev_ in
      do! (if d_initialized dev then
             do! assert_ (d_errnum dev =? STRELA_ERR_OK) in
             do! strela_job_free_all in
             do! strela_buffer_free_all in
             strela_kernel_free_all
           else mret_ tt) in
      let! dev := dev_ in
      assert_ (Bool.eqb (negb (d_errnum dev =? 0)) (negb (d_initialized dev))))
     (fun _ s' => opened l0 s') s.
Proof.
  intros Hl Hm Hj He. apply wp_bind, wp_dev. rewrite (ji_init _ _ Hj). apply wp_bind.
  apply wp_bind, wp_assert; [by rewrite He|]. eapply wp_mono; [by apply (reset_all_wp l0 s ss)|].
  intros u1 s1 Ho. apply wp_bind, wp_dev, wp_assert; [|done].
  destruct Ho as (He1 & _ & Hj1 & _). by rewrite He1, (ji_init _ _ Hj1).
Qed.

(** Initialising an initialised device starts it over. *)
Lemma reinit_wp l0 s ss which :
  log_ok l0 -> mem_inv s ss -> job_inv l0 s -> which < STRELA_DEVICE_MAX ->
  wp (strela_dev_init which) (fun _ s' => opened l0 s') s.
Proof.
  intros Hl Hm Hj Hw. unfold strela_dev_init. rewrite (proj2 (Z.leb_gt _ _) Hw).
  apply wp_bind, wp_update_dev, wp_bind, wp_dev. cbn [ls_dev lst_set_dev d_initialized dev_set_errnum].
  rewrite (ji_init _ _ Hj). cbn [negb]. apply wp_bind, wp_ret.
  apply (opened_init_wp l0 _ ss); [done|by apply mem_inv_errnum|by apply job_inv_errnum|done].
Qed.

Lemma dev_init_wp s which :
  d_initialized (ls_dev s) = false -> log_ok (ls_log s) -> which < STRELA_DEVICE_MAX ->
  wp (strela_dev_init which) (fun _ s' => not_opened s s' \/ opened (ls_log s) s') s.
Proof.
  intros Hi Hl Hw. unfold strela_dev_init. rewrite (proj2 (Z.leb_gt _ _) Hw).
  apply wp_bind, wp_update_dev, wp_bind, wp_dev. cbn [ls_dev lst_set_dev d_initialized dev_set_errnum].
  rewrite Hi. cbn [negb]. apply wp_bind. eapply wp_mono; [by apply dev_open_wp|].
  intros u1 s1 [Hn|Ho].
  - apply wp_bind, wp_dev. destruct Hn as (Hn1 & Hn2 & Hn3). rewrite Hn1. apply wp_bind, wp_ret.
    apply wp_bind, wp_dev, wp_assert; [|by left]. rewrite Hn1, (proj2 (Z.eqb_neq _ 0)) by lia. done.
  - destruct Ho as (He & Hm & Hj & Hf). eapply wp_mono; [by eapply opened_init_wp|]. intros u2 s2 Ho. by right.
Qed.

Lemma dev_deinit_wp l0 s ss :
  log_ok l0 -> mem_inv s ss -> job_inv l0 s -> d_errnum (ls_dev s) = 0 \/ all_free s ->
  wp strela_dev_deinit (fun _ s' => ls_dev s' = dev0 /\ same_counts l0 (ls_log s')) s.
Proof.
  intros Hl Hm Hj He. unfold strela_dev_deinit. apply wp_bind, wp_dev. rewrite (ji_init _ _ Hj).
  apply wp_bind, wp_bind. eapply wp_mono; [by apply (job_free_all_wp l0)|].
  intros u s1 ([Hj1 Hf1] & He1 & Hfree & Hkeep).
  assert (Hall : all_free s1).
  { destruct (strela_dev_ok (ls_dev s)) eqn:Hok; [by apply Hfree|]. destruct He as [He|He]; [|by rewrite Hkeep].
    by rewrite (ok_of _ (ji_init _ _ Hj) He) in Hok. }
  destruct (all_free_sums _ Hall) as [Hz1 Hz2]. pose proof (mem_inv_frame _ _ _ Hf1 Hm) as Hm1.
  apply wp_bind, wp_dev. unfold strela_dev_deinit_internal.
  destruct (ji_fresh _ _ Hj1) as [Hft Hfk]. apply apart_not_in in Hft; [|done]. apply apart_not_in in Hfk; [|done].
  rewrite (not_map_failed _ _ (mi_tensors _ _ Hm1)), (not_map_failed _ _ (mi_kernels _ _ Hm1)) by done.
  apply wp_bind. eapply munmap_wp; [exact (ji_maps _ _ Hj1)|set_solver|].
  intros s2 Hd2 Hb2 Hf2 Hs2 Hm2 Hdi2. apply wp_bind. eapply munmap_wp; [exact Hm2|done|].
  intros s3 Hd3 Hb3 Hf3 Hs3 Hm3 Hdi3. destruct Hl as [Hl1 Hl2].
  assert (Hheld : forall x, fd_held x (ls_log s3) = fd_held x l0 + one (d_fd (ls_dev s1)) x).
  { intros x. rewrite Hf3, Hf2, (ji_fds _ _ Hj1), Hz1. unfold one. lia. }
  apply close_dev_wp; [apply Hj1|rewrite Hheld; unfold one; rewrite Z.eqb_refl; specialize (Hl1 (d_fd (ls_dev s1))); lia|].
  intros r. apply wp_update_dev. split; [done|]. split_and!.
  - intros x. cbn. rewrite Hheld. unfold one. destruct (_ =? x); lia.
  - intros d h. cbn. rewrite Hs3, Hs2, (ji_sos _ _ Hj1), Hz2. destruct (_ =? d); lia.
  - done.
  - cbn. rewrite Hdi3, Hdi2. apply (ji_dirs _ _ Hj1).
Qed.
End Device.
