(* ===== verification/LibSession.v ===== *)
(** * What the library guarantees over a session

    A session opens a device, makes any sequence of the calls below, and closes
    it. The properties of lib/strela.c for every such session and for every
    operating system that keeps [SysLaws], in a process whose endless waits no
    signal interrupts ([Undisturbed]) and which can export a fence right after
    it closed a descriptor. *)
From S2P Require Export LibDevice.

(** The calls of a client; a buffer or kernel is named by its position in what
    the client holds, a job by its handle, valid or not. Three functions of the
    interface are not calls of a session: [strela_execute], which stops the
    process when its wait is cut short ([execute_completes] says exactly when),
    and [strela_buffer_to_ptr] and [strela_buffer_from_ptr], which change nothing
    ([buffer_ptr_roundtrip]). *)
Variant api_op :=
| O_kernel_alloc
| O_kernel_set (i : nat) (data : list Z)
| O_kernel_free (kernel : strela_kernel)
| O_kernel_free_all
| O_buffer_alloc (size_words : Z)
| O_buffer_set (i : nat) (data : list Z)
| O_buffer_free (i : nat)
| O_buffer_free_all
| O_buffer_flush (i : nat) (offset count : Z)
| O_buffer_inval (i : nat) (offset count : Z)
| O_job_config (kernel : strela_kernel) (conf : strela_conf)
| O_job_submit (job : strela_job)
| O_job_poll (job : strela_job)
| O_job_wait (job : strela_job) (timeout_ms : Z)
| O_job_fd (job : strela_job)
| O_job_free (job : strela_job)
| O_job_free_all
| O_config (kernel : strela_kernel) (conf : strela_conf)
| O_reset_err
| O_init (which : Z).

Section Session.
Context `{A : abi} `{OS : Sys}.

(** A call that does not change what the client holds. *)
Definition just {X} (c : M lst X) (ss : session) : M lst session := do! c in mret_ ss.

Definition api_do (ss : session) (o : api_op) : M lst session :=
  match o with
  | O_kernel_alloc => do_kernel_alloc ss
  | O_kernel_set i data => do_kernel_set ss i data
  | O_kernel_free kernel => just (strela_kernel_free kernel) ss
  | O_kernel_free_all => do_kernel_free_all ss
  | O_buffer_alloc w => do_buffer_alloc ss w
  | O_buffer_set i data => do_buffer_set ss i data
  | O_buffer_free i => do_buffer_free ss i
  | O_buffer_free_all => do_buffer_free_all ss
  | O_buffer_flush i off cnt => do_buffer_sync ss true i off cnt
  | O_buffer_inval i off cnt => do_buffer_sync ss false i off cnt
  | O_job_config kernel conf => just (strela_job_config kernel conf) ss
  | O_job_submit job => just (strela_job_submit job) ss
  | O_job_poll job => just (strela_job_poll job) ss
  | O_job_wait job t => just (strela_job_wait job t) ss
  | O_job_fd job => just (strela_job_fd job) ss
  | O_job_free job => just (strela_job_free job) ss
  | O_job_free_all => just strela_job_free_all ss
  | O_config kernel conf => just (strela_config kernel conf) ss
  | O_reset_err => just strela_dev_reset_err ss
  | O_init which => do! strela_dev_init which in mret_ (mkSess [] [])
  end.

Fixpoint api_run (ss : session) (os : list api_op) : M lst session :=
  match os with
  | [] => mret_ ss
  | o :: os => let! ss := api_do ss o in api_run ss os
  end.

(** Requests the size arithmetic can represent, and devices that exist. *)
Definition api_op_ok (o : api_op) : Prop :=
  match o with
  | O_buffer_alloc w => words_ok w
  | O_init which => which < STRELA_DEVICE_MAX
  | _ => True
  end.

(** Open a device and make the calls, if it opened. *)
Definition session_run (which : Z) (os : list api_op) : M lst session :=
  do! strela_dev_init which in
  let! dev := dev_ in
  if strela_dev_ok dev then api_run (mkSess [] []) os else mret_ (mkSess [] []).

(** The same, and close the device. *)
Definition session_full (which : Z) (os : list api_op) : M lst unit :=
  do! session_run which os in
  do! strela_dev_reset_err in
  strela_dev_deinit.

Context `{HL : !SysLaws OS} `{HU : !Undisturbed OS}.
(** A fence can be exported when a descriptor was closed just before. *)
Context (HE : forall l fd r dfd h, exists r', sys (Sev (SC_close fd) (inr r) :: l) (SC_handle_to_fd dfd h) = inr r').

Definition sess_inv (l0 : list sevent) (ss : session) (s : lst) : Prop := mem_inv s ss /\ job_inv l0 s.

Lemma just_wp {X} l0 (c : M lst X) ss s :
  sess_inv l0 ss s -> (job_inv l0 s -> wp c (job_post l0 s) s) -> wp (just c ss) (sess_inv l0) s.
Proof.
  intros [Hm Hj] Hc. unfold just. apply wp_bind. eapply wp_mono; [by apply Hc|].
  intros x s' [Hj' Hf]. apply wp_ret. split; [by eapply mem_inv_frame|done].
Qed.

Lemma mem_wp l0 (c : M lst session) ss s :
  sess_inv l0 ss s -> (mem_inv s ss -> wp c (mem_post s) s) -> wp c (sess_inv l0) s.
Proof.
  intros [Hm Hj] Hc. eapply wp_mono; [by apply Hc|]. intros ss' s' [Hm' Hj']. split; [done|by apply Hj'].
Qed.

Lemma kernel_free_wp l0 s kernel : job_inv l0 s -> wp (strela_kernel_free kernel) (job_post l0 s) s.
Proof.
  intros Hj. unfold strela_kernel_free. apply wp_bind.
  apply (wp_mono _ (job_post l0 s)).
  - apply wp_when_ok; intros _; [|by split]. apply wp_if; intros _; [|by apply wp_ret].
    apply wp_update_dev. apply (job_post_errnum l0 s s). by split.
  - intros x s' Hp. by apply wp_when_ok; intros _; [apply wp_ret|].
Qed.

Lemma reset_err_wp l0 s : job_inv l0 s -> wp strela_dev_reset_err (job_post l0 s) s.
Proof.
  intros Hj. unfold strela_dev_reset_err. apply wp_bind, wp_dev. apply wp_if; intros _; [|by apply wp_ret].
  apply wp_update_dev. apply (job_post_errnum l0 s s). by split.
Qed.

Lemma api_do_wp l0 ss s o :
  log_ok l0 -> sess_inv l0 ss s -> api_op_ok o -> wp (api_do ss o) (sess_inv l0) s.
Proof.
  intros Hl Hi Hok. destruct o; cbn [api_do].
  - eapply mem_wp; [done|]. intros. by apply kernel_alloc_wp.
  - eapply mem_wp; [done|]. intros. by apply kernel_set_wp.
  - eapply just_wp; [done|]. intros. by apply kernel_free_wp.
  - eapply mem_wp; [done|]. intros. by apply kernel_free_all_wp.
  - eapply mem_wp; [done|]. intros. by apply buffer_alloc_wp.
  - eapply mem_wp; [done|]. intros. by apply buffer_set_wp.
  - eapply mem_wp; [done|]. intros. by apply buffer_free_wp.
  - eapply mem_wp; [done|]. intros. by apply buffer_free_all_wp.
  - eapply mem_wp; [done|]. intros. by apply do_sync_wp.
  - eapply mem_wp; [done|]. intros. by apply do_sync_wp.
  - eapply just_wp; [done|]. intros. by apply job_config_wp.
  - eapply just_wp; [done|]. intros. by apply job_submit_wp.
  - eapply just_wp; [done|]. intros. by apply job_poll_wp.
  - eapply just_wp; [done|]. intros. by apply job_wait_wp.
  - eapply just_wp; [done|]. intros. by apply job_fd_wp.
  - eapply just_wp; [done|]. intros. by apply job_free_wp.
  - eapply just_wp; [done|]. intros. eapply wp_mono; [by apply job_free_all_wp|]. by intros x s' [? _].
  - eapply just_wp; [done|]. intros. by apply old_config_wp.
  - eapply just_wp; [done|]. intros. by apply reset_err_wp.
  - destruct Hi as [Hm Hj]. apply wp_bind. eapply wp_mono; [by apply (reinit_wp l0 s ss)|].
    intros x s' (_ & Hm' & Hj' & _). apply wp_ret. by split.
Qed.

Lemma api_run_wp l0 ss s os :
  log_ok l0 -> sess_inv l0 ss s -> Forall api_op_ok os -> wp (api_run ss os) (sess_inv l0) s.
Proof.
  intros Hl Hi Hos. revert ss s Hi. induction Hos as [|o os Ho _ IH]; intros ss s Hi; cbn [api_run].
  { by apply wp_ret. }
  apply wp_bind. eapply wp_mono; [by apply api_do_wp|]. intros ss' s' Hi'. by apply IH.
Qed.

(** ** Consequences of the invariant *)
Definition buf_apart (b b' : strela_buffer) : Prop :=
  b_offset_words b + b_size_words b <= b_offset_words b'
  \/ b_offset_words b' + b_size_words b' <= b_offset_words b.

Lemma bufs_apart s ss i j b b' d d' :
  mem_inv s ss -> i <> j -> ss_bufs ss !! i = Some (b, d) -> ss_bufs ss !! j = Some (b', d') -> buf_apart b b'.
Proof.
  intros Hm Hij Hi Hj. destruct (mi_fl _ _ Hm) as [B Hcl].
  pose proof (live_disjoint _ _ _ _ _ i j _ _ Hcl Hij
    (live_lookup (d_tensors_bo_map (ls_dev s)) _ _ _ _ Hi) (live_lookup _ _ _ _ _ Hj)) as H.
  unfold buf_apart. cbn in H. unfold sizeof_word in H. lia.
Qed.

Lemma kernels_distinct s ss i j k k' :
  mem_inv s ss -> i <> j -> ss_kernels ss !! i = Some k -> ss_kernels ss !! j = Some k' -> k.1 <> k'.1.
Proof.
  intros Hm Hij Hi Hj He. destruct (mi_pool _ _ Hm) as [F Hr]. destruct k as [h d].
  destruct (kernel_lookup _ _ _ _ _ _ Hm Hr Hi) as (_ & _ & Ho). apply (Ho j k'); [done|done|].
  unfold kernel_addr. by rewrite <- He.
Qed.
(** What the client may rely on: its buffers start at cache lines, are inside
    the tensor memory and do not overlap, its kernels are distinct, and reading
    a buffer gives back what was written to it last. *)
Definition session_good (ss : session) (s : lst) : Prop :=
  (forall i b d, ss_bufs ss !! i = Some (b, d) ->
     b_valid b = true /\ 0 <= b_offset_words b /\ b_offset_words b mod CACHELINE_WORDS = 0
     /\ (b_offset_words b + b_size_words b) * sizeof_word <= STRELA_TENSOR_MEMORY_SIZE)
  /\ (forall i j b b' d d', i <> j -> ss_bufs ss !! i = Some (b, d) -> ss_bufs ss !! j = Some (b', d') ->
     buf_apart b b')
  /\ (forall i j k k', i <> j -> ss_kernels ss !! i = Some k -> ss_kernels ss !! j = Some k' -> k.1 <> k'.1)
  /\ (forall i k, ss_kernels ss !! i = Some k ->
     0 <= k.1 < 128 /\ read_bytes (ls_mem s) (kernel_addr (d_kernels_bo_map (ls_dev s)) k) (length k.2) = k.2)
  /\ (strela_dev_ok (ls_dev s) = true -> forall i b d, ss_bufs ss !! i = Some (b, d) ->
     exists bytes, strela_buffer_get_data b s = Ok (Some bytes, s)
       /\ Z.of_nat (length bytes) = b_size_words b * sizeof_word /\ take (length d) bytes = d).

Lemma mem_inv_good s ss : mem_inv s ss -> session_good ss s.
Proof.
  intros Hm. split; [|split; [|split; [|split]]].
  - intros i b d Hb. destruct (buf_bounds _ _ _ _ _ Hm Hb) as (? & ? & ? & ? & ? & _). by split_and!.
  - intros i j b b' d d' Hij Hi Hj. by eapply (bufs_apart s ss i j).
  - intros i j k k' Hij Hi Hj. by eapply (kernels_distinct s ss i j).
  - intros i k Hk. pose proof (mi_kerns _ _ Hm) as HF. rewrite Forall_lookup in HF.
    by destruct (HF _ _ Hk) as (? & _ & ?).
  - intros Hok i b d Hb. by eapply buffer_get_ok.
Qed.

Lemma session_run_wp s which os :
  d_initialized (ls_dev s) = false -> log_ok (ls_log s) -> which < STRELA_DEVICE_MAX -> Forall api_op_ok os ->
  wp (session_run which os) (fun ss s' =>
    (ss = mkSess [] [] /\ not_opened s s') \/ sess_inv (ls_log s) ss s') s.
Proof.
  intros Hi Hl Hw Hos. unfold session_run. apply wp_bind. eapply wp_mono; [by apply dev_init_wp|].
  intros u s1 [Hn|(He & Hm & Hj & _)]; apply wp_bind, wp_dev.
  - assert (Hok : strela_dev_ok (ls_dev s1) = false) by (unfold strela_dev_ok; by rewrite (proj1 Hn)).
    rewrite Hok. apply wp_ret. by left.
  - rewrite (ok_of _ (ji_init _ _ Hj) He). eapply wp_mono; [by apply (api_run_wp (ls_log s))|].
    intros ss s2 Hs. by right.
Qed.

(** C7: A client of the library is safe. Starting from a device that is not
    open, opening it and making any sequence of the calls of [api_op] (every
    function on kernels, buffers and jobs but [strela_execute] and the two on
    pointers, with valid and invalid job handles, through errors and resets)
    returns: no assertion fails, nothing is aborted, and no access leaves the
    mapped memory. If the device opened, the client's buffers are
    cache-aligned, inside the tensor memory and disjoint, its kernels distinct,
    and both still hold what the client wrote to them last. This is for buffer
    requests whose byte count does not wrap ([words_ok]; [buffer_alloc_huge]
    is one that does), in a process where no signal interrupts the endless
    waits of [strela_job_slot_finish] ([Undisturbed]; it aborts otherwise) and
    where a fence export right after a close succeeds ([HE];
    [resubmit_double_close] is a run where it fails). *)
Theorem session_safe s which os :
  d_initialized (ls_dev s) = false -> log_ok (ls_log s) -> which < STRELA_DEVICE_MAX -> Forall api_op_ok os ->
  exists ss s', session_run which os s = Ok (ss, s')
    /\ (not_opened s s' \/ session_good ss s').
Proof.
  intros Hi Hl Hw Hos. destruct (session_run_wp s which os Hi Hl Hw Hos) as (ss & s' & He & Hr).
  exists ss, s'. split; [done|]. destruct Hr as [[_ Hn]|[Hm _]]; [by left|right]. by apply mem_inv_good.
Qed.

(** C8: A session leaks nothing. Opening a device, making any sequence of the
    calls of [api_op], clearing the error and closing it returns, and then every
    file descriptor, sync object, mapping and directory stream that was acquired
    on the way was given back exactly once; the device is as it was before the
    first open. The conditions are those of a safe session: buffer requests
    that do not wrap ([words_ok]), no signal during an endless wait
    ([Undisturbed]), and an export right after a close that succeeds ([HE]):
    without it the descriptor of a job that is submitted again is closed twice
    ([resubmit_double_close]). *)
Theorem session_balanced s which os :
  d_initialized (ls_dev s) = false -> log_ok (ls_log s) -> which < STRELA_DEVICE_MAX -> Forall api_op_ok os ->
  exists s', session_full which os s = Ok (tt, s')
    /\ same_counts (ls_log s) (ls_log s') /\ ls_dev s' = dev0.
Proof.
  intros Hi Hl Hw Hos.
  assert (Hwp : wp (session_full which os) (fun _ s' => ls_dev s' = dev0 /\ same_counts (ls_log s) (ls_log s')) s).
  { unfold session_full. apply wp_bind. eapply wp_mono; [by apply session_run_wp|].
    intros ss s1 [[_ Hn]|[Hm Hj]].
    - destruct Hn as (Hn & _ & Hc & _). unfold strela_dev_reset_err, strela_dev_deinit.
      apply wp_bind, wp_bind, wp_dev. rewrite Hn. apply wp_ret, wp_bind, wp_dev. rewrite Hn.
      apply wp_bind, wp_ret, wp_update_dev. by split.
    - apply wp_bind. unfold strela_dev_reset_err. apply wp_bind, wp_dev. rewrite (ji_init _ _ Hj).
      apply wp_update_dev. apply (dev_deinit_wp _ _ ss); [done|by apply mem_inv_errnum|by apply job_inv_errnum|by left]. }
  destruct Hwp as ([] & s' & He & H1 & H2). eauto.
Qed.
End Session.
