(* ===== verification/LibDemo.v ===== *)
(** * An operating system for the library

    A concrete operating system that keeps [SysLaws] and [Undisturbed], with one STRELA device:
    descriptors and handles are numbered by the calls made so far, mappings
    are placed above those that exist. It shows that what the properties of
    the library assume can hold. *)
From S2P Require Export LibSession.

Definition page_up (x : Z) : Z := (x + 4095) / 4096 * 4096.

Fixpoint top (ms : list (Z * Z)) : Z :=
  match ms with
  | [] => 4096
  | r :: ms => Z.max (page_up (r.1 + r.2)) (top ms)
  end.

(** [exports l] decides whether the next fence can be exported. *)
Definition demo_sys (exports : list sevent -> bool) (l : list sevent) (c : syscall) : Z + Z * Z :=
  let fresh := 3 + Z.of_nat (length l) in
  match c with
  | SC_openat _ | SC_syncobj_create _ | SC_gem_new _ _ => inr (fresh, 0)
  | SC_handle_to_fd _ _ => if exports l then inr (fresh, 0) else inl 24
  | SC_mmap _ size _ => if top (mapped l) + size <? 2 ^ 31 then inr (top (mapped l), 0) else inl 12
  | SC_poll fd _ => inr (if fd <? 0 then 0 else 1, 0)
  | SC_file_info _ => inr (1, 0)
  | _ => inr (0, 0)
  end.

(** The names "." and "accel0". *)
Definition demo (exports : list sevent -> bool) : Sys := {|
  sys := demo_sys exports;
  sys_listing := fun _ => ([[46]; [97; 99; 99; 101; 108; 48]], 0);
  sys_drm_name := fun _ _ => STRELA_DRM_NAME
|}.

Lemma page_up_bounds x : x <= page_up x /\ page_up x mod 4096 = 0.
Proof.
  unfold page_up. split; [|apply Z_mod_mult].
  pose proof (Z.div_mod (x + 4095) 4096). pose proof (Z.mod_pos_bound (x + 4095) 4096). lia.
Qed.

Lemma top_ok ms : 4096 <= top ms /\ top ms mod 4096 = 0 /\ Forall (fun r => r.1 + r.2 <= top ms) ms.
Proof.
  induction ms as [|r ms (H1 & H2 & H3)]; cbn [top]; [by split_and!|].
  destruct (page_up_bounds (r.1 + r.2)) as [H4 H5]. split_and!; [lia| |].
  - by destruct (Z.max_spec (page_up (r.1 + r.2)) (top ms)) as [[_ ->]|[_ ->]].
  - constructor; [lia|]. eapply Forall_impl; [exact H3|]. cbn. lia.
Qed.

#[export] Instance demo_laws `{A : abi} exports : SysLaws (demo exports).
Proof.
  split; cbn [sys demo].
  - intros l c e. unfold demo_sys. destruct c; try done.
    + destruct (_ <? _); [done|]. intros. simplify_eq. lia.
    + destruct (exports l); [done|]. intros. simplify_eq. lia.
  - intros l name fd y. cbn. intros. simplify_eq. lia.
  - intros l dfd h fd y. cbn. destruct (exports l); [|done]. intros. simplify_eq. lia.
  - intros l dfd h y. cbn. intros. simplify_eq. lia.
  - intros l fd size off a y. cbn -[Z.pow]. destruct (Z.ltb_spec (top (mapped l) + size) (2 ^ 31)); [|done].
    intros. simplify_eq. destruct (top_ok (mapped l)) as (H1 & H2 & H3). pose proof ptr_max_pos.
    split_and!; [done|lia|lia|]. eapply Forall_impl; [exact H3|]. intros r Hr. right. cbn in *. lia.
  - intros. by eexists.
  - intros. by eexists.
  - intros. by eexists.
  - intros l fd t n y Hfd. cbn. rewrite (proj2 (Z.ltb_lt _ _) Hfd). intros. by simplify_eq.
Qed.

#[export] Instance demo_undisturbed exports : Undisturbed (demo exports).
Proof. split; intros; by eexists. Qed.

(** The state before the first call. *)
Definition demo_start : lst := mkL dev0 (Mem [] ∅) [].

Lemma demo_start_ok : d_initialized (ls_dev demo_start) = false /\ log_ok (ls_log demo_start).
Proof. by split; [|split]. Qed.

(** A first export fails after 20 calls; a descriptor that was closed
    just before can be used. *)
Definition demo_limit (l : list sevent) : bool :=
  match l with
  | Sev (SC_close _) (inr _) :: _ => true
  | _ => Z.of_nat (length l) <? 20
  end.

Lemma demo_exports l fd r dfd h :
  exists r', sys (Sys := demo demo_limit) (Sev (SC_close fd) (inr r) :: l) (SC_handle_to_fd dfd h) = inr r'.
Proof. by eexists. Qed.
