(* ===== verification/LibFind.v ===== *)
(** * Counting and finding devices

    [strela_dev_count] and the search of [strela_dev_init] are two loops over
    /dev/accel. On a system whose directory does not change they agree: the
    devices that can be opened are numbered from 0 up to the count. *)
From S2P Require Export LibDemo.

Section Find.
Context `{A : abi} `{OS : Sys} `{HL : !SysLaws OS}.

(** The entries of /dev/accel and the errno at its end; for each name the
    driver behind it, when it can be opened. *)
Context (names : list (list Z)) (e : Z) (kind : list Z -> option (list Z)).

(** Opening a name succeeds or fails in the same way every time. *)
Definition opens (l : list sevent) (n : list Z) : Prop :=
  match kind n with
  | Some drv => exists fd z r, sys l (SC_openat n) = inr (fd, z)
      /\ sys (Sev (SC_openat n) (inr (fd, z)) :: l) (SC_version fd) = inr r
      /\ sys_drm_name (Sev (SC_openat n) (inr (fd, z)) :: l) fd = drv
  | None => forall fd z, sys l (SC_openat n) = inr (fd, z) ->
      exists er, sys (Sev (SC_openat n) (inr (fd, z)) :: l) (SC_version fd) = inl er
  end.

Record steady : Prop := {
  st_dir : forall l, exists r, sys l SC_opendir = inr r;
  st_list : forall l, sys_listing l = (names, e);
  st_open : forall l n, opens l n
}.

Context (HS : steady).

Definition visible (ns : list (list Z)) : list (list Z) := filter (fun n => head n <> Some 46) ns.

Definition is_strela (n : list Z) : Prop :=
  (fun drv => cstring (take (sizeof_drm_name - 1) drv)) <$> kind n = Some STRELA_DRM_NAME.

#[local] Instance is_strela_dec n : Decision (is_strela n).
Proof. unfold is_strela. apply _. Defined.

(** The devices, in the order of the directory. *)
Definition strelas (ns : list (list Z)) : list (list Z) := filter is_strela ns.

Lemma openat_kind n s :
  wp (accel_openat n) (fun r _ =>
    match kind n with
    | Some drv => 0 <= r.1 /\ r.2 = cstring (take (sizeof_drm_name - 1) drv)
        /\ exists l z, sys l (SC_openat n) = inr (r.1, z)
    | None => r.1 = -1
    end) s.
Proof.
  unfold accel_openat. apply wp_bind, wp_sys. pose proof (st_open HS (ls_log s) n) as Hk. unfold opens in Hk.
  destruct (kind n) as [drv|].
  - destruct Hk as (fd & z & r & Ho & Hv & Hn). rewrite Ho. apply wp_bind. eexists _, _. split; [reflexivity|].
    apply wp_bind, wp_sys. cbn [ls_log lst_add]. rewrite Hv. apply wp_ret. cbn. rewrite Hn.
    split_and!; [by eapply law_openat|done|eauto].
  - destruct (sys (ls_log s) (SC_openat n)) as [er|[fd z]] eqn:Ho; [by apply wp_ret|].
    destruct (Hk _ _ eq_refl) as [er Hv]. apply wp_bind. eexists _, _. split; [reflexivity|].
    apply wp_bind, wp_sys. cbn [ls_log lst_add]. rewrite Hv. apply wp_bind, wp_sys. by apply wp_ret.
Qed.

(** The iterator stands at the first of the names [vis] that are left. *)
Definition it_at (it : accel_iter) (vis : list (list Z)) : Prop :=
  (it_valid it = false /\ it_errno it = e /\ vis = [])
  \/ exists rest, it_valid it = true /\ it_dir it = Some (rest, e) /\ vis = it_name it :: visible rest.

Lemma next_at rest it s :
  it_dir it = Some (rest, e) ->
  wp (accel_iter_next it) (fun it' _ => it_at it' (visible rest)
    /\ (it_valid it' = true -> (entries_left it' <= length rest)%nat)) s.
Proof.
  intros Hd. unfold accel_iter_next. rewrite Hd. clear Hd. induction rest as [|n rest IH]; cbn [next_name].
  - unfold accel_iter_close. cbn. apply wp_bind, wp_sys, wp_ret. split; [by left|done].
  - unfold visible. rewrite filter_cons. destruct (decide (head n = Some 46)) as [Hh|Hh].
    + rewrite bool_decide_true, decide_False by tauto. eapply wp_mono; [apply IH|]. intros it' s' [H1 H2].
      split; [done|]. intros Hv. specialize (H2 Hv). cbn. lia.
    + rewrite bool_decide_false, decide_True by done. apply wp_ret. split; [right; by exists rest|]. cbn. lia.
Qed.

Lemma make_at s : wp accel_iter_make (fun it _ => it_at it (visible names)) s.
Proof.
  unfold accel_iter_make. apply wp_bind. exists s, s. split; [done|]. apply wp_bind, wp_sys.
  destruct (st_dir HS (ls_log s)) as [r Hr]. rewrite Hr, (st_list HS).
  eapply wp_mono; [by apply (next_at names)|]. by intros it' s' [? _].
Qed.

(** Whether the loop's name test succeeds. *)
Lemma name_test n drv : kind n = Some drv ->
  bool_decide (STRELA_DRM_NAME = cstring (take (sizeof_drm_name - 1) drv)) = bool_decide (is_strela n).
Proof. intros Hk. apply bool_decide_ext. unfold is_strela. rewrite Hk. cbn. split; congruence. Qed.

Definition found (n : list Z) : Z := if decide (is_strela n) then 1 else 0.

Lemma strelas_cons n ns : Z.of_nat (length (strelas (n :: ns))) = found n + Z.of_nat (length (strelas ns)).
Proof. unfold strelas, found. rewrite filter_cons. case_decide; cbn [length]; lia. Qed.

Lemma count_loop_val fuel it vis count s :
  it_at it vis -> (it_valid it = true -> (entries_left it <= fuel)%nat) -> 0 <= count ->
  count + Z.of_nat (length vis) < 2 ^ 32 ->
  wp (count_loop fuel it count)
     (fun r _ => it_errno r.1 = e /\ r.2 = count + Z.of_nat (length (strelas vis))) s.
Proof.
  revert it vis count s. induction fuel as [|fuel IH]; intros it vis count s Hat Hf H0 Hov.
  { destruct Hat as [(Hv & He & ->)|(rest & Hv & Hd & _)].
    - cbn. rewrite Hv. apply wp_ret. cbn. split; [done|lia].
    - specialize (Hf Hv). unfold entries_left in Hf. rewrite Hd in Hf. lia. }
  cbn [count_loop]. destruct Hat as [(Hv & He & ->)|(rest & Hv & Hd & ->)]; rewrite Hv; cbn [negb].
  { apply wp_ret. cbn. split; [done|lia]. }
  specialize (Hf Hv). unfold entries_left in Hf. rewrite Hd in Hf. cbn [length] in Hov.
  assert (Hrec : forall c s1, c = count + found (it_name it) -> wp (let! it := accel_iter_next it in count_loop fuel it c)
    (fun r _ => it_errno r.1 = e /\ r.2 = count + Z.of_nat (length (strelas (it_name it :: visible rest)))) s1).
  { intros c s1 ->. apply wp_bind. eapply wp_mono; [by apply (next_at rest)|]. intros it' s2 [Hat Hle].
    eapply wp_mono; [apply IH; [exact Hat|intros Hv'; specialize (Hle Hv'); lia|unfold found; case_decide; lia|]|].
    - unfold found; case_decide; lia.
    - intros [it2 c2] _ [H1 H2]. split; [exact H1|]. cbn [snd] in *. rewrite H2, strelas_cons. lia. }
  apply wp_bind. eapply wp_mono; [apply openat_kind|]. intros [fd nm] s1 Hk. cbn [fst snd] in Hk.
  destruct (kind (it_name it)) as [drv|] eqn:Ek.
  - destruct Hk as (Hfd & -> & _). rewrite (proj2 (Z.eqb_neq fd (-1))) by lia. cbn [negb].
    apply wp_bind, wp_bind, wp_sys, wp_ret, Hrec. rewrite (name_test _ _ Ek). unfold found.
    case_decide; [rewrite bool_decide_true by done; apply wrap_small; lia|rewrite bool_decide_false by done; lia].
  - rewrite Hk. cbn [negb Z.eqb Pos.eqb]. apply wp_bind, wp_ret, Hrec. unfold found.
    rewrite decide_False; [lia|]. unfold is_strela. by rewrite Ek.
Qed.

(** The device the search answers: the first after [which - count] others. *)
Definition opened (vis : list (list Z)) (k fd : Z) : Prop :=
  match strelas vis !! Z.to_nat k with
  | Some n => 0 <= fd /\ exists l z, sys l (SC_openat n) = inr (fd, z)
  | None => fd = -1
  end.

Lemma find_loop_val fuel which it vis count s :
  it_at it vis -> (it_valid it = true -> (entries_left it <= fuel)%nat) -> 0 <= count <= which ->
  count + Z.of_nat (length vis) < 2 ^ 32 ->
  wp (find_loop fuel which it count) (fun fd _ => opened vis (which - count) fd) s.
Proof.
  revert it vis count s. induction fuel as [|fuel IH]; intros it vis count s Hat Hf H0 Hov.
  { destruct Hat as [(Hv & He & ->)|(rest & Hv & Hd & _)].
    - cbn. rewrite Hv. by apply wp_ret.
    - specialize (Hf Hv). unfold entries_left in Hf. rewrite Hd in Hf. lia. }
  cbn [find_loop]. destruct Hat as [(Hv & He & ->)|(rest & Hv & Hd & ->)]; rewrite Hv; cbn [negb].
  { by apply wp_ret. }
  specialize (Hf Hv). unfold entries_left in Hf. rewrite Hd in Hf. cbn [length] in Hov.
  assert (Hrec : forall c s1, c = count + found (it_name it) -> c <= which ->
    wp (let! it := accel_iter_next it in find_loop fuel which it c)
       (fun fd _ => opened (it_name it :: visible rest) (which - count) fd) s1).
  { intros c s1 -> Hc. apply wp_bind. eapply wp_mono; [by apply (next_at rest)|]. intros it' s2 [Hat Hle].
    eapply wp_mono; [apply IH; [exact Hat|intros Hv'; specialize (Hle Hv'); lia|unfold found in *; case_decide; lia|]|].
    - unfold found; case_decide; lia.
    - intros fd s3. unfold opened, strelas. rewrite filter_cons. unfold found in *. case_decide; [|by rewrite Z.add_0_r].
      replace (Z.to_nat (which - count)) with (S (Z.to_nat (which - (count + 1)))) by lia. done. }
  apply wp_bind. eapply wp_mono; [apply openat_kind|]. intros [fd nm] s1 Hk. cbn [fst snd] in Hk.
  destruct (kind (it_name it)) as [drv|] eqn:Ek.
  - destruct Hk as (Hfd & -> & Hex). rewrite (proj2 (Z.eqb_neq fd (-1))) by lia. cbn [negb].
    rewrite (name_test _ _ Ek). apply wp_if; intros Hb.
    + apply andb_true_iff in Hb as [Hs Hc]. apply bool_decide_eq_true in Hs. apply Z.eqb_eq in Hc as ->.
      apply wp_bind. unfold accel_iter_close. rewrite Hd. apply wp_bind, wp_sys, wp_ret, wp_ret.
      unfold opened, strelas. rewrite Z.sub_diag, filter_cons, decide_True by done. done.
    + apply wp_bind, wp_sys. unfold found in Hrec. destruct (decide (is_strela (it_name it))) as [Hs|Hs].
      * rewrite bool_decide_true in Hb |- * by done. cbn in Hb. apply Z.eqb_neq in Hb.
        apply Hrec; rewrite wrap_small; lia.
      * rewrite bool_decide_false by done. apply Hrec; lia.
  - rewrite Hk. cbn [negb Z.eqb Pos.eqb]. apply Hrec; [|lia]. unfold found.
    rewrite decide_False; [lia|]. unfold is_strela. by rewrite Ek.
Qed.

Lemma dev_count_val s :
  Z.of_nat (length (visible names)) < 2 ^ 32 ->
  wp strela_dev_count (fun r _ => r = (if e =? 0 then 0 else -1, Z.of_nat (length (strelas (visible names))))) s.
Proof.
  intros Hov. unfold strela_dev_count. apply wp_bind. eapply wp_mono; [apply make_at|]. intros it s1 Hat.
  apply wp_bind. eapply wp_mono; [apply count_loop_val; [exact Hat|lia|lia|lia]|].
  intros [it' c] s2 [H1 H2]. apply wp_ret. cbn in H1, H2. by rewrite H1, H2.
Qed.

Lemma find_device_val which s :
  0 <= which -> Z.of_nat (length (visible names)) < 2 ^ 32 ->
  wp (find_device which) (fun fd _ => opened (visible names) which fd) s.
Proof.
  intros Hw Hov. unfold find_device. apply wp_bind. eapply wp_mono; [apply make_at|]. intros it s1 Hat.
  eapply wp_mono; [apply find_loop_val; [exact Hat|lia|lia|lia]|]. intros fd s2. by rewrite Z.sub_0_r.
Qed.

(** C28: Counting and finding agree. On a directory that does not change,
    [strela_dev_count] answers the number of entries whose driver is STRELA's
    (dot files skipped, files that cannot be opened or queried left out) and
    -1 exactly when reading the directory failed; and for every number, the
    search of [strela_dev_init] opens the device with that number in the order
    of the directory when the number is below the count, and no device
    otherwise. *)
Theorem count_find_agree s s0 which :
  Z.of_nat (length (visible names)) < 2 ^ 32 -> 0 <= which ->
  exists n s' fd s0',
    strela_dev_count s = Ok ((if e =? 0 then 0 else -1, n), s')
    /\ n = Z.of_nat (length (strelas (visible names)))
    /\ find_device which s0 = Ok (fd, s0')
    /\ (which < n -> 0 <= fd /\ exists name l z, strelas (visible names) !! Z.to_nat which = Some name
                                               /\ sys l (SC_openat name) = inr (fd, z))
    /\ (n <= which -> fd = -1).
Proof.
  intros Hov Hw. destruct (dev_count_val s Hov) as (r & s' & He & ->).
  destruct (find_device_val which s0 Hw Hov) as (fd & s0' & Hf & Ho). unfold opened in Ho.
  eexists _, s', fd, s0'. split; [exact He|]. split; [done|]. split; [exact Hf|].
  destruct (strelas (visible names) !! Z.to_nat which) as [name|] eqn:En.
  - apply lookup_lt_Some in En as Hlt. destruct Ho as (H0 & l & z & Hl). split; [eauto 10|lia].
  - apply lookup_ge_None in En. split; [lia|done].
Qed.
End Find.

(** ** Witness: the directory of [LibDemo] *)
Definition demo_names : list (list Z) := [[46]; [97; 99; 99; 101; 108; 48]].

Lemma demo_steady : steady (OS := demo demo_limit) demo_names 0 (fun _ => Some STRELA_DRM_NAME).
Proof. split; [intros l; eexists; reflexivity|done|]. intros l n. do 3 eexists. split_and!; reflexivity. Qed.

Lemma count_find_agree_witness :
  exists s' fd s0', strela_dev_count (OS := demo demo_limit) demo_start = Ok ((0, 1), s')
    /\ find_device (OS := demo demo_limit) 0 demo_start = Ok (fd, s0') /\ 0 <= fd.
Proof.
  destruct (count_find_agree (A := ARMv7) (OS := demo demo_limit) demo_names 0 (fun _ => Some STRELA_DRM_NAME) demo_steady
    demo_start demo_start 0) as (n & s' & fd & s0' & Hc & Hn & Hf & Hlt & _); [reflexivity|lia|].
  assert (n = 1) as -> by (rewrite Hn; vm_compute; reflexivity).
  exists s', fd, s0'. split; [exact Hc|]. split; [exact Hf|]. exact (proj1 (Hlt eq_refl)).
Defined.
