(* ===== verification/LibThms.v ===== *)
(** * What single functions of the library guarantee

    The sticky error, opening a device, handles and pointers, the state of a
    job, and the witnesses of the library's properties. *)
From S2P Require Export LibDemo.

Section Theorems.
Context `{A : abi} `{OS : Sys}.

(** ** The sticky error *)
Lemma slot_get_not_ok s job phases :
  strela_dev_ok (ls_dev s) = false -> strela_job_slot_get job phases s = Ok (None, s).
Proof.
  intros H. unfold strela_job_slot_get, mbind_, dev_, mret_, assert_. rewrite !H. by rewrite bool_decide_false by (by intros []).
Qed.

Lemma config_not_ok s k conf : strela_dev_ok (ls_dev s) = false -> strela_job_config k conf s = Ok (jobh0, s).
Proof.
  intros H. unfold strela_job_config. unfold mbind_ at 1. rewrite (when_not_ok _ _ H). by apply job_config_failed.
Qed.

Lemma submit_not_ok s job : strela_dev_ok (ls_dev s) = false -> strela_job_submit job s = Ok (false, s).
Proof.
  intros H. unfold strela_job_submit, mbind_. rewrite slot_get_not_ok, !(when_not_ok _ _ H) by done.
  unfold dev_, mret_. by rewrite H.
Qed.

Lemma wait_not_ok s job t : strela_dev_ok (ls_dev s) = false -> strela_job_wait job t s = Ok (false, s).
Proof.
  intros H. unfold strela_job_wait, mbind_. rewrite slot_get_not_ok, (when_not_ok _ _ H) by done.
  unfold dev_, mret_. by rewrite H.
Qed.

Lemma poll_not_ok s job : strela_dev_ok (ls_dev s) = false -> strela_job_poll job s = Ok (STRELA_JOB_FAILED, s).
Proof.
  intros H. unfold strela_job_poll, mbind_. rewrite slot_get_not_ok by done. unfold dev_, mret_. by rewrite H.
Qed.

Lemma free_not_ok s job : strela_dev_ok (ls_dev s) = false -> strela_job_free job s = Ok (tt, s).
Proof.
  intros H. unfold strela_job_free, mbind_. rewrite slot_get_not_ok by done. by apply when_not_ok.
Qed.

(** C31: Errors are sticky, as the header promises ("monadic" error handling),
    with the exceptions listed. On a device that is not initialised or has an
    error, every function on kernels, buffers and jobs and [strela_execute]
    answers the neutral value, makes no system call and changes nothing. The
    exceptions: [strela_buffer_inval] may replace the error by BAD_ARG;
    [strela_config] puts the invalid handle in place of the device's job;
    [strela_buffer_to_ptr] stops the process; [strela_dev_reset_err] clears the
    error of an initialised device; and [strela_dev_deinit] does not free the
    jobs but unmaps the memory, closes the descriptor and clears the struct. *)
Theorem sticky_error s :
  strela_dev_ok (ls_dev s) = false ->
  strela_kernel_alloc s = Ok (kernel0, s)
  /\ (forall k data, strela_kernel_set k data s = Ok (tt, s))
  /\ (forall k, strela_kernel_free k s = Ok (tt, s))
  /\ strela_kernel_free_all s = Ok (tt, s)
  /\ (forall w, strela_buffer_alloc w s = Ok (buffer0, s))
  /\ (forall p, strela_buffer_from_ptr p s = Ok (buffer0, s))
  /\ (forall b data, strela_buffer_set_data b data s = Ok (tt, s))
  /\ (forall b, strela_buffer_get_data b s = Ok (None, s))
  /\ (forall b, strela_buffer_free b s = Ok (tt, s))
  /\ strela_buffer_free_all s = Ok (tt, s)
  /\ (forall b off cnt, strela_buffer_flush b off cnt s = Ok (tt, s))
  /\ (forall b off cnt, exists e, strela_buffer_inval b off cnt s = Ok (tt, with_error s e)
                                  /\ (e = d_errnum (ls_dev s) \/ e = - STRELA_ERR_BAD_ARG))
  /\ (forall k conf, strela_job_config k conf s = Ok (jobh0, s))
  /\ (forall j, strela_job_submit j s = Ok (false, s))
  /\ (forall j, strela_job_poll j s = Ok (STRELA_JOB_FAILED, s))
  /\ (forall j t, strela_job_wait j t s = Ok (false, s))
  /\ (forall j, strela_job_fd j s = Ok (-1, s))
  /\ (forall j, strela_job_free j s = Ok (tt, s))
  /\ strela_job_free_all s = Ok (tt, s)
  /\ strela_execute s = Ok (STRELA_JOB_FAILED, s)
  /\ (forall k conf, strela_config k conf s = Ok (tt, lst_set_dev s (dev_set_compat (ls_dev s) jobh0)))
  /\ (forall b, strela_buffer_to_ptr b s = Trap TAssert)
  /\ strela_dev_reset_err s = Ok (tt, if d_initialized (ls_dev s) then with_error s STRELA_ERR_OK else s)
  /\ strela_dev_deinit s
     = (do! (if d_initialized (ls_dev s) then
               strela_dev_deinit_internal (d_tensors_bo_map (ls_dev s)) STRELA_TENSOR_MEMORY_SIZE
                 (d_kernels_bo_map (ls_dev s)) STRELA_KERNEL_MEMORY_SIZE (d_fd (ls_dev s))
             else mret_ tt) in
        update_dev (fun _ => dev0)) s.
Proof.
  intros H. pose proof (fun k => when_not_ok s k H) as Hw.
  assert (Hsync : forall b f off cnt, strela_buffer_sync b f off cnt s = Ok (tt, s)).
  { intros. unfold strela_buffer_sync, mbind_. by rewrite !Hw. }
  split_and!; intros; try apply Hw.
  - unfold strela_kernel_alloc, mbind_, dev_. by rewrite H.
  - unfold strela_kernel_set, mbind_. by rewrite !Hw.
  - unfold strela_kernel_free, mbind_. by rewrite !Hw.
  - unfold strela_buffer_alloc, mbind_, dev_. by rewrite H.
  - unfold strela_buffer_from_ptr, mbind_, dev_. by rewrite H.
  - unfold strela_buffer_get_data, mbind_, dev_. by rewrite H.
  - unfold strela_buffer_flush. by destruct (negb _).
  - unfold strela_buffer_inval, mbind_. destruct (_ || _).
    + exists (- STRELA_ERR_BAD_ARG). split; [|by right]. unfold set_errnum, update_dev, modify_.
      unfold strela_buffer_sync, mbind_. cbn [ls_dev lst_set_dev].
      by rewrite !when_not_ok by (by apply errnum_not_ok).
    + exists (d_errnum (ls_dev s)). split; [|by left]. unfold mret_. rewrite Hsync. by destruct s as [[] ? ?].
  - by apply config_not_ok.
  - by apply submit_not_ok.
  - by apply poll_not_ok.
  - by apply wait_not_ok.
  - unfold strela_job_fd, mbind_. rewrite slot_get_not_ok by done. unfold dev_, mret_. by rewrite H.
  - unfold strela_job_free, mbind_. rewrite slot_get_not_ok by done. apply Hw.
  - unfold strela_execute. unfold mbind_ at 1, dev_ at 1. set (j := d_backward_compat_job _).
    rewrite (mbind_Ok _ _ _ _ _ (submit_not_ok s j H)), (mbind_Ok _ _ _ _ _ (wait_not_ok s j 2000 H)).
    by rewrite (mbind_Ok _ _ _ _ _ (poll_not_ok s j H)).
  - unfold strela_config. unfold mbind_ at 1, dev_ at 1.
    assert (Hf : (if jh_valid (d_backward_compat_job (ls_dev s)) then strela_job_free (d_backward_compat_job (ls_dev s))
                  else mret_ tt) s = Ok (tt, s)) by (destruct (jh_valid _); [by apply free_not_ok|done]).
    rewrite (mbind_Ok _ _ _ _ _ Hf). by rewrite (mbind_Ok _ _ _ _ _ (config_not_ok s _ _ H)).
  - unfold strela_buffer_to_ptr, mbind_, dev_. by rewrite H, orb_true_r.
  - unfold strela_dev_reset_err, mbind_, dev_. by destruct (d_initialized (ls_dev s)).
  - unfold strela_dev_deinit. unfold mbind_ at 1, dev_ at 1. destruct (d_initialized (ls_dev s)); [|done].
    unfold mbind_ at 1 2. unfold strela_job_free_all. rewrite Hw. reflexivity.
Qed.

Context `{HL : !SysLaws OS} `{HU : !Undisturbed OS}.

(** ** Opening a device *)

(** C27: [strela_dev_init] is all or nothing. On a device that is not open it
    always returns. Either the device is initialised without an error, holds
    exactly one descriptor and its two mappings beyond what was held before,
    all slots are free and both allocators are empty; or it is not
    initialised, reports an error, and everything acquired on the way (the
    directory, other devices' descriptors, the first mapping) was given back. *)
Theorem dev_init_all_or_nothing s which :
  d_initialized (ls_dev s) = false -> log_ok (ls_log s) -> which < STRELA_DEVICE_MAX ->
  exists s', strela_dev_init which s = Ok (tt, s')
    /\ ((d_initialized (ls_dev s') = false /\ 0 < d_errnum (ls_dev s')
         /\ same_counts (ls_log s) (ls_log s'))
        \/ (d_initialized (ls_dev s') = true /\ d_errnum (ls_dev s') = 0
            /\ (forall fd, fd_held fd (ls_log s') = fd_held fd (ls_log s) + one (d_fd (ls_dev s')) fd)
            /\ mapped (ls_log s') = (d_tensors_bo_map (ls_dev s'), STRELA_TENSOR_MEMORY_SIZE)
                 :: (d_kernels_bo_map (ls_dev s'), STRELA_KERNEL_MEMORY_SIZE) :: mapped (ls_log s)
            /\ (forall d h, so_held d h (ls_log s') = so_held d h (ls_log s))
            /\ dirs_open (ls_log s') = dirs_open (ls_log s)
            /\ all_free s' /\ mem_inv s' (mkSess [] []))).
Proof.
  intros Hi Hl Hw. destruct (dev_init_wp s which Hi Hl Hw) as ([] & s' & He & Hr). exists s'. split; [done|].
  destruct Hr as [(H1 & H2 & H3 & _)|(H1 & Hm & Hj & Hf)]; [by left|right].
  destruct (all_free_sums _ Hf) as [Hz1 Hz2].
  split_and!; [apply Hj|done|..|exact (ji_maps _ _ Hj)| |exact (ji_dirs _ _ Hj)|done|done].
  - intros fd. rewrite (ji_fds _ _ Hj), Hz1. unfold one. lia.
  - intros d h. rewrite (ji_sos _ _ Hj), Hz2. destruct (_ =? d); lia.
Qed.

Lemma count_loop_wp fuel it count s :
  it_ok it -> (entries_left it <= fuel)%nat ->
  wp (count_loop fuel it count) (fun _ s' => step_by none (- it_open it) s s') s.
Proof.
  revert it count s. induction fuel as [|fuel IH]; intros it count s Hok Hf.
  { unfold entries_left in Hf. destruct (it_dir it) as [[]|]; lia. }
  cbn [count_loop]. destruct (it_valid it) eqn:Hv; cbn [negb].
  2: { apply wp_ret. unfold it_ok in Hok. rewrite Hv in Hok. symmetry in Hok.
       apply bool_decide_eq_false in Hok. unfold it_open. destruct (it_dir it); [by destruct Hok|apply step_by_refl]. }
  apply wp_bind. eapply wp_mono; [apply openat_wp|]. intros [fd name] s1 Hr. cbn [fst] in Hr.
  apply wp_bind. apply (wp_mono _ (fun _ s2 => step_by none 0 s s2)).
  { destruct Hr as [[-> H1]|[Hfd H1]]; [by apply wp_ret|].
    rewrite (proj2 (Z.eqb_neq fd (-1))) by lia. cbn [negb]. apply wp_bind, wp_sys, wp_ret.
    apply (step_by_trans _ _ _ _ none _ _ _ H1 (step_close s1 fd _)). intros x. unfold none. lia. }
  intros c s2 H2. apply wp_bind. eapply wp_mono; [apply iter_next_wp|]. intros it' s3 (Hok' & H3 & Hlt).
  pose proof (step_by_trans _ _ _ _ none _ _ _ H2 H3 ltac:(done)) as H23.
  destruct (it_valid it') eqn:Hv'.
  - eapply wp_mono; [apply IH; [done|specialize (Hlt eq_refl); lia]|]. intros r s4 H4.
    pose proof (step_by_trans _ _ _ _ none _ _ _ H23 H4 ltac:(done)) as H24.
    by replace (- it_open it) with (0 + (it_open it' - it_open it) + - it_open it') by lia.
  - destruct fuel; cbn [count_loop]; rewrite Hv'; apply wp_ret.
    all: unfold it_ok in Hok'; rewrite Hv' in Hok'; symmetry in Hok'; apply bool_decide_eq_false in Hok'.
    all: unfold it_open in H23 at 1; destruct (it_dir it'); [by destruct Hok'|]; exact H23.
Qed.

(** Counting the devices ends and gives everything back. *)
Lemma dev_count_wp s : wp strela_dev_count (fun _ s' => step_by none 0 s s') s.
Proof.
  unfold strela_dev_count. apply wp_bind. eapply wp_mono; [apply iter_make_wp|]. intros it s1 [Hok H1].
  apply wp_bind. eapply wp_mono; [by apply count_loop_wp|]. intros [it' n] s2 H2. apply wp_ret.
  replace 0 with (it_open it + - it_open it) by lia. by apply (step_by_trans _ _ _ _ none _ _ _ H1 H2).
Qed.
(** ** Handles and pointers *)

(** The header before the pointer of a held buffer. *)
Lemma buffer_header s ss i b d :
  mem_inv s ss -> ss_bufs ss !! i = Some (b, d) ->
  let p := d_tensors_bo_map (ls_dev s) + b_offset_words b * sizeof_word in
  sizeof_Header <= p /\ p < d_tensors_bo_map (ls_dev s) + STRELA_TENSOR_MEMORY_SIZE
  /\ word_ok (ls_mem s) (p - sizeof_Header) = true
  /\ word_at (ls_mem s) (p - sizeof_Header) = b_size_words b * sizeof_word.
Proof.
  intros Hm Hb p. destruct (mi_fl _ _ Hm) as [B Hcl].
  destruct (live_block _ _ _ _ _ _ _ Hcl (live_lookup _ _ _ _ _ Hb)) as (L & sz & pad & R & -> & Hp & _).
  destruct Hcl as [[_ _ Hv [Ht Hbl _] _ _ Hh] (_ & Hsz & Hlo) _ _]. cbn [cl_fl lv_ptr buf_live fst] in *.
  fold p in Hp. rewrite Hsz, Hlo in *. set (base := d_tensors_bo_map (ls_dev s)) in *.
  apply Forall_forall with (x := (base + FreeListSpec.total L, sz, b_size_words b * sizeof_word, pad)) in Hh.
  2: { rewrite used_blocks_app. set_solver. }
  destruct Hh as (Hw & _). apply blocks_ok_app in Hbl as [HbL [(_ & _ & _ & Hpad & _ & Hfit & Hal) HbR]].
  apply blocks_ok_total in HbL, HbR. rewrite total_app in Ht. cbn in Ht, Hfit, HbR.
  pose proof (mi_tensors _ _ Hm) as (_ & H4 & _). cbn in H4. fold base in H4. rewrite Hp in *.
  pose proof sizes_abi as (Hpb & Hn & Hhd & _). split_and!; [lia|lia|..].
  - eapply word_ok_sub; [exact Hv|lia|unfold sizeof_Header in *; lia|].
    replace (base + FreeListSpec.total L + pad + sizeof_Header - sizeof_Header)
      with (base + FreeListSpec.total L + pad + sizeof_Header + (-3) * ptr_bytes) by (unfold sizeof_Header; lia).
    apply mod_add_0; [|apply Z_mod_mult].
    eapply mod_0_trans; [lia| |exact Hal]. unfold sizeof_max_align_t, ptr_bytes. destruct A; by exists 4.
  - replace (base + FreeListSpec.total L + pad + sizeof_Header - sizeof_Header) with (base + FreeListSpec.total L + pad) by lia. done.
Qed.

(** Handles and pointers of buffers are the same thing: the pointer of a
    buffer the client holds, turned back into a handle, gives the handle, its
    size included, which is read from the allocator's header. *)
Theorem buffer_ptr_roundtrip s ss i b d :
  mem_inv s ss -> ss_bufs ss !! i = Some (b, d) -> strela_dev_ok (ls_dev s) = true ->
  exists p, strela_buffer_to_ptr b s = Ok (p, s) /\ strela_buffer_from_ptr p s = Ok (b, s).
Proof.
  intros Hm Hb Hok. destruct (buf_bounds _ _ _ _ _ Hm Hb) as (Hv & Ho & Hs & _ & Hend & _ & _).
  destruct (buffer_header _ _ _ _ _ Hm Hb) as (Hh & Hlt & Hw & Hat).
  set (p := d_tensors_bo_map (ls_dev s) + b_offset_words b * sizeof_word) in *.
  destruct (to_ptr_wp s ss i b d (fun x s' => x = p /\ s' = s) Hm Hb Hok) as (x & s' & He & -> & ->); [done|].
  exists p. split; [done|]. destruct (mi_tensors _ _ Hm) as (_ & H4 & Hhi). cbn in H4, Hhi.
  pose proof tensor_size_small. pose proof ptr_max_pos. unfold sizeof_word in Hend.
  unfold strela_buffer_from_ptr, internal_ptr_to_buffer_offset, mbind_, dev_. rewrite Hok. cbn [negb].
  rewrite (wptr_small (_ + STRELA_TENSOR_MEMORY_SIZE)) by lia.
  replace (d_tensors_bo_map (ls_dev s) <=? p) with true by (unfold p, sizeof_word; lia).
  rewrite (proj2 (Z.ltb_lt _ _) Hlt). cbn [andb]. unfold mret_, on_mem, load, hdr_orig_size.
  pose proof sizes_abi as (_ & _ & Hhd & _).
  assert (Hpb : d_tensors_bo_map (ls_dev s) <= p) by (unfold p, sizeof_word; lia).
  rewrite (wptr_small (p - d_tensors_bo_map (ls_dev s))) by lia. rewrite (wptr_small (p - sizeof_Header)) by lia.
  rewrite Hok; cbn [negb]. rewrite Hw, Hat. unfold sizeof_word at 1. rewrite Z_mod_mult. cbn [Z.eqb negb].
  replace (p - d_tensors_bo_map (ls_dev s)) with (b_offset_words b * sizeof_word) by (unfold p; lia).
  rewrite !Z.div_mul by done. destruct b as [v o n]. cbn in Hv |- *. rewrite Hv. by destruct s.
Qed.

(** ** The state of a job *)
Lemma slot_get_ok s job phases x :
  strela_dev_ok (ls_dev s) = true -> jh_valid job = true -> jh_handle job < Z.of_nat STRELA_JOBS_MAX ->
  d_jobs (ls_dev s) !! Z.to_nat (jh_handle job) = Some x -> phase_is_in (sl_phase x) phases = false ->
  strela_job_slot_get job phases s = Ok (Some (Z.to_nat (jh_handle job)), s).
Proof.
  intros Hok Hv Hlt Hx Hph. unfold strela_job_slot_get, get_slot, mbind_, dev_, mret_, assert_.
  rewrite Hok, Hv, (proj2 (Z.leb_gt _ _) Hlt). cbn [negb orb]. rewrite Hx, Hph, Hok.
  by rewrite bool_decide_true by done.
Qed.

(** A job that is done stays done, without asking the system again. *)
Lemma done_final s job x :
  strela_dev_ok (ls_dev s) = true -> jh_valid job = true -> jh_handle job < Z.of_nat STRELA_JOBS_MAX ->
  d_jobs (ls_dev s) !! Z.to_nat (jh_handle job) = Some x -> sl_phase x = STRELA_JOB_DONE ->
  strela_job_poll job s = Ok (if 0 <? sl_status x then STRELA_JOB_OK else STRELA_JOB_FAILED, s)
  /\ (forall t, strela_job_wait job t s = Ok (true, s))
  /\ strela_job_fd job s = Ok (sl_fence_fd x, s).
Proof.
  intros Hok Hv Hlt Hx Hd. assert (Hg : strela_job_slot_get job PHASES_WAIT s = Ok (Some (Z.to_nat (jh_handle job)), s)).
  { eapply slot_get_ok; try done. by rewrite Hd. }
  assert (Hup : forall t, strela_job_update (Z.to_nat (jh_handle job)) t s = Ok (tt, s)).
  { intros t. unfold strela_job_update, get_slot, mbind_, dev_, mret_, assert_. rewrite Hx, Hd.
    by rewrite bool_decide_true by done. }
  split_and!; intros; unfold strela_job_poll, strela_job_wait, strela_job_fd, when_ok, mbind_; rewrite Hg;
    unfold dev_, the_slot, mret_; rewrite ?Hok; cbn [negb]; rewrite ?Hup, ?Hok; cbn [negb];
    unfold get_slot, mbind_, dev_, mret_; rewrite Hx; try done; rewrite Hd, bool_decide_true by done; done.
Qed.

(** What one look at a submitted job can find. *)
Lemma update_inv s i x t s' :
  d_jobs (ls_dev s) !! i = Some x -> sl_phase x = STRELA_JOB_SUBMITTED ->
  strela_job_update i t s = Ok (tt, s') ->
  d_jobs (ls_dev s') !! i = Some x
  \/ exists status z l, d_jobs (ls_dev s') !! i = Some (slot_set_phase (slot_set_status x status) STRELA_JOB_DONE)
       /\ ls_log s' = Sev (SC_file_info (sl_fence_fd x)) (inr (status, z)) :: l.
Proof.
  intros Hx Hph. unfold strela_job_update, get_slot, mbind_, dev_, mret_, assert_, sys_. rewrite Hx, Hph.
  cbn [phase_num]. change (1 <? 2) with true. cbv iota. rewrite bool_decide_false by done.
  unfold mret_. cbv beta iota zeta. destruct (sys (ls_log s) (SC_poll (sl_fence_fd x) t)) as [e|[n z]]; cbv beta iota zeta.
  { unfold set_errnum, update_dev, modify_. destruct (e =? EINTR); cbn [negb]; intros [= <-]; by left. }
  destruct (n =? 0); [intros [= <-]; by left|].
  match goal with |- context [sys ?l (SC_file_info ?f)] => destruct (sys l (SC_file_info f)) as [e|[status w]] end;
    cbv beta iota zeta; intros Hr.
  - unfold set_errnum, update_dev, modify_ in Hr. injection Hr as <-. by left.
  - unfold update_slot, update_dev, modify_ in Hr. injection Hr as <-. right. do 3 eexists.
    split; [|done]. cbn. by rewrite (alter_insert _ _ _ _ Hx), list_lookup_insert_eq by (by apply lookup_lt_Some in Hx).
Qed.

(** C29: The answer about a job is final and comes from its fence. When
    [strela_job_poll] answers that a job succeeded or failed and the device has
    no error afterwards (so the handle was valid), the job's slot is done; the
    answer is "succeeded" exactly when the recorded status is positive; a job
    that was still submitted got that status from the fence's file info just
    now, and one that was done already kept the status it had, without a system
    call; and polling again gives the same answer, waiting returns at once,
    neither with a system call. With an error on the device the answer is
    "failed" whatever the job does ([sticky_error]). *)
Theorem job_result_final l0 s job st s' :
  job_inv l0 s -> strela_job_poll job s = Ok (st, s') -> st <> STRELA_JOB_PENDING ->
  strela_dev_ok (ls_dev s') = true ->
  exists x, d_jobs (ls_dev s') !! Z.to_nat (jh_handle job) = Some x /\ sl_phase x = STRELA_JOB_DONE
    /\ (st = STRELA_JOB_OK <-> 0 < sl_status x)
    /\ (forall y, d_jobs (ls_dev s) !! Z.to_nat (jh_handle job) = Some y -> sl_phase y = STRELA_JOB_SUBMITTED ->
         exists z l, ls_log s' = Sev (SC_file_info (sl_fence_fd y)) (inr (sl_status x, z)) :: l)
    /\ (forall y, d_jobs (ls_dev s) !! Z.to_nat (jh_handle job) = Some y -> sl_phase y = STRELA_JOB_DONE ->
         x = y /\ s' = s)
    /\ strela_job_poll job s' = Ok (st, s')
    /\ (forall t, strela_job_wait job t s' = Ok (true, s')).
Proof.
  intros Hj He Hst Hok'. unfold strela_job_poll in He. apply mbind_inv in He as (slot & s1 & Hg & He).
  pose proof (slot_get_wp l0 s job PHASES_WAIT Hj) as (slot' & s1' & Hg' & Hpost). rewrite Hg in Hg'. injection Hg' as <- <-.
  unfold mbind_ at 1, dev_ at 1 in He. destruct slot as [i|].
  2: { destruct Hpost as [_ Hno]. rewrite Hno in He. cbn in He. unfold mret_ in He. simplify_eq. congruence. }
  destruct Hpost as [_ (-> & Hok & Hlt & Hjob & x & Hx & Hph)]. rewrite Hok in He. cbn [negb the_slot] in He.
  rewrite mbind_ret in He. apply mbind_inv in He as ([] & s2 & Hup & He).
  apply mbind_inv in He as (y & s3 & Hgs & He). unfold mret_ in He. injection He as Hst' ->.
  unfold get_slot, mbind_, dev_, mret_ in Hgs. destruct (d_jobs (ls_dev s2) !! i) as [y'|] eqn:Hy; [|done].
  injection Hgs as -> ->. destruct (bool_decide (sl_phase y = STRELA_JOB_DONE)) eqn:Hd; cbn [negb] in Hst'; [|congruence].
  apply bool_decide_eq_true in Hd.
  destruct Hjob as (Hv & Hh & ->). exists y. split; [done|]. split; [done|]. split.
  { destruct (Z.ltb_spec 0 (sl_status y)); rewrite <- Hst'; (split; [done || lia|]); intros; done || lia. }
  split.
  - intros y0 Hy0 Hsub. rewrite Hx in Hy0. injection Hy0 as ->.
    destruct (update_inv _ _ _ _ _ Hx Hsub Hup) as [Hs|(status & z & l & Hs & Hlog)].
    + rewrite Hs in Hy. simplify_eq. congruence.
    + rewrite Hs in Hy. simplify_eq. eauto.
  - split.
    { intros y0 Hy0 Hdone. rewrite Hx in Hy0. injection Hy0 as ->. unfold strela_job_update, get_slot, mbind_, dev_, mret_, assert_ in Hup.
      rewrite Hx, Hdone in Hup. cbn [phase_num] in Hup. rewrite bool_decide_true in Hup by done.
      change (1 <? 3) with true in Hup. unfold mret_ in Hup. injection Hup as <-. by rewrite Hx in Hy; injection Hy as <-. }
    destruct (done_final _ job y Hok' Hv Hh Hy Hd) as (-> & Hw & _). by rewrite Hst'.
Qed.
End Theorems.
