(* ===== verification/LibLines.v ===== *)
(** * Cache maintenance leaves neighbours alone

    The tensor memory is not coherent, and the allocator keeps its headers and
    free-list nodes in it. The design (include/strela.h, DESIGN.md) is that no
    flush or invalidate of the library reaches a cache line that holds any of
    them or another buffer's data. *)
From S2P Require Export LibThms.

(** Where the allocator's metadata is: the header in front of the data of each
    block in use, the node at the start of each free block. *)
Definition metadata `{A : abi} (lo : Z) (B : list FreeListSpec.block) : list (Z * Z) :=
  ((fun u : Z * Z * Z * Z => (u.1.1.1 + u.2, sizeof_Header)) <$> used_blocks lo B)
  ++ ((fun n : Z * Z => (n.1, sizeof_Free_List_Node)) <$> free_nodes lo B).

Section Lines.
Context `{A : abi} `{OS : Sys}.

(** Data of a block in use is apart from all metadata. *)
Lemma metadata_apart lo B u r :
  blocks_ok lo B -> u ∈ used_blocks lo B -> (payload u).1 <= r.1 -> 0 <= r.2 -> r.1 + r.2 <= (payload u).1 + (payload u).2 ->
  Forall (apart r) (metadata lo B).
Proof.
  intros Hb Hu H1 H2 H3. pose proof (payload_in_block _ _ _ Hb Hu) as Hp.
  apply list_elem_of_lookup in Hu as [i Hi]. destruct u as [[[a s] o] p]. cbn in Hp, H1, H3.
  apply Forall_app. split; apply Forall_fmap, Forall_forall.
  - intros u' Hu'. pose proof (payload_in_block _ _ _ Hb Hu') as Hp'. apply list_elem_of_lookup in Hu' as [j Hj].
    destruct u' as [[[a' s'] o'] p']. unfold compose, apart. cbn in *. destruct (decide (i = j)) as [->|Hne].
    + simplify_eq. lia.
    + destruct (used_used_disjoint _ _ _ _ _ _ _ _ _ _ _ _ Hb Hne Hi Hj); lia.
  - intros n Hn. pose proof (free_used_disjoint _ _ Hb) as HD. rewrite Forall_forall in HD. specialize (HD n Hn).
    rewrite Forall_forall in HD. specialize (HD _ (list_elem_of_lookup_2 _ _ _ Hi)). cbn in HD.
    pose proof (free_nodes_in _ _ Hb) as HF. rewrite Forall_forall in HF. specialize (HF n Hn). unfold compose, apart. cbn.
    unfold node_in in HF. lia.
Qed.

(** The row of blocks behind a buffer the client holds. *)
Lemma buffer_block s ss i b d :
  mem_inv s ss -> ss_bufs ss !! i = Some (b, d) ->
  exists B u, rep (d_buffer_free_list (ls_dev s)) (ls_mem s) B /\ fl_data (d_buffer_free_list (ls_dev s)) = d_tensors_bo_map (ls_dev s)
    /\ blocks_ok (d_tensors_bo_map (ls_dev s)) B /\ u ∈ used_blocks (d_tensors_bo_map (ls_dev s)) B
    /\ payload u = (d_tensors_bo_map (ls_dev s) + b_offset_words b * sizeof_word, b_size_words b * sizeof_word).
Proof.
  intros Hm Hb. destruct (mi_fl _ _ Hm) as [B Hcl].
  destruct (live_block _ _ _ _ _ _ _ Hcl (live_lookup _ _ _ _ _ Hb)) as (L & sz & pad & R & -> & Hp & _).
  destruct Hcl as [Hr (_ & _ & Hlo) _ _]. cbn [cl_fl] in *. pose proof (rep_wf _ _ _ Hr) as [_ Hbl _].
  set (base := d_tensors_bo_map (ls_dev s)) in *. rewrite Hlo in *. cbn [lv_ptr lv_size buf_live fst] in Hp.
  exists (L ++ Used sz (b_size_words b * sizeof_word) pad :: R), (base + FreeListSpec.total L, sz, b_size_words b * sizeof_word, pad).
  split; [exact Hr|]. split; [done|]. split; [done|]. split; [rewrite used_blocks_app; set_solver|].
  unfold payload. cbn. by rewrite <- Hp.
Qed.

(** What a call of the library on a buffer does: at most the error changes, and
    it asks the driver for nothing, or for one sync of whole lines of the
    buffer's own data. *)
Definition line_sync (flags : Z) (s : lst) (b : strela_buffer) (s' : lst) : Prop :=
  ls_mem s' = ls_mem s /\ (exists e, ls_dev s' = dev_set_errnum (ls_dev s) e)
  /\ (ls_log s' = ls_log s
  \/ exists args r, ls_log s' = Sev (SC_gem_sync (d_fd (ls_dev s)) args) r :: ls_log s
       /\ gs_flags args = flags /\ gs_handle args = d_tensors_bo_handle (ls_dev s)
       /\ gs_offset args mod CACHELINE_SIZE = 0 /\ gs_length args mod CACHELINE_SIZE = 0 /\ 0 < gs_length args
       /\ b_offset_words b * sizeof_word <= gs_offset args
       /\ gs_offset args + gs_length args <= (b_offset_words b + b_size_words b) * sizeof_word).

Lemma set_errnum_eta d : d = dev_set_errnum d (d_errnum d).
Proof. by destruct d. Qed.

Lemma line_sync_none flags s b s' :
  ls_mem s' = ls_mem s -> (exists e, ls_dev s' = dev_set_errnum (ls_dev s) e) -> ls_log s' = ls_log s -> line_sync flags s b s'.
Proof. intros. split_and!; [done|done|by left]. Qed.

Lemma line_sync_refl flags s b : line_sync flags s b s.
Proof. apply line_sync_none; [done| |done]. eexists. apply set_errnum_eta. Qed.

Lemma line_sync_error flags s b e : line_sync flags s b (with_error s e).
Proof. apply line_sync_none; [done|by exists e|done]. Qed.

Lemma after_call_log s c :
  exists r, ls_log (after_call s c) = Sev c r :: ls_log s /\ ls_mem (after_call s c) = ls_mem s
    /\ exists e, ls_dev (after_call s c) = dev_set_errnum (ls_dev s) e.
Proof.
  unfold after_call. destruct (sys (ls_log s) c) as [e|r]; (eexists; split_and!; [done|done|]).
  - by exists e.
  - eexists. apply set_errnum_eta.
Qed.

(** A sync of whole lines, whatever its bounds. *)
Lemma buffer_sync_lines s ss i b d flags off cnt :
  mem_inv s ss -> ss_bufs ss !! i = Some (b, d) -> 0 <= off -> 0 <= cnt < 2 ^ ptr_bits ->
  off mod CACHELINE_WORDS = 0 -> cnt mod CACHELINE_WORDS = 0 ->
  exists s', strela_buffer_sync b flags off cnt s = Ok (tt, s') /\ line_sync flags s b s'.
Proof.
  intros Hm Hb Hoff Hcnt Ho Hc. destruct (strela_dev_ok (ls_dev s)) eqn:Hok.
  2: { exists s. split; [|apply line_sync_refl]. unfold strela_buffer_sync, mbind_. by rewrite !when_not_ok. }
  destruct (decide (cnt = 0)) as [->|Hne].
  - unfold strela_buffer_sync, when_ok, strela_sync, mbind_, dev_. rewrite Hok. destruct (sync_bad b off 0).
    + exists (with_error s (- STRELA_ERR_BAD_ARG)). split; [|apply line_sync_error].
      unfold set_errnum, LibData.update_dev, modify_. cbn [ls_dev lst_set_dev]. by rewrite errnum_not_ok.
    + exists s. split; [|apply line_sync_refl]. cbv [mret_ when_ok mbind_ dev_]. by rewrite !Hok.
  - rewrite (buffer_sync_call s ss i b d) by (done || lia). eexists. split; [reflexivity|].
    destruct (Z.leb_spec (off + cnt) (b_size_words b)); [|apply line_sync_error].
    destruct (buf_bounds _ _ _ _ _ Hm Hb) as (_ & Hb0 & _ & Hal & _).
    match goal with |- context [after_call s ?c] => destruct (after_call_log s c) as (r & Hr & Hmem & Hd) end.
    split; [exact Hmem|]. split; [exact Hd|]. right. eexists _, r. split; [exact Hr|]. cbn [gs_flags gs_handle gs_offset gs_length].
    split_and!; [done|done|apply line_bytes; by apply mod_add_0|by apply line_bytes|unfold sizeof_word; lia..].
Qed.

Lemma wptr_mod z k : (k = 16 \/ k = 64) -> wptr z mod k = z mod k.
Proof.
  intros Hk. unfold wptr, wrap. apply Z.mod_mod_divide. unfold ptr_bits, ptr_bytes.
  destruct A, Hk as [-> | ->]; [by exists (2 ^ 28)|by exists (2 ^ 26)|by exists (2 ^ 60)|by exists (2 ^ 58)].
Qed.

Lemma aligned_words z : is_aligned (wptr (z * sizeof_word)) CACHELINE_SIZE = true -> z mod CACHELINE_WORDS = 0.
Proof.
  unfold is_aligned. rewrite wptr_mod by (by right). change CACHELINE_SIZE with 64. change CACHELINE_WORDS with 16. unfold sizeof_word.
  intros H. apply Z.eqb_eq, Z.mod_divide in H as [k Hk]; [|done]. replace z with (k * 16) by lia. apply Z_mod_mult.
Qed.

Lemma flush_lines s ss i b d off cnt :
  mem_inv s ss -> ss_bufs ss !! i = Some (b, d) -> 0 <= off < 2 ^ ptr_bits ->
  exists s', strela_buffer_flush b off cnt s = Ok (tt, s') /\ line_sync (Z.lor DRM_STRELA_SYNC_FINI DRM_STRELA_SYNC_WRITE) s b s'.
Proof.
  intros Hm Hb Hoff. unfold strela_buffer_flush. destruct (negb (cnt =? 0)); [|exists s; split; [done|apply line_sync_refl]].
  rewrite !flush_mask by (done || apply wptr_range). apply (buffer_sync_lines s ss i b d); [done|done| |apply wptr_range|apply Z_mod_mult|].
  - pose proof (Z.div_pos off 16). lia.
  - change CACHELINE_WORDS with 16. rewrite wptr_mod by (by left). by rewrite Zminus_mod, !Z_mod_mult.
Qed.

Lemma inval_lines s ss i b d off cnt :
  mem_inv s ss -> ss_bufs ss !! i = Some (b, d) -> 0 <= off < 2 ^ ptr_bits -> 0 <= cnt < 2 ^ ptr_bits ->
  exists s', strela_buffer_inval b off cnt s = Ok (tt, s') /\ line_sync (Z.lor DRM_STRELA_SYNC_PREP DRM_STRELA_SYNC_READ) s b s'.
Proof.
  intros Hm Hb Hoff Hcnt. unfold strela_buffer_inval.
  destruct (negb (is_aligned (wptr (off * sizeof_word)) CACHELINE_SIZE) || negb (is_aligned (wptr (cnt * sizeof_word)) CACHELINE_SIZE)) eqn:Ha.
  - exists (with_error s (- STRELA_ERR_BAD_ARG)). split; [|apply line_sync_error].
    unfold strela_buffer_sync, set_errnum, LibData.update_dev, modify_, mbind_.
    rewrite when_not_ok by (by apply errnum_not_ok). by rewrite when_not_ok by (by apply errnum_not_ok).
  - apply orb_false_iff in Ha as [H1 H2]. apply negb_false_iff in H1, H2. rewrite mbind_ret.
    apply (buffer_sync_lines s ss i b d); [done|done|lia|done|by apply aligned_words..].
Qed.

(** C18: Flushes and invalidates reach nothing but the buffer they are for. For
    every buffer the client holds and every offset and count of type size_t,
    overflowing or not, the call returns; it asks the driver for nothing, or
    for one sync of whole cache lines of the tensor memory. The lines lie
    inside the data of that buffer, apart from the data of every other buffer
    and from all metadata of the allocator: the headers of all buffers and the
    nodes of all free blocks. The memory starts at a page, so no cache line of
    the sync holds a byte of any of them. *)
Theorem syncs_isolated s ss i b d flush off cnt :
  mem_inv s ss -> ss_bufs ss !! i = Some (b, d) -> 0 <= off < 2 ^ ptr_bits -> 0 <= cnt < 2 ^ ptr_bits ->
  exists s', (if flush : bool then strela_buffer_flush b off cnt else strela_buffer_inval b off cnt) s = Ok (tt, s')
    /\ (ls_log s' = ls_log s
        \/ exists args r, ls_log s' = Sev (SC_gem_sync (d_fd (ls_dev s)) args) r :: ls_log s
             /\ gs_handle args = d_tensors_bo_handle (ls_dev s)
             /\ let base := d_tensors_bo_map (ls_dev s) in
                let range := (base + gs_offset args, gs_length args) in
                range.1 mod CACHELINE_SIZE = 0 /\ range.2 mod CACHELINE_SIZE = 0 /\ 0 < range.2
                /\ base + b_offset_words b * sizeof_word <= range.1
                /\ range.1 + range.2 <= base + (b_offset_words b + b_size_words b) * sizeof_word
                /\ (forall j b' d', j <> i -> ss_bufs ss !! j = Some (b', d') ->
                     apart range (base + b_offset_words b' * sizeof_word, b_size_words b' * sizeof_word))
                /\ exists B, rep (d_buffer_free_list (ls_dev s)) (ls_mem s) B /\ Forall (apart range) (metadata base B)).
Proof.
  intros Hm Hb Hoff Hcnt.
  assert (Hrun : exists fl s', (if flush then strela_buffer_flush b off cnt else strela_buffer_inval b off cnt) s = Ok (tt, s') /\ line_sync fl s b s').
  { destruct flush; eexists; [by eapply flush_lines|by eapply inval_lines]. }
  destruct Hrun as (fl & s' & He & _ & _ & Hs). exists s'. split; [done|]. destruct Hs as [Hs|(args & r & Hlog & _ & Hh & H1 & H2 & H3 & H4 & H5)]; [by left|].
  right. exists args, r. split; [done|]. split; [done|]. cbv zeta. cbn [fst snd]. set (base := d_tensors_bo_map (ls_dev s)).
  destruct (mi_tensors _ _ Hm) as (Hpg & _). cbn in Hpg. fold base in Hpg. unfold sizeof_word in *.
  split_and!; [|done|done|lia|lia| |].
  - apply mod_add_0; [|done]. eapply mod_0_trans; [|by exists 64|exact Hpg]. done.
  - intros j b' d' Hne Hj. pose proof (bufs_apart s ss i j b b' d d' Hm (not_eq_sym Hne) Hb Hj) as Hap.
    unfold buf_apart in Hap. unfold apart. cbn. lia.
  - destruct (buffer_block s ss i b d Hm Hb) as (B & u & Hr & _ & Hbl & Hu & Hp). exists B. split; [done|].
    apply (metadata_apart _ _ u); [done|done|..]; rewrite ?Hp; cbn; fold base; unfold sizeof_word; lia.
Qed.
End Lines.
