(* ===== verification/LibCalm.v ===== *)
(** * What a call leaves alone

    Between opening and closing, a call of the library never moves the two
    mappings, changes no handle of the device, and, invalidating apart, asks
    for no cache maintenance but write-backs. *)
From S2P Require Export LibLines.

(** An event that throws nothing away. *)
Definition keeps_lines (e : sevent) : Prop :=
  match ev_call e with
  | SC_gem_sync _ a => gs_flags a = Z.lor DRM_STRELA_SYNC_FINI DRM_STRELA_SYNC_WRITE
  | _ => True
  end.

Record calm (s s' : lst) : Prop := {
  cm_th : d_tensors_bo_handle (ls_dev s') = d_tensors_bo_handle (ls_dev s);
  cm_tm : d_tensors_bo_map (ls_dev s') = d_tensors_bo_map (ls_dev s);
  cm_kh : d_kernels_bo_handle (ls_dev s') = d_kernels_bo_handle (ls_dev s);
  cm_km : d_kernels_bo_map (ls_dev s') = d_kernels_bo_map (ls_dev s);
  cm_log : exists E, ls_log s' = E ++ ls_log s /\ Forall keeps_lines E
}.

#[export] Instance calm_preorder : PreOrder calm.
Proof.
  split; [intros s; split; try done; by exists []|].
  intros s1 s2 s3 [H1 H2 H3 H4 (E1 & Hl1 & HE1)] [G1 G2 G3 G4 (E2 & Hl2 & HE2)].
  split; try congruence. exists (E2 ++ E1). rewrite Hl2, Hl1, app_assoc. split; [done|by apply Forall_app].
Qed.

Definition steady {X} (c : M lst X) : Prop := forall s x s', c s = Ok (x, s') -> calm s s'.

(** The calls of a client that are: all but invalidating and opening again. *)
Definition steady_op (o : api_op) : bool :=
  match o with O_buffer_inval _ _ _ | O_init _ => false | _ => true end.

Section Steady.
Context `{A : abi} `{OS : Sys}.

Lemma steady_ret {X} (x : X) : steady (mret_ x).
Proof. intros s y s' [= _ <-]. done. Qed.

Lemma steady_trap {X} t : steady (X := X) (trap_ t).
Proof. intros s y s' H. discriminate. Qed.

Lemma steady_dev : steady dev_.
Proof. intros s y s' [= _ <-]. done. Qed.

Lemma steady_bind {X Y} (c : M lst X) (k : X -> M lst Y) : steady c -> (forall x, steady (k x)) -> steady (mbind_ c k).
Proof.
  intros Hc Hk s y s' H. apply mbind_inv in H as (x & s1 & H1 & H2). etrans; [by eapply Hc|by eapply Hk].
Qed.

Lemma steady_sys c : (forall r, keeps_lines (Sev c r)) -> steady (sys_ c).
Proof. intros Hc s y s' [= _ <-]. split; try done. eexists [_]. split; [reflexivity|]. by repeat constructor. Qed.

Lemma steady_sys_or_abort c : (forall r, keeps_lines (Sev c r)) -> steady (sys_or_abort c).
Proof. intros Hc. apply steady_bind; [by apply steady_sys|]. intros [e|r]; [apply steady_trap|apply steady_ret]. Qed.

Lemma steady_on_mem {X} (c : M mem X) : steady (on_mem c).
Proof.
  intros s y s' H. unfold on_mem in H. destruct (c (ls_mem s)) as [[x m]|t]; [|done]. injection H as _ <-.
  split; try done. by exists [].
Qed.

Lemma steady_update_dev f :
  (forall d, d_tensors_bo_handle (f d) = d_tensors_bo_handle d /\ d_tensors_bo_map (f d) = d_tensors_bo_map d
             /\ d_kernels_bo_handle (f d) = d_kernels_bo_handle d /\ d_kernels_bo_map (f d) = d_kernels_bo_map d) ->
  steady (LibData.update_dev f).
Proof.
  intros Hf s y s' [= _ <-]. destruct (Hf (ls_dev s)) as (E1 & E2 & E3 & E4). split; try done. by exists [].
Qed.

Lemma steady_update_slot i f : steady (update_slot i f).
Proof. by apply steady_update_dev. Qed.

Lemma steady_get_slot i : steady (get_slot i).
Proof. apply steady_bind; [apply steady_dev|]. intros d. destruct (d_jobs d !! i); [apply steady_ret|apply steady_trap]. Qed.

Lemma steady_the_slot slot : steady (the_slot slot).
Proof. destruct slot; [apply steady_ret|apply steady_trap]. Qed.

Lemma steady_assert b : steady (assert_ b).
Proof. intros s y s'. unfold assert_. destruct b; [by intros [= _ <-]|done]. Qed.
End Steady.

(** The cases that follow from the shape of the code. *)
Ltac steady_solve :=
  repeat first
    [ assumption
    | match goal with H : forall _, steady _ |- _ => apply H end
    | apply steady_ret | apply steady_trap | apply steady_dev | apply steady_on_mem | apply steady_get_slot
    | apply steady_the_slot | apply steady_assert | apply steady_update_slot
    | apply steady_sys; intros ?; exact I
    | apply steady_sys_or_abort; intros ?; exact I
    | apply steady_sys; intros ?; reflexivity
    | apply steady_update_dev; intros []; by split_and!
    | apply steady_bind; [|intros ?]
    | match goal with
      | |- steady (if ?b then _ else _) => destruct b
      | |- steady (match ?x with _ => _ end) => destruct x
      end
    | progress unfold when_ok, set_errnum, caller_array ].

Section Calls.
Context `{A : abi} `{OS : Sys}.

Lemma steady_sync handle off words :
  steady (strela_sync handle (Z.lor DRM_STRELA_SYNC_FINI DRM_STRELA_SYNC_WRITE) off words).
Proof. unfold strela_sync. steady_solve. Qed.

Lemma steady_flush b off cnt : steady (strela_buffer_flush b off cnt).
Proof. pose proof steady_sync. unfold strela_buffer_flush, strela_buffer_sync. steady_solve. Qed.

Lemma steady_kernel_set kernel data : steady (strela_kernel_set kernel data).
Proof. unfold strela_kernel_set. steady_solve; apply steady_sync. Qed.

Lemma steady_to_ptr b : steady (strela_buffer_to_ptr b).
Proof. unfold strela_buffer_to_ptr. steady_solve. Qed.

Lemma steady_finish i : steady (strela_job_slot_finish i).
Proof. unfold strela_job_slot_finish. steady_solve. Qed.

Lemma steady_release i : steady (strela_job_slot_release i).
Proof. pose proof steady_finish. unfold strela_job_slot_release. steady_solve. Qed.

Lemma steady_release_slots n i : steady (release_slots i n).
Proof.
  revert i. induction n as [|n IH]; intros i; cbn; [apply steady_ret|].
  apply steady_bind; [apply steady_release|]. intros _. apply IH.
Qed.

Lemma steady_job_free_all : steady strela_job_free_all.
Proof. pose proof (fun n => steady_release_slots n). unfold strela_job_free_all. steady_solve; apply steady_release_slots. Qed.

Lemma steady_slot_get job phases : steady (strela_job_slot_get job phases).
Proof. unfold strela_job_slot_get. steady_solve. Qed.

Lemma steady_job_free job : steady (strela_job_free job).
Proof. pose proof steady_release. unfold strela_job_free. steady_solve; apply steady_slot_get. Qed.

Lemma steady_update i t : steady (strela_job_update i t).
Proof. unfold strela_job_update. steady_solve. Qed.

Lemma steady_poll job : steady (strela_job_poll job).
Proof. pose proof steady_update. unfold strela_job_poll. steady_solve; apply steady_slot_get || apply steady_update. Qed.

Lemma steady_wait job t : steady (strela_job_wait job t).
Proof. unfold strela_job_wait. steady_solve; apply steady_slot_get || apply steady_update. Qed.

Lemma steady_job_fd job : steady (strela_job_fd job).
Proof. unfold strela_job_fd. steady_solve; apply steady_slot_get. Qed.

Lemma steady_submit job : steady (strela_job_submit job).
Proof. unfold strela_job_submit. steady_solve; apply steady_slot_get || apply steady_finish || apply steady_release. Qed.

Lemma steady_config kernel conf : steady (strela_job_config kernel conf).
Proof. pose proof steady_release. unfold strela_job_config. cbv zeta. steady_solve. Qed.

Lemma steady_old_config kernel conf : steady (strela_config kernel conf).
Proof. pose proof steady_job_free. pose proof (fun k => steady_config k). unfold strela_config. steady_solve; apply steady_config. Qed.

Lemma steady_just {X} (c : M lst X) ss : steady c -> steady (just c ss).
Proof. intros Hc. apply steady_bind; [done|]. intros. apply steady_ret. Qed.

Lemma steady_api_do ss o : steady_op o = true -> steady (api_do ss o).
Proof.
  pose proof steady_to_ptr. intros Ho. destruct o; cbn [api_do]; try discriminate.
  - unfold do_kernel_alloc, strela_kernel_alloc. steady_solve.
  - unfold do_kernel_set. steady_solve; apply steady_kernel_set.
  - apply steady_just. unfold strela_kernel_free. steady_solve.
  - unfold do_kernel_free_all, strela_kernel_free_all. steady_solve.
  - unfold do_buffer_alloc, strela_buffer_alloc, internal_ptr_to_buffer_offset. steady_solve.
  - unfold do_buffer_set, strela_buffer_set_data. steady_solve.
  - unfold do_buffer_free, strela_buffer_free. steady_solve.
  - unfold do_buffer_free_all, strela_buffer_free_all. steady_solve.
  - unfold do_buffer_sync. steady_solve; apply steady_flush.
  - apply steady_just, steady_config.
  - apply steady_just, steady_submit.
  - apply steady_just, steady_poll.
  - apply steady_just, steady_wait.
  - apply steady_just, steady_job_fd.
  - apply steady_just, steady_job_free.
  - apply steady_just, steady_job_free_all.
  - apply steady_just, steady_old_config.
  - apply steady_just. unfold strela_dev_reset_err. steady_solve.
Qed.
End Calls.
