(* ===== verification/LibCache.v ===== *)
(** * The library on incoherent memory

    On the board the device reads and writes RAM while the CPU works through a
    cache that nothing keeps coherent: lines are filled and evicted at any time,
    a dirty line that is evicted late overwrites what the device wrote, and an
    invalidated line loses what the CPU wrote. The library's answer is that a
    client flushes a buffer before the device uses it and invalidates it before
    it looks at it again, and that no sync reaches a line of anything else.
    This file runs the library's code on such a memory. *)
From S2P Require Export LibCalm.

(** ** The memory system *)
Variant line_state := Absent | Clean | Dirty.

#[export] Instance line_state_eq_dec : EqDecision line_state.
Proof. solve_decision. Defined.

#[export] Instance strela_buffer_eq_dec : EqDecision strela_buffer.
Proof. solve_decision. Defined.

(** RAM, which the device sees, and the cache lines. What the CPU sees is the
    memory of the library's state: for a line that is absent it is RAM. *)
Record cache := mkCache { c_ram : Z -> Z; c_line : Z -> line_state }.

Definition line_of (a : Z) : Z := a / CACHELINE_SIZE.

Definition set_line (c : cache) (l : Z) (st : line_state) : cache :=
  mkCache (c_ram c) (fun k => if k =? l then st else c_line c k).

(** RAM takes over the bytes of the dirty lines for which [p] holds. *)
Definition clean_lines (p : Z -> bool) (c : cache) (m : mem) : cache :=
  let wb l := p l && bool_decide (c_line c l = Dirty) in
  mkCache (fun a => if wb (line_of a) then byte_at m a else c_ram c a)
          (fun l => if wb l then Clean else c_line c l).

(** The lines for which [p] holds are thrown away, and the CPU sees RAM there. *)
Definition drop_lines (p : Z -> bool) (c : cache) : cache :=
  mkCache (c_ram c) (fun l => if p l then Absent else c_line c l).

Definition sees_ram (p : Z -> bool) (c : cache) (m m' : mem) : Prop :=
  regions m' = regions m /\ forall a, byte_at m' a = if p (line_of a) then c_ram c a else byte_at m a.

(** What the hardware does by itself, to any line at any time. *)
Inductive cache_step : cache -> mem -> cache -> mem -> Prop :=
| cache_fill c m l : c_line c l = Absent -> cache_step c m (set_line c l Clean) m
| cache_clean c m l : cache_step c m (clean_lines (Z.eqb l) c m) m
| cache_drop c m m' l : c_line c l = Clean -> sees_ram (Z.eqb l) c m m' -> cache_step c m (drop_lines (Z.eqb l) c) m'.

(** The CPU wrote: the lines it wrote to are dirty. A line in which no byte
    changed may have been written to as well, unless [mine] excludes it. *)
Definition written (mine : Z -> Prop) (c : cache) (m m' : mem) (c' : cache) : Prop :=
  c_ram c' = c_ram c /\ forall l,
    (c_line c' l = c_line c l /\ forall a, line_of a = l -> byte_at m' a = byte_at m a)
    \/ (c_line c' l = Dirty /\ ((exists a, line_of a = l /\ byte_at m' a <> byte_at m a) \/ ~ mine l)).

(** ** Cache maintenance *)

(** A sync works on every line that holds a byte of its range. *)
Definition reached (r : Z * Z) (l : Z) : bool :=
  (r.1 <? (l + 1) * CACHELINE_SIZE) && (l * CACHELINE_SIZE <? r.1 + r.2).

(** The memory a sync is about. *)
Definition sync_range (d : strela_dev) (a : drm_strela_gem_sync) : Z * Z :=
  ((if gs_handle a =? d_tensors_bo_handle d then d_tensors_bo_map d else d_kernels_bo_map d) + gs_offset a, gs_length a).

(** The driver does the maintenance a sync asks for, when it accepts it. *)
Inductive maintain (d : strela_dev) : sevent -> cache -> mem -> cache -> mem -> Prop :=
| mt_none e c m : (forall fd a r, e <> Sev (SC_gem_sync fd a) (inr r)) -> maintain d e c m c m
| mt_clean fd a r c m :
    gs_flags a = Z.lor DRM_STRELA_SYNC_FINI DRM_STRELA_SYNC_WRITE ->
    maintain d (Sev (SC_gem_sync fd a) (inr r)) c m (clean_lines (reached (sync_range d a)) c m) m
| mt_drop fd a r c m m' :
    gs_flags a = Z.lor DRM_STRELA_SYNC_PREP DRM_STRELA_SYNC_READ ->
    sees_ram (reached (sync_range d a)) c m m' ->
    maintain d (Sev (SC_gem_sync fd a) (inr r)) c m (drop_lines (reached (sync_range d a)) c) m'.

(** The events of a call, the latest first. *)
Inductive maintained (d : strela_dev) : list sevent -> cache -> mem -> cache -> mem -> Prop :=
| md_nil c m : maintained d [] c m c m
| md_cons e l c m c1 m1 c2 m2 :
    maintained d l c m c1 m1 -> maintain d e c1 m1 c2 m2 -> maintained d (e :: l) c m c2 m2.

(** ** Clients that keep to the rules *)

(** The library's state as the CPU sees it, the cache, what the client holds,
    and the buffers it has handed to the device. The contents noted for a
    buffer are those its owner wrote last. *)
Record world := mkW { w_lib : lst; w_cache : cache; w_sess : session; w_own : list strela_buffer }.

Definition buf_range (base : Z) (b : strela_buffer) : Z * Z :=
  (base + b_offset_words b * sizeof_word, b_size_words b * sizeof_word).

Definition inside (r : Z * Z) (a : Z) : Prop := r.1 <= a < r.1 + r.2.

(** The client leaves the device's buffers alone; it invalidates no others. *)
Definition allowed `{abi} (own : list strela_buffer) (ss : session) (o : api_op) : Prop :=
  match o with
  | O_buffer_set i _ | O_buffer_free i => forall b d, ss_bufs ss !! i = Some (b, d) -> b ∉ own
  | O_buffer_free_all => own = []
  | O_buffer_inval i off cnt =>
      (forall b d, ss_bufs ss !! i = Some (b, d) -> b ∈ own) /\ 0 <= off < 2 ^ ptr_bits /\ 0 <= cnt < 2 ^ ptr_bits
  | O_init _ => False
  | _ => True
  end.

(** A buffer changes hands when a sync of all of it succeeded. *)
Inductive hands (own : list strela_buffer) (ss : session) (s' : lst) : api_op -> list strela_buffer -> Prop :=
| hands_none o : hands own ss s' o own
| hands_over i b d :
    ss_bufs ss !! i = Some (b, d) -> 0 < b_size_words b -> strela_dev_ok (ls_dev s') = true ->
    hands own ss s' (O_buffer_flush i 0 (b_size_words b)) (b :: own)
| hands_back i b d :
    ss_bufs ss !! i = Some (b, d) -> strela_dev_ok (ls_dev s') = true ->
    hands own ss s' (O_buffer_inval i 0 (b_size_words b)) (filter (fun x => x <> b) own).

(** The lines of the device's buffers. *)
Definition device_line (base : Z) (own : list strela_buffer) (l : Z) : Prop :=
  exists b a, b ∈ own /\ inside (buf_range base b) a /\ line_of a = l.

Section World.
Context `{A : abi} `{OS : Sys}.

(** A call of the library, what it wrote, what it synced, who owns what then. *)
Inductive wcall (o : api_op) : world -> world -> Prop :=
| call_made s c ss own ss' s1 c1 E c2 m2 own' :
    allowed own ss o -> api_op_ok o ->
    api_do ss o s = Ok (ss', s1) ->
    written (device_line (d_tensors_bo_map (ls_dev s)) own) c (ls_mem s) (ls_mem s1) c1 ->
    ls_log s1 = E ++ ls_log s ->
    maintained (ls_dev s1) E c1 (ls_mem s1) c2 m2 ->
    hands own ss s1 o own' ->
    wcall o (mkW s c ss own) (mkW (lst_set_mem s1 m2) c2 ss' own').

Inductive wstep : world -> world -> Prop :=
| W_cache s c ss own c' m' :
    cache_step c (ls_mem s) c' m' ->
    wstep (mkW s c ss own) (mkW (lst_set_mem s m') c' ss own)
| W_device s c ss own i b d ram' m' :
    (* the device writes to a buffer it was handed *)
    b ∈ own -> ss_bufs ss !! i = Some (b, d) ->
    let r := buf_range (d_tensors_bo_map (ls_dev s)) b in
    (forall a, ~ inside r a -> ram' a = c_ram c a) ->
    sees_ram (fun l => bool_decide (c_line c l = Absent)) (mkCache ram' (c_line c)) (ls_mem s) m' ->
    wstep (mkW s c ss own)
      (mkW (lst_set_mem s m') (mkCache ram' (c_line c))
         (mkSess (<[i := (b, (fun k => ram' (r.1 + Z.of_nat k)) <$> seq 0 (Z.to_nat r.2))]> (ss_bufs ss)) (ss_kernels ss)) own)
| W_call o w w' : wcall o w w' -> wstep w w'.
End World.
