(* ===== verification/LibCacheInv.v ===== *)
(** * The invariant of the library on incoherent memory

    Outside the device's buffers the CPU sees what the library's code wrote;
    the device's buffers have no dirty line, and RAM holds what was handed over
    or what the device wrote since. *)
From S2P Require Export LibCache.

(** What the CPU sees of a buffer. *)
Definition view_of (m : mem) (base : Z) (b : strela_buffer) : list Z :=
  read_bytes m (buf_range base b).1 (Z.to_nat (buf_range base b).2).

(** The session with other contents for the device's buffers. *)
Definition fill (own : list strela_buffer) (f : strela_buffer -> list Z) (e : strela_buffer * list Z) : strela_buffer * list Z :=
  if decide (e.1 ∈ own) then (e.1, f e.1) else e.

Definition with_data (own : list strela_buffer) (f : strela_buffer -> list Z) (ss : session) : session :=
  mkSess (fill own f <$> ss_bufs ss) (ss_kernels ss).

Record winv `{abi} (l0 : list sevent) (w : world) : Prop := {
  wi_sess : sess_inv l0 (with_data (w_own w) (view_of (ls_mem (w_lib w)) (d_tensors_bo_map (ls_dev (w_lib w)))) (w_sess w)) (w_lib w);
  wi_own : forall b, b ∈ w_own w ->
    (exists i d, ss_bufs (w_sess w) !! i = Some (b, d)) /\ 0 < b_size_words b /\ b_size_words b mod CACHELINE_WORDS = 0;
  wi_clean : forall b a, b ∈ w_own w -> inside (buf_range (d_tensors_bo_map (ls_dev (w_lib w))) b) a ->
    c_line (w_cache w) (line_of a) <> Dirty;
  wi_ram : forall i b d, ss_bufs (w_sess w) !! i = Some (b, d) -> b ∈ w_own w ->
    Z.of_nat (length d) <= b_size_words b * sizeof_word
    /\ forall k x, d !! k = Some x ->
         c_ram (w_cache w) ((buf_range (d_tensors_bo_map (ls_dev (w_lib w))) b).1 + Z.of_nat k) = x;
  wi_coherent : forall a, c_line (w_cache w) (line_of a) <> Dirty ->
    (forall b, b ∈ w_own w -> ~ inside (buf_range (d_tensors_bo_map (ls_dev (w_lib w))) b) a) ->
    byte_at (ls_mem (w_lib w)) a = c_ram (w_cache w) a;
  wi_absent : forall a, c_line (w_cache w) (line_of a) = Absent -> byte_at (ls_mem (w_lib w)) a = c_ram (w_cache w) a
}.

Section Memory.
Context `{A : abi} `{OS : Sys}.

(** ** Memory that changes under the library *)
Lemma mem_inv_ext s ss m' :
  mem_inv s ss -> regions m' = regions (ls_mem s) -> (forall a, byte_at m' a = byte_at (ls_mem s) a) ->
  mem_inv (lst_set_mem s m') ss.
Proof.
  intros Hm Hr Hb. destruct (mi_fl _ _ Hm) as [B Hcl]. rewrite <- (sess_eta ss).
  eapply (mem_inv_buffers s (lst_set_mem s m') ss); [done|by split|done| |by split|apply Hm].
  eapply client_inv_frame; [exact Hcl|done|]. intros x _. apply Hb.
Qed.

(** Bytes of one buffer change, and the session notes some of them. *)
Lemma mem_inv_scribble s ss i b d m' d' :
  mem_inv s ss -> ss_bufs ss !! i = Some (b, d) -> regions m' = regions (ls_mem s) ->
  (forall a, ~ inside (buf_range (d_tensors_bo_map (ls_dev s)) b) a -> byte_at m' a = byte_at (ls_mem s) a) ->
  Z.of_nat (length d') <= b_size_words b * sizeof_word ->
  read_bytes m' (buf_range (d_tensors_bo_map (ls_dev s)) b).1 (length d') = d' ->
  mem_inv (lst_set_mem s m') (mkSess (<[i := (b, d')]> (ss_bufs ss)) (ss_kernels ss)).
Proof.
  intros Hm Hb Hr Ho Hlen Hd. destruct (mi_fl _ _ Hm) as [B Hcl].
  destruct (buf_bounds _ _ _ _ _ Hm Hb) as (_ & Hb0 & Hbs & _ & Hend & _).
  set (base := d_tensors_bo_map (ls_dev s)) in *. unfold inside, buf_range in Ho, Hd. cbn [fst snd] in *.
  assert (HO : same_outside (base + b_offset_words b * sizeof_word)
                 (base + b_offset_words b * sizeof_word + b_size_words b * sizeof_word) (ls_mem s) m') by (by split).
  eapply (mem_inv_buffers s (lst_set_mem s m') ss); [done|by split|done| | |].
  - fold base. rewrite list_fmap_insert.
    exact (client_scribble _ _ _ _ _ i _ m' d' Hcl (live_lookup base _ _ _ _ Hb) HO (conj Hlen Hd)).
  - eapply same_outside_weaken; [exact HO|unfold sizeof_word in *; fold base; lia|unfold sizeof_word in *; fold base; lia].
  - apply Forall_insert; [apply Hm|]. pose proof (mi_bufs _ _ Hm) as Hall. rewrite Forall_lookup in Hall. exact (Hall _ _ Hb).
Qed.

(** ** Whole lines *)
Definition whole (r : Z * Z) : Prop := r.1 mod CACHELINE_SIZE = 0 /\ r.2 mod CACHELINE_SIZE = 0.

Lemma whole_spec r a :
  whole r -> inside r a <-> r.1 / CACHELINE_SIZE <= line_of a < r.1 / CACHELINE_SIZE + r.2 / CACHELINE_SIZE.
Proof.
  unfold whole, inside, line_of. change CACHELINE_SIZE with 64. intros [H1 H2].
  pose proof (Z.div_mod r.1 64). pose proof (Z.div_mod r.2 64). pose proof (Z.div_mod a 64). pose proof (Z.mod_pos_bound a 64). lia.
Qed.

Lemma whole_line r a a' : whole r -> line_of a' = line_of a -> inside r a -> inside r a'.
Proof. intros Hw He. rewrite !whole_spec, He by done. done. Qed.

Lemma reached_spec r a : whole r -> 0 <= r.2 -> reached r (line_of a) = true <-> inside r a.
Proof.
  intros Hw H0. rewrite whole_spec by done. unfold reached. destruct Hw as [H1 H2]. change CACHELINE_SIZE with 64 in *.
  pose proof (Z.div_mod r.1 64). pose proof (Z.div_mod r.2 64). rewrite andb_true_iff, !Z.ltb_lt. lia.
Qed.

(** A buffer of whole lines in the tensor memory. *)
Lemma buf_whole s ss i b d :
  mem_inv s ss -> ss_bufs ss !! i = Some (b, d) -> b_size_words b mod CACHELINE_WORDS = 0 ->
  whole (buf_range (d_tensors_bo_map (ls_dev s)) b).
Proof.
  intros Hm Hb Hw. destruct (buf_bounds _ _ _ _ _ Hm Hb) as (_ & _ & _ & Hal & _).
  destruct (mi_tensors _ _ Hm) as (Hpg & _). cbn in Hpg. split; cbn; [|by apply line_bytes].
  apply mod_add_0; [|by apply line_bytes]. eapply mod_0_trans; [|by exists 64|exact Hpg]. done.
Qed.

(** Two buffers do not share a byte. *)
Lemma bufs_inside s ss i j b b' d d' a :
  mem_inv s ss -> ss_bufs ss !! i = Some (b, d) -> ss_bufs ss !! j = Some (b', d') -> i <> j ->
  inside (buf_range (d_tensors_bo_map (ls_dev s)) b) a -> ~ inside (buf_range (d_tensors_bo_map (ls_dev s)) b') a.
Proof.
  intros Hm Hi Hj Hne. pose proof (bufs_apart s ss i j b b' d d' Hm Hne Hi Hj) as Hap.
  unfold inside, buf_range, buf_apart, sizeof_word in *. cbn. lia.
Qed.

(** ** Sessions with other contents *)
Lemma with_data_lookup own f ss i : ss_bufs (with_data own f ss) !! i = fill own f <$> ss_bufs ss !! i.
Proof. apply list_lookup_fmap. Qed.

Lemma with_data_some own f ss i b d :
  ss_bufs ss !! i = Some (b, d) -> exists d', ss_bufs (with_data own f ss) !! i = Some (b, d')
    /\ (b ∈ own -> d' = f b) /\ (b ∉ own -> d' = d).
Proof.
  intros Hi. rewrite with_data_lookup, Hi. cbn. unfold fill. cbn. destruct (decide (b ∈ own)); eexists; by split_and!.
Qed.

Lemma with_data_ext own f g ss :
  (forall i b d, ss_bufs ss !! i = Some (b, d) -> b ∈ own -> f b = g b) -> with_data own f ss = with_data own g ss.
Proof.
  intros H. unfold with_data. f_equal. apply list_eq. intros i. rewrite !list_lookup_fmap.
  destruct (ss_bufs ss !! i) as [[b d]|] eqn:Hi; [|done]. cbn. unfold fill. cbn.
  destruct (decide (b ∈ own)); [|done]. by rewrite (H i b d).
Qed.

Lemma view_ext m m' base b :
  (forall a, inside (buf_range base b) a -> byte_at m' a = byte_at m a) -> view_of m' base b = view_of m base b.
Proof. intros H. apply read_bytes_ext. intros x Hx. apply H. unfold inside. lia. Qed.

(** What the CPU sees of one of the device's buffers changes. *)
Lemma view_change l0 own ss s i b d m' :
  let base := d_tensors_bo_map (ls_dev s) in
  sess_inv l0 (with_data own (view_of (ls_mem s) base) ss) s -> b ∈ own -> ss_bufs ss !! i = Some (b, d) ->
  regions m' = regions (ls_mem s) ->
  (forall a, ~ inside (buf_range base b) a -> byte_at m' a = byte_at (ls_mem s) a) ->
  sess_inv l0 (with_data own (view_of m' base) ss) (lst_set_mem s m').
Proof.
  intros base [Hm Hj] Hown Hi Hr Ho. split; [|by apply job_inv_mem].
  destruct (with_data_some own (view_of (ls_mem s) base) ss i b d Hi) as (d1 & Hi1 & _).
  destruct (buf_bounds _ _ _ _ _ Hm Hi1) as (_ & _ & Hs & _).
  pose proof (mem_inv_scribble s _ i b d1 m' (view_of m' base b) Hm Hi1 Hr Ho) as Hn.
  unfold view_of in Hn at 1 2 3. rewrite !length_read_bytes in Hn.
  specialize (Hn ltac:(cbn; unfold sizeof_word in *; lia) eq_refl). fold base in Hn.
  match type of Hn with mem_inv _ ?x => assert (He : x = with_data own (view_of m' base) ss); [|by rewrite He in Hn] end.
  unfold with_data. f_equal. apply list_eq. intros j. rewrite list_lookup_fmap. cbn [with_data ss_bufs].
  destruct (decide (i = j)) as [<-|Hne].
  - rewrite list_lookup_insert_eq by (rewrite length_fmap; by eapply lookup_lt_Some). rewrite Hi. cbn. unfold fill. cbn.
    by rewrite decide_True.
  - rewrite list_lookup_insert_ne, list_lookup_fmap by done. destruct (ss_bufs ss !! j) as [[b' d']|] eqn:Hj'; [|done].
    cbn. unfold fill. cbn. destruct (decide (b' ∈ own)); [|done]. do 2 f_equal. symmetry. apply view_ext. intros a Ha. apply Ho.
    intros Ha'. destruct (with_data_some own (view_of (ls_mem s) base) ss j b' d' Hj') as (d2 & Hj2 & _).
    exact (bufs_inside s _ i j b b' _ _ a Hm Hi1 Hj2 Hne Ha' Ha).
Qed.

Lemma view_same l0 own ss s m' :
  let base := d_tensors_bo_map (ls_dev s) in
  sess_inv l0 (with_data own (view_of (ls_mem s) base) ss) s ->
  regions m' = regions (ls_mem s) -> (forall a, byte_at m' a = byte_at (ls_mem s) a) ->
  sess_inv l0 (with_data own (view_of m' base) ss) (lst_set_mem s m').
Proof.
  intros base [Hm Hj] Hr Hb. split; [|by apply job_inv_mem].
  rewrite (with_data_ext own (view_of m' base) (view_of (ls_mem s) base)).
  - by apply mem_inv_ext.
  - intros i b d _ _. apply view_ext. intros a _. apply Hb.
Qed.

(** ** Lines that change by themselves *)
Lemma owned_inv l0 w b :
  winv l0 w -> b ∈ w_own w ->
  exists i d, ss_bufs (w_sess w) !! i = Some (b, d) /\ whole (buf_range (d_tensors_bo_map (ls_dev (w_lib w))) b).
Proof.
  intros Hw Hb. destruct (wi_own _ _ Hw b Hb) as ((i & d & Hi) & _ & Hal). exists i, d. split; [done|].
  destruct (with_data_some (w_own w) (view_of (ls_mem (w_lib w)) (d_tensors_bo_map (ls_dev (w_lib w)))) (w_sess w) i b d Hi) as (d1 & Hi1 & _).
  eapply buf_whole; [apply (wi_sess _ _ Hw)|done|done].
Qed.

Lemma winv_clean l0 s c ss own p :
  winv l0 (mkW s c ss own) -> winv l0 (mkW s (clean_lines p c (ls_mem s)) ss own).
Proof.
  intros [H1 H2 H3 H4 H5 H6]; cbn [w_lib w_cache w_sess w_own] in *. split; cbn [w_lib w_cache w_sess w_own clean_lines c_line c_ram]; try done.
  - intros b a Hb Ha. specialize (H3 b a Hb Ha). by case_match.
  - intros i b d Hi Hb. destruct (H4 i b d Hi Hb) as [Hl Hr]. split; [done|]. intros k x Hk.
    rewrite bool_decide_false, andb_false_r; [by apply Hr|]. apply (H3 b); [done|]. unfold inside.
    pose proof (lookup_lt_Some _ _ _ Hk). cbn in *. lia.
  - intros a Hd Ho. case_match; [done|]. by apply H5.
  - intros a. case_match; [done|]. apply H6.
Qed.

Lemma winv_fill l0 s c ss own l :
  winv l0 (mkW s c ss own) -> c_line c l = Absent -> winv l0 (mkW s (set_line c l Clean) ss own).
Proof.
  intros [H1 H2 H3 H4 H5 H6] Hl; cbn [w_lib w_cache w_sess w_own] in *. split; cbn [w_lib w_cache w_sess w_own set_line c_line c_ram]; try done.
  - intros b a Hb Ha. case_match; [done|by apply (H3 b)].
  - intros a. destruct (Z.eqb_spec (line_of a) l) as [He|_]; [intros _ _; apply H6; by rewrite He|apply H5].
  - intros a. destruct (line_of a =? l); [done|apply H6].
Qed.

(** Lines that are not dirty are thrown away: some of one of the device's
    buffers, or none that the CPU sees differently. *)
Lemma winv_drop l0 s c ss own p m' :
  winv l0 (mkW s c ss own) -> sees_ram p c (ls_mem s) m' ->
  (forall a, p (line_of a) = true -> c_line c (line_of a) <> Dirty) ->
  (exists b, b ∈ own /\ forall a, p (line_of a) = true -> inside (buf_range (d_tensors_bo_map (ls_dev s)) b) a)
  \/ (forall a, p (line_of a) = true -> forall b, b ∈ own -> ~ inside (buf_range (d_tensors_bo_map (ls_dev s)) b) a) ->
  winv l0 (mkW (lst_set_mem s m') (drop_lines p c) ss own).
Proof.
  intros Hw [Hr Hs] Hp Hcase. pose proof Hw as [H1 H2 H3 H4 H5 H6]; cbn [w_lib w_cache w_sess w_own] in *.
  split; cbn [w_lib w_cache w_sess w_own drop_lines c_line c_ram ls_mem ls_dev lst_set_mem]; try done.
  - destruct Hcase as [(b & Hb & Hin)|Hno].
    + destruct (H2 b Hb) as ((i & d & Hi) & _). eapply view_change; [done|done|done|done|]. intros a Ha. rewrite Hs.
      destruct (p (line_of a)) eqn:Hpa; [|done]. by destruct Ha; apply Hin.
    + apply view_same; [done|done|]. intros a. rewrite Hs. destruct (p (line_of a)) eqn:Hpa; [|done].
      symmetry. apply H5; [by apply Hp|by apply Hno].
  - intros b a Hb Ha. case_match; [done|by apply (H3 b)].
  - intros a Hd Ho. rewrite Hs. destruct (p (line_of a)); [done|by apply H5].
  - intros a Hl. rewrite Hs. destruct (p (line_of a)); [done|by apply H6].
Qed.

Lemma winv_cache l0 s c ss own c' m' :
  winv l0 (mkW s c ss own) -> cache_step c (ls_mem s) c' m' -> winv l0 (mkW (lst_set_mem s m') c' ss own).
Proof.
  intros Hw Hs. assert (Hid : lst_set_mem s (ls_mem s) = s) by (by destruct s).
  remember (ls_mem s) as m eqn:Hm. destruct Hs as [c m l Hl|c m l|c m m' l Hl Hsee].
  - rewrite Hid. by apply winv_fill.
  - rewrite Hid. subst m. by apply winv_clean.
  - subst m. apply (winv_drop l0 s c ss own (Z.eqb l) m'); [done|done| |].
    + intros a Ha%Z.eqb_eq. by rewrite <- Ha, Hl.
    + set (base := d_tensors_bo_map (ls_dev s)).
      destruct (decide (Exists (fun b => (buf_range base b).1 / CACHELINE_SIZE <= l
        /\ l < (buf_range base b).1 / CACHELINE_SIZE + (buf_range base b).2 / CACHELINE_SIZE) own)) as [He|Hn].
      * left. apply Exists_exists in He as (b & Hb & Hr). exists b. split; [done|]. intros a Ha%Z.eqb_eq.
        destruct (owned_inv _ _ _ Hw Hb) as (_ & _ & _ & Hwh). apply whole_spec; [done|]. rewrite <- Ha. exact Hr.
      * right. intros a Ha%Z.eqb_eq b Hb Hin. apply Hn, Exists_exists. exists b. split; [done|]. rewrite Ha.
        destruct (owned_inv _ _ _ Hw Hb) as (_ & _ & _ & Hwh). by apply whole_spec in Hin.
Qed.

(** ** The device writes *)
Lemma own_index l0 w i j b d d' :
  winv l0 w -> b ∈ w_own w -> ss_bufs (w_sess w) !! i = Some (b, d) -> ss_bufs (w_sess w) !! j = Some (b, d') -> i = j.
Proof.
  intros Hw Hb Hi Hj. destruct (decide (i = j)) as [|Hne]; [done|exfalso]. destruct (wi_own _ _ Hw b Hb) as (_ & Hpos & _).
  set (f := view_of (ls_mem (w_lib w)) (d_tensors_bo_map (ls_dev (w_lib w)))).
  destruct (with_data_some (w_own w) f (w_sess w) i b d Hi) as (d1 & Hi1 & _).
  destruct (with_data_some (w_own w) f (w_sess w) j b d' Hj) as (d2 & Hj2 & _).
  destruct (wi_sess _ _ Hw) as [Hm _]. destruct (bufs_apart _ _ i j b b d1 d2 Hm Hne Hi1 Hj2); lia.
Qed.

Lemma with_data_insert own f ss i b d d' :
  b ∈ own -> ss_bufs ss !! i = Some (b, d') ->
  with_data own f (mkSess (<[i := (b, d)]> (ss_bufs ss)) (ss_kernels ss)) = with_data own f ss.
Proof.
  intros Hb Hi. unfold with_data. cbn. f_equal.
  rewrite list_fmap_insert. apply list_insert_id. rewrite list_lookup_fmap, Hi. cbn. unfold fill. cbn. by rewrite !decide_True.
Qed.

Lemma winv_device l0 s c ss own i b d ram' m' :
  winv l0 (mkW s c ss own) -> b ∈ own -> ss_bufs ss !! i = Some (b, d) ->
  let r := buf_range (d_tensors_bo_map (ls_dev s)) b in
  (forall a, ~ inside r a -> ram' a = c_ram c a) ->
  sees_ram (fun l => bool_decide (c_line c l = Absent)) (mkCache ram' (c_line c)) (ls_mem s) m' ->
  winv l0 (mkW (lst_set_mem s m') (mkCache ram' (c_line c))
    (mkSess (<[i := (b, (fun k => ram' (r.1 + Z.of_nat k)) <$> seq 0 (Z.to_nat r.2))]> (ss_bufs ss)) (ss_kernels ss)) own).
Proof.
  intros Hw Hb Hi r Hram [Hr Hs]. pose proof Hw as [H1 H2 H3 H4 H5 H6]; cbn [w_lib w_cache w_sess w_own] in *. cbn [c_ram] in Hs.
  assert (Hout : forall a, ~ inside r a -> byte_at m' a = byte_at (ls_mem s) a).
  { intros a Ha. rewrite Hs. case_bool_decide as Hl; [|done]. rewrite Hram by done. symmetry. by apply H6. }
  split; cbn [w_lib w_cache w_sess w_own c_line c_ram ls_mem ls_dev lst_set_mem ss_bufs]; try done.
  - rewrite (with_data_insert own _ ss i b _ d) by done. by eapply view_change.
  - intros b' Hb'. destruct (H2 b' Hb') as ((j & d' & Hj) & Hsz). split; [|done].
    destruct (decide (i = j)) as [<-|Hne].
    + rewrite Hi in Hj. injection Hj as <- <-. exists i. eexists. apply list_lookup_insert_eq. by eapply lookup_lt_Some.
    + exists j, d'. by rewrite list_lookup_insert_ne.
  - intros j b' d' Hj Hb'. destruct (decide (i = j)) as [<-|Hne].
    + rewrite list_lookup_insert_eq in Hj by (by eapply lookup_lt_Some). injection Hj as <- <-. destruct (H2 b Hb) as (_ & Hsz & _).
      split; [rewrite length_fmap, length_seq; cbn; unfold sizeof_word; lia|]. intros k x Hk.
      rewrite list_lookup_fmap_Some in Hk. destruct Hk as (k' & -> & Hk). apply lookup_seq in Hk as [-> _]. done.
    + rewrite list_lookup_insert_ne in Hj by done. destruct (H4 j b' d' Hj Hb') as [Hl Hd]. split; [done|]. intros k x Hk.
      rewrite Hram; [by apply Hd|]. intros Hin. destruct H1 as [Hm _].
      destruct (with_data_some own (view_of (ls_mem s) (d_tensors_bo_map (ls_dev s))) ss i b d Hi) as (d1 & Hi1 & _).
      destruct (with_data_some own (view_of (ls_mem s) (d_tensors_bo_map (ls_dev s))) ss j b' d' Hj) as (d2 & Hj2 & _).
      apply (bufs_inside s _ i j b b' _ _ _ Hm Hi1 Hj2 Hne Hin). pose proof (lookup_lt_Some _ _ _ Hk). unfold inside. cbn in *. lia.
  - intros a Hl Ho. rewrite Hout, Hram by (by apply Ho). by apply H5.
  - intros a Hl. rewrite Hs. by rewrite bool_decide_true.
Qed.
(** A cache that hides nothing, and a device that was handed nothing. *)
Lemma winv_start l0 w :
  w_own w = [] -> sess_inv l0 (w_sess w) (w_lib w) ->
  (forall a, c_line (w_cache w) (line_of a) <> Dirty -> byte_at (ls_mem (w_lib w)) a = c_ram (w_cache w) a) -> winv l0 w.
Proof.
  destruct w as [s c ss own]. cbn [w_lib w_cache w_sess w_own]. intros -> Hs Hcoh. split; cbn [w_lib w_cache w_sess w_own].
  - replace (with_data [] _ ss) with ss; [done|]. destruct ss as [bufs ks]. unfold with_data. cbn. f_equal.
    rewrite <- (list_fmap_id bufs) at 1. apply list_fmap_ext. intros i x _. unfold fill. by rewrite decide_False by set_solver.
  - by intros b Hb%elem_of_nil.
  - by intros b a Hb%elem_of_nil.
  - by intros i b d _ Hb%elem_of_nil.
  - intros a Hd _. by apply Hcoh.
  - intros a Ha. apply Hcoh. congruence.
Qed.
End Memory.
