(* ===== verification/LibCoherent.v ===== *)
(** * The library makes incoherent memory look coherent

    Every call of the library, made by a client that keeps to the rules, keeps
    the invariant of LibCacheInv, whatever the cache and the device do in
    between. *)
From S2P Require Export LibCacheInv.

(** What a call does to the buffers held; the device's stay. *)
Inductive bufs_step (own : list strela_buffer) : list (strela_buffer * list Z) -> list (strela_buffer * list Z) -> Prop :=
| bs_same l : bufs_step own l l
| bs_new b l : bufs_step own l ((b, []) :: l)
| bs_set i b d d' l : l !! i = Some (b, d) -> b ∉ own -> bufs_step own l (<[i := (b, d')]> l)
| bs_free i b d l : l !! i = Some (b, d) -> b ∉ own -> bufs_step own l (delete i l)
| bs_all l : own = [] -> bufs_step own l [].

Lemma bufs_step_keeps own l l' i b d :
  bufs_step own l l' -> b ∈ own -> l !! i = Some (b, d) -> exists j, l' !! j = Some (b, d).
Proof.
  intros Hs Hb Hi. destruct Hs as [l|b' l|j b' d' d'' l Hj Ho|j b' d' l Hj Ho|l ->].
  - by exists i.
  - by exists (S i).
  - exists i. rewrite list_lookup_insert_ne; [done|]. intros <-. congruence.
  - destruct (decide (i < j)%nat); [exists i; by rewrite list_lookup_delete_lt|].
    assert (Hne : i <> j) by (intros ->; congruence). exists (pred i). rewrite list_lookup_delete_ge by lia. by replace (S (pred i)) with i by lia.
  - set_solver.
Qed.

Lemma bufs_step_from own l l' j b d :
  bufs_step own l l' -> b ∈ own -> l' !! j = Some (b, d) -> (exists i, l !! i = Some (b, d)) \/ d = [].
Proof.
  intros Hs Hb Hj. destruct Hs as [l|b' l|k b' d' d'' l Hk Ho|k b' d' l Hk Ho|l ->].
  - left. by exists j.
  - destruct j as [|j]; [right; by injection Hj|left; by exists j].
  - left. exists j. rewrite list_lookup_insert_ne in Hj; [done|]. intros <-.
    rewrite list_lookup_insert_eq in Hj by (by eapply lookup_lt_Some). congruence.
  - left. destruct (decide (j < k)%nat); [exists j; by rewrite list_lookup_delete_lt in Hj|].
    exists (S j). by rewrite list_lookup_delete_ge in Hj by lia.
  - by destruct j.
Qed.

Section Calls.
Context `{A : abi} `{OS : Sys}.

Lemma ret_inv {X Y} (c : M lst X) (g : X -> Y) s y s1 :
  (let! x := c in mret_ (g x)) s = Ok (y, s1) -> exists x, c s = Ok (x, s1) /\ y = g x.
Proof. intros H. apply mbind_inv in H as (x & s2 & H1 & H2). unfold mret_ in H2. injection H2 as <- <-. eauto. Qed.

(** The same call with other contents noted for the device's buffers. *)
Definition same_call (own : list strela_buffer) (f : strela_buffer -> list Z) (ss ss' ssx : session) : Prop :=
  bufs_step own (ss_bufs ss) (ss_bufs ss')
  /\ (ssx = with_data own f ss' \/ exists b, b ∈ own /\ ss_bufs ssx = (b, []) :: ss_bufs (with_data own f ss)).

Lemma same_call_id own f ss ks :
  same_call own f ss (mkSess (ss_bufs ss) ks) (mkSess (ss_bufs (with_data own f ss)) ks).
Proof. split; [constructor|by left]. Qed.

Lemma same_call_same own f ss : same_call own f ss ss (with_data own f ss).
Proof. split; [constructor|by left]. Qed.

Lemma ret_eq {X Y} (c : M lst X) (g : X -> Y) s x s1 : c s = Ok (x, s1) -> (let! x := c in mret_ (g x)) s = Ok (g x, s1).
Proof. intros H. by rewrite (mbind_Ok _ _ _ _ _ H). Qed.

Lemma just_rel {X} own f ss (c : M lst X) s ssx s1 :
  just c (with_data own f ss) s = Ok (ssx, s1) -> exists ss', just c ss s = Ok (ss', s1) /\ same_call own f ss ss' ssx.
Proof. intros (x & H & ->)%ret_inv. exists ss. split; [exact (ret_eq c (fun _ => ss) s x s1 H)|apply same_call_same]. Qed.

Lemma alloc_rel own f ss w s ssx s1 :
  do_buffer_alloc (with_data own f ss) w s = Ok (ssx, s1) -> exists ss', do_buffer_alloc ss w s = Ok (ss', s1) /\ same_call own f ss ss' ssx.
Proof.
  intros (b & H & ->)%ret_inv. exists (keep_buffer ss b). split; [exact (ret_eq _ (keep_buffer ss) s b s1 H)|].
  unfold keep_buffer. destruct (b_valid b); [|apply same_call_same]. split; [constructor|].
  destruct (decide (b ∈ own)) as [Hb|Hb]; [right; by exists b|left].
  unfold with_data. cbn. unfold fill at 2. cbn. by rewrite decide_False.
Qed.

(** A call that looks at the device first. *)
Lemma dev_ret_inv {X} (c : M lst X) (g : strela_dev -> session) s ss s1 :
  (let! dev := dev_ in do! c in mret_ (g dev)) s = Ok (ss, s1) -> (exists x, c s = Ok (x, s1)) /\ ss = g (ls_dev s).
Proof. intros H. unfold mbind_ at 1, dev_ at 1 in H. apply ret_inv in H as (x & H & ->). eauto. Qed.

Lemma dev_ret_eq {X} (c : M lst X) (g : strela_dev -> session) s x s1 :
  c s = Ok (x, s1) -> (let! dev := dev_ in do! c in mret_ (g dev)) s = Ok (g (ls_dev s), s1).
Proof. intros H. unfold mbind_ at 1, dev_ at 1. exact (ret_eq c (fun _ => g (ls_dev s)) s x s1 H). Qed.

Lemma set_rel own f ss i data s ssx s1 :
  (forall b d, ss_bufs ss !! i = Some (b, d) -> b ∉ own) ->
  do_buffer_set (with_data own f ss) i data s = Ok (ssx, s1) -> exists ss', do_buffer_set ss i data s = Ok (ss', s1) /\ same_call own f ss ss' ssx.
Proof.
  intros Ho H. unfold do_buffer_set in *. rewrite with_data_lookup in H.
  destruct (ss_bufs ss !! i) as [[b d]|] eqn:Hi; cbn [fmap option_fmap option_map] in H.
  2: { unfold mret_ in *. injection H as <- <-. exists ss. split; [done|apply same_call_same]. }
  specialize (Ho b d eq_refl). unfold fill in H. cbn [fst] in H. rewrite decide_False in H by done. destruct (_ <? _).
  { unfold mret_ in *. injection H as <- <-. exists ss. split; [done|apply same_call_same]. }
  apply dev_ret_inv in H as ([x H] & ->). eexists. split; [exact (dev_ret_eq _ _ _ _ _ H)|].
  cbv beta. destruct (strela_dev_ok (ls_dev s)); [|apply same_call_same].
  split; [by econstructor|left]. unfold with_data. cbn. rewrite list_fmap_insert. unfold fill at 2. cbn. by rewrite decide_False.
Qed.

Lemma free_rel own f ss i s ssx s1 :
  (forall b d, ss_bufs ss !! i = Some (b, d) -> b ∉ own) ->
  do_buffer_free (with_data own f ss) i s = Ok (ssx, s1) -> exists ss', do_buffer_free ss i s = Ok (ss', s1) /\ same_call own f ss ss' ssx.
Proof.
  intros Ho H. unfold do_buffer_free in *. rewrite with_data_lookup in H.
  destruct (ss_bufs ss !! i) as [[b d]|] eqn:Hi; cbn [fmap option_fmap option_map] in H.
  2: { unfold mret_ in *. injection H as <- <-. exists ss. split; [done|apply same_call_same]. }
  specialize (Ho b d eq_refl). unfold fill in H. cbn [fst] in H. rewrite decide_False in H by done.
  apply dev_ret_inv in H as ([x H] & ->). eexists. split; [exact (dev_ret_eq _ _ _ _ _ H)|].
  cbv beta. destruct (strela_dev_ok (ls_dev s)); [|apply same_call_same].
  split; [by econstructor|left]. unfold with_data. cbn. by rewrite list_fmap_delete.
Qed.

Lemma sync_rel own f ss flush i off cnt s ssx s1 :
  do_buffer_sync (with_data own f ss) flush i off cnt s = Ok (ssx, s1) ->
  exists ss', do_buffer_sync ss flush i off cnt s = Ok (ss', s1) /\ same_call own f ss ss' ssx.
Proof.
  intros H. unfold do_buffer_sync in *. rewrite with_data_lookup in H.
  destruct (ss_bufs ss !! i) as [[b d]|] eqn:Hi; cbn [fmap option_fmap option_map] in H.
  2: { unfold mret_ in *. injection H as <- <-. exists ss. split; [done|apply same_call_same]. }
  assert (Hf : exists d', fill own f (b, d) = (b, d')) by (unfold fill; cbn; case_decide; by eexists).
  destruct Hf as [d' Hf]. rewrite Hf in H. exact (just_rel own f ss _ s ssx s1 H).
Qed.

Lemma kernel_alloc_rel own f ss s ssx s1 :
  do_kernel_alloc (with_data own f ss) s = Ok (ssx, s1) -> exists ss', do_kernel_alloc ss s = Ok (ss', s1) /\ same_call own f ss ss' ssx.
Proof.
  intros (k & H & ->)%ret_inv. exists (keep_kernel ss k). split; [exact (ret_eq _ (keep_kernel ss) s k s1 H)|].
  unfold keep_kernel. destruct (k_valid k); [apply same_call_id|apply same_call_same].
Qed.

Lemma kernel_set_rel own f ss i data s ssx s1 :
  do_kernel_set (with_data own f ss) i data s = Ok (ssx, s1) -> exists ss', do_kernel_set ss i data s = Ok (ss', s1) /\ same_call own f ss ss' ssx.
Proof.
  intros H. unfold do_kernel_set in *. cbn [with_data ss_kernels] in H.
  destruct (ss_kernels ss !! i) as [[h d]|] eqn:Hi.
  2: { unfold mret_ in *. injection H as <- <-. exists ss. split; [done|apply same_call_same]. }
  destruct (_ <? _).
  { unfold mret_ in *. injection H as <- <-. exists ss. split; [done|apply same_call_same]. }
  apply dev_ret_inv in H as ([x H] & ->). eexists. split; [exact (dev_ret_eq _ _ _ _ _ H)|].
  cbv beta. destruct (strela_dev_ok (ls_dev s)); [apply same_call_id|apply same_call_same].
Qed.

Lemma kernel_free_all_rel own f ss s ssx s1 :
  do_kernel_free_all (with_data own f ss) s = Ok (ssx, s1) -> exists ss', do_kernel_free_all ss s = Ok (ss', s1) /\ same_call own f ss ss' ssx.
Proof.
  intros ([x H] & ->)%dev_ret_inv. eexists. split; [exact (dev_ret_eq _ _ _ _ _ H)|].
  cbv beta. destruct (strela_dev_ok (ls_dev s)); [apply same_call_id|apply same_call_same].
Qed.

Lemma free_all_rel own f ss s ssx s1 :
  own = [] -> do_buffer_free_all (with_data own f ss) s = Ok (ssx, s1) ->
  exists ss', do_buffer_free_all ss s = Ok (ss', s1) /\ same_call own f ss ss' ssx.
Proof.
  intros Ho ([x H] & ->)%dev_ret_inv. eexists. split; [exact (dev_ret_eq _ _ _ _ _ H)|].
  cbv beta. destruct (strela_dev_ok (ls_dev s)); [|apply same_call_same]. split; [by constructor|by left].
Qed.

Lemma do_rel own f ss o s ssx s1 :
  allowed own ss o -> api_do (with_data own f ss) o s = Ok (ssx, s1) ->
  exists ss', api_do ss o s = Ok (ss', s1) /\ same_call own f ss ss' ssx.
Proof.
  intros Ha. destruct o; cbn [api_do allowed] in *; try (by apply just_rel).
  - apply kernel_alloc_rel.
  - apply kernel_set_rel.
  - apply kernel_free_all_rel.
  - apply alloc_rel.
  - by apply set_rel.
  - by apply free_rel.
  - by apply free_all_rel.
  - apply sync_rel.
  - apply sync_rel.
  - done.
Qed.

(** ** What a call writes *)
Lemma mem_inv_data s ss i b d :
  mem_inv s ss -> ss_bufs ss !! i = Some (b, d) ->
  Z.of_nat (length d) <= b_size_words b * sizeof_word
  /\ read_bytes (ls_mem s) (buf_range (d_tensors_bo_map (ls_dev s)) b).1 (length d) = d.
Proof.
  intros Hm Hb. destruct (mi_fl _ _ Hm) as [B Hcl]. pose proof (ci_data _ _ _ _ _ Hcl) as HD. cbn [cl_live] in HD.
  rewrite Forall_lookup in HD. exact (HD _ _ (live_lookup _ _ _ _ _ Hb)).
Qed.

Lemma view_byte m m' base b a :
  view_of m' base b = view_of m base b -> inside (buf_range base b) a -> byte_at m' a = byte_at m a.
Proof.
  unfold view_of, inside. generalize (buf_range base b) as r. intros r He Ha.
  assert (Hk : (Z.to_nat (a - r.1) < Z.to_nat r.2)%nat) by lia.
  pose proof (read_bytes_lookup m r.1 (Z.to_nat r.2) _ Hk) as H1. pose proof (read_bytes_lookup m' r.1 (Z.to_nat r.2) _ Hk) as H2.
  rewrite He, H1 in H2. injection H2 as H2. replace (r.1 + Z.of_nat (Z.to_nat (a - r.1))) with a in H2 by lia. congruence.
Qed.

Context `{HL : !SysLaws OS} `{HU : !Undisturbed OS}.
(** A fence can be exported when a descriptor was closed just before. *)
Context (HE : forall l fd r dfd h, exists r', sys (Sev (SC_close fd) (inr r) :: l) (SC_handle_to_fd dfd h) = inr r').
Context (l0 : list sevent) (Hl0 : log_ok l0).

(** A call leaves the device's buffers as they are. *)
Lemma call_sess s c ss own o ss' s1 :
  let base := d_tensors_bo_map (ls_dev s) in
  winv l0 (mkW s c ss own) -> allowed own ss o -> api_op_ok o -> api_do ss o s = Ok (ss', s1) ->
  d_tensors_bo_map (ls_dev s1) = base ->
  sess_inv l0 (with_data own (view_of (ls_mem s1) base) ss') s1 /\ bufs_step own (ss_bufs ss) (ss_bufs ss')
  /\ forall b a, b ∈ own -> inside (buf_range base b) a -> byte_at (ls_mem s1) a = byte_at (ls_mem s) a.
Proof.
  intros base Hw Ha Hok He Hb. pose proof Hw as [H1 H2 _ _ _ _]; cbn [w_lib w_cache w_sess w_own] in *.
  destruct (api_do_wp HE l0 _ s o Hl0 H1 Hok) as (ssx & s1x & Hx & Hinv).
  destruct (do_rel own _ ss o s ssx s1x Ha Hx) as (ss1 & He' & Hbs & Hcase). rewrite He in He'. injection He' as <- <-. fold base in Hcase, H1, Hinv.
  destruct Hcase as [->|(b & Hob & Hbufs)].
  2: { exfalso. destruct (H2 b Hob) as ((i & d & Hi) & Hpos & _).
       destruct (with_data_some own (view_of (ls_mem s) base) ss i b d Hi) as (d1 & Hi1 & _).
       destruct Hinv as [Hm _]. assert (Hi2 : ss_bufs ssx !! S i = Some (b, d1)) by (by rewrite Hbufs).
       destruct (bufs_apart s1 ssx 0%nat (S i) b b [] d1 Hm ltac:(done) ltac:(by rewrite Hbufs) Hi2); lia. }
  assert (Hview : forall b, b ∈ own -> view_of (ls_mem s1) base b = view_of (ls_mem s) base b).
  { intros b Hob. destruct (H2 b Hob) as ((i & d & Hi) & _).
    destruct (bufs_step_keeps _ _ _ _ _ _ Hbs Hob Hi) as [j Hj].
    destruct (with_data_some own (view_of (ls_mem s) base) ss' j b d Hj) as (d1 & Hj1 & Hd1 & _). specialize (Hd1 Hob). subst d1.
    destruct Hinv as [Hm _]. destruct (mem_inv_data _ _ _ _ _ Hm Hj1) as [_ Hd]. rewrite Hb in Hd.
    unfold view_of in Hd at 1. rewrite length_read_bytes in Hd. exact Hd. }
  split_and!; [|done|].
  - rewrite (with_data_ext own (view_of (ls_mem s1) base) (view_of (ls_mem s) base)); [done|].
    intros i b d _ Hob. by apply Hview.
  - intros b a Hob Hin. by eapply view_byte; [apply Hview|].
Qed.

Lemma winv_write s c ss own o ss' s1 c1 :
  winv l0 (mkW s c ss own) -> allowed own ss o -> api_op_ok o -> api_do ss o s = Ok (ss', s1) ->
  d_tensors_bo_map (ls_dev s1) = d_tensors_bo_map (ls_dev s) ->
  written (device_line (d_tensors_bo_map (ls_dev s)) own) c (ls_mem s) (ls_mem s1) c1 ->
  winv l0 (mkW s1 c1 ss' own) /\ bufs_step own (ss_bufs ss) (ss_bufs ss').
Proof.
  intros Hw Ha Hok He Hb [Hram Hlines]. destruct (call_sess s c ss own o ss' s1 Hw Ha Hok He Hb) as (Hs & Hbs & Hkeep).
  split; [|done]. pose proof Hw as [H1 H2 H3 H4 H5 H6]; cbn [w_lib w_cache w_sess w_own] in *.
  split; cbn [w_lib w_cache w_sess w_own]; rewrite ?Hb, ?Hram.
  - done.
  - intros b Hob. destruct (H2 b Hob) as ((i & d & Hi) & Hsz). split; [|done].
    destruct (bufs_step_keeps _ _ _ _ _ _ Hbs Hob Hi) as [j Hj]. by exists j, d.
  - intros b a Hob Hin. destruct (Hlines (line_of a)) as [[-> _]|[_ [(a' & Hl & Hch)|Hno]]]; [by eapply H3| |].
    + exfalso. apply Hch, (Hkeep b); [done|]. destruct (owned_inv _ _ _ Hw Hob) as (_ & _ & _ & Hwh). by eapply whole_line.
    + exfalso. apply Hno. by exists b, a.
  - intros j b d Hj Hob. destruct (bufs_step_from _ _ _ _ _ _ Hbs Hob Hj) as [[i Hi]| ->]; [by apply (H4 i)|].
    split; [|by intros]. destruct (H2 b Hob) as (_ & Hpos & _). cbn. unfold sizeof_word. lia.
  - intros a Hd Ho. destruct (Hlines (line_of a)) as [[Hl Hsame]|[Hl _]]; [|congruence]. rewrite Hsame by done.
    apply H5; [congruence|done].
  - intros a Hd. destruct (Hlines (line_of a)) as [[Hl Hsame]|[Hl _]]; [|congruence]. rewrite Hsame by done. apply H6. congruence.
Qed.

(** Write-backs keep the invariant and what the CPU sees. *)
Lemma winv_maintained s c ss own E c2 m2 :
  winv l0 (mkW s c ss own) -> Forall keeps_lines E -> maintained (ls_dev s) E c (ls_mem s) c2 m2 ->
  m2 = ls_mem s /\ winv l0 (mkW s c2 ss own).
Proof.
  intros Hw HF Hm. remember (ls_mem s) as m eqn:Hms. revert Hw Hms.
  induction Hm as [c m|e E c m c1 m1 c2 m2 Hm IH Hmt]; intros Hw Hms; [done|].
  apply Forall_cons in HF as [He HF]. destruct (IH HF Hw Hms) as [-> Hw1].
  destruct Hmt as [e c1 m1 _|fd a r c1 m1 Hf|fd a r c1 m1 m' Hf _].
  - done.
  - split; [done|]. rewrite Hms. by apply winv_clean.
  - exfalso. cbn in He. rewrite Hf in He. by vm_compute in He.
Qed.

(** ** Invalidating *)
Lemma winv_inval s c ss own i b d off cnt s1 c1 E c2 m2 :
  winv l0 (mkW s c ss own) -> ss_bufs ss !! i = Some (b, d) -> b ∈ own ->
  0 <= off < 2 ^ ptr_bits -> 0 <= cnt < 2 ^ ptr_bits -> strela_buffer_inval b off cnt s = Ok (tt, s1) ->
  winv l0 (mkW s1 c1 ss own) -> ls_log s1 = E ++ ls_log s -> maintained (ls_dev s1) E c1 (ls_mem s1) c2 m2 ->
  winv l0 (mkW (lst_set_mem s1 m2) c2 ss own).
Proof.
  intros Hw Hi Hb Hoff Hcnt He Hw1 Hlog Hm. assert (Hid : lst_set_mem s1 (ls_mem s1) = s1) by (by destruct s1).
  pose proof (wi_sess _ _ Hw) as [Hmi _]; cbn [w_lib w_cache w_sess w_own] in *.
  destruct (with_data_some own (view_of (ls_mem s) (d_tensors_bo_map (ls_dev s))) ss i b d Hi) as (d1 & Hi1 & _).
  destruct (inval_lines s _ i b d1 off cnt Hmi Hi1 Hoff Hcnt) as (s' & He' & _ & (e & Hd) & Hcase).
  rewrite He in He'. injection He' as <-.
  destruct Hcase as [Hsame|(args & r & Hone & Hfl & Hh & Ho1 & Ho2 & Hlen & Hlo & Hhi)].
  - rewrite Hsame in Hlog. apply (app_inv_tail (ls_log s) [] E) in Hlog as <-. inversion Hm; subst. by rewrite Hid.
  - rewrite Hone in Hlog. apply (app_inv_tail (ls_log s) [_] E) in Hlog as <-.
    inversion Hm as [|? ? ? ? c3 m3 ? ? Hn Hmt]; subst. inversion Hn; subst.
    inversion Hmt as [? ? ? Hno|? ? ? ? ? Hf|? ? ? ? ? ? Hf Hsee]; subst; [by rewrite Hid|rewrite Hfl in Hf; by vm_compute in Hf|].
    unfold sync_range in *. rewrite Hd in *. cbn [d_tensors_bo_handle d_tensors_bo_map dev_set_errnum] in *. rewrite Hh, Z.eqb_refl in *.
    set (base := d_tensors_bo_map (ls_dev s)) in *. set (rg := (base + gs_offset args, gs_length args)) in *.
    assert (Hwh : whole rg).
    { split; [|done]. cbn. destruct (mi_tensors _ _ Hmi) as (Hpg & _). cbn in Hpg. apply mod_add_0; [|done].
      eapply mod_0_trans; [|by exists 64|exact Hpg]. done. }
    assert (Hin : forall a, reached rg (line_of a) = true -> inside (buf_range base b) a).
    { intros a Ha. apply reached_spec in Ha; [|done|cbn; lia]. unfold inside, buf_range, rg, sizeof_word in *. cbn in *. lia. }
    assert (Hmap : d_tensors_bo_map (ls_dev s1) = base) by (by rewrite Hd).
    apply winv_drop; [done|done| |].
    + intros a Ha. apply (wi_clean _ _ Hw1 b); [done|]. cbn [w_lib]. rewrite Hmap. by apply Hin.
    + left. exists b. split; [done|]. rewrite Hmap. exact Hin.
Qed.

(** ** Handing over and taking back *)
(** Noting for a buffer what the CPU sees of it. *)
Lemma sess_give s ss own i b d :
  let f := view_of (ls_mem s) (d_tensors_bo_map (ls_dev s)) in
  sess_inv l0 (with_data own f ss) s -> ss_bufs ss !! i = Some (b, d) -> 0 < b_size_words b ->
  sess_inv l0 (with_data (b :: own) f ss) s.
Proof.
  intros f H1 Hi Hpos. destruct (decide (b ∈ own)) as [Hin|Hout].
  - replace (with_data (b :: own) f ss) with (with_data own f ss); [done|]. unfold with_data. f_equal. apply list_fmap_ext.
    intros j [b' d'] _. unfold fill. cbn. destruct (decide (b' ∈ own)), (decide (b' ∈ b :: own)); set_solver.
  - destruct H1 as [Hm Hj]. split; [|done]. destruct (with_data_some own f ss i b d Hi) as (d1 & Hi1 & _ & Hd1).
    specialize (Hd1 Hout). subst d1.
    pose proof (mem_inv_scribble s _ i b d (ls_mem s) (f b) Hm Hi1 eq_refl ltac:(done)) as Hn.
    unfold f in Hn at 1 2 3. unfold view_of in Hn at 1 2 3. rewrite !length_read_bytes in Hn.
    specialize (Hn ltac:(cbn; unfold sizeof_word in *; lia) eq_refl).
    replace (lst_set_mem s (ls_mem s)) with s in Hn by (by destruct s).
    match type of Hn with mem_inv _ ?x => replace (with_data (b :: own) f ss) with x; [exact Hn|] end.
    unfold with_data. cbn. f_equal. apply list_eq. intros j. rewrite !list_lookup_fmap. destruct (decide (i = j)) as [<-|Hne].
    + rewrite list_lookup_insert_eq by (rewrite length_fmap; by eapply lookup_lt_Some). rewrite Hi. cbn. unfold fill. cbn.
      rewrite decide_True by set_solver. done.
    + rewrite list_lookup_insert_ne, list_lookup_fmap by done. destruct (ss_bufs ss !! j) as [[b' d']|] eqn:Hj'; [|done]. cbn.
      assert (b' <> b).
      { intros ->. destruct (with_data_some own f ss j b d' Hj') as (d2 & Hj2 & _).
        destruct (bufs_apart s _ i j b b _ _ Hm Hne Hi1 Hj2); lia. }
      unfold fill. cbn. destruct (decide (b' ∈ own)), (decide (b' ∈ b :: own)); set_solver.
Qed.

Lemma winv_give s c ss own i b d :
  winv l0 (mkW s c ss own) -> ss_bufs ss !! i = Some (b, d) -> 0 < b_size_words b ->
  b_size_words b mod CACHELINE_WORDS = 0 ->
  (forall a, inside (buf_range (d_tensors_bo_map (ls_dev s)) b) a -> c_line c (line_of a) <> Dirty) ->
  winv l0 (mkW s c ss (b :: own)).
Proof.
  intros Hw Hi Hpos Hal Hcl. pose proof Hw as [H1 H2 H3 H4 H5 H6]; cbn [w_lib w_cache w_sess w_own] in *.
  set (base := d_tensors_bo_map (ls_dev s)) in *. set (f := view_of (ls_mem s) base) in *.
  assert (Hother : forall j b' d', ss_bufs ss !! j = Some (b', d') -> b' <> b -> forall a, inside (buf_range base b) a -> ~ inside (buf_range base b') a).
  { intros j b' d' Hj Hne a Ha. destruct H1 as [Hm _].
    destruct (with_data_some own f ss i b d Hi) as (d1 & Hi1 & _). destruct (with_data_some own f ss j b' d' Hj) as (d2 & Hj1 & _).
    eapply (bufs_inside s _ i j); [done..| |done]. intros ->. congruence. }
  split; cbn [w_lib w_cache w_sess w_own]; fold base.
  - by apply (sess_give s ss own i b d).
  - intros b' [->|Hb']%elem_of_cons; [|by apply H2]. split; [by exists i, d|done].
  - intros b' a [->|Hb']%elem_of_cons; [by apply Hcl|by apply H3].
  - intros j b' d' Hj Hb'. destruct (decide (b' ∈ own)) as [Hin|Hout]; [by apply (H4 j)|]. apply elem_of_cons in Hb' as [->|]; [|done].
    destruct H1 as [Hm _]. destruct (with_data_some own f ss j b d' Hj) as (d2 & Hj2 & _ & Hd2). specialize (Hd2 Hout). subst d2.
    destruct (mem_inv_data _ _ _ _ _ Hm Hj2) as [Hl Hd]. split; [done|]. intros k x Hk. fold base in Hd. rewrite <- Hd in Hk.
    pose proof (lookup_lt_Some _ _ _ Hk) as Hlt. rewrite length_read_bytes in Hlt.
    rewrite read_bytes_lookup in Hk by done. injection Hk as <-. symmetry.
    assert (Hins : inside (buf_range base b) ((buf_range base b).1 + Z.of_nat k)) by (unfold inside; cbn in *; lia).
    apply H5; [by apply Hcl|]. intros b'' Hb''. destruct (H2 b'' Hb'') as ((j' & d'' & Hj') & _).
    apply (Hother j' b'' d''); [done| |done]. intros ->. done.
  - intros a Hd Ho. apply H5; [done|]. intros b' Hb'. apply Ho. set_solver.
  - done.
Qed.

Lemma winv_take s c ss own i b d :
  winv l0 (mkW s c ss own) -> ss_bufs ss !! i = Some (b, d) -> b ∈ own ->
  (forall a, inside (buf_range (d_tensors_bo_map (ls_dev s)) b) a -> c_line c (line_of a) = Absent) ->
  winv l0 (mkW s c ss (filter (fun x => x <> b) own)).
Proof.
  intros Hw Hi Hb Hab. pose proof Hw as [H1 H2 H3 H4 H5 H6]; cbn [w_lib w_cache w_sess w_own] in *.
  set (base := d_tensors_bo_map (ls_dev s)) in *. set (f := view_of (ls_mem s) base) in *.
  assert (Hsub : forall b', b' ∈ filter (fun x => x <> b) own <-> b' ∈ own /\ b' <> b).
  { intros b'. rewrite list_elem_of_filter. tauto. }
  split; cbn [w_lib w_cache w_sess w_own]; fold base f; try (intros ? [? ?]%Hsub; by apply H2 || by apply H3).
  - destruct H1 as [Hm Hj]. split; [|done]. destruct (with_data_some own f ss i b d Hi) as (d1 & Hi1 & _).
    destruct (H4 i b d Hi Hb) as [Hl Hram].
    assert (Hd : read_bytes (ls_mem s) (buf_range base b).1 (length d) = d).
    { apply list_eq. intros k. destruct (decide (k < length d)%nat) as [Hk|Hk].
      - rewrite read_bytes_lookup by done. destruct (lookup_lt_is_Some_2 d k Hk) as [x Hx]. rewrite Hx. f_equal.
        rewrite <- (Hram k x Hx). apply H6, Hab. unfold inside. cbn in *. lia.
      - rewrite !lookup_ge_None_2; [done|lia|rewrite length_read_bytes; lia]. }
    pose proof (mem_inv_scribble s _ i b d1 (ls_mem s) d Hm Hi1 eq_refl ltac:(done) Hl Hd) as Hn.
    replace (lst_set_mem s (ls_mem s)) with s in Hn by (by destruct s).
    match type of Hn with mem_inv _ ?y => replace (with_data (filter (fun x => x <> b) own) f ss) with y; [exact Hn|] end.
    unfold with_data. cbn. f_equal. apply list_eq. intros j. rewrite !list_lookup_fmap. destruct (decide (i = j)) as [<-|Hne].
    + rewrite list_lookup_insert_eq by (rewrite length_fmap; by eapply lookup_lt_Some). rewrite Hi. cbn. unfold fill. cbn.
      rewrite decide_False; [done|]. rewrite Hsub. tauto.
    + rewrite list_lookup_insert_ne, list_lookup_fmap by done. destruct (ss_bufs ss !! j) as [[b' d']|] eqn:Hj'; [|done]. cbn.
      assert (Hbb : b' <> b) by (intros ->; apply Hne; exact (own_index l0 _ i j b d d' Hw Hb Hi Hj')).
      unfold fill. cbn. destruct (decide (b' ∈ own)) as [Hin|Hout].
      * by rewrite decide_True by (by apply Hsub).
      * rewrite decide_False; [done|]. rewrite Hsub. tauto.
  - intros b' a [? ?]%Hsub. by apply H3.
  - intros j b' d' Hj [? ?]%Hsub. by apply (H4 j).
  - intros a Hd Ho. destruct (decide (c_line c (line_of a) = Absent)) as [Ha|Ha]; [by apply H6|]. apply H5; [done|].
    intros b' Hb' Hin. destruct (decide (b' = b)) as [->|Hne]; [by apply Ha, Hab|]. apply (Ho b'); [by apply Hsub|done].
  - done.
Qed.

(** A sync of a whole buffer that leaves no error was done. *)
Lemma after_call_ok s cl :
  strela_dev_ok (ls_dev (after_call s cl)) = true ->
  exists r, ls_log (after_call s cl) = Sev cl (inr r) :: ls_log s /\ ls_dev (after_call s cl) = ls_dev s.
Proof.
  unfold after_call. destruct (sys (ls_log s) cl) as [e|r] eqn:Hr; [|by exists r]. intros Hok. cbn in Hok.
  rewrite errnum_not_ok in Hok; [done|]. pose proof (law_errno _ _ _ Hr). lia.
Qed.

Lemma sync_not_ok b flags off cnt s : strela_dev_ok (ls_dev s) = false -> strela_buffer_sync b flags off cnt s = Ok (tt, s).
Proof. intros H. unfold strela_buffer_sync, mbind_. by rewrite !when_not_ok. Qed.

Definition sync_event (s : lst) (flags : Z) (b : strela_buffer) (r : Z * Z) : sevent :=
  Sev (SC_gem_sync (d_fd (ls_dev s)) (mkGemSync (d_tensors_bo_handle (ls_dev s)) flags
    (b_offset_words b * sizeof_word) (b_size_words b * sizeof_word))) (inr r).

Lemma whole_flush s ss i b d s1 :
  mem_inv s ss -> ss_bufs ss !! i = Some (b, d) -> 0 < b_size_words b ->
  strela_buffer_flush b 0 (b_size_words b) s = Ok (tt, s1) -> strela_dev_ok (ls_dev s1) = true ->
  b_size_words b mod CACHELINE_WORDS = 0 /\ ls_dev s1 = ls_dev s
  /\ exists r, ls_log s1 = sync_event s (Z.lor DRM_STRELA_SYNC_FINI DRM_STRELA_SYNC_WRITE) b r :: ls_log s.
Proof.
  intros Hm Hi Hpos He Hok1. destruct (strela_dev_ok (ls_dev s)) eqn:Hok.
  2: { unfold strela_buffer_flush in He. destruct (negb _); [rewrite sync_not_ok in He by done|]; injection He as <-; congruence. }
  destruct (flush_call s ss i b d 0 (b_size_words b) Hm Hi Hok ltac:(lia) Hpos ltac:(lia)) as (_ & Hge & Hin & Hout).
  change (line_start 0) with 0 in *. pose proof (line_bounds 0 (b_size_words b)) as Hlb.
  destruct (Z.le_gt_cases (line_end 0 (b_size_words b)) (b_size_words b)) as [Hle|Hgt].
  - assert (Heq : line_end 0 (b_size_words b) = b_size_words b) by lia. rewrite Heq in Hin.
    destruct (Hin ltac:(lia)) as [He' _]. rewrite He in He'. injection He' as ->.
    destruct (after_call_ok _ _ Hok1) as (r & Hr & Hd). split; [rewrite <- Heq; apply line_end_mod|]. split; [done|]. exists r.
    rewrite Hr, Z.add_0_r, Z.sub_0_r. done.
  - rewrite (Hout ltac:(lia)) in He. injection He as <-. cbn in Hok1. by rewrite errnum_not_ok in Hok1.
Qed.

Lemma whole_inval s ss i b d s1 :
  mem_inv s ss -> ss_bufs ss !! i = Some (b, d) -> 0 < b_size_words b -> b_size_words b mod CACHELINE_WORDS = 0 ->
  strela_buffer_inval b 0 (b_size_words b) s = Ok (tt, s1) -> strela_dev_ok (ls_dev s1) = true ->
  ls_dev s1 = ls_dev s
  /\ exists r, ls_log s1 = sync_event s (Z.lor DRM_STRELA_SYNC_PREP DRM_STRELA_SYNC_READ) b r :: ls_log s.
Proof.
  intros Hm Hi Hpos Hal He Hok1. destruct (strela_dev_ok (ls_dev s)) eqn:Hok.
  - rewrite (inval_call s ss i b d) in He by (done || lia). rewrite Hal in He. change (0 mod CACHELINE_WORDS =? 0) with true in He.
    cbn [Z.eqb andb] in He. injection He as <-. destruct (after_call_ok _ _ Hok1) as (r & Hr & Hd). split; [done|]. exists r.
    rewrite Hr, Z.add_0_r. done.
  - exfalso. unfold strela_buffer_inval in He. apply mbind_inv in He as ([] & s2 & H1 & H2).
    assert (Hs2 : strela_dev_ok (ls_dev s2) = false).
    { destruct (_ || _); [|by injection H1 as <-]. unfold set_errnum, LibData.update_dev, modify_ in H1. injection H1 as <-. by apply errnum_not_ok. }
    rewrite sync_not_ok in H2 by done. injection H2 as <-. congruence.
Qed.

(** ** Every step *)
Lemma sync_range_event s b flags :
  sync_range (ls_dev s) (mkGemSync (d_tensors_bo_handle (ls_dev s)) flags (b_offset_words b * sizeof_word) (b_size_words b * sizeof_word))
  = buf_range (d_tensors_bo_map (ls_dev s)) b.
Proof. unfold sync_range. cbn. by rewrite Z.eqb_refl. Qed.

Lemma buf_reached s ss i b d a :
  mem_inv s ss -> ss_bufs ss !! i = Some (b, d) -> b_size_words b mod CACHELINE_WORDS = 0 ->
  inside (buf_range (d_tensors_bo_map (ls_dev s)) b) a -> reached (buf_range (d_tensors_bo_map (ls_dev s)) b) (line_of a) = true.
Proof.
  intros Hm Hi Hal Hin. apply reached_spec; [by eapply buf_whole|unfold inside in Hin; lia|done].
Qed.

Lemma maintained_one d e c m c2 m2 : maintained d [e] c m c2 m2 -> maintain d e c m c2 m2.
Proof. intros H. inversion H as [|? ? ? ? c3 m3 ? ? Hn Hmt]; subst. by inversion Hn; subst. Qed.

Lemma call_maps s o ss own ss' s1 c :
  winv l0 (mkW s c ss own) -> allowed own ss o -> api_do ss o s = Ok (ss', s1) ->
  d_tensors_bo_map (ls_dev s1) = d_tensors_bo_map (ls_dev s)
  /\ (steady_op o = true \/ exists i b d off cnt, o = O_buffer_inval i off cnt /\ ss' = ss /\ ss_bufs ss !! i = Some (b, d) /\ b ∈ own
        /\ 0 <= off < 2 ^ ptr_bits /\ 0 <= cnt < 2 ^ ptr_bits /\ strela_buffer_inval b off cnt s = Ok (tt, s1))
  \/ ss' = ss /\ s1 = s.
Proof.
  intros Hw Ha He. destruct (steady_op o) eqn:Ho.
  { left. split; [|by left]. apply (cm_tm _ _ (steady_api_do ss o Ho s ss' s1 He)). }
  destruct o as [| | | | | | | | |i off cnt| | | | | | | | | |]; cbn in Ho, Ha, He; try done. destruct Ha as (Hin & Hoff & Hcnt).
  unfold do_buffer_sync in He. destruct (ss_bufs ss !! i) as [[b d]|] eqn:Hi; [|right; by injection He as <- <-].
  left. apply ret_inv in He as ([] & He & ->). specialize (Hin b d eq_refl).
  destruct (wi_sess _ _ Hw) as [Hm _]; cbn [w_lib w_cache w_sess w_own] in *.
  destruct (with_data_some own (view_of (ls_mem s) (d_tensors_bo_map (ls_dev s))) ss i b d Hi) as (d1 & Hi1 & _).
  destruct (inval_lines s _ i b d1 off cnt Hm Hi1 Hoff Hcnt) as (s' & He' & _ & (e & Hd) & _). rewrite He in He'. injection He' as <-.
  split; [by rewrite Hd|]. right. by exists i, b, d, off, cnt.
Qed.

Lemma winv_call s c ss own o ss' s1 c1 E c2 m2 :
  winv l0 (mkW s c ss own) -> allowed own ss o -> api_op_ok o -> api_do ss o s = Ok (ss', s1) ->
  written (device_line (d_tensors_bo_map (ls_dev s)) own) c (ls_mem s) (ls_mem s1) c1 ->
  ls_log s1 = E ++ ls_log s -> maintained (ls_dev s1) E c1 (ls_mem s1) c2 m2 ->
  winv l0 (mkW (lst_set_mem s1 m2) c2 ss' own).
Proof.
  intros Hw Ha Hok He Hwr Hlog Hm. assert (Hid : lst_set_mem s1 (ls_mem s1) = s1) by (by destruct s1).
  destruct (call_maps s o ss own ss' s1 c Hw Ha He) as [[Hmap Hcase]|[-> ->]].
  - destruct (winv_write s c ss own o ss' s1 c1 Hw Ha Hok He Hmap Hwr) as [Hw1 _].
    destruct Hcase as [Ho|(i & b & d & off & cnt & -> & -> & Hi & Hb & Hoff & Hcnt & Hrun)].
    + destruct (cm_log _ _ (steady_api_do ss o Ho s ss' s1 He)) as (E' & HE' & HF). rewrite HE' in Hlog.
      apply app_inv_tail in Hlog as <-. destruct (winv_maintained s1 c1 ss' own E' c2 m2 Hw1 HF Hm) as [-> Hw2]. by rewrite Hid.
    + by apply (winv_inval s c ss own i b d off cnt s1 c1 E c2 m2).
  - destruct (winv_write s c ss own o ss s c1 Hw Ha Hok He eq_refl Hwr) as [Hw1 _].
    apply (app_inv_tail (ls_log s) [] E) in Hlog as <-. inversion Hm; subst. by rewrite Hid.
Qed.

Lemma winv_step w w' : winv l0 w -> wstep w w' -> winv l0 w'.
Proof.
  intros Hw Hs. destruct Hs as [s c ss own c' m' Hc|s c ss own i b d ram' m' Hb Hi r Hram Hsee|o w w' Hc].
  - by eapply winv_cache.
  - by eapply winv_device.
  - destruct Hc as [s c ss own ss' s1 c1 E c2 m2 own' Ha Hok He Hwr Hlog Hm Hh]. pose proof (winv_call s c ss own o ss' s1 c1 E c2 m2 Hw Ha Hok He Hwr Hlog Hm) as Hw2.
    destruct (wi_sess _ _ Hw) as [Hmi _]; cbn [w_lib w_cache w_sess w_own] in Hmi.
    destruct Hh as [o|i b d Hi Hpos Hok1|i b d Hi Hok1]; [done| |];
      destruct (with_data_some own (view_of (ls_mem s) (d_tensors_bo_map (ls_dev s))) ss i b d Hi) as (d1 & Hi1 & _);
      cbn [api_do] in He; unfold do_buffer_sync in He; rewrite Hi in He; apply ret_inv in He as ([] & He & ->).
    + destruct (whole_flush s _ i b d1 s1 Hmi Hi1 Hpos He Hok1) as (Hal & Hd & r & Hr). rewrite Hr in Hlog.
      apply (app_inv_tail (ls_log s) [_] E) in Hlog as <-. apply maintained_one in Hm.
      eapply winv_give; [done|done|done|done|]. cbn [ls_dev lst_set_mem]. rewrite Hd. intros a Hin.
      inversion Hm as [? ? ? Hno|? ? ? ? ? Hf|? ? ? ? ? ? Hf]; subst; [by edestruct Hno| |by vm_compute in Hf].
      cbn [clean_lines c_line]. rewrite Hd, sync_range_event. rewrite (buf_reached s _ i b d1 a) by done.
      cbn [andb]. by case_bool_decide.
    + destruct Ha as (Hin & _ & _). specialize (Hin b d Hi). destruct (wi_own _ _ Hw b Hin) as (_ & Hpos & Hal).
      destruct (whole_inval s _ i b d1 s1 Hmi Hi1 Hpos Hal He Hok1) as (Hd & r & Hr). rewrite Hr in Hlog.
      apply (app_inv_tail (ls_log s) [_] E) in Hlog as <-. apply maintained_one in Hm.
      eapply winv_take; [done|done|done|]. cbn [ls_dev lst_set_mem]. rewrite Hd. intros a Hina.
      inversion Hm as [? ? ? Hno|? ? ? ? ? Hf|? ? ? ? ? ? Hf]; subst; [by edestruct Hno|by vm_compute in Hf|].
      cbn [drop_lines c_line]. rewrite Hd, sync_range_event. by rewrite (buf_reached s _ i b d1 a Hmi Hi1 Hal Hina).
Qed.

(** ** Every call the rules allow is a step *)
Definition line_bytes_of (l : Z) : list Z := (fun k => l * CACHELINE_SIZE + Z.of_nat k) <$> seq 0 64.

Lemma line_bytes_of_spec l a : a ∈ line_bytes_of l <-> line_of a = l.
Proof.
  unfold line_bytes_of, line_of. rewrite list_elem_of_fmap. change CACHELINE_SIZE with 64.
  pose proof (Z.div_mod a 64) as Hdm. pose proof (Z.mod_pos_bound a 64) as Hb. split.
  - intros (k & -> & Hk%elem_of_seq). rewrite Z.add_comm, Z.div_add by lia. rewrite Z.div_small by lia. lia.
  - intros <-. exists (Z.to_nat (a mod 64)). split; [lia|]. apply elem_of_seq. lia.
Qed.

Lemma written_total mine c m m' : exists c', written mine c m m' c'.
Proof.
  exists (mkCache (c_ram c) (fun l =>
    if decide (Forall (fun a => byte_at m' a = byte_at m a) (line_bytes_of l)) then c_line c l else Dirty)).
  split; [done|]. intros l. cbn [c_line]. case_decide as HF.
  - left. split; [done|]. intros a Ha. rewrite Forall_forall in HF. by apply HF, line_bytes_of_spec.
  - right. split; [done|]. left. apply not_Forall_Exists in HF; [|apply _]. apply Exists_exists in HF as (a & Ha & Hne).
    exists a. split; [by apply line_bytes_of_spec|done].
Qed.

Lemma maintained_total d E c m : Forall keeps_lines E -> exists c2, maintained d E c m c2 m.
Proof.
  induction 1 as [|e E He _ [c1 IH]]; [by exists c; constructor|]. destruct e as [cl ret].
  assert (Hd : (exists fd a r, Sev cl ret = Sev (SC_gem_sync fd a) (inr r)) \/ forall fd a r, Sev cl ret <> Sev (SC_gem_sync fd a) (inr r)).
  { destruct ret as [e|r]; [by right|]. destruct cl; try (by right). left. by do 3 eexists. }
  destruct Hd as [(fd & a & r & [= -> ->])|Hno].
  - eexists. econstructor; [exact IH|]. by apply mt_clean.
  - eexists. econstructor; [exact IH|]. by apply mt_none.
Qed.

Lemma sees_ram_range rg c m : whole rg -> 0 <= rg.2 -> exists m', sees_ram (reached rg) c m m'.
Proof.
  intros Hw H0. exists (write_bytes m rg.1 ((fun k => c_ram c (rg.1 + Z.of_nat k)) <$> seq 0 (Z.to_nat rg.2))). split; [done|].
  intros a. rewrite byte_at_write, length_fmap, length_seq. pose proof (reached_spec rg a Hw H0) as Hr. unfold inside in Hr.
  destruct (reached rg (line_of a)); case_decide; try (exfalso; intuition (congruence || lia)); [|done].
  rewrite list_lookup_fmap, lookup_seq_lt by lia. cbn. f_equal. lia.
Qed.

Lemma call_step w o :
  winv l0 w -> allowed (w_own w) (w_sess w) o -> api_op_ok o ->
  exists ss' s1 w', api_do (w_sess w) o (w_lib w) = Ok (ss', s1) /\ wcall o w w' /\ w_sess w' = ss'
    /\ ls_dev (w_lib w') = ls_dev s1 /\ w_own w' = w_own w.
Proof.
  destruct w as [s c ss own]. cbn [w_lib w_cache w_sess w_own]. intros Hw Ha Hok.
  destruct (api_do_wp HE l0 _ s o Hl0 (wi_sess _ _ Hw) Hok) as (ssx & s1 & Hx & _). cbn [w_lib w_cache w_sess w_own] in Hx.
  destruct (do_rel own _ ss o s ssx s1 Ha Hx) as (ss' & He & _).
  destruct (written_total (device_line (d_tensors_bo_map (ls_dev s)) own) c (ls_mem s) (ls_mem s1)) as [c1 Hwr].
  assert (HE' : exists E c2 m2, ls_log s1 = E ++ ls_log s /\ maintained (ls_dev s1) E c1 (ls_mem s1) c2 m2).
  { destruct (call_maps s o ss own ss' s1 c Hw Ha He) as [[_ Hcase]|[-> ->]]; [|by exists [], c1, (ls_mem s); split; [|constructor]].
    destruct Hcase as [Ho|(i & b & d & off & cnt & -> & -> & Hi & Hb & Hoff & Hcnt & Hrun)].
    - destruct (cm_log _ _ (steady_api_do ss o Ho s ss' s1 He)) as (E & HEl & HF).
      destruct (maintained_total (ls_dev s1) E c1 (ls_mem s1) HF) as [c2 Hm]. by exists E, c2, (ls_mem s1).
    - destruct (wi_sess _ _ Hw) as [Hmi _]; cbn [w_lib w_cache w_sess w_own] in Hmi.
      destruct (with_data_some own (view_of (ls_mem s) (d_tensors_bo_map (ls_dev s))) ss i b d Hi) as (d1 & Hi1 & _).
      destruct (inval_lines s _ i b d1 off cnt Hmi Hi1 Hoff Hcnt) as (s' & He' & _ & (e & Hd) & Hlog).
      rewrite Hrun in He'. injection He' as <-.
      destruct Hlog as [Hsame|(args & r & Hone & Hfl & Hh & Ho1 & Ho2 & Hlen & _ & _)]; [by exists [], c1, (ls_mem s1); split; [|constructor]|].
      exists [Sev (SC_gem_sync (d_fd (ls_dev s)) args) r]. destruct r as [e'|r].
      + exists c1, (ls_mem s1). split; [done|]. econstructor; [constructor|]. by apply mt_none.
      + destruct (sees_ram_range (sync_range (ls_dev s1) args) c1 (ls_mem s1)) as [m2 Hsee].
        * unfold sync_range. rewrite Hd. cbn. rewrite Hh, Z.eqb_refl. split; [|done]. cbn.
          destruct (mi_tensors _ _ Hmi) as (Hpg & _). cbn in Hpg. apply mod_add_0; [|done].
          eapply mod_0_trans; [|by exists 64|exact Hpg]. done.
        * cbn. lia.
        * eexists _, m2. split; [done|]. econstructor; [constructor|]. by apply mt_drop. }
  destruct HE' as (E & c2 & m2 & Hlog & Hm). exists ss', s1. eexists. split; [done|].
  split; [eapply (call_made o s c ss own ss' s1 c1 E c2 m2 own); try done; constructor|done].
Qed.

(** ** A round trip

    From a cache with no line, a buffer is handed to the device, which writes
    it, and taken back. *)
Lemma quiet_write own s c m' : (forall a, byte_at m' a = byte_at (ls_mem s) a) ->
  written (device_line (d_tensors_bo_map (ls_dev s)) own) c (ls_mem s) m' c.
Proof. intros Hm. split; [done|]. intros l. left. split; [done|]. intros a _. apply Hm. Qed.

Lemma call_accepted s cl : (forall l fd a, exists r, sys l (SC_gem_sync fd a) = inr r) ->
  (exists fd a, cl = SC_gem_sync fd a) -> exists r, after_call s cl = lst_add s (Sev cl (inr r)).
Proof. intros Hacc (fd & a & ->). unfold after_call. destruct (Hacc (ls_log s) fd a) as [r ->]. by exists r. Qed.

Lemma give_step s ss i b d c :
  (forall l fd a, exists r, sys l (SC_gem_sync fd a) = inr r) ->
  mem_inv s ss -> ss_bufs ss !! i = Some (b, d) -> 0 < b_size_words b -> b_size_words b mod CACHELINE_WORDS = 0 ->
  strela_dev_ok (ls_dev s) = true ->
  exists e, wstep (mkW s c ss []) (mkW (lst_add s e) (clean_lines (reached (buf_range (d_tensors_bo_map (ls_dev s)) b)) c (ls_mem s)) ss [b]).
Proof.
  intros Hacc Hm Hi Hpos Hal Hok. destruct (flush_call s ss i b d 0 (b_size_words b) Hm Hi Hok ltac:(lia) Hpos ltac:(lia)) as (_ & _ & Hin & _).
  assert (Heq : line_end 0 (b_size_words b) = b_size_words b).
  { unfold line_end. change CACHELINE_WORDS with 16 in *. pose proof (Z.div_mod (b_size_words b) 16).
    replace (0 + b_size_words b + 16 - 1) with (15 + b_size_words b / 16 * 16) by lia. rewrite Z.div_add by lia. change (15 / 16) with 0. lia. }
  rewrite Heq in Hin. change (line_start 0) with 0 in Hin. destruct (Hin ltac:(lia)) as [He _]. rewrite Z.add_0_r, Z.sub_0_r in He.
  match type of He with _ = Ok (tt, after_call s ?cl) => destruct (call_accepted s cl Hacc ltac:(by do 2 eexists)) as [r Hr] end.
  rewrite Hr in He. eexists. rewrite <- (sync_range_event s b (Z.lor DRM_STRELA_SYNC_FINI DRM_STRELA_SYNC_WRITE)).
  match type of He with _ = Ok (tt, ?s1) => replace s1 with (lst_set_mem s1 (ls_mem s)) at 1 by (by destruct s);
    eapply W_call, (call_made (O_buffer_flush i 0 (b_size_words b)) s c ss [] ss s1 c [_]) end.
  - done.
  - done.
  - cbn [api_do]. unfold do_buffer_sync. rewrite Hi. exact (ret_eq _ (fun _ => ss) s tt _ He).
  - by apply quiet_write.
  - done.
  - econstructor; [constructor|]. by apply (mt_clean (ls_dev s)).
  - by eapply hands_over.
Qed.

Lemma take_step s ss ss1 own i b d d1 c :
  (forall l fd a, exists r, sys l (SC_gem_sync fd a) = inr r) ->
  mem_inv s ss1 -> ss_bufs ss1 !! i = Some (b, d1) -> ss_bufs ss !! i = Some (b, d) -> b ∈ own ->
  0 < b_size_words b -> b_size_words b mod CACHELINE_WORDS = 0 -> strela_dev_ok (ls_dev s) = true ->
  (forall a, byte_at (ls_mem s) a = c_ram c a) ->
  exists e c', wstep (mkW s c ss own) (mkW (lst_add s e) c' ss (filter (fun x => x <> b) own)).
Proof.
  intros Hacc Hm Hi1 Hi Hb Hpos Hal Hok Hram. pose proof (inval_call s ss1 i b d1 0 (b_size_words b) Hm Hi1 Hok ltac:(lia) Hpos ltac:(lia)) as He.
  rewrite Hal in He. change (0 mod CACHELINE_WORDS =? 0) with true in He. cbn [Z.eqb andb] in He. rewrite Z.add_0_r in He.
  match type of He with _ = Ok (tt, after_call s ?cl) => destruct (call_accepted s cl Hacc ltac:(by do 2 eexists)) as [r Hr] end.
  rewrite Hr in He. do 2 eexists.
  match type of He with _ = Ok (tt, ?s1) => replace s1 with (lst_set_mem s1 (ls_mem s)) at 1 by (by destruct s);
    eapply W_call, (call_made (O_buffer_inval i 0 (b_size_words b)) s c ss own ss s1 c [_]) end.
  - destruct (buf_bounds _ _ _ _ _ Hm Hi1) as (_ & _ & _ & _ & Hend & _). pose proof tensor_size_small. pose proof ptr_max_pos.
    destruct (buf_bounds _ _ _ _ _ Hm Hi1) as (_ & Ho & _). unfold sizeof_word in Hend.
    cbn. split_and!; [|lia..]. intros b' d' Hi'. rewrite Hi in Hi'. by injection Hi' as <- <-.
  - done.
  - cbn [api_do]. unfold do_buffer_sync. rewrite Hi. exact (ret_eq _ (fun _ => ss) s tt _ He).
  - by apply quiet_write.
  - done.
  - econstructor; [constructor|]. apply (mt_drop (ls_dev s)); [done|]. split; [done|]. intros a. by case_match.
  - by eapply hands_back.
Qed.

Lemma round_trip s ss i b d ram bytes :
  (forall l fd a, exists r, sys l (SC_gem_sync fd a) = inr r) ->
  sess_inv l0 ss s -> ss_bufs ss !! i = Some (b, d) -> 0 < b_size_words b -> b_size_words b mod CACHELINE_WORDS = 0 ->
  strela_dev_ok (ls_dev s) = true -> Z.of_nat (length bytes) = b_size_words b * sizeof_word ->
  (forall a, byte_at (ls_mem s) a = ram a) ->
  exists w', rtc wstep (mkW s (mkCache ram (fun _ => Absent)) ss []) w' /\ w_own w' = []
    /\ w_sess w' = mkSess (<[i := (b, bytes)]> (ss_bufs ss)) (ss_kernels ss) /\ ls_dev (w_lib w') = ls_dev s.
Proof.
  intros Hacc [Hm Hj] Hi Hpos Hal Hok Hlen Hram. set (c := mkCache ram (fun _ => Absent)).
  set (rg := buf_range (d_tensors_bo_map (ls_dev s)) b). assert (Hrg : rg.2 = Z.of_nat (length bytes)) by done.
  destruct (give_step s ss i b d c Hacc Hm Hi Hpos Hal Hok) as [e1 Hs1]. fold rg in Hs1. set (c1 := clean_lines _ _ _) in Hs1.
  assert (Hc1 : forall l, c_line c1 l = Absent) by (intros l; cbn; by rewrite andb_false_r).
  assert (Hr1 : forall a, c_ram c1 a = ram a) by (intros a; cbn; by rewrite andb_false_r).
  set (ram' := fun a => if decide (inside rg a) then default 0 (bytes !! Z.to_nat (a - rg.1)) else c_ram c1 a).
  set (m2 := write_bytes (ls_mem s) rg.1 bytes).
  assert (Hm2 : forall a, byte_at m2 a = ram' a).
  { intros a. unfold m2, ram'. rewrite byte_at_write. unfold inside. rewrite Hrg.
    destruct (decide _); [done|]. by rewrite Hr1, Hram. }
  assert (Hs2 := W_device (lst_add s e1) c1 ss [b] i b d ram' m2 ltac:(set_solver) Hi).
  cbn [lst_add ls_dev ls_mem] in Hs2. fold rg in Hs2. cbv zeta in Hs2.
  specialize (Hs2 ltac:(intros a Ha; unfold ram'; by rewrite decide_False)).
  specialize (Hs2 ltac:(split; [done|]; intros a; rewrite Hc1, bool_decide_true by done; apply Hm2)).
  assert (Hd : (fun k => ram' (rg.1 + Z.of_nat k)) <$> seq 0 (Z.to_nat rg.2) = bytes).
  { apply list_eq. intros k. rewrite list_lookup_fmap. rewrite Hrg, Nat2Z.id.
    destruct (decide (k < length bytes)%nat) as [Hk|Hk].
    - rewrite lookup_seq_lt by done. cbn [fmap option_fmap option_map Nat.add]. destruct (lookup_lt_is_Some_2 bytes k Hk) as [x Hx]. rewrite Hx. unfold ram'.
      rewrite decide_True by (unfold inside; rewrite Hrg; lia).
      replace (Z.to_nat (rg.1 + Z.of_nat k - rg.1)) with k by lia. by rewrite Hx.
    - by rewrite lookup_seq_ge, lookup_ge_None_2 by lia. }
  rewrite Hd in Hs2. set (ss2 := mkSess _ _) in Hs2. set (s2 := lst_set_mem _ m2) in Hs2.
  assert (Hm3 : mem_inv s2 ss2).
  { pose proof (mem_inv_scribble s ss i b d m2 bytes Hm Hi eq_refl) as Hn. fold rg in Hn.
    apply (mem_inv_log (lst_set_mem s m2) ss2 e1). apply Hn; [|rewrite Hlen; done|by apply read_write_same].
    intros a Ha. unfold m2. rewrite byte_at_write. unfold inside in Ha. rewrite Hrg in Ha.
    by rewrite decide_False. }
  assert (Hi2 : ss_bufs ss2 !! i = Some (b, bytes)) by (apply list_lookup_insert_eq; by eapply lookup_lt_Some).
  destruct (take_step s2 ss2 ss2 [b] i b bytes bytes (mkCache ram' (c_line c1)) Hacc Hm3 Hi2 Hi2 ltac:(set_solver) Hpos Hal Hok Hm2) as (e3 & c3 & Hs3).
  eexists. split; [eapply rtc_l; [exact Hs1|]; eapply rtc_l; [exact Hs2|]; by apply rtc_once|]. split_and!; [|done|done]. cbn [w_own].
  rewrite filter_cons_False; [done|]. intros H. by apply H.
Qed.

(** C5: The library makes incoherent memory look coherent. Take any state of a
    session whose device has been handed no buffer, with a cache whose clean
    and absent lines agree with RAM. Let cache lines be filled, written back
    and evicted at any time; let the device write anything to the buffers it
    was handed, at any time; let the client make any calls, leaving the
    device's buffers alone between a successful flush of all of one and a
    successful invalidate of all of it. Then the CPU reads from every buffer
    of the client what was written to it last, by the client or by the device
    before it was taken back; RAM holds in every buffer of the device what was
    in it when it was handed over or what the device wrote since; the header
    the allocator keeps before every buffer survives, so the address of a
    buffer still gives its handle back; and every further call returns. The
    calls are those of a session ([api_op], so not [strela_execute]), under the
    same conditions: buffer requests that do not wrap ([api_op_ok]), no signal
    during an endless wait ([Undisturbed]), and a fence export right after a
    close that succeeds ([HE]; [resubmit_double_close] shows what happens
    otherwise). *)
Theorem memory_looks_coherent w w' :
  w_own w = [] -> sess_inv l0 (w_sess w) (w_lib w) ->
  (forall a, c_line (w_cache w) (line_of a) <> Dirty -> byte_at (ls_mem (w_lib w)) a = c_ram (w_cache w) a) ->
  rtc wstep w w' ->
  (forall i b d, ss_bufs (w_sess w') !! i = Some (b, d) -> b ∉ w_own w' -> strela_dev_ok (ls_dev (w_lib w')) = true ->
     exists bytes, strela_buffer_get_data b (w_lib w') = Ok (Some bytes, w_lib w') /\ list.take (length d) bytes = d)
  /\ (forall i b d k x, ss_bufs (w_sess w') !! i = Some (b, d) -> b ∈ w_own w' -> d !! k = Some x ->
     c_ram (w_cache w') (d_tensors_bo_map (ls_dev (w_lib w')) + b_offset_words b * sizeof_word + Z.of_nat k) = x)
  /\ (forall i b d, ss_bufs (w_sess w') !! i = Some (b, d) -> strela_dev_ok (ls_dev (w_lib w')) = true ->
     exists p, strela_buffer_to_ptr b (w_lib w') = Ok (p, w_lib w') /\ strela_buffer_from_ptr p (w_lib w') = Ok (b, w_lib w'))
  /\ (forall o, allowed (w_own w') (w_sess w') o -> api_op_ok o ->
     exists ss2 s2 w2, api_do (w_sess w') o (w_lib w') = Ok (ss2, s2) /\ wstep w' w2 /\ w_sess w2 = ss2).
Proof.
  intros Hown Hs Hcoh Hr.
  pose proof (winv_start l0 w Hown Hs Hcoh) as Hw. clear Hown Hs Hcoh. assert (Hw' : winv l0 w') by (induction Hr; [done|by eauto using winv_step]). clear Hw Hr w.
  split; [|split; [|split]].
  - intros i b d Hi Hb Hok. destruct (wi_sess _ _ Hw') as [Hm _].
    destruct (with_data_some (w_own w') (view_of (ls_mem (w_lib w')) (d_tensors_bo_map (ls_dev (w_lib w')))) _ i b d Hi) as (d1 & Hi1 & _ & Hd1).
    rewrite (Hd1 Hb) in Hi1. destruct (buffer_get_ok _ _ _ _ _ Hm Hi1 Hok) as (bytes & He & _ & Ht). by exists bytes.
  - intros i b d k x Hi Hb Hk. destruct (wi_ram _ _ Hw' i b d Hi Hb) as [_ H]. by apply H.
  - intros i b d Hi Hok. destruct (wi_sess _ _ Hw') as [Hm _].
    destruct (with_data_some (w_own w') (view_of (ls_mem (w_lib w')) (d_tensors_bo_map (ls_dev (w_lib w')))) _ i b d Hi) as (d1 & Hi1 & _).
    by eapply buffer_ptr_roundtrip.
  - intros o Ha Hok. destruct (call_step w' o Hw' Ha Hok) as (ss2 & s2 & w2 & He & Hc & Hs & _). exists ss2, s2, w2.
    split; [done|]. split; [by apply (W_call o)|done].
Qed.
End Calls.
