(* ===== verification/LibPublished.v ===== *)
(** * What a client publishes reaches the device

    Kernels and input buffers are read by the device while the CPU keeps them in
    its cache. [strela_kernel_set] writes a kernel back by itself, a buffer is
    flushed by the client; from then on RAM holds what was written for as long
    as the client does not change it, whatever lines are evicted and whatever
    the device writes elsewhere. *)
From S2P Require Export LibCoherent.

(** A kernel or a buffer, with the bytes written to it. *)
Variant published := P_kernel (h : Z) (d : list Z) | P_buffer (b : strela_buffer) (d : list Z).

Definition contents (p : published) : list Z := match p with P_kernel _ d | P_buffer _ d => d end.

Definition place (dv : strela_dev) (p : published) : Z :=
  match p with
  | P_kernel h d => kernel_addr (d_kernels_bo_map dv) (h, d)
  | P_buffer b _ => d_tensors_bo_map dv + b_offset_words b * sizeof_word
  end.

(** The client holds it with these contents, and the device may not write it. *)
Definition holds (p : published) (w : world) : Prop :=
  match p with
  | P_kernel h d => exists i, ss_kernels (w_sess w) !! i = Some (h, d)
  | P_buffer b d => (exists i, ss_bufs (w_sess w) !! i = Some (b, d)) /\ b ∉ w_own w
  end.

Definition in_ram (p : published) (w : world) : Prop :=
  forall k x, contents p !! k = Some x -> c_ram (w_cache w) (place (ls_dev (w_lib w)) p + Z.of_nat k) = x.

(** The calls that publish: loading a kernel, and flushing all of a buffer that
    stays with the client. *)
Inductive publishes (w w' : world) : api_op -> published -> Prop :=
| pub_kernel i h old data :
    ss_kernels (w_sess w) !! i = Some (h, old) -> KERNEL_BYTES <= Z.of_nat (length data) ->
    publishes w w' (O_kernel_set i data) (P_kernel h (list.take (Z.to_nat KERNEL_BYTES) data))
| pub_buffer i b d :
    ss_bufs (w_sess w) !! i = Some (b, d) -> 0 < b_size_words b -> b ∉ w_own w' ->
    publishes w w' (O_buffer_flush i 0 (b_size_words b)) (P_buffer b d).

(** The two buffer objects of a device, and where they are mapped. *)
Definition same_bos (d d' : strela_dev) : Prop :=
  d_tensors_bo_handle d' = d_tensors_bo_handle d /\ d_tensors_bo_map d' = d_tensors_bo_map d
  /\ d_kernels_bo_handle d' = d_kernels_bo_handle d /\ d_kernels_bo_map d' = d_kernels_bo_map d.

#[export] Instance same_bos_preorder : PreOrder same_bos.
Proof. split; [by intros d|]. intros d1 d2 d3 (H1 & H2 & H3 & H4) (G1 & G2 & G3 & G4). split_and!; congruence. Qed.

Section Published.
Context `{A : abi} `{OS : Sys} `{HL : !SysLaws OS} `{HU : !Undisturbed OS}.
(** A fence can be exported when a descriptor was closed just before. *)
Context (HE : forall l fd r dfd h, exists r', sys (Sev (SC_close fd) (inr r) :: l) (SC_handle_to_fd dfd h) = inr r').
Context (l0 : list sevent) (Hl0 : log_ok l0).

(** ** Where published bytes are *)
Lemma seen w p k x :
  winv l0 w -> holds p w -> contents p !! k = Some x -> byte_at (ls_mem (w_lib w)) (place (ls_dev (w_lib w)) p + Z.of_nat k) = x.
Proof.
  intros Hw Hp Hk. destruct (wi_sess _ _ Hw) as [Hm _]. pose proof (lookup_lt_Some _ _ _ Hk) as Hlt.
  enough (Hr : read_bytes (ls_mem (w_lib w)) (place (ls_dev (w_lib w)) p) (length (contents p)) = contents p).
  { rewrite <- Hr, read_bytes_lookup in Hk by done. by injection Hk. }
  destruct p as [h d|b d]; cbn [contents place holds] in *.
  - destruct Hp as [i Hi]. pose proof (mi_kerns _ _ Hm) as HF. rewrite Forall_lookup in HF. by destruct (HF _ _ Hi) as (_ & _ & H).
  - destruct Hp as [[i Hi] Hb].
    destruct (with_data_some (w_own w) (view_of (ls_mem (w_lib w)) (d_tensors_bo_map (ls_dev (w_lib w)))) _ i b d Hi) as (d1 & Hi1 & _ & Hd1).
    rewrite (Hd1 Hb) in Hi1. by destruct (mem_inv_data _ _ _ _ _ Hm Hi1).
Qed.

(** The device was handed none of them. *)
Lemma not_owned w p k x b :
  winv l0 w -> holds p w -> contents p !! k = Some x -> b ∈ w_own w ->
  ~ inside (buf_range (d_tensors_bo_map (ls_dev (w_lib w))) b) (place (ls_dev (w_lib w)) p + Z.of_nat k).
Proof.
  intros Hw Hp Hk Hb. destruct (wi_sess _ _ Hw) as [Hm _]. pose proof (lookup_lt_Some _ _ _ Hk) as Hlt.
  set (f := view_of (ls_mem (w_lib w)) (d_tensors_bo_map (ls_dev (w_lib w)))) in *.
  destruct (wi_own _ _ Hw b Hb) as ((j & e & Hj) & _). destruct (with_data_some (w_own w) f _ j b e Hj) as (e1 & Hj1 & _).
  destruct p as [h d|b' d]; cbn [contents place holds] in *.
  - destruct Hp as [i Hi]. pose proof (mi_kerns _ _ Hm) as HF. rewrite Forall_lookup in HF. destruct (HF _ _ Hi) as (Hh & Hlen & _).
    destruct (kernel_in (d_kernels_bo_map (ls_dev (w_lib w))) (h, d) Hh) as [Hlo Hhi]. cbn [snd] in Hlen.
    destruct (buf_bounds _ _ _ _ _ Hm Hj1) as (_ & Ho & Hs & _ & Hend & _). pose proof (mi_apart _ _ Hm) as Hap.
    unfold apart, inside, buf_range, sizeof_word in *. cbn in Hap |- *. lia.
  - destruct Hp as [[i Hi] Hn]. destruct (with_data_some (w_own w) f _ i b' d Hi) as (d1 & Hi1 & _ & Hd1). rewrite (Hd1 Hn) in Hi1.
    destruct (mem_inv_data _ _ _ _ _ Hm Hi1) as [Hl _].
    apply (bufs_inside _ _ i j b' b d e1 _ Hm Hi1 Hj1).
    + intros ->. rewrite Hi in Hj. by injection Hj as -> _.
    + unfold inside, buf_range. cbn. lia.
Qed.

(** ** What a step does to RAM *)
Lemma maintained_ram d E c m c2 m2 :
  maintained d E c m c2 m2 -> Forall keeps_lines E ->
  m2 = m /\ forall a, c_ram c2 a = c_ram c a \/ c_ram c2 a = byte_at m a.
Proof.
  induction 1 as [c m|e E c m c1 m1 c2 m2 Hm IH Hmt]; intros HF; [split; [done|by left]|].
  apply Forall_cons in HF as [He HF]. destruct (IH HF) as [-> Hr].
  destruct Hmt as [e c1 m _|fd a r c1 m Hf|fd a r c1 m m' Hf _].
  - by split.
  - split; [done|]. intros x. cbn [clean_lines c_ram]. case_match; [by right|apply Hr].
  - exfalso. cbn in He. rewrite Hf in He. by vm_compute in He.
Qed.

Lemma dropped_ram d e c m c2 m2 :
  maintained d [e] c m c2 m2 ->
  (forall fd a r, e = Sev (SC_gem_sync fd a) r -> gs_flags a = Z.lor DRM_STRELA_SYNC_PREP DRM_STRELA_SYNC_READ) -> c_ram c2 = c_ram c.
Proof.
  intros Hm%maintained_one Hf. destruct Hm as [e c m _|fd a r c m Hg|fd a r c m m' _ _]; [done| |done].
  rewrite (Hf fd a (inr r) eq_refl) in Hg. by vm_compute in Hg.
Qed.

Lemma call_effect o w w' :
  winv l0 w -> wcall o w w' ->
  same_bos (ls_dev (w_lib w)) (ls_dev (w_lib w'))
  /\ forall a, c_ram (w_cache w') a = c_ram (w_cache w) a \/ c_ram (w_cache w') a = byte_at (ls_mem (w_lib w')) a.
Proof.
  intros Hw Hc. destruct Hc as [s c ss own ss' s1 c1 E c2 m2 own' Ha Hok He [Hram _] Hlog Hm _].
  cbn [w_lib w_cache w_sess w_own ls_dev ls_mem lst_set_mem]. rewrite <- Hram.
  destruct (call_maps l0 s o ss own ss' s1 c Hw Ha He) as [[_ [Ho|(i & b & d & off & cnt & -> & -> & Hi & Hb & Hoff & Hcnt & Hrun)]]|[-> ->]].
  - destruct (steady_api_do ss o Ho s ss' s1 He) as [H1 H2 H3 H4 (E' & HE' & HF)]. split; [done|].
    rewrite HE' in Hlog. apply app_inv_tail in Hlog as <-. by destruct (maintained_ram _ _ _ _ _ _ Hm HF) as [-> Hr].
  - destruct (wi_sess _ _ Hw) as [Hmi _]; cbn [w_lib w_cache w_sess w_own] in Hmi.
    destruct (with_data_some own (view_of (ls_mem s) (d_tensors_bo_map (ls_dev s))) ss i b d Hi) as (d1 & Hi1 & _).
    destruct (inval_lines s _ i b d1 off cnt Hmi Hi1 Hoff Hcnt) as (s' & He' & _ & (e & Hd) & Hcase).
    rewrite Hrun in He'. injection He' as <-. split; [by rewrite Hd|]. left.
    destruct Hcase as [Hsame|(args & r & Hone & Hfl & _)].
    + rewrite Hsame in Hlog. apply (app_inv_tail (ls_log s) [] E) in Hlog as <-. by inversion Hm; subst.
    + rewrite Hone in Hlog. apply (app_inv_tail (ls_log s) [_] E) in Hlog as <-.
      rewrite (dropped_ram _ _ _ _ _ _ Hm); [done|]. by intros ? ? ? [= _ <- _].
  - apply (app_inv_tail (ls_log s) [] E) in Hlog as <-. inversion Hm; subst. split; [done|by left].
Qed.

Lemma step_effect w w' :
  winv l0 w -> wstep w w' ->
  same_bos (ls_dev (w_lib w)) (ls_dev (w_lib w'))
  /\ forall a, (forall b, b ∈ w_own w -> ~ inside (buf_range (d_tensors_bo_map (ls_dev (w_lib w))) b) a) ->
       c_ram (w_cache w') a = c_ram (w_cache w) a \/ c_ram (w_cache w') a = byte_at (ls_mem (w_lib w)) a
       \/ c_ram (w_cache w') a = byte_at (ls_mem (w_lib w')) a.
Proof.
  intros Hw Hs. destruct Hs as [s c ss own c' m' Hc|s c ss own i b d ram' m' Hb Hi r Hram Hsee|o w w' Hc].
  - split; [done|]. intros a _. cbn [w_lib w_cache ls_mem lst_set_mem].
    destruct Hc as [c m l _|c m l|c m m' l _ _]; [by left| |by left]. cbn [clean_lines c_ram]. case_match; [by right; left|by left].
  - split; [done|]. intros a Ha. left. by apply Hram, Ha.
  - destruct (call_effect o w w' Hw Hc) as [Hd Hr]. split; [done|]. intros a _. destruct (Hr a); [by left|by right; right].
Qed.

Lemma place_same d d' p : same_bos d d' -> place d' p = place d p.
Proof. intros (_ & Ht & _ & Hk). destruct p; cbn; unfold kernel_addr; by rewrite ?Ht, ?Hk. Qed.

Lemma in_ram_step p w w' : winv l0 w -> wstep w w' -> holds p w -> holds p w' -> in_ram p w -> in_ram p w'.
Proof.
  intros Hw Hs Hp Hp' Hr k x Hk. destruct (step_effect w w' Hw Hs) as [Hd Hram].
  pose proof (seen w' p k x (winv_step HE l0 Hl0 w w' Hw Hs) Hp' Hk) as Hv'. rewrite (place_same _ _ p Hd) in *.
  destruct (Hram (place (ls_dev (w_lib w)) p + Z.of_nat k)) as [->|[->| ->]].
  - intros b Hb. by eapply not_owned.
  - by apply Hr.
  - by apply seen.
  - done.
Qed.

(** ** Publishing *)
(** Bytes whose lines are not dirty are in RAM. *)
Lemma clean_in_ram p w :
  winv l0 w -> holds p w ->
  (forall k x, contents p !! k = Some x -> c_line (w_cache w) (line_of (place (ls_dev (w_lib w)) p + Z.of_nat k)) <> Dirty) -> in_ram p w.
Proof.
  intros Hw Hp Hc k x Hk. rewrite <- (wi_coherent _ _ Hw); [by apply seen|by eapply Hc|].
  intros b Hb. by eapply not_owned.
Qed.

Lemma kernel_set_event s kernel data s1 :
  strela_kernel_set kernel data s = Ok (tt, s1) -> strela_dev_ok (ls_dev s1) = true ->
  strela_dev_ok (ls_dev s) = true /\ ls_dev s1 = ls_dev s
  /\ exists r, ls_log s1 = Sev (SC_gem_sync (d_fd (ls_dev s)) (mkGemSync (d_kernels_bo_handle (ls_dev s))
       (Z.lor DRM_STRELA_SYNC_FINI DRM_STRELA_SYNC_WRITE)
       (wptr (u32 (k_handle kernel * STRELA_KERNEL_SIZE) * sizeof_word)) (wptr (STRELA_KERNEL_SIZE * sizeof_word)))) (inr r) :: ls_log s.
Proof.
  intros He Hok1. unfold strela_kernel_set in He. apply mbind_inv in He as ([] & s2 & H1 & H2).
  destruct (strela_dev_ok (ls_dev s)) eqn:Hok.
  2: { rewrite when_not_ok in H1 by done. injection H1 as <-. rewrite when_not_ok in H2 by done. injection H2 as <-. congruence. }
  unfold when_ok at 1, mbind_ at 1, dev_ at 1 in H1. rewrite Hok in H1. destruct (kernel_bad kernel).
  { unfold set_errnum, LibData.update_dev, modify_ in H1. injection H1 as <-. rewrite when_not_ok in H2 by (by apply errnum_not_ok).
    injection H2 as <-. cbn in Hok1. by rewrite errnum_not_ok in Hok1. }
  injection H1 as <-. unfold when_ok at 1, mbind_ at 1, dev_ at 1 in H2. rewrite Hok in H2.
  apply mbind_inv in H2 as (src & s3 & H3 & H2). unfold caller_array in H3. destruct (_ <=? _); [|done]. injection H3 as _ <-.
  apply mbind_inv in H2 as ([] & s3 & H3 & H2). unfold on_mem in H3. destruct (write_data _ _ _) as [[[] m]|]; [|done]. injection H3 as <-.
  rewrite sync_call in H2 by done. injection H2 as <-. destruct (after_call_ok _ _ Hok1) as (r & Hr & Hd).
  split; [done|]. split; [done|]. by exists r.
Qed.

(** A write-back leaves no line of its range dirty. *)
Lemma cleaned d fd args r c m c2 m2 a :
  maintained d [Sev (SC_gem_sync fd args) (inr r)] c m c2 m2 ->
  gs_flags args = Z.lor DRM_STRELA_SYNC_FINI DRM_STRELA_SYNC_WRITE ->
  whole (sync_range d args) -> inside (sync_range d args) a -> c_line c2 (line_of a) <> Dirty.
Proof.
  intros Hm%maintained_one Hf Hwh Hin.
  inversion Hm as [? ? ? Hno|? ? ? ? ? _|? ? ? ? ? ? Hg]; subst; [by edestruct Hno| |rewrite Hf in Hg; by vm_compute in Hg].
  cbn [clean_lines c_line]. rewrite (proj2 (reached_spec (sync_range d args) a Hwh ltac:(unfold inside in Hin; lia)) Hin).
  cbn [andb]. by case_bool_decide.
Qed.

Lemma publish_kernel w i data w' h old :
  d_kernels_bo_handle (ls_dev (w_lib w)) <> d_tensors_bo_handle (ls_dev (w_lib w)) ->
  winv l0 w -> winv l0 w' -> wcall (O_kernel_set i data) w w' -> strela_dev_ok (ls_dev (w_lib w')) = true ->
  ss_kernels (w_sess w) !! i = Some (h, old) -> KERNEL_BYTES <= Z.of_nat (length data) ->
  let p := P_kernel h (list.take (Z.to_nat KERNEL_BYTES) data) in holds p w' /\ in_ram p w'.
Proof.
  intros Hne Hw Hw' Hc Hok1 Hi Hlen p. destruct Hc as [s c ss own ss' s1 c1 E c2 m2 own' Ha Hok He Hwr Hlog Hm _].
  cbn [w_lib w_cache w_sess w_own ls_dev lst_set_mem] in *. cbn [api_do] in He. unfold do_kernel_set in He. rewrite Hi in He.
  destruct (Z.ltb_spec (Z.of_nat (length data)) KERNEL_BYTES); [lia|]. apply dev_ret_inv in He as ([[] He] & ->).
  destruct (kernel_set_event _ _ _ _ He Hok1) as (Hok0 & Hd & r & Hr). rewrite Hok0 in *. rewrite Hr in Hlog.
  apply (app_inv_tail (ls_log s) [_] E) in Hlog as <-. assert (Hp : holds p (mkW (lst_set_mem s1 m2) c2 (mkSess (ss_bufs ss) (<[i := (h, list.take (Z.to_nat KERNEL_BYTES) data)]> (ss_kernels ss))) own')).
  { exists i. cbn. apply list_lookup_insert_eq. by eapply lookup_lt_Some. }
  split; [done|]. apply clean_in_ram; [done|done|]. intros k x Hk. pose proof (lookup_lt_Some _ _ _ Hk) as Hlt.
  cbn [w_lib w_cache w_sess w_own ls_dev lst_set_mem contents place p] in *. rewrite length_take in Hlt.
  destruct (wi_sess _ _ Hw) as [Hmi _]; cbn [w_lib w_cache w_sess w_own] in Hmi.
  pose proof (mi_kerns _ _ Hmi) as HF. rewrite Forall_lookup in HF. destruct (HF i _ Hi) as (Hh & _ & _). cbn [fst] in Hh.
  destruct (mi_kernels _ _ Hmi) as (Hpg & _). cbn in Hpg. destruct (kernel_handle _ _ _ Hmi Hh) as (_ & _ & Hu). pose proof ptr_max_pos.
  eapply (cleaned _ _ _ _ _ _ _ _ _ Hm eq_refl); rewrite Hd; unfold sync_range; cbn [gs_handle gs_offset gs_length k_handle];
    rewrite (proj2 (Z.eqb_neq _ _) Hne), Hu; change (STRELA_KERNEL_SIZE * sizeof_word) with 320; change STRELA_KERNEL_SIZE with 80;
    rewrite !wptr_small by (unfold sizeof_word; lia).
  - split; cbn [fst snd]; [|done]. apply mod_add_0; [eapply mod_0_trans; [|by exists 64|exact Hpg]; done|].
    change CACHELINE_SIZE with 64. replace (h * 80 * sizeof_word) with (h * 5 * 64) by (unfold sizeof_word; lia). by apply Z_mod_mult.
  - unfold inside, kernel_addr. cbn [fst snd]. change KERNEL_BYTES with 320 in *. unfold sizeof_word. lia.
Qed.

Lemma publish_buffer w i w' b d :
  winv l0 w -> winv l0 w' -> wcall (O_buffer_flush i 0 (b_size_words b)) w w' -> strela_dev_ok (ls_dev (w_lib w')) = true ->
  ss_bufs (w_sess w) !! i = Some (b, d) -> 0 < b_size_words b -> b ∉ w_own w' ->
  holds (P_buffer b d) w' /\ in_ram (P_buffer b d) w'.
Proof.
  intros Hw Hw' Hc Hok1 Hi Hpos Hn. destruct Hc as [s c ss own ss' s1 c1 E c2 m2 own' Ha Hok He Hwr Hlog Hm _].
  cbn [w_lib w_cache w_sess w_own ls_dev lst_set_mem] in *. cbn [api_do] in He. unfold do_buffer_sync in He. rewrite Hi in He.
  apply ret_inv in He as ([] & He & ->). destruct (wi_sess _ _ Hw) as [Hmi _]; cbn [w_lib w_cache w_sess w_own] in Hmi.
  destruct (with_data_some own (view_of (ls_mem s) (d_tensors_bo_map (ls_dev s))) ss i b d Hi) as (d1 & Hi1 & _).
  destruct (whole_flush s _ i b d1 s1 Hmi Hi1 Hpos He Hok1) as (Hal & Hd & r & Hr). rewrite Hr in Hlog.
  apply (app_inv_tail (ls_log s) [_] E) in Hlog as <-. assert (Hp : holds (P_buffer b d) (mkW (lst_set_mem s1 m2) c2 ss own')) by (split; [by exists i|done]).
  split; [done|]. apply clean_in_ram; [done|done|]. intros k x Hk. pose proof (lookup_lt_Some _ _ _ Hk) as Hlt.
  cbn [w_lib w_cache w_sess w_own ls_dev lst_set_mem contents place] in *. unfold sync_event in Hm.
  destruct (wi_sess _ _ Hw') as [Hmi' _]; cbn [w_lib w_cache w_sess w_own] in Hmi'.
  destruct (with_data_some own' (view_of m2 (d_tensors_bo_map (ls_dev s1))) ss i b d Hi) as (d2 & Hi2 & _ & Hd2). rewrite (Hd2 Hn) in Hi2.
  destruct (mem_inv_data _ _ _ _ _ Hmi' Hi2) as [Hl _].
  eapply (cleaned _ _ _ _ _ _ _ _ _ Hm eq_refl); rewrite Hd, sync_range_event.
  - by eapply buf_whole.
  - unfold inside, buf_range. cbn. lia.
Qed.

Lemma reached_inv w w' : winv l0 w -> rtc wstep w w' -> winv l0 w' /\ same_bos (ls_dev (w_lib w)) (ls_dev (w_lib w')).
Proof.
  intros Hw Hr. induction Hr as [w|w w1 w' Hs Hr IH]; [done|].
  destruct (IH (winv_step HE l0 Hl0 w w1 Hw Hs)) as [Hw' Hb]. split; [done|]. etrans; [by apply step_effect|done].
Qed.

(** A step after which the client still holds what was published. *)
Definition keeping (p : published) (w w' : world) : Prop := wstep w w' /\ holds p w'.

(** C6: What a client publishes is there when the device reads it. Take any
    state of a session on incoherent memory whose device has been handed no
    buffer and whose two buffer objects have different handles; let anything
    happen (calls, cache lines filled, written back and evicted, writes of the
    device), then let the client load a kernel, which needs no sync of its own,
    or flush a whole buffer, and find no error. Then RAM holds the bytes of the
    kernel or the buffer where the job requests say they are, and keeps holding
    them through whatever happens next, until the client writes, frees or hands
    over the kernel or the buffer. Calls and conditions are those of a session
    ([api_op], [Undisturbed], [HE]). *)
Theorem published_reaches_device w w1 o w2 w3 p :
  w_own w = [] -> sess_inv l0 (w_sess w) (w_lib w) ->
  (forall a, c_line (w_cache w) (line_of a) <> Dirty -> byte_at (ls_mem (w_lib w)) a = c_ram (w_cache w) a) ->
  d_kernels_bo_handle (ls_dev (w_lib w)) <> d_tensors_bo_handle (ls_dev (w_lib w)) ->
  rtc wstep w w1 ->
  wcall o w1 w2 -> publishes w1 w2 o p -> strela_dev_ok (ls_dev (w_lib w2)) = true ->
  rtc (keeping p) w2 w3 ->
  forall k x, contents p !! k = Some x -> c_ram (w_cache w3) (place (ls_dev (w_lib w3)) p + Z.of_nat k) = x.
Proof.
  intros Hown Hs Hcoh Hne Hr1 Hc Hp Hok Hr3. destruct (reached_inv w w1 (winv_start l0 w Hown Hs Hcoh) Hr1) as [Hw1 Hb].
  pose proof (winv_step HE l0 Hl0 w1 w2 Hw1 (W_call o w1 w2 Hc)) as Hw2.
  assert (H2 : holds p w2 /\ in_ram p w2).
  { destruct Hp as [i h old data Hi Hlen|i b d Hi Hpos Hn].
    - apply (publish_kernel w1 i data w2 h old); try done. by destruct Hb as (-> & _ & -> & _).
    - by apply (publish_buffer w1 i w2 b d). }
  clear Hown Hs Hcoh Hne Hr1 Hc Hp Hok Hw1 Hb. change (in_ram p w3). destruct H2 as [Hp2 H2].
  induction Hr3 as [w2|w2 w4 w3 [Hs4 Hp4] Hr3 IH]; [done|].
  apply IH; [by eapply winv_step|done|]. by eapply in_ram_step.
Qed.
End Published.
