(* ===== verification/LibExec.v ===== *)
(** * Executing a job

    The interface with one job: [strela_execute] submits the job, waits for it
    and answers its state. *)
From S2P Require Export LibThms.

Section Execute.
Context `{A : abi} `{OS : Sys} `{HL : !SysLaws OS} `{HU : !Undisturbed OS}.

(** A fence can be exported when a descriptor was closed just before. *)
Context (HE : forall l fd r dfd h, exists r', sys (Sev (SC_close fd) (inr r) :: l) (SC_handle_to_fd dfd h) = inr r').

(** What one look at a fence finds: it is not ready (a signal came first, or
    the time was up), the look fails, or the job is done with a status. *)
Variant outcome := NotReady | LookFailed | Finished (status : Z).

Definition look (l : list sevent) (fd t : Z) : outcome :=
  match sys l (SC_poll fd t) with
  | inl e => if e =? EINTR then NotReady else LookFailed
  | inr (n, z) =>
      if n =? 0 then NotReady else
      match sys (Sev (SC_poll fd t) (inr (n, z)) :: l) (SC_file_info fd) with
      | inl _ => LookFailed
      | inr (status, _) => Finished status
      end
  end.

(** After the submission, the wait of two seconds on the job's fence ends with
    the fence not ready, and the poll that follows does not find the job done
    either. *)
Definition stuck (job : strela_job) (s : lst) : Prop :=
  strela_dev_ok (ls_dev s) = true /\ exists x, d_jobs (ls_dev s) !! Z.to_nat (jh_handle job) = Some x
    /\ let c := SC_poll (sl_fence_fd x) 2000 in
       look (ls_log s) (sl_fence_fd x) 2000 = NotReady
       /\ forall st, look (Sev c (sys (ls_log s) c) :: ls_log s) (sl_fence_fd x) 0 <> Finished st.

(** One look at a submitted job. *)
Lemma update_looks s i x t :
  d_jobs (ls_dev s) !! i = Some x -> sl_phase x = STRELA_JOB_SUBMITTED ->
  let c := SC_poll (sl_fence_fd x) t in
  exists s', strela_job_update i t s = Ok (tt, s')
    /\ match look (ls_log s) (sl_fence_fd x) t with
       | NotReady => s' = lst_add s (Sev c (sys (ls_log s) c))
       | LookFailed => strela_dev_ok (ls_dev s') = false /\ d_jobs (ls_dev s') !! i = Some x
       | Finished st => exists y, d_jobs (ls_dev s') !! i = Some y /\ sl_phase y = STRELA_JOB_DONE
       end.
Proof.
  intros Hx Hph c. unfold strela_job_update, get_slot, mbind_, dev_, assert_, sys_, mret_. rewrite Hx, Hph.
  cbn [phase_num]. change (1 <? 2) with true. cbv iota. rewrite bool_decide_false by done.
  unfold mret_. cbv beta iota zeta. fold c. unfold look. fold c. destruct (sys (ls_log s) c) as [e|[n z]] eqn:Hr.
  - destruct (Z.eqb_spec e EINTR) as [->|Hne]; cbn [negb]; (eexists; split; [reflexivity|]); [done|].
    apply law_errno in Hr. cbn. split; [apply errnum_not_ok; lia|done].
  - destruct (Z.eqb_spec n 0) as [->|Hne]; [by eexists|]. cbn [ls_log lst_add].
    destruct (sys _ (SC_file_info (sl_fence_fd x))) as [e|[status w]] eqn:He;
      cbv beta iota zeta; (eexists; split; [reflexivity|]).
    + apply law_errno in He. cbn. split; [apply errnum_not_ok; lia|done].
    + eexists. cbn. by rewrite (alter_insert _ _ _ _ Hx), list_lookup_insert_eq by (by apply lookup_lt_Some in Hx).
Qed.

(** What follows the submission in [strela_execute]. *)
Definition finish_job (job : strela_job) : M lst strela_job_state :=
  do! strela_job_wait job 2000 in
  let! state := strela_job_poll job in
  do! assert_ (negb (bool_decide (state = STRELA_JOB_PENDING))) in
  mret_ state.

(** The answer of [finish_job], when it gives one. *)
Definition answered (l0 : list sevent) (job : strela_job) (st : strela_job_state) (s' : lst) : Prop :=
  job_inv l0 s' /\ st <> STRELA_JOB_PENDING
  /\ (st = STRELA_JOB_OK -> exists x, d_jobs (ls_dev s') !! Z.to_nat (jh_handle job) = Some x
        /\ sl_phase x = STRELA_JOB_DONE /\ 0 < sl_status x).

Lemma finish_failed l0 s job : job_inv l0 s -> strela_dev_ok (ls_dev s) = false -> wp (finish_job job) (answered l0 job) s.
Proof.
  intros Hi Hok. unfold finish_job. apply wp_bind. eexists _, _. split; [by apply wait_not_ok|]. apply wp_bind.
  eexists _, _. split; [by apply poll_not_ok|]. apply wp_bind, wp_assert; [done|]. by apply wp_ret.
Qed.

Section Job.
Context (l0 : list sevent) (job : strela_job) (x : strela_job_slot).
Context (Hv : jh_valid job = true) (Hlt : jh_handle job < Z.of_nat STRELA_JOBS_MAX).
Context (Hph : sl_phase x = STRELA_JOB_SUBMITTED).
Notation i := (Z.to_nat (jh_handle job)).

(** The end of [finish_job] on a job that is done, or with an error. *)
Lemma poll_ended s :
  job_inv l0 s -> strela_dev_ok (ls_dev s) = false \/ (exists y, d_jobs (ls_dev s) !! i = Some y /\ sl_phase y = STRELA_JOB_DONE) ->
  wp (let! state := strela_job_poll job in
      do! assert_ (negb (bool_decide (state = STRELA_JOB_PENDING))) in mret_ state) (answered l0 job) s.
Proof.
  intros Hi Hd. apply wp_bind. destruct (strela_dev_ok (ls_dev s)) eqn:Hok.
  - destruct Hd as [?|(y & Hy & Hdone)]; [done|]. destruct (done_final s job y Hok Hv Hlt Hy Hdone) as (Hpoll & _).
    eexists _, _. split; [exact Hpoll|]. apply wp_bind.
    destruct (Z.ltb_spec 0 (sl_status y)); (apply wp_assert; [done|]); apply wp_ret; (split_and!; [done..|]); intros; [eauto|done].
  - eexists _, _. split; [by apply poll_not_ok|]. apply wp_bind, wp_assert; [done|]. by apply wp_ret.
Qed.

(** Waiting is one look. *)
Lemma wait_looks s t s1 :
  strela_dev_ok (ls_dev s) = true -> d_jobs (ls_dev s) !! i = Some x ->
  strela_job_update i t s = Ok (tt, s1) -> (exists y, d_jobs (ls_dev s1) !! i = Some y) ->
  exists b, strela_job_wait job t s = Ok (b, s1).
Proof.
  intros Hok Hx Hup [y Hy]. unfold strela_job_wait.
  rewrite (mbind_Ok _ _ _ _ _ (slot_get_ok s job PHASES_WAIT x Hok Hv Hlt Hx ltac:(by rewrite Hph))).
  unfold when_ok, mbind_, dev_, the_slot, mret_. rewrite Hok, Hup. destruct (strela_dev_ok (ls_dev s1)); cbn [negb]; [|by eexists].
  unfold get_slot, mbind_, dev_, mret_. rewrite Hy. by eexists.
Qed.

(** So is polling, and it answers the phase it finds, whatever became of the
    device. *)
Lemma poll_looks s s1 y :
  strela_dev_ok (ls_dev s) = true -> d_jobs (ls_dev s) !! i = Some x ->
  strela_job_update i 0 s = Ok (tt, s1) -> d_jobs (ls_dev s1) !! i = Some y ->
  strela_job_poll job s = Ok (if negb (bool_decide (sl_phase y = STRELA_JOB_DONE)) then STRELA_JOB_PENDING
                              else if 0 <? sl_status y then STRELA_JOB_OK else STRELA_JOB_FAILED, s1).
Proof.
  intros Hok Hx Hup Hy. unfold strela_job_poll.
  rewrite (mbind_Ok _ _ _ _ _ (slot_get_ok s job PHASES_WAIT x Hok Hv Hlt Hx ltac:(by rewrite Hph))).
  unfold mbind_, dev_, the_slot, mret_. rewrite Hok. cbn [negb]. rewrite Hup. unfold get_slot, mbind_, dev_, mret_. by rewrite Hy.
Qed.

(** The second look, from a state in which the job is still submitted. *)
Lemma poll_second s :
  job_inv l0 s -> strela_dev_ok (ls_dev s) = true -> d_jobs (ls_dev s) !! i = Some x ->
  let c := (let! state := strela_job_poll job in
            do! assert_ (negb (bool_decide (state = STRELA_JOB_PENDING))) in mret_ state) in
  match look (ls_log s) (sl_fence_fd x) 0 with
  | Finished _ => wp c (answered l0 job) s
  | _ => c s = Trap TAssert
  end.
Proof.
  intros Hi Hok Hx c. destruct (update_looks s i x 0 Hx Hph) as (s1 & Hup & Hr).
  assert (Hpend : d_jobs (ls_dev s1) !! i = Some x -> c s = Trap TAssert).
  { intros Hy. unfold c. rewrite (mbind_Ok _ _ _ _ _ (poll_looks s s1 x Hok Hx Hup Hy)), Hph. done. }
  destruct (look _ _ _) as [| |st].
  - apply Hpend. by subst s1.
  - apply Hpend, Hr.
  - destruct Hr as (y & Hy & Hdone). destruct (update_wp l0 s i x 0 Hi Hx (or_introl Hph)) as ([] & s1' & Hup' & [Hi1 _] & _).
    rewrite Hup in Hup'. injection Hup' as <-. unfold c. apply wp_bind. eexists _, _.
    split; [exact (poll_looks s s1 y Hok Hx Hup Hy)|]. rewrite Hdone, (bool_decide_true (STRELA_JOB_DONE = STRELA_JOB_DONE)) by done.
    cbn [negb]. apply wp_bind.
    destruct (Z.ltb_spec 0 (sl_status y)); (apply wp_assert; [done|]); apply wp_ret; (split_and!; [done..|]); intros; [eauto|done].
Qed.

Lemma finish_ok s :
  job_inv l0 s -> strela_dev_ok (ls_dev s) = true -> d_jobs (ls_dev s) !! i = Some x ->
  (stuck job s /\ finish_job job s = Trap TAssert) \/ (~ stuck job s /\ wp (finish_job job) (answered l0 job) s).
Proof.
  intros Hi Hok Hx. destruct (update_looks s i x 2000 Hx Hph) as (s1 & Hup & Hr).
  destruct (update_wp l0 s i x 2000 Hi Hx (or_introl Hph)) as ([] & s1' & Hup' & [Hi1 _] & Hy1).
  rewrite Hup in Hup'. injection Hup' as <-. destruct (wait_looks s 2000 s1 Hok Hx Hup Hy1) as [b Hw].
  assert (Hst : stuck job s -> look (ls_log s) (sl_fence_fd x) 2000 = NotReady
    /\ forall st, look (Sev (SC_poll (sl_fence_fd x) 2000) (sys (ls_log s) (SC_poll (sl_fence_fd x) 2000)) :: ls_log s)
                       (sl_fence_fd x) 0 <> Finished st).
  { intros (_ & x' & Hx' & H). rewrite Hx in Hx'. by injection Hx' as <-. }
  unfold finish_job. destruct (look (ls_log s) (sl_fence_fd x) 2000) as [| |st] eqn:Hlk.
  - subst s1. pose proof (poll_second _ Hi1 Hok Hx) as H2. cbn [ls_log lst_add] in H2. destruct (look (_ :: _) _ 0) as [| |st] eqn:Hlk2.
    1, 2: left; rewrite (mbind_Ok _ _ _ _ _ Hw); split; [|exact H2];
      split; [done|]; exists x; split; [done|]; cbv zeta; rewrite Hlk2; by split.
    right. split; [intros [_ Hn]%Hst; by apply (Hn st)|]. apply wp_bind. eexists _, _. split; [exact Hw|exact H2].
  - right. split; [intros [? _]%Hst; done|]. apply wp_bind. eexists _, _. split; [exact Hw|]. apply poll_ended; [done|].
    left. apply Hr.
  - right. split; [intros [? _]%Hst; done|]. apply wp_bind. eexists _, _. split; [exact Hw|]. apply poll_ended; [done|by right].
Qed.
End Job.

(** C30: [strela_execute], exactly. It submits the job, which returns; then it stops
    at its assertion if and only if the wait of two seconds ends with the fence
    not ready (the time is up, or a signal interrupts it) and the poll that
    follows does not find the job done either ([stuck]); in every other case it
    returns, whatever state the job or the device is in: the job slots stay
    sound, the answer is not "pending", and the answer "succeeded" comes from a
    job that is done with a positive status. A fence that is exported right
    after a descriptor was closed can be exported ([HE]). *)
Theorem execute_completes l0 s :
  log_ok l0 -> job_inv l0 s ->
  let job := d_backward_compat_job (ls_dev s) in
  exists b s1, strela_job_submit job s = Ok (b, s1)
    /\ ((stuck job s1 /\ strela_execute s = Trap TAssert)
        \/ (~ stuck job s1
            /\ exists st s', strela_execute s = Ok (st, s') /\ job_inv l0 s' /\ st <> STRELA_JOB_PENDING
              /\ (st = STRELA_JOB_OK -> exists x, d_jobs (ls_dev s') !! Z.to_nat (jh_handle job) = Some x
                    /\ sl_phase x = STRELA_JOB_DONE /\ 0 < sl_status x))).
Proof.
  intros Hl Hi job. destruct (job_submit_full_wp l0 Hl HE s job Hi) as (b & s1 & Hsub & [Hi1 _] & Hr).
  exists b, s1. split; [done|].
  assert (Hex : strela_execute s = finish_job job s1).
  { unfold strela_execute. unfold mbind_ at 1, dev_ at 1. fold job. by rewrite (mbind_Ok _ _ _ _ _ Hsub). }
  rewrite Hex. destruct (strela_dev_ok (ls_dev s1)) eqn:Hok.
  - destruct (Hr eq_refl) as (i & (Hv & Hlt & ->) & Hrun). destruct (Hrun Hok) as (x & Hx & Hph & _).
    destruct (finish_ok l0 job x Hv Hlt Hph s1 Hi1 Hok Hx) as [H|[Hn (st & s' & He & Ha)]]; [by left|right].
    split; [done|]. exists st, s'. by split.
  - right. split; [intros [? _]; congruence|]. destruct (finish_failed l0 s1 job Hi1 Hok) as (st & s' & He & Ha). exists st, s'. by split.
Qed.
End Execute.
