(* ===== verification/LibRun.v ===== *)
(** * The library on a healthy system

    What each call of the library does when the calls below it succeed: the
    directory does not change, buffer objects, mappings, sync objects and
    fences can be had, and the driver finishes a job within the two seconds of
    the library. Besides the invariant, every lemma here says which slots of
    the device change and how. *)
From S2P Require Export LibExec LibFind.

(** A run about which something is known already. *)
Lemma wp_given {St X} (c : M St X) (P Q : X -> St -> Prop) s :
  wp c P s -> wp c (fun x s' => P x s' -> Q x s') s -> wp c Q s.
Proof.
  intros (x & s1 & He & HP) (y & s2 & He' & HQ). rewrite He in He'. injection He' as <- <-. exists x, s1. auto.
Qed.

(** Nothing is mapped, or one region that is not larger than a device's. *)
Definition few_maps (l : list sevent) : Prop :=
  (length (mapped l) <= 1)%nat /\ Forall (fun r => r.2 <= STRELA_TENSOR_MEMORY_SIZE) (mapped l).

Class Healthy (OS : Sys) (dir : list (list Z)) (kind : list Z -> option (list Z)) : Prop := {
  hs_steady : steady dir 0 kind;
  hs_names : Z.of_nat (length (visible dir)) < 2 ^ 32;
  hs_new l fd args : exists r, sys l (SC_gem_new fd args) = inr r;
  hs_mmap l fd size off : size <= STRELA_TENSOR_MEMORY_SIZE -> few_maps l -> exists r, sys l (SC_mmap fd size off) = inr r;
  hs_sync l fd args : exists r, sys l (SC_gem_sync fd args) = inr r;
  hs_create l fd : exists r, sys l (SC_syncobj_create fd) = inr r;
  hs_submit l fd args : exists r, sys l (SC_submit fd args) = inr r;
  hs_export l fd h : exists r, sys l (SC_handle_to_fd fd h) = inr r;
  hs_poll l fd : 0 <= fd -> 0 < fd_held fd l -> exists n z, sys l (SC_poll fd 2000) = inr (n, z) /\ 0 < n;
  hs_info l fd : exists r, sys l (SC_file_info fd) = inr r
}.

Section Run.
Context `{A : abi} `{OS : Sys} `{HL : !SysLaws OS} `{HU : !Undisturbed OS}.
Context (dir : list (list Z)) (kind : list Z -> option (list Z)) `{HH : !Healthy OS dir kind}.

Lemma export_after_close l fd r dfd h : exists r', sys (Sev (SC_close fd) (inr r) :: l) (SC_handle_to_fd dfd h) = inr r'.
Proof. apply hs_export. Qed.

(** The number of devices. *)
Definition dev_total : Z := Z.of_nat (length (strelas kind (visible dir))).

(** ** Opening *)
Lemma init_bo_run s fd size :
  d_errnum (ls_dev s) = 0 -> size <= STRELA_TENSOR_MEMORY_SIZE -> few_maps (ls_log s) ->
  wp (init_bo fd size) (fun _ s' => ls_dev s' = ls_dev s
    /\ exists a, mapped (ls_log s') = (a, size) :: mapped (ls_log s)) s.
Proof.
  intros He Hs Hm. unfold init_bo. apply wp_bind, wp_dev. rewrite He. cbn [negb Z.eqb STRELA_ERR_OK].
  apply wp_bind, wp_sys. destruct (hs_new (ls_log s) fd (mkGemNew size 0)) as [[h off] Hr]. rewrite Hr.
  unfold mmap_. apply wp_bind, wp_bind, wp_sys. cbn [ls_log lst_add].
  destruct (hs_mmap (Sev (SC_gem_new fd (mkGemNew size 0)) (inr (h, off)) :: ls_log s) fd size off Hs) as [[a z] Ha]; [done|].
  rewrite Ha. apply wp_bind. do 2 eexists. split; [reflexivity|]. apply wp_ret, wp_ret. split; [done|]. by exists a.
Qed.

Lemma dev_open_run s which :
  d_initialized (ls_dev s) = false -> d_errnum (ls_dev s) = 0 -> log_ok (ls_log s) -> mapped (ls_log s) = [] ->
  0 <= which < dev_total -> wp (dev_open which) (fun _ s' => LibDevice.opened (ls_log s) s') s.
Proof.
  intros Hini Herr Hl Hm Hw. destruct (dev_open_wp s which Hini Herr Hl) as ([] & s' & He & [Hn|Ho]); [|by exists tt, s'].
  exfalso. unfold dev_open in He. apply mbind_inv in He as (fd & s1 & Hf & He).
  destruct (find_device_val dir 0 kind hs_steady which s ltac:(lia) hs_names) as (fd' & s1' & Hf' & Hop).
  destruct (find_device_wp which s) as (fd2 & s2 & Hf2 & Hst). rewrite Hf in Hf', Hf2.
  injection Hf' as <- <-. injection Hf2 as <- <-.
  assert (H0 : 0 <= fd).
  { unfold LibFind.opened in Hop. destruct (lookup_lt_is_Some_2 (strelas kind (visible dir)) (Z.to_nat which)) as [n Hn'].
    - unfold dev_total in Hw. lia.
    - rewrite Hn' in Hop. apply Hop. }
  destruct Hst as [[-> _]|[_ Hst]]; [lia|]. rewrite (proj2 (Z.eqb_neq fd (-1))) in He by lia. rewrite mbind_ret in He.
  destruct (init_bo_run s1 fd STRELA_KERNEL_MEMORY_SIZE) as ([kh kb] & s2 & H2 & Hd2 & a & Hm2);
    [by rewrite (sb_dev _ _ _ _ Hst)|by vm_compute|unfold few_maps; rewrite (sb_maps _ _ _ _ Hst), Hm; split; [cbn; lia|done]|].
  rewrite (mbind_Ok _ _ _ _ _ H2) in He.
  destruct (init_bo_run s2 fd STRELA_TENSOR_MEMORY_SIZE) as ([th tb] & s3 & H3 & Hd3 & b & Hm3);
    [by rewrite Hd2, (sb_dev _ _ _ _ Hst)|by vm_compute|unfold few_maps; rewrite Hm2, (sb_maps _ _ _ _ Hst), Hm; split; [cbn; lia|by repeat constructor]|].
  rewrite (mbind_Ok _ _ _ _ _ H3) in He. unfold open_finish, mbind_ at 1, dev_ in He.
  rewrite Hd3, Hd2, (sb_dev _ _ _ _ Hst), Herr in He. cbn [Z.eqb STRELA_ERR_OK] in He.
  apply mbind_inv in He as (pool & s4 & _ & He). apply mbind_inv in He as (fl & s5 & _ & He).
  unfold update_dev, modify_ in He. injection He as <-. by destruct Hn.
Qed.

Lemma dev_init_run s which :
  d_initialized (ls_dev s) = false -> log_ok (ls_log s) -> mapped (ls_log s) = [] ->
  0 <= which < dev_total -> which < STRELA_DEVICE_MAX ->
  wp (strela_dev_init which) (fun _ s' => LibDevice.opened (ls_log s) s') s.
Proof.
  intros Hi Hl Hm Hw Hmax. unfold strela_dev_init. rewrite (proj2 (Z.leb_gt _ _) Hmax).
  apply wp_bind, wp_update_dev, wp_bind, wp_dev. cbn [ls_dev lst_set_dev d_initialized dev_set_errnum].
  rewrite Hi. cbn [negb]. apply wp_bind. eapply wp_mono; [by apply dev_open_run|].
  intros u s1 (He & Hmi & Hj & Hf). by apply (opened_init_wp (ls_log s) s1 (mkSess [] [])).
Qed.

(** ** Kernels *)

(** Writing a bitstream changes nothing of the device. *)
Lemma kernel_set_dev s kernel data s' :
  strela_dev_ok (ls_dev s) = true -> kernel_bad kernel = false ->
  strela_kernel_set kernel data s = Ok (tt, s') -> ls_dev s' = ls_dev s.
Proof.
  intros Hok Hk. unfold strela_kernel_set, when_ok, caller_array, on_mem, strela_sync. cbv [mbind_ dev_ mret_ modify_ sys_ trap_].
  rewrite Hok, Hk, Hok. destruct (_ <=? _); [|done]. destruct (write_data _ _ _) as [[[] m]|]; [|done].
  cbv [when_ok mbind_ dev_]. cbn [ls_dev lst_set_mem ls_log]. rewrite Hok. change (STRELA_KERNEL_SIZE =? 0) with false. cbv beta iota. cbn [ls_log lst_set_mem].
  match goal with |- context [sys ?l (SC_gem_sync ?d ?a)] => destruct (hs_sync l d a) as [r Hr] end.
  rewrite Hr. by intros [= <-].
Qed.

Lemma kernel_set_run s ss h old ks data :
  mem_inv s ss -> ss_kernels ss = (h, old) :: ks -> strela_dev_ok (ls_dev s) = true -> (320 <= length data)%nat ->
  wp (strela_kernel_set (mkKernel true h) data) (fun _ s' => (exists ss', mem_post s ss' s') /\ ls_dev s' = ls_dev s) s.
Proof.
  intros Hm Hks Hok Hlen. destruct (kernel_set_wp s ss 0 data Hm) as (ss' & s' & He & Hp).
  unfold do_kernel_set in He. rewrite Hks in He. cbn [lookup list_lookup] in He.
  rewrite (proj2 (Z.ltb_ge _ _)) in He by (rewrite kernel_bytes_320; lia).
  unfold mbind_ at 1, dev_ in He. apply mbind_inv in He as ([] & s1 & He & Hret). unfold mret_ in Hret. injection Hret as <- <-.
  exists tt, s1. split; [done|]. split; [by eexists|]. eapply kernel_set_dev; [done| |exact He].
  pose proof (mi_kerns _ _ Hm) as Hf. rewrite Hks in Hf. apply Forall_cons in Hf as [[Hh _] _]. cbn in Hh.
  unfold kernel_bad. cbn. lia.
Qed.

(** ** Jobs *)
Context (l0 : list sevent) (Hl0 : log_ok l0).

(** The slot of one job changed, nothing else and no error. *)
Definition slot_step (s : lst) (i : nat) (y : strela_job_slot) (s' : lst) : Prop :=
  job_inv l0 s' /\ job_frame s s' /\ d_errnum (ls_dev s') = d_errnum (ls_dev s)
  /\ d_jobs (ls_dev s') = <[i := y]> (d_jobs (ls_dev s)).

Lemma slot_step_ok s i y s' :
  slot_step s i y s' -> strela_dev_ok (ls_dev s') = strela_dev_ok (ls_dev s).
Proof. intros (_ & Hf & He & _). unfold strela_dev_ok. by rewrite He, (jf_init _ _ Hf). Qed.

(** Configuring takes the first free slot. *)
Lemma config_run s kernel conf i :
  job_inv l0 s -> strela_dev_ok (ls_dev s) = true -> kernel_bad kernel = false ->
  find_free (d_jobs (ls_dev s)) = Some i ->
  wp (strela_job_config kernel conf) (fun job s' => job = mkJobH true (Z.of_nat i)
    /\ exists y, sl_phase y = STRELA_JOB_CONFIGURED /\ slot_step s i y s') s.
Proof.
  intros Hi Hok Hk Hfree. destruct (find_free_Some _ _ Hfree) as (x & Hx & Hph).
  apply (wp_given _ _ _ _ (job_config_wp l0 Hl0 s kernel conf Hi)).
  destruct (hs_create (ls_log s) (d_fd (ls_dev s))) as [[h z] Hc].
  unfold strela_job_config. apply wp_bind, wp_when_ok; [intros _|congruence]. rewrite Hk.
  apply wp_ret, wp_bind, wp_dev. rewrite Hok. cbv zeta. rewrite Hfree.
  apply wp_bind, wp_when_ok; [intros _|congruence]. apply wp_ret, wp_bind, wp_dev. rewrite Hok.
  apply wp_bind, wp_bind, wp_sys. rewrite Hc. apply wp_ret, wp_bind, wp_dev. cbn [ls_dev lst_add]. rewrite Hok.
  apply wp_bind, (wp_update_slot _ x); [done|]. apply wp_ret. intros [Hi' Hf]. split; [done|]. eexists.
  split; [|split; [exact Hi'|split; [exact Hf|done]]]. done.
Qed.

Lemma config_full s kernel conf :
  strela_dev_ok (ls_dev s) = true -> kernel_bad kernel = false -> find_free (d_jobs (ls_dev s)) = None ->
  strela_job_config kernel conf s = Ok (jobh0, lst_set_dev s (dev_set_errnum (ls_dev s) (- STRELA_ERR_NO_MEM))).
Proof.
  intros Hok Hk Hfree.
  unfold strela_job_config, when_ok, set_errnum, LibData.update_dev. cbv [mbind_ dev_ mret_ modify_].
  rewrite Hok, Hk, Hok, Hfree. cbn [ls_dev lst_set_dev]. rewrite errnum_not_ok by done.
  cbn [ls_dev lst_set_dev]. by rewrite errnum_not_ok.
Qed.

(** Freeing gives the slot back. *)
Lemma free_run s i x :
  job_inv l0 s -> strela_dev_ok (ls_dev s) = true -> d_jobs (ls_dev s) !! i = Some x ->
  wp (strela_job_free (mkJobH true (Z.of_nat i))) (fun _ s' =>
    exists y, sl_phase y = STRELA_JOB_FREE /\ slot_step s i y s') s.
Proof.
  intros Hi Hok Hx. assert (Hlt : (i < STRELA_JOBS_MAX)%nat) by (rewrite <- (ji_len _ _ Hi); by eapply lookup_lt_Some).
  unfold strela_job_free. apply wp_bind. eexists _, _. split.
  { apply (slot_get_ok s (mkJobH true (Z.of_nat i)) _ x); [done|done|cbn; lia|cbn; by rewrite Nat2Z.id|by destruct (sl_phase x)]. }
  cbn [jh_handle]. rewrite Nat2Z.id. apply wp_when_ok; [intros _|congruence]. apply wp_bind, wp_ret.
  apply (release_wp l0 Hl0); [done|done|]. intros s' y Hi' Hf Hy Hjobs He. exists y. by split_and!.
Qed.

(** Submitting puts the job in the driver and exports its fence. *)
Lemma submit_run s i x :
  job_inv l0 s -> strela_dev_ok (ls_dev s) = true -> d_jobs (ls_dev s) !! i = Some x ->
  sl_phase x = STRELA_JOB_CONFIGURED \/ sl_phase x = STRELA_JOB_DONE ->
  wp (strela_job_submit (mkJobH true (Z.of_nat i))) (fun b s' => b = true
    /\ exists y, sl_phase y = STRELA_JOB_SUBMITTED /\ 0 <= sl_fence_fd y /\ slot_step s i y s') s.
Proof.
  intros Hi Hok Hx Hph. assert (Hlt : (i < STRELA_JOBS_MAX)%nat) by (rewrite <- (ji_len _ _ Hi); by eapply lookup_lt_Some).
  apply (wp_given _ _ _ _ (job_submit_wp l0 Hl0 export_after_close s (mkJobH true (Z.of_nat i)) Hi)).
  set (job := mkJobH true (Z.of_nat i)).
  assert (Hg : strela_job_slot_get job PHASES_SUBMIT s = Ok (Some i, s)).
  { rewrite (slot_get_ok s job PHASES_SUBMIT x); [cbn; by rewrite Nat2Z.id|done|done|cbn; lia|cbn; by rewrite Nat2Z.id|].
    destruct Hph as [-> | ->]; done. }
  unfold strela_job_submit. apply wp_bind. exists (Some i), s. split; [exact Hg|].
  apply wp_bind, wp_when_ok; [intros _|congruence]. apply wp_bind, wp_ret, wp_bind, (wp_get_slot _ x); [done|].
  apply wp_bind, wp_sys. destruct (hs_submit (ls_log s) (d_fd (ls_dev s)) (sl_submit x)) as [r Hr]. rewrite Hr.
  apply wp_ret. set (s1 := lst_add s _).
  apply wp_bind, wp_when_ok; [intros _|intros Hb; change (strela_dev_ok (ls_dev s) = false) in Hb; congruence].
  apply wp_bind, wp_ret, wp_bind, (wp_get_slot _ x); [done|]. apply wp_bind.
  apply (wp_mono _ (fun _ s2 => ls_dev s2 = ls_dev s)).
  { apply wp_if; intros Hd; [|by apply wp_ret]. apply bool_decide_eq_true in Hd. apply wp_sys_or_abort.
    destruct (law_close (ls_log s1) (sl_fence_fd x)) as [r' Hr']; [|by exists r'].
    change (0 < fd_delta (sl_fence_fd x) (Sev (SC_submit (d_fd (ls_dev s)) (sl_submit x)) (inr r)) + fd_held (sl_fence_fd x) (ls_log s)).
    pose proof (slot_fd_held l0 Hl0 s i x Hi Hx) as Hh. unfold slot_used in Hh. rewrite Hd in Hh. cbn.
    destruct (job_slot_ok l0 s i x Hi Hx) as [Hs|(_ & _ & _ & Hs)]; [congruence|]. specialize (Hs Hd).
    apply Hh; [done|lia]. }
  intros [] s2 Hd2. apply wp_bind, (wp_update_slot _ x); [by rewrite Hd2|]. rewrite Hd2. apply wp_bind, wp_sys.
  match goal with |- context [sys ?l (SC_handle_to_fd ?d ?h)] => destruct (hs_export l d h) as [[fd z] He] end.
  rewrite He. apply law_export in He as Hfd. eapply (wp_update_slot _ (slot_set_phase x STRELA_JOB_SUBMITTED)).
  { cbn. apply list_lookup_insert_eq. by eapply lookup_lt_Some. }
  apply wp_bind, wp_dev, wp_ret. intros [Hi' Hf]. split; [cbn; exact Hok|]. eexists. split; [|split].
  3: { split; [exact Hi'|]. split; [exact Hf|]. split; [done|]. cbn. by rewrite list_insert_insert_eq. }
  - done.
  - done.
Qed.

(** A job in the driver cannot be submitted again. *)
Lemma submit_twice s i x :
  length (d_jobs (ls_dev s)) = STRELA_JOBS_MAX -> strela_dev_ok (ls_dev s) = true ->
  d_jobs (ls_dev s) !! i = Some x -> sl_phase x = STRELA_JOB_SUBMITTED ->
  strela_job_submit (mkJobH true (Z.of_nat i)) s
  = Ok (false, lst_set_dev s (dev_set_errnum (ls_dev s) (- STRELA_ERR_BAD_ARG))).
Proof.
  intros Hlen Hok Hx Hph. assert (Hlt : (i < STRELA_JOBS_MAX)%nat) by (rewrite <- Hlen; by eapply lookup_lt_Some).
  unfold strela_job_submit, strela_job_slot_get, when_ok, get_slot, set_errnum, LibData.update_dev.
  cbv [mbind_ dev_ mret_ modify_ assert_].
  rewrite Hok. cbn [jh_valid jh_handle negb orb]. rewrite (proj2 (Z.leb_gt _ _)) by lia. rewrite Nat2Z.id, Hx.
  replace (phase_is_in (sl_phase x) PHASES_SUBMIT) with true by (by rewrite Hph).
  cbn [ls_dev lst_set_dev]. rewrite !errnum_not_ok by done. rewrite bool_decide_false by (by intros []).
  do 4 (cbn [eqb ls_dev lst_set_dev]; rewrite ?errnum_not_ok by done). done.
Qed.

(** Waiting for a job in the driver ends with the job done. *)
Lemma wait_run s i x :
  job_inv l0 s -> strela_dev_ok (ls_dev s) = true -> d_jobs (ls_dev s) !! i = Some x ->
  sl_phase x = STRELA_JOB_SUBMITTED -> 0 <= sl_fence_fd x ->
  wp (strela_job_wait (mkJobH true (Z.of_nat i)) 2000) (fun b s' => b = true
    /\ exists y, sl_phase y = STRELA_JOB_DONE /\ slot_step s i y s') s.
Proof.
  intros Hi Hok Hx Hph Hfd. assert (Hlt : (i < STRELA_JOBS_MAX)%nat) by (rewrite <- (ji_len _ _ Hi); by eapply lookup_lt_Some).
  apply (wp_given _ _ _ _ (job_wait_wp l0 s (mkJobH true (Z.of_nat i)) 2000 Hi)).
  unfold strela_job_wait. apply wp_bind. eexists _, _. split.
  { apply (slot_get_ok s (mkJobH true (Z.of_nat i)) _ x); [done|done|cbn; lia|cbn; by rewrite Nat2Z.id|by rewrite Hph]. }
  cbn [jh_handle]. rewrite Nat2Z.id. apply wp_bind, wp_when_ok; [intros _|congruence]. apply wp_bind, wp_ret.
  unfold strela_job_update. apply wp_bind, (wp_get_slot _ x); [done|]. rewrite Hph.
  apply wp_bind, wp_assert; [done|]. rewrite bool_decide_false by done. apply wp_bind, wp_sys.
  destruct (hs_poll (ls_log s) (sl_fence_fd x) Hfd) as (n & z & Hn & Hpos).
  { apply (slot_fd_held l0 Hl0 s i x Hi Hx); [unfold slot_used; by rewrite Hph|lia]. }
  rewrite Hn. rewrite (proj2 (Z.eqb_neq n 0)) by lia. apply wp_bind, wp_sys.
  match goal with |- context [sys ?l (SC_file_info ?f)] => destruct (hs_info l f) as [[st w] Hst] end. rewrite Hst.
  apply (wp_update_slot _ x); [done|]. apply wp_bind, wp_dev. cbn [ls_dev lst_set_dev lst_add].
  replace (strela_dev_ok (dev_set_jobs _ _)) with true by (symmetry; exact Hok). cbn [negb].
  apply wp_bind, wp_ret, wp_bind. eapply wp_get_slot; [cbn; apply list_lookup_insert_eq; by eapply lookup_lt_Some|].
  apply wp_ret. intros [Hi' Hf]. split; [done|]. eexists. split; [|split; [exact Hi'|split; [exact Hf|done]]]. done.
Qed.
End Run.
