(* ===== verification/LibTests.v ===== *)
(** * The library's tests (tests/test_strela2.c)

    The five tests of the library suite that depend on the library and the
    system alone, run against the model of the library: on every healthy system
    they report no failure. The two tests of the suite that compare what a
    device wrote are left out: what a bypass job copies is the subject of
    LibBypass, which memory a sync reaches that of LibLines. *)
From S2P Require Export LibRun.
From S2P Require Import Bitstreams.

(** ** The test program *)

(** The library's static array of devices, the process' memory, the system
    calls made, and the counter of failed checks. *)
Record tstate := mkTS {
  ts_devs : list strela_dev;
  ts_mem : mem;
  ts_log : list sevent;
  ts_failures : Z
}.

(** The state after the library worked on the device [which]. *)
Definition put (which : nat) (s : tstate) (l : lst) : tstate :=
  mkTS (<[which := ls_dev l]> (ts_devs s)) (ls_mem l) (ls_log l) (ts_failures s).

(** A call of the library on the device [which]; [strela_dev_init] checks the
    number before it uses it. *)
Definition on_dev {X} (which : Z) (c : M lst X) : M tstate X := fun s =>
  match ts_devs s !! Z.to_nat which with
  | None => Trap TAssert
  | Some d => match c (mkL d (ts_mem s) (ts_log s)) with
              | Ok (x, l) => Ok (x, put (Z.to_nat which) s l)
              | Trap t => Trap t
              end
  end.

Definition CHECK (cond : bool) : M tstate unit :=
  if cond then mret_ tt
  else modify_ (fun s => mkTS (ts_devs s) (ts_mem s) (ts_log s) (ts_failures s + 1)).

Section Tests.
Context `{A : abi} `{OS : Sys}.

(** strela_minor(fd): the number of the device under test. *)
Context (which : Z).

Definition dev_is_ok : M tstate bool := let! dev := on_dev which dev_ in mret_ (strela_dev_ok dev).
Definition dev_err : M tstate Z := let! dev := on_dev which dev_ in mret_ (strela_dev_get_err dev).

Definition test_lib_basic : M tstate unit :=
  let! '(ret, count) := on_dev 0 strela_dev_count in
  do! CHECK (negb (ret =? -1)) in
  for_ count (fun i _ =>
    do! on_dev i (strela_dev_init i) in
    let! dev := on_dev i dev_ in
    do! CHECK (strela_dev_ok dev) in
    on_dev i strela_dev_deinit) tt.

Definition test_lib_allocator_exhaustion : M tstate unit :=
  do! on_dev which (strela_dev_init which) in
  do! on_dev which (strela_dev_init which) in
  let! ok := dev_is_ok in
  do! CHECK ok in
  if ok then
    do! for_ 1000 (fun _ _ =>
      do! on_dev which strela_kernel_alloc in
      do! on_dev which (strela_buffer_alloc 1000) in
      mret_ tt) tt in
    let! err := dev_err in
    do! CHECK (err =? - STRELA_ERR_NO_MEM) in
    do! on_dev which strela_dev_deinit in
    on_dev which (strela_dev_init which)
  else mret_ tt.

Definition SLOTS : Z := 128.

(** The loop that empties the pool: the number of kernels it got. *)
Fixpoint drain (fuel : nat) (n : Z) (seen : list bool) : M tstate Z :=
  let! ok := dev_is_ok in
  if negb (ok && (n <=? SLOTS)) then mret_ n else
  match fuel with
  | O => trap_ TFuel
  | S fuel =>
      let! kernel := on_dev which strela_kernel_alloc in
      let! ok := dev_is_ok in
      if negb ok then mret_ n else
      let fresh := (k_handle kernel <? SLOTS) && negb (default true (seen !! Z.to_nat (k_handle kernel))) in
      do! CHECK fresh in
      if negb fresh then mret_ n else
      drain fuel (n + 1) (<[Z.to_nat (k_handle kernel) := true]> seen)
  end.

Definition test_lib_kernel_free_all : M tstate unit :=
  do! on_dev which (strela_dev_init which) in
  do! on_dev which strela_kernel_alloc in
  do! on_dev which strela_kernel_free_all in
  let! ok := dev_is_ok in
  do! CHECK ok in
  let! n := drain (Z.to_nat SLOTS + 2) 0 (replicate (Z.to_nat SLOTS) false) in
  do! CHECK (n =? SLOTS) in
  let! err := dev_err in
  do! CHECK (err =? - STRELA_ERR_NO_MEM) in
  do! on_dev which strela_dev_reset_err in
  on_dev which strela_kernel_free_all.

Definition conf0 : strela_conf := mkConf 0 0 0 0 0 0 0 0 0 0 0 0 0 0 0 0 0 0 0 0.

Definition bypass_bytes : list Z := words_bytes bypass_kernel_bitstream.

(** A new kernel with the bypass bitstream. *)
Definition bypass_kernel_new : M tstate strela_kernel :=
  let! kernel := on_dev which strela_kernel_alloc in
  do! on_dev which (strela_kernel_set kernel bypass_bytes) in
  mret_ kernel.

Definition config_and_free (kernel : strela_kernel) : M tstate unit :=
  let! job := on_dev which (strela_job_config kernel conf0) in
  do! CHECK (jh_valid job) in
  on_dev which (strela_job_free job).

Definition test_lib_job_resource_exhaustion : M tstate unit :=
  do! on_dev which (strela_dev_init which) in
  let! kernel := bypass_kernel_new in
  do! for_ 200 (fun _ _ => config_and_free kernel) tt in
  do! on_dev which strela_job_free_all in
  let! job := for_ 200 (fun _ _ => on_dev which (strela_job_config kernel conf0)) jobh0 in
  do! CHECK (negb (jh_valid job)) in
  do! on_dev which (strela_dev_init which) in
  let! kernel := bypass_kernel_new in
  config_and_free kernel.

(** One round: the job runs, and cannot be submitted while it does. *)
Definition submit_round (job : strela_job) : M tstate unit :=
  do! on_dev which (strela_job_submit job) in
  let! ok := dev_is_ok in
  do! CHECK ok in
  do! on_dev which (strela_job_submit job) in
  let! ok := dev_is_ok in
  do! CHECK (negb ok) in
  do! on_dev which strela_dev_reset_err in
  do! on_dev which (strela_job_wait job 2000) in
  mret_ tt.

Definition test_lib_job_submit_and_wait : M tstate unit :=
  do! on_dev which (strela_dev_init which) in
  let! kernel := bypass_kernel_new in
  do! for_ 10 (fun _ _ =>
    let! job := on_dev which (strela_job_config kernel conf0) in
    do! CHECK (jh_valid job) in
    do! for_ 3 (fun _ _ => submit_round job) tt in
    on_dev which (strela_job_free job)) tt in
  let! jobs := for_ 10 (fun i jobs =>
    let! job := on_dev which (strela_job_config kernel conf0) in
    let! ok := dev_is_ok in
    do! CHECK ok in
    mret_ (<[Z.to_nat i := job]> jobs)) (replicate 10 jobh0) in
  do! for_ 10 (fun i _ =>
    do! on_dev which (strela_job_submit (default jobh0 (jobs !! Z.to_nat i))) in
    let! ok := dev_is_ok in
    CHECK ok) tt in
  for_ 10 (fun i _ =>
    let! done := on_dev which (strela_job_wait (default jobh0 (jobs !! Z.to_nat i)) 2000) in
    CHECK done) tt.

(** These tests, in the order of the suite. *)
Definition resource_tests : list (M tstate unit) :=
  [test_lib_basic; test_lib_allocator_exhaustion; test_lib_kernel_free_all;
   test_lib_job_resource_exhaustion; test_lib_job_submit_and_wait].

(** The loop of [main] over a suite: which tests passed. *)
Fixpoint run_tests (tests : list (M tstate unit)) : M tstate (list bool) :=
  match tests with
  | [] => mret_ []
  | t :: tests =>
      do! modify_ (fun s => mkTS (ts_devs s) (ts_mem s) (ts_log s) 0) in
      do! t in
      let! s := get_ in
      let! rest := run_tests tests in
      mret_ ((ts_failures s =? 0) :: rest)
  end.
End Tests.

(** ** Running the tests *)
Lemma wp_for {St X} (f : Z -> X -> M St X) (I : Z -> X -> St -> Prop) (Q : X -> St -> Prop) n x s :
  0 <= n -> I 0 x s -> (forall j x s, 0 <= j < n -> I j x s -> wp (f j x) (I (j + 1)) s) ->
  (forall x s, I n x s -> Q x s) -> wp (for_ n f x) Q s.
Proof.
  intros Hn H0 Hf HQ. destruct (for_ok f I n x s Hn Hf H0) as (x' & s' & He & HI). exists x', s'. auto.
Qed.

Lemma wp_CHECK b (Q : unit -> tstate -> Prop) s : b = true -> Q tt s -> wp (CHECK b) Q s.
Proof. intros -> HQ. by apply wp_ret. Qed.

Lemma put_put w s l l' : put w (put w s l) l' = put w s l'.
Proof. unfold put. cbn. by rewrite list_insert_insert_eq. Qed.

Section OneDevice.
Context `{A : abi} `{OS : Sys} `{HL : !SysLaws OS} `{HU : !Undisturbed OS}.
Context (which : Z) (base : tstate) (Hw : (Z.to_nat which < length (ts_devs base))%nat).

(** Between two calls the state is [at_ l]: the library's part of it is [l]. *)
Definition at_ (l : lst) : tstate := put (Z.to_nat which) base l.

Lemma wp_on_dev {X} (c : M lst X) (Q : X -> tstate -> Prop) l :
  wp c (fun x l' => Q x (at_ l')) l -> wp (on_dev which c) Q (at_ l).
Proof.
  intros (x & l' & He & HQ). exists x, (at_ l'). split; [|done]. unfold on_dev, at_.
  cbn [ts_devs ts_mem ts_log put]. rewrite list_lookup_insert_eq by done. destruct l as [d m lg]. cbn in *. rewrite He.
  by rewrite put_put.
Qed.

Lemma wp_dev_is_ok (Q : bool -> tstate -> Prop) l : Q (strela_dev_ok (ls_dev l)) (at_ l) -> wp (dev_is_ok which) Q (at_ l).
Proof. intros HQ. apply wp_bind, wp_on_dev, wp_dev. by apply wp_ret. Qed.

Lemma wp_dev_err (Q : Z -> tstate -> Prop) l : Q (d_errnum (ls_dev l)) (at_ l) -> wp (dev_err which) Q (at_ l).
Proof. intros HQ. apply wp_bind, wp_on_dev, wp_dev. by apply wp_ret. Qed.
End OneDevice.

Section Suite.
Context `{A : abi} `{OS : Sys} `{HL : !SysLaws OS} `{HU : !Undisturbed OS}.
Context (dir : list (list Z)) (kind : list Z -> option (list Z)) `{HH : !Healthy OS dir kind}.
Context (which : Z) (Hwhich : 0 <= which < dev_total dir kind) (Hmax : dev_total dir kind <= STRELA_DEVICE_MAX).

(** A device that is closed, or open with what was there before in [l0]. *)
Definition closed (l : lst) : Prop :=
  d_initialized (ls_dev l) = false /\ log_ok (ls_log l) /\ mapped (ls_log l) = [].
Definition before (l0 : list sevent) : Prop := log_ok l0 /\ mapped l0 = [].
Definition is_open (l : lst) : Prop := exists l0 ss, before l0 /\ mem_inv l ss /\ job_inv l0 l.

Lemma init_test l :
  closed l \/ is_open l -> wp (strela_dev_init which) (fun _ l' => exists l0, before l0 /\ LibDevice.opened l0 l') l.
Proof.
  intros [(Hi & Hl & Hm)|(l0 & ss & Hb & Hm & Hj)].
  - eapply wp_mono; [apply (dev_init_run dir kind); [done..|lia]|]. intros u l' Ho. by exists (ls_log l).
  - eapply wp_mono; [apply (reinit_wp l0 l ss); [apply Hb|done|done|lia]|]. intros u l' Ho. by exists l0.
Qed.

Lemma opened_ok l0 l : LibDevice.opened l0 l -> strela_dev_ok (ls_dev l) = true.
Proof. intros (He & Hm & _). by apply ok_of; [apply Hm|]. Qed.

Lemma kernels_le l ss : mem_inv l ss -> (length (ss_kernels ss) <= 128)%nat.
Proof.
  intros Hm. destruct (mi_pool _ _ Hm) as [F Hr]. destruct (mi_pool_buf _ _ Hm) as (_ & Hl & Hc).
  pose proof (Permutation_length (pr_all _ _ _ _ Hr)) as Hp. rewrite length_app, length_fmap in Hp.
  unfold all_chunks, chunks in Hp. rewrite length_fmap, length_seq in Hp. unfold chunk_count in Hp. rewrite Hl, Hc in Hp.
  change (Z.to_nat (STRELA_KERNEL_MEMORY_SIZE / KERNEL_BYTES)) with 128%nat in Hp. lia.
Qed.

(** ** Exhausting the memory *)

(** Without an error [n] kernels were allocated. *)
Definition hold (l0 : list sevent) (n : Z) (l : lst) : Prop :=
  exists ss, mem_inv l ss /\ job_inv l0 l /\ all_free l
    /\ (strela_dev_ok (ls_dev l) = true -> Z.of_nat (length (ss_kernels ss)) = n)
    /\ (strela_dev_ok (ls_dev l) = false -> d_errnum (ls_dev l) = - STRELA_ERR_NO_MEM).

Lemma hold_kernel l0 n l : hold l0 n l -> wp strela_kernel_alloc (fun _ l' => hold l0 (n + 1) l') l.
Proof.
  intros (ss & Hm & Hj & Hf & Hn & He). eapply wp_mono; [by apply kernel_alloc_full_wp|].
  intros k l' ([Hm' Hj'] & (Hjobs & Hres & Hsame) & Hk & _ & _). exists (keep_kernel ss k). unfold all_free.
  rewrite Hjobs. split_and!; [done|by apply Hj'|done|..].
  - intros Hok'. unfold keep_kernel. rewrite Hk, Hok'. cbn [ss_kernels length].
    destruct (strela_dev_ok (ls_dev l)) eqn:Hok; [specialize (Hn eq_refl); lia|]. rewrite Hsame in Hok' by done. congruence.
  - intros Hno. destruct (strela_dev_ok (ls_dev l)) eqn:Hok; [|by rewrite Hsame; [apply He|]].
    destruct (Hres eq_refl); congruence.
Qed.

Lemma hold_buffer l0 n l : hold l0 n l -> wp (strela_buffer_alloc 1000) (fun _ l' => hold l0 n l') l.
Proof.
  intros (ss & Hm & Hj & Hf & Hn & He). eapply wp_mono; [apply buffer_alloc_full_wp; [done|]|].
  { unfold words_ok, sizeof_word. change STRELA_TENSOR_MEMORY_SIZE with 52428800. pose proof ptr_max_pos. lia. }
  intros b l' ([Hm' Hj'] & Hjobs & Hres & Hsame). exists (keep_buffer ss b). unfold all_free. rewrite Hjobs.
  split_and!; [done|by apply Hj'|done|..].
  - intros Hok'. replace (ss_kernels (keep_buffer ss b)) with (ss_kernels ss) by (unfold keep_buffer; by destruct (b_valid b)).
    destruct (strela_dev_ok (ls_dev l)) eqn:Hok; [by apply Hn|]. rewrite Hsame in Hok' by done. congruence.
  - intros Hno. destruct (strela_dev_ok (ls_dev l)) eqn:Hok; [|by rewrite Hsame; [apply He|]].
    destruct (Hres eq_refl); congruence.
Qed.

Lemma hold_opened l0 l : LibDevice.opened l0 l -> hold l0 0 l.
Proof.
  intros Ho. pose proof (opened_ok _ _ Ho) as Hok. destruct Ho as (He & Hm & Hj & Hf). exists (mkSess [] []).
  split_and!; try done. congruence.
Qed.

Lemma hold_full l0 n l : 128 < n -> hold l0 n l -> d_errnum (ls_dev l) = - STRELA_ERR_NO_MEM.
Proof.
  intros Hn (ss & Hm & _ & _ & Hc & He). destruct (strela_dev_ok (ls_dev l)) eqn:Hok; [|by apply He].
  specialize (Hc eq_refl). apply kernels_le in Hm. lia.
Qed.

(** Between tests. *)
Context (base : tstate) (Hw : (Z.to_nat which < length (ts_devs base))%nat).

Definition between (s : tstate) : Prop := exists l, s = at_ which base l /\ is_open l.

Lemma exhaustion_passes l :
  closed l \/ is_open l -> wp (test_lib_allocator_exhaustion which) (fun _ => between) (at_ which base l).
Proof.
  intros Hl. apply wp_bind, wp_on_dev; [done|]. eapply wp_mono; [by apply init_test|]. intros [] l1 (l0 & Hb & Ho).
  apply wp_bind, wp_on_dev; [done|]. eapply wp_mono.
  { apply init_test. right. exists l0, (mkSess [] []). by destruct Ho as (_ & ? & ? & _). }
  clear l0 Hb Ho. intros [] l2 (l0 & Hb & Ho). apply wp_bind, wp_dev_is_ok; [done|].
  rewrite (opened_ok _ _ Ho). apply wp_bind, wp_CHECK; [done|]. apply wp_bind.
  apply (wp_for _ (fun j _ s => exists l, s = at_ which base l /\ hold l0 j l)); [lia|by eexists; split; [|apply hold_opened]|..].
  { intros j [] s _ (l3 & -> & Hh). apply wp_bind, wp_on_dev; [done|]. eapply wp_mono; [by apply hold_kernel|].
    intros k l4 Hh4. apply wp_bind, wp_on_dev; [done|]. eapply wp_mono; [by apply (hold_buffer l0 (j + 1))|].
    intros b l5 Hh5. apply wp_ret. by exists l5. }
  intros [] s (l3 & -> & Hh). apply wp_bind, wp_dev_err; [done|].
  apply wp_bind, wp_CHECK; [by rewrite (hold_full l0 1000 l3)|]. destruct Hh as (ss & Hm & Hj & Hf & _).
  apply wp_bind, wp_on_dev; [done|]. eapply wp_mono; [apply (dev_deinit_wp l0 l3 ss); [apply Hb|done|done|by right]|].
  intros [] l4 (Hd & Hc1 & Hc2 & Hc3 & _). apply wp_on_dev; [done|]. eapply wp_mono; [apply init_test|].
  { left. split; [by rewrite Hd|]. destruct Hb as [[Hb1 Hb2] Hb3].
    split; [split; intros; rewrite ?Hc1, ?Hc2; auto|by rewrite Hc3]. }
  intros [] l5 (l0' & Hb' & He & Hm' & Hj' & _). exists l5. split; [done|]. by exists l0', (mkSess [] []).
Qed.

(** ** Giving back all kernels *)
Lemma handles_NoDup l ss : mem_inv l ss -> NoDup (ss_kernels ss).*1.
Proof.
  intros Hm. destruct (mi_pool _ _ Hm) as [F Hr]. apply pool_rep_NoDup, NoDup_app in Hr as (_ & _ & Hr).
  apply (NoDup_fmap_1 (fun h => d_kernels_bo_map (ls_dev l) + h * KERNEL_BYTES)). by rewrite <- list_fmap_compose.
Qed.

(** The array of the test marks the kernels it has. *)
Definition marks (seen : list bool) (hs : list Z) : Prop :=
  length seen = Z.to_nat SLOTS
  /\ forall h, 0 <= h < SLOTS -> seen !! Z.to_nat h = Some (bool_decide (h ∈ hs)).

Lemma marks_add seen hs h : 0 <= h < SLOTS -> marks seen hs -> marks (<[Z.to_nat h := true]> seen) (h :: hs).
Proof.
  intros Hh [Hlen Hm]. split; [by rewrite length_insert|]. intros h' Hh'. unfold SLOTS in *.
  destruct (decide (h' = h)) as [->|Hne].
  - rewrite list_lookup_insert_eq by lia. by rewrite bool_decide_true by set_solver.
  - rewrite list_lookup_insert_ne, Hm by lia. f_equal. apply bool_decide_ext. set_solver.
Qed.

Lemma drain_run l0 fuel n seen ss l :
  mem_inv l ss -> job_inv l0 l -> strela_dev_ok (ls_dev l) = true -> marks seen (ss_kernels ss).*1 ->
  n = Z.of_nat (length (ss_kernels ss)) -> 130 <= Z.of_nat fuel + n ->
  wp (drain which fuel n seen) (fun r s => r = SLOTS /\ exists l' ss', s = at_ which base l' /\ mem_inv l' ss' /\ job_inv l0 l'
    /\ d_errnum (ls_dev l') = - STRELA_ERR_NO_MEM) (at_ which base l).
Proof.
  revert n seen ss l. induction fuel as [|fuel IH]; intros n seen ss l Hm Hj Hok Hseen Hn Hfuel;
    pose proof (kernels_le _ _ Hm) as Hle; [lia|]. cbn [drain].
  apply wp_bind, wp_dev_is_ok; [done|]. rewrite Hok, (proj2 (Z.leb_le n SLOTS)) by (unfold SLOTS; lia). cbn [andb negb].
  apply wp_bind, wp_on_dev; [done|]. eapply wp_mono; [by apply kernel_alloc_full_wp|].
  intros k l' ([Hm' Hj'] & (Hjobs & Hres & _) & Hk & _ & Hfull). apply wp_bind, wp_dev_is_ok; [done|].
  destruct (strela_dev_ok (ls_dev l')) eqn:Hok'; cbn [negb].
  2: { apply wp_ret. split; [rewrite Hn, (Hfull Hok Hk); done|]. exists l', (keep_kernel ss k). split_and!; [done|done|by apply Hj'|].
       by destruct (Hres Hok). }
  unfold keep_kernel in Hm'. rewrite Hk in Hm'. pose proof (handles_NoDup _ _ Hm') as HN. cbn in HN. apply NoDup_cons in HN as [Hnew _].
  pose proof (mi_kerns _ _ Hm') as Hks. apply Forall_cons in Hks as [[Hh _] _]. cbn [fst] in Hh.
  destruct Hseen as [Hlen Hmark]. rewrite (Hmark (k_handle k) Hh). cbn [default]. rewrite bool_decide_false by done.
  change (k_handle k <? SLOTS) with (k_handle k <? 128). rewrite (proj2 (Z.ltb_lt _ _)) by lia. cbn [andb negb id].
  apply wp_bind, wp_CHECK; [done|].
  apply (IH _ _ _ _ Hm' (Hj' _ Hj) Hok'); [by apply marks_add|cbn; lia|lia].
Qed.

Lemma kernel_free_all_passes l :
  closed l \/ is_open l -> wp (test_lib_kernel_free_all which) (fun _ => between) (at_ which base l).
Proof.
  intros Hl. apply wp_bind, wp_on_dev; [done|]. eapply wp_mono; [by apply init_test|]. intros [] l1 (l0 & Hb & Ho).
  pose proof (opened_ok _ _ Ho) as Hok. destruct Ho as (_ & Hm & Hj & _).
  apply wp_bind, wp_on_dev; [done|]. eapply wp_mono; [by apply kernel_alloc_full_wp|].
  intros k l2 ([Hm2 Hj2] & _ & Hk & _ & Hfull). specialize (Hj2 _ Hj).
  assert (Hok2 : strela_dev_ok (ls_dev l2) = true).
  { rewrite <- Hk. destruct (k_valid k); [done|]. by specialize (Hfull Hok eq_refl). }
  apply wp_bind, wp_on_dev; [done|]. eapply wp_mono; [by apply (free_kernels_wp l2 (keep_kernel (mkSess [] []) k))|].
  intros [] l3 ([Hm3 Hj3] & He3 & _). specialize (Hj3 _ Hj2).
  assert (Hok3 : strela_dev_ok (ls_dev l3) = true).
  { apply ok_of; [apply Hj3|]. rewrite He3. by apply ok_errnum. }
  apply wp_bind, wp_dev_is_ok; [done|]. rewrite Hok3. apply wp_bind, wp_CHECK; [done|].
  apply wp_bind. eapply wp_mono; [eapply drain_run; [exact Hm3|exact Hj3|exact Hok3|..]|].
  { split; [done|]. intros h Hh. rewrite lookup_replicate_2 by (unfold SLOTS in *; lia). done. }
  { done. }
  { vm_compute. discriminate. }
  intros r s (-> & l4 & ss4 & -> & Hm4 & Hj4 & He4). apply wp_bind, wp_CHECK; [done|].
  apply wp_bind, wp_dev_err; [done|]. rewrite He4. apply wp_bind, wp_CHECK; [done|].
  apply wp_bind, wp_on_dev; [done|]. unfold strela_dev_reset_err. apply wp_bind, wp_dev. rewrite (ji_init _ _ Hj4).
  apply wp_update_dev. set (l5 := lst_set_dev _ _).
  assert (Hm5 : mem_inv l5 ss4) by (by apply mem_inv_errnum). assert (Hj5 : job_inv l0 l5) by (by apply job_inv_errnum).
  apply wp_on_dev; [done|]. eapply wp_mono; [apply (free_kernels_wp l5 ss4 Hm5), ok_of; [apply Hj5|done]|].
  intros [] l6 ([Hm6 Hj6] & _). exists l6. split; [done|]. eexists l0, _. split; [done|]. split; [exact Hm6|by apply Hj6].
Qed.

(** ** Jobs *)

(** The device works and its slots satisfy [P]. *)
Definition ready (l0 : list sevent) (P : nat -> strela_job_slot -> Prop) (l : lst) : Prop :=
  (exists ss, mem_inv l ss) /\ job_inv l0 l /\ strela_dev_ok (ls_dev l) = true
  /\ forall i x, d_jobs (ls_dev l) !! i = Some x -> P i x.

Definition free_slot (_ : nat) (x : strela_job_slot) : Prop := sl_phase x = STRELA_JOB_FREE.

(** One slot changed. *)
Lemma ready_step l0 P P' l i y l' :
  ready l0 P l -> slot_step l0 l i y l' -> P' i y -> (forall j x, j <> i -> P j x -> P' j x) -> ready l0 P' l'.
Proof.
  intros ([ss Hm] & Hj & Hok & HP) Hs Hy Hother. pose proof (slot_step_ok _ _ _ _ _ Hs) as Hok'.
  destruct Hs as (Hj' & Hf & _ & Hjobs). split; [exists ss; by eapply mem_inv_frame|]. split; [done|]. split; [congruence|].
  intros j x. rewrite Hjobs. destruct (decide (j = i)) as [->|Hne].
  - intros Hx. apply list_lookup_insert_Some in Hx as [(_ & <- & _)|[? _]]; done.
  - rewrite list_lookup_insert_ne by done. intros Hx. by apply Hother, HP.
Qed.

Lemma ready_slot l0 P l (i : nat) : ready l0 P l -> (i < STRELA_JOBS_MAX)%nat ->
  exists x, d_jobs (ls_dev l) !! i = Some x /\ P i x.
Proof.
  intros (_ & Hj & _ & HP) Hi. destruct (lookup_lt_is_Some_2 (d_jobs (ls_dev l)) i) as [x Hx]; [by rewrite (ji_len _ _ Hj)|].
  exists x. split; [done|by apply HP].
Qed.

Lemma ready_open l0 P l : before l0 -> ready l0 P l -> is_open l.
Proof. intros Hb ([ss Hm] & Hj & _). by exists l0, ss. Qed.

(** The first free slot, when the slots before it are used. *)
Lemma find_free_at l0 P l (i : nat) :
  ready l0 P l -> (i < STRELA_JOBS_MAX)%nat ->
  (forall j x, (j < i)%nat -> P j x -> sl_phase x <> STRELA_JOB_FREE) -> (forall x, P i x -> sl_phase x = STRELA_JOB_FREE) ->
  find_free (d_jobs (ls_dev l)) = Some i.
Proof.
  intros Hr Hi Hbefore Hat. destruct (ready_slot _ _ _ i Hr Hi) as (x & Hx & HPx). destruct Hr as (_ & _ & _ & HP).
  unfold find_free. erewrite (proj2 (list_find_Some _ _ i x)); [done|]. split_and!; [done|by apply Hat|].
  intros j y Hy Hlt. apply (Hbefore j); [done|]. by apply HP.
Qed.

Lemma kernel_new_run l0 l :
  LibDevice.opened l0 l ->
  wp (bypass_kernel_new which) (fun k s => kernel_bad k = false /\ exists l', s = at_ which base l' /\ ready l0 free_slot l') (at_ which base l).
Proof.
  intros Ho. pose proof (opened_ok _ _ Ho) as Hok. destruct Ho as (_ & Hm & Hj & Hf).
  apply wp_bind, wp_on_dev; [done|]. eapply wp_mono; [by apply kernel_alloc_full_wp|].
  intros k l1 ([Hm1 Hj1] & (Hjobs & _) & Hk & H0 & Hfull). specialize (Hj1 _ Hj).
  assert (Hv : k_valid k = true) by (destruct (k_valid k); [done|]; by specialize (Hfull Hok eq_refl)).
  unfold keep_kernel in Hm1. rewrite Hv in Hm1, Hk. pose proof (mi_kerns _ _ Hm1) as Hks. apply Forall_cons in Hks as [[Hh _] _].
  cbn [fst] in Hh. apply wp_bind, wp_on_dev; [done|].
  replace k with (mkKernel true (k_handle k)) at 1 by (destruct k; cbn in *; by subst).
  eapply wp_mono; [eapply (kernel_set_run dir kind l1 _ (k_handle k)); [exact Hm1|reflexivity|done|]|].
  { vm_compute. lia. }
  intros [] l2 ((ss2 & Hm2 & Hj2) & Hd2). apply wp_ret. split; [unfold kernel_bad; rewrite Hv; cbn; lia|].
  exists l2. split; [done|]. split; [by exists ss2|]. split; [by apply Hj2|]. rewrite Hd2. split; [done|].
  rewrite Hjobs. intros i x Hx. unfold all_free in Hf. rewrite Forall_lookup in Hf. by apply (Hf i).
Qed.

Lemma config_and_free_run l0 kernel l :
  kernel_bad kernel = false -> before l0 -> ready l0 free_slot l ->
  wp (config_and_free which kernel) (fun _ s => exists l', s = at_ which base l' /\ ready l0 free_slot l') (at_ which base l).
Proof.
  intros Hkernel [Hl0 _] Hr. pose proof Hr as (_ & Hj & Hok & _). apply wp_bind, wp_on_dev; [done|].
  eapply wp_mono; [apply (config_run dir kind l0 Hl0 l kernel conf0 0 Hj Hok Hkernel)|].
  { apply (find_free_at l0 free_slot); [done|unfold STRELA_JOBS_MAX; lia|intros; lia|done]. }
  intros job l1 (-> & y & Hy & Hs). apply wp_bind, wp_CHECK; [done|]. apply wp_on_dev; [done|].
  assert (Hr1 : ready l0 (fun i x => i <> 0%nat -> sl_phase x = STRELA_JOB_FREE) l1).
  { eapply ready_step; [exact Hr|exact Hs|done|]. by intros j x _ Hx _. }
  destruct (ready_slot _ _ _ 0 Hr1) as (x & Hx & _); [unfold STRELA_JOBS_MAX; lia|]. pose proof Hr1 as (_ & Hj1 & Hok1 & _).
  eapply wp_mono; [by apply (free_run l0 Hl0 l1 0 x)|]. intros [] l2 (z & Hz & Hs2). exists l2. split; [done|].
  eapply ready_step; [exact Hr1|exact Hs2|done|]. intros j u Hne Hu. by apply Hu.
Qed.

(** Jobs that are configured and not freed use the slots up. *)
Definition is_free (x : strela_job_slot) : Z := if bool_decide (sl_phase x = STRELA_JOB_FREE) then 1 else 0.

Lemma is_free_nonneg x : 0 <= is_free x.
Proof. unfold is_free. by destruct (bool_decide _). Qed.

Definition taking (l0 : list sevent) (j : Z) (job : strela_job) (l : lst) : Prop :=
  (exists ss, mem_inv l ss) /\ job_inv l0 l
  /\ (strela_dev_ok (ls_dev l) = true -> sumZ is_free (d_jobs (ls_dev l)) + j = Z.of_nat STRELA_JOBS_MAX)
  /\ (0 < j -> jh_valid job = strela_dev_ok (ls_dev l)).

Lemma taking_step l0 kernel j job l :
  kernel_bad kernel = false -> before l0 -> 0 <= j -> taking l0 j job l -> wp (strela_job_config kernel conf0) (fun job' l' => taking l0 (j + 1) job' l') l.
Proof.
  intros Hkernel [Hl0 _] H0 ([ss Hm] & Hj & Hcount & _). destruct (strela_dev_ok (ls_dev l)) eqn:Hok.
  2: { eexists _, _. split; [by apply config_not_ok|]. split; [by exists ss|]. split; [done|]. rewrite Hok. by split. }
  specialize (Hcount eq_refl). destruct (find_free (d_jobs (ls_dev l))) as [i|] eqn:Hfree.
  - eapply wp_mono; [by apply (config_run dir kind l0 Hl0 l kernel conf0 i)|]. intros job' l' (-> & y & Hy & Hs).
    pose proof (slot_step_ok _ _ _ _ _ Hs) as Hok'. destruct Hs as (Hj' & Hf & _ & Hjobs).
    destruct (find_free_Some _ _ Hfree) as (x & Hx & Hph).
    split; [exists ss; by eapply mem_inv_frame|]. split; [done|]. rewrite Hjobs, (sumZ_insert _ _ _ _ _ Hx), Hok', Hok.
    split; [|done]. intros _. unfold is_free at 2 3. rewrite Hy, Hph, bool_decide_true, bool_decide_false by done. lia.
  - eexists _, _. split; [by apply config_full|]. split; [exists ss; by apply mem_inv_errnum|]. split; [by apply job_inv_errnum|].
    cbn [ls_dev lst_set_dev]. rewrite errnum_not_ok by done. by split.
Qed.

Lemma free_count (jobs : list strela_job_slot) :
  (forall i x, jobs !! i = Some x -> sl_phase x = STRELA_JOB_FREE) -> sumZ is_free jobs = Z.of_nat (length jobs).
Proof.
  induction jobs as [|x jobs IH]; intros H; [done|]. cbn [sumZ length]. rewrite IH by (intros i; apply (H (S i))).
  unfold is_free. rewrite (H 0%nat x eq_refl), bool_decide_true by done. lia.
Qed.

Lemma resource_exhaustion_passes l :
  closed l \/ is_open l -> wp (test_lib_job_resource_exhaustion which) (fun _ => between) (at_ which base l).
Proof.
  intros Hl. apply wp_bind, wp_on_dev; [done|]. eapply wp_mono; [by apply init_test|]. intros [] l1 (l0 & Hb & Ho).
  apply wp_bind. eapply wp_mono; [by apply (kernel_new_run l0)|]. intros kernel s (Hk & l2 & -> & Hr2). clear l1 Ho.
  apply wp_bind. apply (wp_for _ (fun _ _ s => exists l, s = at_ which base l /\ ready l0 free_slot l)); [lia|by exists l2|..].
  { intros j [] s _ (l3 & -> & Hr3). by apply config_and_free_run. }
  intros [] s (l3 & -> & ([ss3 Hm3] & Hj3 & Hok3 & Hf3)). apply wp_bind, wp_on_dev; [done|].
  eapply wp_mono; [by apply (job_free_all_wp l0 (proj1 Hb))|]. intros [] l4 ([Hj4 Hf4] & He4 & Hfree & _).
  specialize (Hfree Hok3). apply wp_bind.
  apply (wp_for _ (fun j job s => exists l, s = at_ which base l /\ taking l0 j job l)); [lia|..].
  { exists l4. split; [done|]. split; [exists ss3; by eapply mem_inv_frame|]. split; [done|]. split; [intros _|lia].
    rewrite free_count, (ji_len _ _ Hj4); [lia|]. intros i x Hx. unfold all_free in Hfree. rewrite Forall_lookup in Hfree. by apply (Hfree i). }
  { intros j job s Hj (l5 & -> & Ht). apply wp_on_dev; [done|].
    eapply wp_mono; [apply (taking_step l0 kernel j job); [done|done|lia|done]|]. intros job' l6 Ht'. by exists l6. }
  intros job s (l5 & -> & [ss5 Hm5] & Hj5 & Hc5 & Hv5). rewrite (Hv5 ltac:(lia)).
  apply wp_bind, wp_CHECK.
  { destruct (strela_dev_ok (ls_dev l5)); [|done]. specialize (Hc5 eq_refl).
    pose proof (sumZ_nonneg is_free (d_jobs (ls_dev l5)) is_free_nonneg). unfold STRELA_JOBS_MAX in Hc5. lia. }
  apply wp_bind, wp_on_dev; [done|]. eapply wp_mono; [apply init_test; right; by exists l0, ss5|].
  intros [] l6 (l0' & Hb' & Ho'). apply wp_bind. eapply wp_mono; [by apply (kernel_new_run l0')|].
  intros kernel' s (Hk' & l7 & -> & Hr7). eapply wp_mono; [by apply (config_and_free_run l0')|].
  intros [] s (l8 & -> & Hr8). exists l8. split; [done|]. by eapply ready_open.
Qed.

(** A round with a job that is not in the driver: the job is done at its end. *)
Definition idle_at (i j : nat) (x : strela_job_slot) : Prop :=
  if decide (j = i) then sl_phase x = STRELA_JOB_CONFIGURED \/ sl_phase x = STRELA_JOB_DONE
  else sl_phase x = STRELA_JOB_FREE.

Lemma ready_errnum l0 P l e : ready l0 P l -> e = 0 -> ready l0 P (lst_set_dev l (dev_set_errnum (ls_dev l) e)).
Proof.
  intros ([ss Hm] & Hj & Hok & HP) ->. split; [exists ss; by apply mem_inv_errnum|]. split; [by apply job_inv_errnum|].
  split; [|done]. cbn. apply ok_of; [apply Hj|done].
Qed.

Lemma submit_round_run l0 l i :
  before l0 -> (i < STRELA_JOBS_MAX)%nat -> ready l0 (idle_at i) l ->
  wp (submit_round which (mkJobH true (Z.of_nat i))) (fun _ s => exists l', s = at_ which base l' /\ ready l0 (idle_at i) l') (at_ which base l).
Proof.
  intros [Hl0 _] Hi Hr. destruct (ready_slot _ _ _ i Hr Hi) as (x & Hx & Hph). unfold idle_at in Hph.
  rewrite decide_True in Hph by done. pose proof Hr as (_ & Hj & Hok & _). apply wp_bind, wp_on_dev; [done|].
  eapply wp_mono; [by apply (submit_run dir kind l0 Hl0 l i x)|]. intros b l1 (-> & y & Hy & Hfd & Hs).
  pose (running := fun (j : nat) (u : strela_job_slot) => if decide (j = i) then u = y else sl_phase u = STRELA_JOB_FREE).
  assert (Hr1 : ready l0 running l1).
  { eapply ready_step; [exact Hr|exact Hs|unfold running; by rewrite decide_True|]. intros j u Hne Hu.
    unfold running, idle_at in *. by rewrite decide_False in Hu |- *. }
  pose proof Hr1 as (Hm1 & Hj1 & Hok1 & Hp1). apply wp_bind, wp_dev_is_ok; [done|]. rewrite Hok1. apply wp_bind, wp_CHECK; [done|].
  destruct (ready_slot _ _ _ i Hr1 Hi) as (y' & Hy' & Heq). unfold running in Heq. rewrite decide_True in Heq by done. subst y'.
  apply wp_bind, wp_on_dev; [done|]. eexists _, _. split; [by apply (submit_twice l1 i y (ji_len _ _ Hj1))|].
  apply wp_bind, wp_dev_is_ok; [done|]. cbn [ls_dev lst_set_dev]. rewrite errnum_not_ok by done. apply wp_bind, wp_CHECK; [done|].
  apply wp_bind, wp_on_dev; [done|]. unfold strela_dev_reset_err. apply wp_bind, wp_dev. cbn [ls_dev lst_set_dev].
  rewrite (ji_init _ _ Hj1 : d_initialized (dev_set_errnum _ _) = true). apply wp_update_dev.
  pose proof (ready_errnum _ _ _ STRELA_ERR_OK Hr1 eq_refl) as Hr2. cbn [lst_set_dev ls_dev ls_mem ls_log].
  change (dev_set_errnum (dev_set_errnum (ls_dev l1) (- STRELA_ERR_BAD_ARG)) STRELA_ERR_OK) with (dev_set_errnum (ls_dev l1) STRELA_ERR_OK).
  change (lst_set_dev (lst_set_dev l1 _) ?d) with (lst_set_dev l1 d). set (l2 := lst_set_dev l1 _) in *.
  pose proof Hr2 as (_ & Hj2 & Hok2 & _). apply wp_bind, wp_on_dev; [done|].
  eapply wp_mono; [by apply (wait_run dir kind l0 Hl0 l2 i y)|]. intros b l3 (-> & z & Hz & Hs3). apply wp_ret.
  exists l3. split; [done|]. eapply ready_step; [exact Hr2|exact Hs3|unfold idle_at; rewrite decide_True by done; by right|].
  intros j u Hne Hu. unfold running, idle_at in *. by rewrite decide_False in Hu |- *.
Qed.

(** One job at a time. *)
Lemma one_job_run l0 kernel l :
  kernel_bad kernel = false -> before l0 -> ready l0 free_slot l ->
  wp (let! job := on_dev which (strela_job_config kernel conf0) in
      do! CHECK (jh_valid job) in
      do! for_ 3 (fun _ _ => submit_round which job) tt in
      on_dev which (strela_job_free job)) (fun _ s => exists l', s = at_ which base l' /\ ready l0 free_slot l') (at_ which base l).
Proof.
  intros Hkernel Hb Hr. pose proof Hr as (_ & Hj & Hok & _). apply wp_bind, wp_on_dev; [done|].
  assert (H16 : (0 < STRELA_JOBS_MAX)%nat) by (unfold STRELA_JOBS_MAX; lia).
  eapply wp_mono; [apply (config_run dir kind l0 (proj1 Hb) l kernel conf0 0 Hj Hok Hkernel)|].
  { apply (find_free_at l0 free_slot); [done|done|intros; lia|done]. }
  intros job l1 (-> & y & Hy & Hs). apply wp_bind, wp_CHECK; [done|]. apply wp_bind.
  apply (wp_for _ (fun _ _ s => exists l, s = at_ which base l /\ ready l0 (idle_at 0) l)); [lia|..].
  { exists l1. split; [done|]. eapply ready_step; [exact Hr|exact Hs|unfold idle_at; rewrite decide_True by done; by left|].
    intros j x Hne Hx. unfold idle_at. by rewrite decide_False. }
  { intros j [] s _ (l2 & -> & Hr2). by apply submit_round_run. }
  intros [] s (l2 & -> & Hr2). apply wp_on_dev; [done|].
  destruct (ready_slot _ _ _ 0 Hr2 H16) as (x & Hx & _). pose proof Hr2 as (_ & Hj2 & Hok2 & _).
  eapply wp_mono; [by apply (free_run l0 (proj1 Hb) l2 0 x)|]. intros [] l3 (z & Hz & Hs3). exists l3. split; [done|].
  eapply ready_step; [exact Hr2|exact Hs3|done|]. intros j u Hne Hu. unfold idle_at in Hu. by rewrite decide_False in Hu.
Qed.

(** Ten jobs at once: the slots below [j] are past a step, the others are not. *)
Definition split_at (j : Z) (P Q : strela_job_slot -> Prop) (i : nat) (x : strela_job_slot) : Prop :=
  (Z.of_nat i < j -> P x) /\ (j <= Z.of_nat i < 10 -> Q x).

Definition configured (x : strela_job_slot) : Prop := sl_phase x = STRELA_JOB_CONFIGURED.
Definition submitted (x : strela_job_slot) : Prop := sl_phase x = STRELA_JOB_SUBMITTED /\ 0 <= sl_fence_fd x.
Definition is_done (x : strela_job_slot) : Prop := sl_phase x = STRELA_JOB_DONE.

Lemma split_step l0 P Q l j y l' :
  0 <= j -> ready l0 (split_at j P Q) l -> slot_step l0 l (Z.to_nat j) y l' -> P y -> ready l0 (split_at (j + 1) P Q) l'.
Proof.
  intros H0 Hr Hs Hy. eapply ready_step; [exact Hr|exact Hs|split; [done|lia]|].
  intros k x Hne [H1 H2]. split; intros Hk; [apply H1; lia|apply H2; lia].
Qed.

Lemma split_next l0 P Q R l : ready l0 (split_at 10 P Q) l -> ready l0 (split_at 0 R P) l.
Proof.
  intros (Hm & Hj & Hok & HP). split; [done|]. split; [done|]. split; [done|]. intros i x Hx. destruct (HP i x Hx) as [H _].
  split; [lia|]. intros Hi. apply H. lia.
Qed.

Lemma split_slot l0 P Q l j : 0 <= j < 10 -> ready l0 (split_at j P Q) l ->
  exists x, d_jobs (ls_dev l) !! Z.to_nat j = Some x /\ Q x.
Proof.
  intros Hj Hr. destruct (ready_slot _ _ _ (Z.to_nat j) Hr) as (x & Hx & _ & Hq); [unfold STRELA_JOBS_MAX; lia|].
  exists x. split; [done|]. apply Hq. lia.
Qed.

(** The handles the test keeps. *)
Definition job_of (i : nat) : strela_job := mkJobH true (Z.of_nat i).

(** Configuring ten jobs. *)
Lemma config_ten l0 kernel l :
  kernel_bad kernel = false -> before l0 -> ready l0 free_slot l ->
  wp (for_ 10 (fun i jobs =>
        let! job := on_dev which (strela_job_config kernel conf0) in
        let! ok := dev_is_ok which in
        do! CHECK ok in
        mret_ (<[Z.to_nat i := job]> jobs)) (replicate 10 jobh0))
     (fun jobs s => (forall i, (i < 10)%nat -> jobs !! i = Some (job_of i))
        /\ exists l', s = at_ which base l' /\ ready l0 (split_at 0 submitted configured) l') (at_ which base l).
Proof.
  intros Hkernel Hb Hr.
  pose (inv := fun j i x => (Z.of_nat i < j -> configured x) /\ (j <= Z.of_nat i -> sl_phase x = STRELA_JOB_FREE)).
  apply (wp_for _ (fun j jobs s => length jobs = 10%nat /\ (forall i, Z.of_nat i < j -> jobs !! i = Some (job_of i))
    /\ exists l, s = at_ which base l /\ ready l0 (inv j) l)); [lia|..].
  { split; [done|]. split; [lia|]. exists l. split; [done|]. destruct Hr as (Hm & Hj & Hok & HP). split_and!; try done.
    intros i x Hx. split; [lia|]. intros _. by apply (HP i). }
  - intros j jobs s Hj (Hlen & Hjobs & l1 & -> & Hr1). pose proof Hr1 as (_ & Hj1 & Hok1 & _).
    apply wp_bind, wp_on_dev; [done|].
    eapply wp_mono; [apply (config_run dir kind l0 (proj1 Hb) l1 kernel conf0 (Z.to_nat j) Hj1 Hok1 Hkernel)|].
    { apply (find_free_at l0 (inv j)); [done|unfold STRELA_JOBS_MAX; lia| |].
      - intros k x Hk [Hx _]. rewrite (Hx ltac:(lia)). done.
      - intros x [_ Hx]. apply Hx. lia. }
    intros job l2 (-> & y & Hy & Hs). pose proof (slot_step_ok _ _ _ _ _ Hs) as Hok2.
    apply wp_bind, wp_dev_is_ok; [done|]. rewrite Hok2, Hok1. apply wp_bind, wp_CHECK; [done|]. apply wp_ret.
    split; [by rewrite length_insert|]. split.
    + intros i Hi. destruct (decide (i = Z.to_nat j)) as [->|Hne].
      * rewrite list_lookup_insert_eq by lia. done.
      * rewrite list_lookup_insert_ne by done. apply Hjobs. lia.
    + exists l2. split; [done|]. eapply ready_step; [exact Hr1|exact Hs|split; [done|lia]|].
      intros k x Hne [H1 H2]. split; intros Hk; [apply H1; lia|apply H2; lia].
  - intros jobs s (Hlen & Hjobs & l1 & -> & Hr1). split; [intros i Hi; apply Hjobs; lia|]. exists l1. split; [done|].
    destruct Hr1 as (Hm & Hj & Hok & HP). split_and!; try done. intros i x Hx. destruct (HP i x Hx) as [H1 _].
    split; [lia|]. intros Hi. apply H1. lia.
Qed.

Lemma submit_and_wait_passes l :
  closed l \/ is_open l -> wp (test_lib_job_submit_and_wait which) (fun _ => between) (at_ which base l).
Proof.
  intros Hl. apply wp_bind, wp_on_dev; [done|]. eapply wp_mono; [by apply init_test|]. intros [] l1 (l0 & Hb & Ho).
  apply wp_bind. eapply wp_mono; [by apply (kernel_new_run l0)|]. intros kernel s (Hk & l2 & -> & Hr2). clear l1 Ho.
  apply wp_bind. apply (wp_for _ (fun _ _ s => exists l, s = at_ which base l /\ ready l0 free_slot l)); [lia|by exists l2|..].
  { intros j [] s _ (l3 & -> & Hr3). by apply one_job_run. }
  intros [] s (l3 & -> & Hr3). apply wp_bind. eapply wp_mono; [by apply (config_ten l0)|].
  intros jobs s (Hjobs & l4 & -> & Hr4). apply wp_bind.
  apply (wp_for _ (fun j _ s => exists l, s = at_ which base l /\ ready l0 (split_at j submitted configured) l)); [lia|by exists l4|..].
  { intros j [] s Hj (l5 & -> & Hr5). rewrite (Hjobs (Z.to_nat j)) by lia. cbn [default].
    destruct (split_slot _ _ _ _ _ Hj Hr5) as (x & Hx & Hph). pose proof Hr5 as (_ & Hj5 & Hok5 & _).
    apply wp_bind, wp_on_dev; [done|]. eapply wp_mono; [apply (submit_run dir kind l0 (proj1 Hb) l5 _ x Hj5 Hok5 Hx); by left|].
    intros b l6 (_ & y & Hy & Hfd & Hs). pose proof (slot_step_ok _ _ _ _ _ Hs) as Hok6.
    apply wp_bind, wp_dev_is_ok; [done|]. rewrite Hok6, Hok5. apply wp_CHECK; [done|]. exists l6. split; [done|].
    eapply split_step; [lia|exact Hr5|exact Hs|done]. }
  intros [] s (l5 & -> & Hr5). apply (split_next _ _ _ is_done) in Hr5.
  apply (wp_for _ (fun j _ s => exists l, s = at_ which base l /\ ready l0 (split_at j is_done submitted) l)); [lia|by exists l5|..].
  { intros j [] s Hj (l6 & -> & Hr6). rewrite (Hjobs (Z.to_nat j)) by lia. cbn [default].
    destruct (split_slot _ _ _ _ _ Hj Hr6) as (x & Hx & Hph & Hfd). pose proof Hr6 as (_ & Hj6 & Hok6 & _).
    apply wp_bind, wp_on_dev; [done|]. eapply wp_mono; [by apply (wait_run dir kind l0 (proj1 Hb) l6 _ x)|].
    intros b l7 (-> & y & Hy & Hs). apply wp_CHECK; [done|]. exists l7. split; [done|].
    eapply split_step; [lia|exact Hr6|exact Hs|done]. }
  intros [] s (l6 & -> & Hr6). exists l6. split; [done|]. by eapply ready_open.
Qed.
End Suite.

(** ** The suite *)
Section Library.
Context `{A : abi} `{OS : Sys} `{HL : !SysLaws OS} `{HU : !Undisturbed OS}.
Context (dir : list (list Z)) (kind : list Z -> option (list Z)) `{HH : !Healthy OS dir kind}.
Context (Hmax : dev_total dir kind <= STRELA_DEVICE_MAX).

(** A process in which no device is open. *)
Record pristine (s : tstate) : Prop := {
  pt_len : Z.of_nat (length (ts_devs s)) = STRELA_DEVICE_MAX;
  pt_devs : Forall (fun d => d_initialized d = false) (ts_devs s);
  pt_log : log_ok (ts_log s);
  pt_maps : mapped (ts_log s) = []
}.

Lemma pristine_at s i d :
  ts_devs s !! i = Some d -> s = put i s (mkL d (ts_mem s) (ts_log s)).
Proof. intros Hd. destruct s as [devs m l f]. unfold put. cbn in *. by rewrite list_insert_id. Qed.

(** Any device of such a process, as the library sees it. *)
Lemma pristine_dev s i : pristine s -> 0 <= i < STRELA_DEVICE_MAX ->
  exists l, s = at_ i s l /\ closed l /\ (Z.to_nat i < length (ts_devs s))%nat.
Proof.
  intros [Hlen Hd Hl Hm] Hi. destruct (lookup_lt_is_Some_2 (ts_devs s) (Z.to_nat i)) as [d Hx]; [lia|].
  exists (mkL d (ts_mem s) (ts_log s)). split; [by apply pristine_at|]. rewrite Forall_lookup in Hd.
  split; [|lia]. split; [by apply (Hd (Z.to_nat i))|done].
Qed.

Lemma pristine_put s i l' :
  pristine s -> d_initialized (ls_dev l') = false -> same_counts (ts_log s) (ls_log l') -> pristine (put i s l').
Proof.
  intros [Hlen Hd [H1 H2] Hm] Hi (Hc1 & Hc2 & Hc3 & _). split; cbn [put ts_devs ts_log].
  - by rewrite length_insert.
  - by apply Forall_insert.
  - split; intros; rewrite ?Hc1, ?Hc2; auto.
  - by rewrite Hc3.
Qed.

Lemma basic_passes s :
  pristine s -> wp test_lib_basic (fun _ s' => pristine s' /\ ts_failures s' = ts_failures s) s.
Proof.
  intros Hp. destruct (pristine_dev s 0 Hp ltac:(unfold STRELA_DEVICE_MAX; lia)) as (l & Hat & Hcl & Hw).
  unfold test_lib_basic. rewrite Hat. apply wp_bind, wp_on_dev; [done|].
  apply (wp_given _ _ _ _ (dev_count_val dir 0 kind hs_steady l hs_names)).
  eapply wp_mono; [apply dev_count_wp|]. intros r l1 Hst ->.
  assert (Hp1 : pristine (at_ 0 s l1)).
  { apply pristine_put; [done|by rewrite (sb_dev _ _ _ _ Hst); apply Hcl|].
    rewrite Hat. apply step_by_counts in Hst. exact Hst. }
  apply wp_bind, wp_CHECK; [done|]. fold (dev_total dir kind).
  apply (wp_for _ (fun _ _ s' => pristine s' /\ ts_failures s' = ts_failures s)); [unfold dev_total; lia|by split|..|by rewrite <- Hat].
  clear l Hat Hcl Hw l1 Hst Hp1. intros j [] s1 Hj [Hp1 Hf1].
  destruct (pristine_dev s1 j Hp1 ltac:(lia)) as (l & Hat & Hcl & Hw). rewrite Hat.
  apply wp_bind, wp_on_dev; [done|]. eapply wp_mono; [apply (dev_init_run dir kind); [apply Hcl|apply Hcl|apply Hcl|done|lia]|].
  intros [] l2 Ho. pose proof (opened_ok _ _ Ho) as Hok. apply wp_bind, wp_on_dev, wp_dev; [done|].
  apply wp_bind, wp_CHECK; [done|]. apply wp_on_dev; [done|]. destruct Ho as (He & Hm & Hj2 & _).
  eapply wp_mono; [apply (dev_deinit_wp (ls_log l) l2 (mkSess [] [])); [apply Hcl|done|done|by left]|].
  intros [] l3 [Hd Hc]. split; [|done]. apply pristine_put; [done|by rewrite Hd|]. rewrite Hat. exact Hc.
Qed.

Context (which : Z) (Hwhich : 0 <= which < dev_total dir kind).

(** Device [which] of the process is closed or open, in order. *)
Definition usable (s : tstate) : Prop :=
  exists l, s = at_ which s l /\ (closed l \/ is_open l) /\ (Z.to_nat which < length (ts_devs s))%nat.

(** A test that takes processes from [P] to [Q] without a failed check. *)
Definition passes (P Q : tstate -> Prop) (t : M tstate unit) : Prop :=
  forall s, P s -> wp t (fun _ s' => Q s' /\ ts_failures s' = ts_failures s) s.

Lemma between_usable t :
  (forall base, (Z.to_nat which < length (ts_devs base))%nat -> forall l, closed l \/ is_open l ->
     wp t (fun _ => between which base) (at_ which base l)) -> passes usable usable t.
Proof.
  intros Ht s (l & Hat & Hl & Hw). rewrite Hat. eapply wp_mono; [by apply Ht|]. intros [] s' (l' & -> & Ho).
  split; [|done]. exists l'. split; [|split; [by right|]].
  - unfold at_. by rewrite !put_put.
  - cbn. by rewrite length_insert.
Qed.

Lemma usable_reset s : usable s -> usable (mkTS (ts_devs s) (ts_mem s) (ts_log s) 0).
Proof.
  intros (l & Hat & Hl & Hw). exists l. split; [|done]. unfold at_, put in *. cbn. by rewrite Hat at 1 2 3.
Qed.

Lemma run_tests_pass P Q ts :
  (forall s, P s -> P (mkTS (ts_devs s) (ts_mem s) (ts_log s) 0)) -> (forall s, Q s -> Q (mkTS (ts_devs s) (ts_mem s) (ts_log s) 0)) ->
  match ts with [] => True | t :: ts => passes P Q t /\ Forall (passes Q Q) ts end ->
  forall s, P s -> wp (run_tests ts) (fun r _ => r = replicate (length ts) true) s.
Proof.
  revert P. induction ts as [|t ts IH]; intros P HP HQ Ht s Hs; [by apply wp_ret|]. cbn [run_tests].
  apply wp_bind. eexists _, _. split; [reflexivity|]. apply wp_bind. destruct Ht as [Ht Hts].
  eapply wp_mono; [by apply Ht, HP|]. intros [] s' [Hs' Hf]. apply wp_bind. eexists _, _. split; [reflexivity|].
  apply wp_bind. eapply wp_mono; [apply (IH Q); [done|done| |done]|].
  - destruct ts as [|t' ts]; [done|]. by apply Forall_cons in Hts.
  - intros r s2 ->. apply wp_ret. rewrite Hf. done.
Qed.

(** C21: The library's own tests pass. On every healthy system with between one and
    eight devices, in a process in which no device is open, the tests
    [resource_tests] of the library suite run to their end and no check fails: devices can be counted, opened and closed; allocating until memory
    is exhausted ends with that error and nothing else; after all kernels were
    given back exactly 128 can be allocated, none twice; jobs can be
    configured and freed without end but not more than the slots at once; and
    jobs run, cannot be submitted while they do, and are done after the wait. *)
Theorem resource_tests_pass s :
  pristine s -> exists s', run_tests (resource_tests which) s = Ok (replicate 5 true, s').
Proof.
  intros Hp. destruct (run_tests_pass pristine usable (resource_tests which)) with (s := s) as (r & s' & He & ->);
    [by intros s0 []|apply usable_reset| |done|by exists s'].
  split.
  - intros s0 Hs0. eapply wp_mono; [by apply basic_passes|]. intros [] s1 [Hs1 Hf]. split; [|done].
    destruct (pristine_dev s1 which Hs1) as (l & Hat & Hcl & Hw); [lia|]. exists l. split; [done|]. by split; [left|].
  - repeat apply List.Forall_cons; [..|constructor]; apply between_usable; intros base Hw l Hl.
    + by apply (exhaustion_passes dir kind).
    + by apply (kernel_free_all_passes dir kind).
    + by apply (resource_exhaustion_passes dir kind).
    + by apply (submit_and_wait_passes dir kind).
Qed.
End Library.

(** ** Witness: a healthy system *)

(** Like [demo], with two places for mappings. *)
Definition place (l : list sevent) (a size : Z) : bool :=
  (size <=? STRELA_TENSOR_MEMORY_SIZE)
  && forallb (fun r => (a + size <=? r.1) || (r.1 + r.2 <=? a)) (mapped l).

Definition healthy_sys (l : list sevent) (c : syscall) : Z + Z * Z :=
  match c with
  | SC_mmap _ size _ =>
      if place l 4096 size then inr (4096, 0) else if place l (2 ^ 30) size then inr (2 ^ 30, 0) else inl 12
  | _ => demo_sys (fun _ => true) l c
  end.

Definition healthy_os : Sys := {|
  sys := healthy_sys;
  sys_listing := fun _ => (demo_names, 0);
  sys_drm_name := fun _ _ => STRELA_DRM_NAME
|}.

Lemma place_apart l a size : place l a size = true -> size <= STRELA_TENSOR_MEMORY_SIZE /\ Forall (apart (a, size)) (mapped l).
Proof.
  intros H. apply andb_true_iff in H as [H1 H2]. split; [lia|]. rewrite forallb_forall in H2. apply Forall_forall.
  intros r Hr. apply list_elem_of_In in Hr. specialize (H2 r Hr). unfold apart. cbn. lia.
Qed.

#[local] Instance healthy_laws `{A : abi} : SysLaws healthy_os.
Proof.
  split; cbn [sys healthy_os].
  - intros l c e. pose proof (law_errno (OS := demo (fun _ => true)) l c e) as H. destruct c; try exact H. cbn.
    destruct (place l 4096 size); [done|]. destruct (place _ _ _); [done|]. intros [= <-]. lia.
  - apply (law_openat (OS := demo (fun _ => true))).
  - apply (law_export (OS := demo (fun _ => true))).
  - apply (law_create (OS := demo (fun _ => true))).
  - intros l fd size off a y Hr. cbn in Hr. pose proof ptr_max_pos.
    assert (Hb : forall b, 4096 <= b <= 2 ^ 30 -> b mod 4096 = 0 -> place l b size = true ->
      b mod 4096 = 0 /\ 4096 <= b /\ b + size < 2 ^ ptr_bits /\ Forall (apart (b, size)) (mapped l)).
    { intros b Hb Hm Hp. apply place_apart in Hp as [Hs Ha]. change STRELA_TENSOR_MEMORY_SIZE with 52428800 in Hs. split_and!; [done|lia|lia|done]. }
    destruct (place l 4096 size) eqn:E1; [injection Hr as <- <-; by apply Hb; [lia|..]|].
    destruct (place l (2 ^ 30) size) eqn:E2; [injection Hr as <- <-; by apply Hb; [lia|..]|done].
  - apply (law_munmap (OS := demo (fun _ => true))).
  - apply (law_close (OS := demo (fun _ => true))).
  - apply (law_destroy (OS := demo (fun _ => true))).
  - apply (law_poll_negative (OS := demo (fun _ => true))).
Qed.

#[local] Instance healthy_undisturbed : Undisturbed healthy_os.
Proof.
  split; [apply (und_poll (OS := demo (fun _ => true)))|apply (und_wait (OS := demo (fun _ => true)))].
Qed.

#[local] Instance healthy_demo : Healthy healthy_os demo_names (fun _ => Some STRELA_DRM_NAME).
Proof.
  split; cbn [sys healthy_os].
  - split; [intros l; eexists; reflexivity|done|]. intros l n. do 3 eexists. split_and!; reflexivity.
  - reflexivity.
  - intros. by eexists.
  - intros l fd size off Hs [Hlen Hf]. cbn. destruct (place l 4096 size) eqn:E1; [by eexists|].
    destruct (place l (2 ^ 30) size) eqn:E2; [by eexists|]. exfalso. unfold place in *.
    rewrite (proj2 (Z.leb_le _ _) Hs) in E1, E2. cbn [andb] in E1, E2. change STRELA_TENSOR_MEMORY_SIZE with 52428800 in *.
    destruct (mapped l) as [|r [|]]; cbn in *; [done| |lia]. apply Forall_cons in Hf as [Hr _]. lia.
  - intros. by eexists.
  - intros. by eexists.
  - intros. by eexists.
  - intros. by eexists.
  - intros l fd Hfd _. cbn. exists 1, 0. rewrite (proj2 (Z.ltb_ge _ _) Hfd). split; [done|lia].
  - intros. by eexists.
Qed.

Definition process0 : tstate := mkTS (replicate 8 dev0) (Mem [] ∅) [] 3.

Lemma resource_tests_pass_witness :
  exists s', run_tests (resource_tests (A := ARMv7) (OS := healthy_os) 0) process0 = Ok (replicate 5 true, s').
Proof.
  apply (resource_tests_pass (A := ARMv7) (OS := healthy_os) demo_names (fun _ => Some STRELA_DRM_NAME)).
  - vm_compute. discriminate.
  - split; [lia|vm_compute; reflexivity].
  - split; [reflexivity|by repeat constructor|done|done].
Defined.
