(* ===== verification/LibWit.v ===== *)
(** * Sessions on a concrete system

    The library's properties applied to a session on the system of [LibDemo],
    on the 32-bit ABI of the board, and behaviour of single calls that a
    caller should know about. *)
From S2P Require Export LibExec LibPublished.

#[local] Existing Instance ARMv7.

Definition conf0 : strela_conf := mkConf 0 16 1 0 16 1 0 16 1 0 16 1 16 16 16 16 16 16 16 16.
Definition job0 : strela_job := mkJobH true 0.

(** A kernel, a buffer with data, a flush, a job that runs. *)
Definition demo_ops : list api_op :=
  [O_kernel_alloc; O_buffer_alloc 16; O_buffer_set 0 (replicate 64 7); O_buffer_flush 0 0 16;
   O_job_config (mkKernel true 0) conf0; O_job_submit job0].

Lemma demo_ops_ok : Forall api_op_ok demo_ops.
Proof. repeat constructor; vm_compute; intuition discriminate. Qed.

#[local] Instance demo_os : Sys := demo demo_limit.

Definition after (os : list api_op) : lst :=
  match session_run 0 os demo_start with Ok (_, s) => s | Trap _ => demo_start end.

Definition sess_after (os : list api_op) : session :=
  match session_run 0 os demo_start with Ok (ss, _) => ss | Trap _ => mkSess [] [] end.

(** The invariants hold in the states such sessions reach. *)
Lemma demo_inv os :
  Forall api_op_ok os -> d_initialized (ls_dev (after os)) = true ->
  mem_inv (after os) (sess_after os) /\ job_inv [] (after os).
Proof.
  intros Hos Hi. pose proof (session_run_wp (OS := demo_os) demo_exports demo_start 0 os (proj1 demo_start_ok) (proj2 demo_start_ok)
    ltac:(done) Hos) as (ss & s' & He & Hr).
  unfold after, sess_after in *. rewrite He in *. destruct Hr as [[_ (Hn & _)]|Hr]; [congruence|done].
Qed.

Lemma demo_state : mem_inv (after demo_ops) (sess_after demo_ops) /\ job_inv [] (after demo_ops).
Proof. apply demo_inv; [apply demo_ops_ok|by vm_compute]. Qed.

Definition buf0 : strela_buffer := mkBuffer true 16 16.
Definition data0 : list Z := replicate 64 7.

(** ** Witnesses *)
Lemma session_safe_witness :
  exists ss s', session_run 0 demo_ops demo_start = Ok (ss, s')
    /\ (not_opened demo_start s' \/ session_good ss s').
Proof.
  apply (session_safe demo_exports demo_start 0 demo_ops);
    [reflexivity|apply demo_start_ok|reflexivity|apply demo_ops_ok].
Defined.

Lemma session_balanced_witness :
  exists s', session_full 0 demo_ops demo_start = Ok (tt, s')
    /\ same_counts [] (ls_log s') /\ ls_dev s' = dev0.
Proof.
  apply (session_balanced demo_exports demo_start 0 demo_ops);
    [reflexivity|apply demo_start_ok|reflexivity|apply demo_ops_ok].
Defined.

Lemma dev_init_all_or_nothing_witness :
  exists s', strela_dev_init 0 demo_start = Ok (tt, s')
    /\ ((d_initialized (ls_dev s') = false /\ 0 < d_errnum (ls_dev s') /\ same_counts [] (ls_log s'))
        \/ (d_initialized (ls_dev s') = true /\ d_errnum (ls_dev s') = 0)).
Proof.
  destruct (dev_init_all_or_nothing demo_start 0) as (s' & He & Hr);
    [reflexivity|apply demo_start_ok|reflexivity|].
  exists s'. split; [exact He|]. destruct Hr as [Hr|(H1 & H2 & _)]; [left; exact Hr|right; exact (conj H1 H2)].
Defined.

Lemma sticky_error_witness :
  let s := with_error (after demo_ops) EINTR in
  strela_dev_ok (ls_dev s) = false /\ strela_buffer_alloc 4 s = Ok (buffer0, s).
Proof.
  intros s. assert (H : strela_dev_ok (ls_dev s) = false) by (vm_compute; reflexivity).
  split; [exact H|]. destruct (sticky_error s H) as (_ & _ & _ & _ & Ha & _). exact (Ha 4).
Defined.

Lemma buffer_flush_exact_witness :
  let s := after demo_ops in
  strela_buffer_flush buf0 0 5 s = Ok (tt, after_call s (SC_gem_sync 4 (mkGemSync 9 6 64 64))).
Proof.
  intros s. destruct (buffer_flush_exact s (sess_after demo_ops) 0 buf0 data0 0 5) as (_ & _ & H & _);
    [apply demo_state|vm_compute; reflexivity|vm_compute; reflexivity|lia|lia|vm_compute; discriminate|].
  apply H. vm_compute. discriminate.
Defined.

Lemma buffer_inval_exact_witness :
  let s := after demo_ops in
  strela_buffer_inval buf0 0 5 s = Ok (tt, with_error s (- STRELA_ERR_BAD_ARG))
  /\ strela_buffer_inval buf0 0 16 s = Ok (tt, after_call s (SC_gem_sync 4 (mkGemSync 9 1 64 64))).
Proof.
  intros s. split.
  - apply (buffer_inval_exact s (sess_after demo_ops) 0 buf0 data0 0 5);
      [apply demo_state|vm_compute; reflexivity|vm_compute; reflexivity|lia|lia|vm_compute; discriminate].
  - rewrite (buffer_inval_exact s (sess_after demo_ops) 0 buf0 data0 0 16);
      [reflexivity|apply demo_state|vm_compute; reflexivity|vm_compute; reflexivity|lia|lia|vm_compute; discriminate].
Defined.

Lemma buffer_ptr_roundtrip_witness :
  let s := after demo_ops in
  exists p, strela_buffer_to_ptr buf0 s = Ok (p, s) /\ strela_buffer_from_ptr p s = Ok (buf0, s).
Proof.
  intros s. apply (buffer_ptr_roundtrip s (sess_after demo_ops) 0 buf0 data0);
    [apply demo_state|vm_compute; reflexivity|vm_compute; reflexivity].
Defined.

Lemma syncs_isolated_witness :
  let s := after demo_ops in
  exists s', strela_buffer_flush buf0 0 5 s = Ok (tt, s')
    /\ (ls_log s' = ls_log s \/ exists args r, ls_log s' = Sev (SC_gem_sync (d_fd (ls_dev s)) args) r :: ls_log s).
Proof.
  intros s. destruct (syncs_isolated s (sess_after demo_ops) 0 buf0 data0 true 0 5) as (s' & He & Hr);
    [apply demo_state|vm_compute; reflexivity|vm_compute; intuition discriminate..|].
  exists s'. split; [exact He|]. destruct Hr as [Hr|(args & r & Hr & _)]; [left; exact Hr|right; exists args, r; exact Hr].
Defined.

(** The device is handed the buffer, fills it with nines, and hands it back:
    the CPU reads nines. *)
Lemma memory_looks_coherent_witness :
  exists w' bytes, rtc wstep (mkW (after demo_ops) (mkCache (byte_at (ls_mem (after demo_ops))) (fun _ => Absent)) (sess_after demo_ops) []) w'
    /\ strela_buffer_get_data buf0 (w_lib w') = Ok (Some bytes, w_lib w') /\ list.take 64 bytes = replicate 64 9.
Proof.
  assert (Hi : ss_bufs (sess_after demo_ops) !! 0%nat = Some (buf0, data0)) by (vm_compute; reflexivity).
  assert (Hok : strela_dev_ok (ls_dev (after demo_ops)) = true) by (vm_compute; reflexivity).
  pose proof demo_state as Hst. revert Hi Hok Hst. generalize (after demo_ops) as s, (sess_after demo_ops) as ss. intros s ss Hi Hok Hst.
  destruct (round_trip demo_exports [] (proj2 demo_start_ok) s ss 0 buf0 data0 (byte_at (ls_mem s)) (replicate 64 9)) as (w' & Hr & Ho & Hs & Hd);
    [intros l fd a; exists (0, 0); reflexivity|exact Hst|exact Hi|reflexivity|reflexivity|exact Hok|reflexivity|reflexivity|].
  destruct (memory_looks_coherent demo_exports [] (proj2 demo_start_ok) (mkW s (mkCache (byte_at (ls_mem s)) (fun _ => Absent)) ss []) w')
    as (Hcpu & _); [reflexivity|exact Hst|intros a _; reflexivity|exact Hr|].
  destruct (Hcpu 0%nat buf0 (replicate 64 9)) as (bytes & Hg & Ht).
  - rewrite Hs. apply list_lookup_insert_eq. exact (lookup_lt_Some _ _ _ Hi).
  - rewrite Ho. apply not_elem_of_nil.
  - rewrite Hd. exact Hok.
  - exists w', bytes. split; [exact Hr|]. split; [exact Hg|exact Ht].
Defined.

(** What can be read off a run by evaluating it. *)
Definition ends {X} (p : X -> bool) (r : outcome X) : bool := match r with Ok x => p x | Trap _ => false end.

Lemma ends_inv {X} (p : X -> bool) r : ends p r = true -> exists x, r = Ok x /\ p x = true.
Proof. destruct r as [x|t]; [eauto|done]. Qed.

(** A kernel is loaded; then some line is written back. *)
Definition kernel5 : list Z := replicate 320 5.

Lemma demo_load :
  ends (fun '(ss', s1) => strela_dev_ok (ls_dev s1) && bool_decide (ss_kernels ss' !! 0%nat = Some (127, kernel5)))
    (api_do (sess_after demo_ops) (O_kernel_set 0 kernel5) (after demo_ops)) = true.
Proof. vm_compute. reflexivity. Qed.

Lemma published_reaches_device_witness :
  exists w2 w3, wcall (O_kernel_set 0 kernel5)
      (mkW (after demo_ops) (mkCache (byte_at (ls_mem (after demo_ops))) (fun _ => Absent)) (sess_after demo_ops) []) w2
    /\ rtc wstep w2 w3 /\ c_ram (w_cache w3) (d_kernels_bo_map (ls_dev (w_lib w3)) + 127 * KERNEL_BYTES + 10) = 5.
Proof.
  destruct (ends_inv _ _ demo_load) as ([ss1 s1] & He & H). apply andb_prop in H as [Hok Hk%bool_decide_eq_true].
  assert (Hi : exists old, ss_kernels (sess_after demo_ops) !! 0%nat = Some (127, old)) by (eexists; vm_compute; reflexivity).
  assert (Hne : d_kernels_bo_handle (ls_dev (after demo_ops)) <> d_tensors_bo_handle (ls_dev (after demo_ops))) by (vm_compute; discriminate).
  pose proof demo_state as Hst. revert He Hi Hne Hst. generalize (after demo_ops) as s, (sess_after demo_ops) as ss. intros s ss He [old Hi] Hne Hst.
  set (w := mkW s (mkCache (byte_at (ls_mem s)) (fun _ => Absent)) ss []).
  assert (Hw : winv [] w) by (apply winv_start; [reflexivity|exact Hst|intros a _; reflexivity]).
  destruct (call_step demo_exports [] (proj2 demo_start_ok) w (O_kernel_set 0 kernel5) Hw) as (ss2 & s2 & w2 & He2 & Hc & Hs & Hd & Ho); [exact I|exact I|].
  pose proof (eq_trans (eq_sym He) He2) as Heq. injection Heq as <- <-.
  set (w3 := mkW (lst_set_mem (w_lib w2) (ls_mem (w_lib w2))) (clean_lines (Z.eqb 7) (w_cache w2) (ls_mem (w_lib w2))) (w_sess w2) (w_own w2)).
  assert (Hstep : wstep w2 w3) by (destruct w2; apply W_cache, cache_clean).
  exists w2, w3. split; [exact Hc|]. split; [apply rtc_once; exact Hstep|].
  refine (published_reaches_device demo_exports [] (proj2 demo_start_ok) w w (O_kernel_set 0 kernel5) w2 w3 (P_kernel 127 kernel5)
    eq_refl Hst (fun a _ => eq_refl) Hne (rtc_refl _ w) Hc (pub_kernel w w2 0 127 old kernel5 Hi _) _ _ 10 5 eq_refl).
  - vm_compute. discriminate.
  - rewrite Hd. exact Hok.
  - apply rtc_once. split; [exact Hstep|]. exists 0%nat. cbn [w3 w_sess]. rewrite Hs. exact Hk.
Defined.

Lemma demo_poll : exists s', strela_job_poll job0 (after demo_ops) = Ok (STRELA_JOB_OK, s') /\ strela_dev_ok (ls_dev s') = true.
Proof.
  destruct (ends_inv (fun '(st, s') => bool_decide (st = STRELA_JOB_OK) && strela_dev_ok (ls_dev s'))
              (strela_job_poll job0 (after demo_ops))) as ([st s'] & He & H); [vm_compute; reflexivity|].
  apply andb_prop in H as [H1 H2]. apply bool_decide_eq_true in H1 as ->. eauto.
Qed.

Lemma job_result_final_witness :
  exists s', strela_job_poll job0 (after demo_ops) = Ok (STRELA_JOB_OK, s')
    /\ strela_job_poll job0 s' = Ok (STRELA_JOB_OK, s').
Proof.
  destruct demo_poll as (s' & He & Hok). exists s'. split; [exact He|].
  destruct (job_result_final [] (after demo_ops) job0 STRELA_JOB_OK s') as (x & _ & _ & _ & _ & _ & Hp & _);
    [apply demo_state|exact He|discriminate|exact Hok|exact Hp].
Defined.

Lemma execute_completes_witness :
  exists st s', strela_execute (after (O_kernel_alloc :: [O_config (mkKernel true 127) conf0])) = Ok (st, s')
    /\ st <> STRELA_JOB_PENDING.
Proof.
  destruct (execute_completes demo_exports [] (after (O_kernel_alloc :: [O_config (mkKernel true 127) conf0])))
    as (b & s1 & _ & [[_ Htrap]|(_ & st & s' & He & _ & Hst & _)]); [apply demo_start_ok| | |].
  - apply demo_inv; [repeat constructor|vm_compute; reflexivity].
  - vm_compute in Htrap. discriminate.
  - exact (ex_intro _ st (ex_intro _ s' (conj He Hst))).
Defined.

(** ** Behaviour a caller should know about *)

(** Only the first fence can be exported. *)
Definition export_once (l : list sevent) : bool :=
  forallb (fun e => match ev_call e with SC_handle_to_fd _ _ => false | _ => true end) l.

Definition resubmit_ops : list api_op :=
  [O_kernel_alloc; O_job_config (mkKernel true 127) conf0; O_job_submit job0; O_job_wait job0 100;
   O_job_submit job0; O_reset_err; O_job_free job0].

(** When a job is submitted again and its new fence cannot be exported,
    the slot keeps the descriptor of the old fence, which was closed already:
    freeing the job closes that descriptor a second time. So the condition on
    exports of the session properties cannot be dropped. *)
Theorem resubmit_double_close :
  exists ss s' fd, session_run (OS := demo export_once) 0 resubmit_ops demo_start = Ok (ss, s')
    /\ 0 <= fd /\ fd_held fd (ls_log s') = -1.
Proof.
  destruct (ends_inv (fun '(_, s') => fd_held 13 (ls_log s') =? -1)
              (session_run (OS := demo export_once) 0 resubmit_ops demo_start)) as ([ss s'] & He & H);
    [vm_compute; reflexivity|].
  exists ss, s', 13. apply Z.eqb_eq in H. split; [exact He|]. split; [lia|exact H].
Qed.

(** A request for a huge buffer succeeds: the byte count of 2^30 - 15 words
    is rounded up to a multiple of the alignment with wrap-around, to 0, so the
    allocator hands out its smallest block, and the handle claims a size far
    beyond the tensor memory. So the bound on requests of the session
    properties cannot be dropped. *)
Theorem buffer_alloc_huge :
  exists b s', strela_buffer_alloc (2 ^ 30 - 15) (after []) = Ok (b, s') /\ b_valid b = true
    /\ strela_dev_ok (ls_dev s') = true /\ STRELA_TENSOR_MEMORY_SIZE < b_size_words b * sizeof_word.
Proof.
  destruct (ends_inv (fun '(b, s') => b_valid b && strela_dev_ok (ls_dev s')
                        && (STRELA_TENSOR_MEMORY_SIZE <? b_size_words b * sizeof_word))
              (strela_buffer_alloc (2 ^ 30 - 15) (after []))) as ([b s'] & He & H); [vm_compute; reflexivity|].
  apply andb_prop in H as [[H1 H2]%andb_prop H3]. apply Z.ltb_lt in H3. eauto 10.
Qed.

(** A flush far beyond the buffer is accepted and does nothing: on the 32-bit
    board the end of a flush of 2^32 - 1 words from the start of a buffer wraps
    to 0 before it is compared with the buffer's size. *)
Theorem buffer_flush_wraps s :
  strela_dev_ok (ls_dev s) = true -> strela_buffer_flush buf0 0 (2 ^ 32 - 1) s = Ok (tt, s).
Proof.
  intros Hok. change (strela_buffer_flush buf0 0 (2 ^ 32 - 1)) with (strela_buffer_sync buf0 6 0 0).
  unfold strela_buffer_sync, strela_sync, when_ok, mbind_, dev_. change (sync_bad buf0 0 0) with false. cbv beta iota. rewrite Hok. cbn -[strela_dev_ok]. by rewrite !Hok.
Qed.

(** A system whose long polls are interrupted by a signal. *)
Definition interrupted : Sys := {|
  sys := fun l c => match c with
                    | SC_poll _ 2000 => inl EINTR
                    | SC_poll _ _ => inr (0, 0)
                    | _ => demo_sys (fun _ => true) l c
                    end;
  sys_listing := sys_listing (Sys := demo_os);
  sys_drm_name := sys_drm_name (Sys := demo_os)
|}.

(** A signal that interrupts the wait of [strela_execute] makes its
    assertion fail although nothing is wrong with the job: the interrupted wait
    is ignored and the job is still pending. *)
Theorem execute_interrupted_aborts :
  (do! session_run (OS := interrupted) 0 [O_kernel_alloc; O_config (mkKernel true 127) conf0] in
   strela_execute (OS := interrupted)) demo_start = Trap TAssert.
Proof. vm_compute. reflexivity. Qed.
