(* ===== verification/Kernel.v ===== *)
(** * The kernel as the driver sees it

    The driver's own code is modelled; the kernel it is linked against is not
    in the repository. Every call the driver makes into it, and every register
    access, is an [event] with the arguments and the answer; the answers come
    from an environment ([Env]) that may be any functions of what happened so
    far. A theorem for every [Env] thus holds for every kernel and every
    hardware; what a theorem needs to know about the kernel is a hypothesis
    about the answers. What the driver keeps (the device struct, its jobs, the
    buffers the simulated device copies) is state of its own. *)
From S2P Require Export Mem Uapi.

(** ** Errors *)
Definition ENOENT : Z := 2.
Definition EIO : Z := 5.
Definition ENOMEM : Z := 12.
Definition EFAULT : Z := 14.
Definition EBUSY : Z := 16.
Definition ENODEV : Z := 19.
Definition EINVAL : Z := 22.
Definition ENOTTY : Z := 25.
Definition ETIMEDOUT : Z := 110.
Definition ERESTARTSYS : Z := 512.

(** ERR_PTR: a pointer that is an error; IS_ERR holds of the last page. *)
Definition IS_ERR (p : Z) : bool := (-4095 <=? p) && (p <? 0).

(** ** Kernel objects *)

(** struct drm_gem_dma_object, as far as the driver reads it. *)
Record gem_obj := mkObj {
  o_id : Z;
  o_size : Z;
  o_dma_addr : Z;
  o_vaddr : Z;
  o_import_attach : bool
}.

#[export] Instance gem_obj_eq_dec : EqDecision gem_obj.
Proof. solve_decision. Defined.

Variant dma_data_direction := DMA_BIDIRECTIONAL | DMA_TO_DEVICE | DMA_FROM_DEVICE.

(** What is allocated with kzalloc. *)
Variant alloc_kind := A_job | A_fence | A_file_priv | A_gem.

(** Kernel functions that return an int (0 or a negative errno, a minor, ...). *)
Variant icall :=
| drm_sched_job_init (job : Z)
| drm_sched_job_add_syncobj_dependency (job syncobj : Z)
| drm_gem_object_init (obj size : Z)
| drm_gem_create_mmap_offset (obj : Z)
| dma_mapping_error (dma_addr : Z)
| drm_gem_handle_create (obj : Z)
| drm_sched_entity_init (entity : Z)
| dma_set_mask_and_coherent (mask : Z)
| platform_get_irq
| devm_request_threaded_irq (irq : Z)
| drm_sched_init
| drm_dev_register
| platform_device_register_simple (i : Z)
| platform_driver_register
| devm_platform_ioremap_resource
| devm_drm_dev_alloc
| get_random_u32
| get_random_u32_below (n : Z)
| dma_fence_context_alloc
| drm_vma_node_offset_addr (obj : Z)
| drm_gem_handle (obj : Z)
| dma_get_cache_alignment
| drm_syncobj_find (handle : Z)
| sim_wait (us : Z)
| dma_fence_is_signaled (f : Z)
| devm_kzalloc
| dma_alloc_pages_page | dma_alloc_pages_addr
| ida_alloc_max (max : Z)
| cdev_add (dev_num : Z)
| device_create (dev_num : Z)
| alloc_chrdev_region | alloc_chrdev_major
| class_create
| wait_conf_done (us : Z) | wait_exec_done (us : Z)
| dma_mmap_pages (size : Z)
| test_and_set_in_use
| copy_from_user.

(** Kernel functions that return nothing the driver looks at. *)
Variant vcall :=
| kfree (p : Z)
| drm_gem_object_put (o : option gem_obj)
| drm_gem_object_release (obj : Z)
| dma_fence_init (f context seqno : Z)
| dma_fence_get (f : Z)
| dma_fence_put (f : Z)
| dma_fence_signal (f : Z)
| dma_fence_set_error (f err : Z)
| drm_sched_job_cleanup (job : Z)
| drm_sched_job_arm (job : Z)
| drm_sched_entity_push_job (job : Z)
| drm_syncobj_replace_fence (syncobj job : Z)
| drm_syncobj_put (syncobj : Z)
| queue_work
| wake_up
| cancel_work_sync
| drm_WARN_ON
| dma_sync_single_for_cpu (addr len : Z) (dir : dma_data_direction)
| dma_sync_single_for_device (addr len : Z) (dir : dma_data_direction)
| dma_free_noncoherent (size vaddr dma_addr : Z) (dir : dma_data_direction)
| drm_sched_stop (job : Z)
| drm_sched_start
| cancel_delayed_work_sync
| drm_sched_fini
| drm_sched_entity_destroy (entity : Z)
| drm_dev_unregister
| platform_device_unregister (i : Z)
| platform_driver_unregister
| complete_conf_done | complete_exec_done
| dma_free_pages (page addr : Z)
| ida_free (minor : Z)
| cdev_del
| device_destroy (dev_num : Z)
| class_destroy
| unregister_chrdev_region (n : Z)
| clear_in_use
| vm_flags_set_DONTCOPY.

(** ** Events, newest first in a log *)
Variant event :=
| Readl (reg val : Z)
| Writel (val reg : Z)
| Kzalloc (k : alloc_kind) (p : Z)
| GemLookup (handle : Z) (o : option gem_obj)
| DmaAlloc (size vaddr dma_addr : Z) (dir : dma_data_direction)
| ICall (c : icall) (r : Z)
| VCall (c : vcall).

(** Everything outside the driver: the kernel and the hardware. *)
Class Env := {
  env_readl : list event -> Z -> Z;
  env_kzalloc : list event -> alloc_kind -> Z;
  env_gem_lookup : list event -> Z -> option gem_obj;
  env_dma_alloc : list event -> Z -> Z * Z;
  env_icall : list event -> icall -> Z
}.

(** ** The driver's data (driver/strela_job.h, driver/strela_device.h) *)
Variant strela_job_phase := STRELA_JOB_PHASE_CONFIG | STRELA_JOB_PHASE_EXEC.

#[export] Instance phase_eq_dec : EqDecision strela_job_phase.
Proof. solve_decision. Defined.

Record strela_binding := mkBinding {
  b_obj : option gem_obj;
  b_offset : Z;
  b_count : Z
}.

(** kzalloc'ed. *)
Definition binding0 : strela_binding := mkBinding None 0 0.

Record strela_job := mkJob {
  j_hw_fence : Z;
  j_config : strela_binding;
  j_inputs : list strela_binding;
  j_input_strides : list Z;
  j_outputs : list strela_binding;
  j_phase : strela_job_phase
}.

Definition job0 : strela_job :=
  mkJob 0 binding0 (replicate STRELA_NUM_IO_COLS binding0) (replicate STRELA_NUM_IO_COLS 0)
        (replicate STRELA_NUM_IO_COLS binding0) STRELA_JOB_PHASE_CONFIG.

Definition set_phase (j : strela_job) (ph : strela_job_phase) : strela_job :=
  mkJob (j_hw_fence j) (j_config j) (j_inputs j) (j_input_strides j) (j_outputs j) ph.

Definition set_hw_fence (j : strela_job) (f : Z) : strela_job :=
  mkJob f (j_config j) (j_inputs j) (j_input_strides j) (j_outputs j) (j_phase j).

Definition set_config (j : strela_job) (b : strela_binding) : strela_job :=
  mkJob (j_hw_fence j) b (j_inputs j) (j_input_strides j) (j_outputs j) (j_phase j).

Definition set_input (j : strela_job) (i : nat) (b : strela_binding) : strela_job :=
  mkJob (j_hw_fence j) (j_config j) (<[i := b]> (j_inputs j)) (j_input_strides j) (j_outputs j)
        (j_phase j).

Definition set_stride (j : strela_job) (i : nat) (s : Z) : strela_job :=
  mkJob (j_hw_fence j) (j_config j) (j_inputs j) (<[i := s]> (j_input_strides j)) (j_outputs j)
        (j_phase j).

Definition set_output (j : strela_job) (i : nat) (b : strela_binding) : strela_job :=
  mkJob (j_hw_fence j) (j_config j) (j_inputs j) (j_input_strides j) (<[i := b]> (j_outputs j))
        (j_phase j).

(** The fields of struct strela_device the driver computes with; [active] is a
    pointer to a job, NULL is 0. *)
Record strela_device := mkDev {
  sd_is_sim : bool;
  sd_irq_status : Z;
  sd_sim_abort : bool;
  sd_active : Z;
  sd_fence_context : Z;
  sd_fence_seqno : Z
}.

(** What the driver runs on: the log, the device, the jobs by address, and the
    32-bit words of buffers by kernel virtual address. *)
Record kst := mkK {
  k_log : list event;
  k_dev : strela_device;
  k_jobs : gmap Z strela_job;
  k_ram : gmap Z Z
}.

Definition set_log (s : kst) (l : list event) : kst := mkK l (k_dev s) (k_jobs s) (k_ram s).
Definition set_dev (s : kst) (d : strela_device) : kst := mkK (k_log s) d (k_jobs s) (k_ram s).
Definition set_jobs (s : kst) (j : gmap Z strela_job) : kst := mkK (k_log s) (k_dev s) j (k_ram s).
Definition set_ram (s : kst) (r : gmap Z Z) : kst := mkK (k_log s) (k_dev s) (k_jobs s) r.

Definition dev_set_active (d : strela_device) (a : Z) : strela_device :=
  mkDev (sd_is_sim d) (sd_irq_status d) (sd_sim_abort d) a (sd_fence_context d) (sd_fence_seqno d).
Definition dev_set_irq_status (d : strela_device) (x : Z) : strela_device :=
  mkDev (sd_is_sim d) x (sd_sim_abort d) (sd_active d) (sd_fence_context d) (sd_fence_seqno d).
Definition dev_set_sim_abort (d : strela_device) (x : bool) : strela_device :=
  mkDev (sd_is_sim d) (sd_irq_status d) x (sd_active d) (sd_fence_context d) (sd_fence_seqno d).
Definition dev_set_seqno (d : strela_device) (x : Z) : strela_device :=
  mkDev (sd_is_sim d) (sd_irq_status d) (sd_sim_abort d) (sd_active d) (sd_fence_context d) x.

(** ** Calling the kernel *)
Section Calls.
Context {E : Env}.

Definition emit (e : event) : M kst unit := modify_ (fun s => set_log s (e :: k_log s)).

Definition vcall_ (c : vcall) : M kst unit := emit (VCall c).

Definition icall_ (c : icall) : M kst Z :=
  let! s := get_ in
  let r := env_icall (k_log s) c in
  do! emit (ICall c r) in
  mret_ r.

Definition writel (val reg : Z) : M kst unit := emit (Writel (u32 val) reg).

Definition readl (reg : Z) : M kst Z :=
  let! s := get_ in
  let v := u32 (env_readl (k_log s) reg) in
  do! emit (Readl reg v) in
  mret_ v.

Definition kzalloc_ (k : alloc_kind) : M kst Z :=
  let! s := get_ in
  let p := env_kzalloc (k_log s) k in
  do! emit (Kzalloc k p) in
  mret_ p.

Definition drm_gem_object_lookup (handle : Z) : M kst (option gem_obj) :=
  let! s := get_ in
  let o := env_gem_lookup (k_log s) handle in
  do! emit (GemLookup handle o) in
  mret_ o.

Definition dma_alloc_noncoherent (size : Z) (dir : dma_data_direction) : M kst (Z * Z) :=
  let! s := get_ in
  let r := env_dma_alloc (k_log s) size in
  do! emit (DmaAlloc size r.1 r.2 dir) in
  mret_ r.

(** drm_WARN_ON(b): the condition is also the value. *)
Definition warn_on (b : bool) : M kst bool :=
  do! (if b then vcall_ drm_WARN_ON else mret_ tt) in mret_ b.

(** Accesses to a job through its pointer; a dangling pointer faults. *)
Definition get_job (p : Z) : M kst strela_job :=
  let! s := get_ in
  match k_jobs s !! p with Some j => mret_ j | None => trap_ TSegv end.

Definition update_job (p : Z) (f : strela_job -> strela_job) : M kst unit :=
  let! j := get_job p in modify_ (fun s => set_jobs s (<[p := f j]> (k_jobs s))).

Definition get_dev : M kst strela_device := let! s := get_ in mret_ (k_dev s).

Definition update_dev (f : strela_device -> strela_device) : M kst unit :=
  modify_ (fun s => set_dev s (f (k_dev s))).
End Calls.

(** ** Register map (driver/strela_registers.h) *)
Definition BIT (n : Z) : Z := Z.shiftl 1 n.

Definition STRELA_CMD_START_EXEC := BIT 0.
Definition STRELA_CMD_CLEAR_STATE := BIT 1.
Definition STRELA_CMD_LOAD_CONFIG := BIT 2.
Definition STRELA_CMD_CLEAR_CONFIG := BIT 3.
Definition STRELA_CMD_CLEAR_INT_CONFIG := BIT 4.
Definition STRELA_CMD_CLEAR_INT_EXEC := BIT 5.

Definition STRELA_CMD_PENDING_INT_CONFIG := BIT 2.
Definition STRELA_CMD_PENDING_INT_EXEC := BIT 3.

Definition STRELA_REG_CTRL := 0x00.
Definition STRELA_REG_CONF_ADDR := 0x04.
Definition STRELA_REG_CONF_SIZE := 0x08.

(** The address and size registers of input column [i] and output column [i]. *)
Definition STRELA_REG_INP_ADDR (i : Z) := 0x10 + 8 * i.
Definition STRELA_REG_INP_SIZE (i : Z) := 0x14 + 8 * i.
Definition STRELA_REG_OUT_ADDR (i : Z) := 0x50 + 8 * i.
Definition STRELA_REG_OUT_SIZE (i : Z) := 0x54 + 8 * i.

Definition STRELA_REG_OUT_ARB_HOLD := 0xA0.
Definition STRELA_OUT_ARB_HOLD_ENABLE := BIT 0.
Definition STRELA_REG_OPA := 0xF0.
Definition STRELA_REG_OPB := 0xF4.
Definition STRELA_REG_OPR := 0xF8.
Definition STRELA_REG_RESET_DMA := 0xF8.
Definition STRELA_RESET_DMA_PULSE := BIT 0.
