(* ===== verification/DrvCore.v ===== *)
(** * Programming the CGRA (driver/strela_core.c)

    Register programming, starting and stopping a phase, and the column copy of
    the simulated device. The interrupt handlers, which call back into the job
    code, are in DrvIrq. *)
From S2P Require Export Kernel.

Section Core.
Context {A : abi} {E : Env}.

(** An element of a fixed-size array. *)
Definition nth_ {X} (l : list X) (i : Z) : M kst X :=
  match l !! Z.to_nat i with Some x => mret_ x | None => trap_ TSegv end.

Definition strela_hw_start (phase : strela_job_phase) : M kst unit :=
  let! sdev := get_dev in
  if sd_is_sim sdev then
    match phase with
    | STRELA_JOB_PHASE_CONFIG =>
        do! update_dev (fun d => dev_set_sim_abort d false) in
        vcall_ queue_work
    | STRELA_JOB_PHASE_EXEC => mret_ tt
    end
  else
    match phase with
    | STRELA_JOB_PHASE_CONFIG =>
        do! writel STRELA_CMD_CLEAR_CONFIG STRELA_REG_CTRL in
        do! writel STRELA_RESET_DMA_PULSE STRELA_REG_RESET_DMA in
        writel STRELA_CMD_LOAD_CONFIG STRELA_REG_CTRL
    | STRELA_JOB_PHASE_EXEC =>
        do! writel STRELA_CMD_CLEAR_STATE STRELA_REG_CTRL in
        writel STRELA_CMD_START_EXEC STRELA_REG_CTRL
    end.

(** dma_addr_t is as wide as a pointer. *)
Definition strela_binding_addr (b : strela_binding) : M kst Z :=
  match b_obj b with
  | None => trap_ TSegv
  | Some dma_obj => mret_ (wptr (o_dma_addr dma_obj + wptr (b_offset b * STRELA_WORD_SIZE)))
  end.

(** struct strela_binding_regs: the address and the size register. *)
Record strela_binding_regs := mkRegs { r_addr : Z; r_size : Z }.

Definition conf_regs : strela_binding_regs := mkRegs STRELA_REG_CONF_ADDR STRELA_REG_CONF_SIZE.

Definition inp_regs : list strela_binding_regs :=
  [mkRegs (STRELA_REG_INP_ADDR 0) (STRELA_REG_INP_SIZE 0);
   mkRegs (STRELA_REG_INP_ADDR 1) (STRELA_REG_INP_SIZE 1);
   mkRegs (STRELA_REG_INP_ADDR 2) (STRELA_REG_INP_SIZE 2);
   mkRegs (STRELA_REG_INP_ADDR 3) (STRELA_REG_INP_SIZE 3)].

Definition out_regs : list strela_binding_regs :=
  [mkRegs (STRELA_REG_OUT_ADDR 0) (STRELA_REG_OUT_SIZE 0);
   mkRegs (STRELA_REG_OUT_ADDR 1) (STRELA_REG_OUT_SIZE 1);
   mkRegs (STRELA_REG_OUT_ADDR 2) (STRELA_REG_OUT_SIZE 2);
   mkRegs (STRELA_REG_OUT_ADDR 3) (STRELA_REG_OUT_SIZE 3)].

Definition strela_input_size (count stride : Z) : Z :=
  Z.lor (u32 (Z.shiftl (u32 (stride * STRELA_WORD_SIZE)) 16))
        (u32 (u32 (Z.max stride 1 * count) * STRELA_WORD_SIZE)).

Definition upper_32_bits (n : Z) : Z := Z.shiftr n 32.

Definition strela_hw_write_binding (b : strela_binding) (regs : strela_binding_regs) (size : Z)
  : M kst unit :=
  let! addr := strela_binding_addr b in
  do! warn_on (negb (upper_32_bits addr =? 0)) in
  do! writel addr (r_addr regs) in
  writel size (r_size regs).

(** The registers of one column pair. *)
Definition hw_program_column (job : strela_job) (i : Z) : M kst unit :=
  let! input := nth_ (j_inputs job) i in
  let! inp_reg := nth_ inp_regs i in
  let! input_stride := nth_ (j_input_strides job) i in
  do! strela_hw_write_binding input inp_reg (strela_input_size (b_count input) input_stride) in
  let! output := nth_ (j_outputs job) i in
  let! out_reg := nth_ out_regs i in
  strela_hw_write_binding output out_reg (u32 (b_count output * STRELA_WORD_SIZE)).

Definition strela_hw_program (job : strela_job) : M kst unit :=
  let! sdev := get_dev in
  if sd_is_sim sdev then mret_ tt else
  do! strela_hw_write_binding (j_config job) conf_regs
        (u32 (b_count (j_config job) * STRELA_WORD_SIZE)) in
  do! for_ (Z.of_nat STRELA_NUM_IO_COLS) (fun i _ => hw_program_column job i) tt in
  writel STRELA_OUT_ARB_HOLD_ENABLE STRELA_REG_OUT_ARB_HOLD.

Definition strela_hw_stop : M kst unit :=
  let! sdev := get_dev in
  let active := sd_active sdev in
  do! warn_on (negb (active =? 0)) in
  if sd_is_sim sdev then
    do! update_dev (fun d => dev_set_sim_abort d true) in
    do! vcall_ wake_up in
    vcall_ cancel_work_sync
  else
    do! writel STRELA_CMD_CLEAR_CONFIG STRELA_REG_CTRL in
    do! writel STRELA_RESET_DMA_PULSE STRELA_REG_RESET_DMA in
    writel STRELA_CMD_CLEAR_STATE STRELA_REG_CTRL.

(** The return value of probing; an error pointer is a negative number. *)
Definition strela_hw_setup : M kst Z :=
  let! sdev := get_dev in
  if sd_is_sim sdev then mret_ 0 else
  let! base := icall_ devm_platform_ioremap_resource in
  if IS_ERR base then mret_ base else
  let! a := icall_ get_random_u32 in
  let! b := icall_ get_random_u32 in
  do! writel a STRELA_REG_OPA in
  do! writel b STRELA_REG_OPB in
  let! r := readl STRELA_REG_OPR in
  if negb (r =? u32 (a + b)) then mret_ (- EIO) else
  let! irq := icall_ platform_get_irq in
  if irq <? 0 then mret_ irq else
  let! ret := icall_ (devm_request_threaded_irq irq) in
  if negb (ret =? 0) then mret_ ret else
  mret_ 0.

(** ** The simulated device: one column *)

(** The word [i] of a buffer object, through its kernel mapping. *)
Definition obj_word (o : gem_obj) (i : Z) : M kst Z :=
  let! s := get_ in
  if (0 <=? i) && ((i + 1) * STRELA_WORD_SIZE <=? o_size o)
  then mret_ (default 0 (k_ram s !! (o_vaddr o + i * STRELA_WORD_SIZE)))
  else trap_ TSegv.

Definition set_obj_word (o : gem_obj) (i v : Z) : M kst unit :=
  if (0 <=? i) && ((i + 1) * STRELA_WORD_SIZE <=? o_size o)
  then modify_ (fun s => set_ram s (<[o_vaddr o + i * STRELA_WORD_SIZE := v]> (k_ram s)))
  else trap_ TSegv.

(** to_drm_gem_dma_obj of a binding's object. *)
Definition binding_obj (b : strela_binding) : M kst gem_obj :=
  match b_obj b with Some o => mret_ o | None => trap_ TSegv end.

(** The copy loop: dst[i] = src[i * stride]. *)
Definition bypass_copy (in_obj out_obj : gem_obj) (in_offset out_offset stride n : Z) : M kst unit :=
  for_ n (fun i _ =>
    let! v := obj_word in_obj (in_offset + u32 (i * stride)) in
    set_obj_word out_obj (out_offset + i) v) tt.

Definition strela_sim_bypass_column (in_ : strela_binding) (stride : Z) (out : strela_binding)
  : M kst bool :=
  let fed := b_count out <=? b_count in_ in
  let n := Z.min (b_count in_) (b_count out) in
  if n =? 0 then mret_ fed else
  let! in_obj := binding_obj in_ in
  let! out_obj := binding_obj out in
  let! w := warn_on ((o_vaddr in_obj =? 0) || (o_vaddr out_obj =? 0)) in
  if w then mret_ fed else
  let! in_addr := strela_binding_addr in_ in
  do! vcall_ (dma_sync_single_for_cpu in_addr
                (wptr (wptr (wptr ((n - 1) * stride) + 1) * STRELA_WORD_SIZE)) DMA_FROM_DEVICE) in
  do! bypass_copy in_obj out_obj (b_offset in_) (b_offset out) stride n in
  let! out_addr := strela_binding_addr out in
  do! vcall_ (dma_sync_single_for_device out_addr (wptr (n * STRELA_WORD_SIZE)) DMA_TO_DEVICE) in
  mret_ fed.
End Core.
