(* ===== verification/DrvJob.v ===== *)
(** * Jobs (driver/strela_job.c)

    Validating a submit, handing the job to the scheduler, starting it on the
    hardware and reporting that it is done. *)
From S2P Require Export DrvCore.

Definition STRELA_MAX_COLUMN_BYTES : Z := 0xFFFF.

Definition STRELA_JOB_TIMEOUT_MS : Z := 500.

(** Flags outside the mask: [flags & ~mask] on u32. *)
Definition bad_flags (flags mask : Z) : bool := negb (Z.land flags (Z.lxor mask (2 ^ 32 - 1)) =? 0).

Definition strela_binding_check (obj_size : Z) (b : drm_strela_strided_binding) : Z :=
  let stride := Z.max (us_stride b) 1 in
  let span_bytes := u64 (u64 (us_count b * stride) * STRELA_WORD_SIZE) in
  let end_ := u64 (u64 (us_offset b * STRELA_WORD_SIZE) + span_bytes) in
  if STRELA_MAX_COLUMN_BYTES <? span_bytes then - EINVAL
  else if negb (us_count b =? 0) && (STRELA_MAX_COLUMN_BYTES <? u64 (stride * STRELA_WORD_SIZE))
  then - EINVAL
  else if obj_size <? end_ then - EINVAL
  else 0.

Section Job.
Context {A : abi} {E : Env}.

Definition strela_job_put_bindings (job : strela_job) : M kst unit :=
  do! vcall_ (drm_gem_object_put (b_obj (j_config job))) in
  for_ (Z.of_nat STRELA_NUM_IO_COLS) (fun i _ =>
    let! input := nth_ (j_inputs job) i in
    do! vcall_ (drm_gem_object_put (b_obj input)) in
    let! output := nth_ (j_outputs job) i in
    vcall_ (drm_gem_object_put (b_obj output))) tt.

(** The whole body runs under the device's spinlock. *)
Definition strela_job_phase_done (finished_phase : strela_job_phase) : M kst unit :=
  let! sdev := get_dev in
  if sd_active sdev =? 0 then mret_ tt else
  let! active := get_job (sd_active sdev) in
  if negb (bool_decide (j_phase active = finished_phase)) then mret_ tt else
  match finished_phase with
  | STRELA_JOB_PHASE_CONFIG =>
      do! update_job (sd_active sdev) (fun j => set_phase j STRELA_JOB_PHASE_EXEC) in
      strela_hw_start STRELA_JOB_PHASE_EXEC
  | STRELA_JOB_PHASE_EXEC =>
      do! vcall_ (dma_fence_signal (j_hw_fence active)) in
      update_dev (fun d => dev_set_active d 0)
  end.

Definition strela_run_job (job : Z) : M kst Z :=
  let! sdev := get_dev in
  do! warn_on (negb (sd_active sdev =? 0)) in
  do! update_job job (fun j => set_phase j STRELA_JOB_PHASE_CONFIG) in
  do! update_dev (fun d => dev_set_active d job) in
  let! j := get_job job in
  do! strela_hw_program j in
  do! strela_hw_start STRELA_JOB_PHASE_CONFIG in
  do! vcall_ (dma_fence_get (j_hw_fence j)) in
  mret_ (j_hw_fence j).

Definition strela_job_abort : M kst unit :=
  do! update_dev (fun d => dev_set_active d 0) in
  strela_hw_stop.

Definition strela_timedout_job (job : Z) : M kst unit :=
  do! get_job job in
  do! vcall_ (drm_sched_stop job) in
  do! strela_job_abort in
  vcall_ drm_sched_start.

(** kfree(job). *)
Definition free_job_struct (job : Z) : M kst unit :=
  do! modify_ (fun s => set_jobs s (delete job (k_jobs s))) in
  vcall_ (kfree job).

Definition strela_free_job (job : Z) : M kst unit :=
  let! j := get_job job in
  do! vcall_ (drm_sched_job_cleanup job) in
  do! strela_job_put_bindings j in
  do! vcall_ (dma_fence_put (j_hw_fence j)) in
  free_job_struct job.

Definition strela_job_init : M kst Z := icall_ drm_sched_init.

(** The body of the loop over the jobs the scheduler leaves behind. *)
Definition fini_one (job : Z) : M kst unit :=
  let! j := get_job job in
  let! signaled := icall_ (dma_fence_is_signaled (j_hw_fence j)) in
  do! (if signaled =? 0 then
         do! vcall_ (dma_fence_set_error (j_hw_fence j) (- ENODEV)) in
         vcall_ (dma_fence_signal (j_hw_fence j))
       else mret_ tt) in
  strela_free_job job.

Fixpoint fini_all (pending : list Z) : M kst unit :=
  match pending with
  | [] => mret_ tt
  | job :: pending => do! fini_one job in fini_all pending
  end.

(** [pending] is the scheduler's pending list. *)
Definition strela_job_fini (pending : list Z) : M kst unit :=
  do! vcall_ cancel_delayed_work_sync in
  do! vcall_ drm_sched_fini in
  do! strela_job_abort in
  fini_all pending.

(** On success, the binding to store. *)
Definition strela_strided_binding_get (src : drm_strela_strided_binding)
  : M kst (Z * strela_binding) :=
  let! obj := drm_gem_object_lookup (us_handle src) in
  match obj with
  | None => mret_ (- ENOENT, binding0)
  | Some o =>
      let ret := strela_binding_check (o_size o) src in
      if negb (ret =? 0) then
        do! vcall_ (drm_gem_object_put obj) in mret_ (ret, binding0)
      else mret_ (0, mkBinding obj (us_offset src) (us_count src))
  end.

Definition strela_binding_get (src : drm_strela_binding) : M kst (Z * strela_binding) :=
  strela_strided_binding_get (mkUStrided (ub_handle src) (ub_offset src) (ub_count src) 1).

(** Resolving the bindings of a submit into the job, in the order of the code:
    the config, then input and output of each column. The result is the first
    error, or 0. *)
Definition submit_column (job : Z) (args : drm_strela_submit) (i : nat) : M kst Z :=
  let! input := nth_ (sub_inputs args) (Z.of_nat i) in
  let! '(ret, b) := strela_strided_binding_get input in
  if negb (ret =? 0) then mret_ ret else
  do! update_job job (fun j => set_input j i b) in
  do! update_job job (fun j => set_stride j i (us_stride input)) in
  let! output := nth_ (sub_outputs args) (Z.of_nat i) in
  let! '(ret, b) := strela_binding_get output in
  if negb (ret =? 0) then mret_ ret else
  do! update_job job (fun j => set_output j i b) in
  mret_ 0.

Fixpoint submit_columns (job : Z) (args : drm_strela_submit) (i n : nat) : M kst Z :=
  match n with
  | O => mret_ 0
  | S n =>
      let! ret := submit_column job args i in
      if negb (ret =? 0) then mret_ ret else submit_columns job args (S i) n
  end.

Definition submit_bindings (job : Z) (args : drm_strela_submit) : M kst Z :=
  let! '(ret, b) := strela_binding_get (sub_config args) in
  if negb (ret =? 0) then mret_ ret else
  do! update_job job (fun j => set_config j b) in
  submit_columns job args 0 STRELA_NUM_IO_COLS.

(** The part of the ioctl whose failures go to [err_cleanup]. *)
Definition submit_body (job : Z) (args : drm_strela_submit) : M kst Z :=
  let! ret := (if negb (Z.land (sub_flags args) DRM_STRELA_SUBMIT_WAIT_SYNCOBJ =? 0)
               then icall_ (drm_sched_job_add_syncobj_dependency job (sub_in_syncobj args))
               else mret_ 0) in
  if negb (ret =? 0) then mret_ ret else
  let! ret := submit_bindings job args in
  if negb (ret =? 0) then mret_ ret else
  let! out_syncobj := icall_ (drm_syncobj_find (sub_out_syncobj args)) in
  if out_syncobj =? 0 then mret_ (- ENOENT) else
  do! vcall_ (drm_sched_job_arm job) in
  do! vcall_ (drm_syncobj_replace_fence out_syncobj job) in
  do! vcall_ (drm_syncobj_put out_syncobj) in
  do! vcall_ (drm_sched_entity_push_job job) in
  mret_ 0.

(** The body with its error path. *)
Definition submit_or_cleanup (job hw_fence : Z) (args : drm_strela_submit) : M kst Z :=
  let! ret := submit_body job args in
  if negb (ret =? 0) then
    do! vcall_ (drm_sched_job_cleanup job) in
    let! j := get_job job in
    do! strela_job_put_bindings j in
    do! vcall_ (dma_fence_put hw_fence) in
    do! free_job_struct job in
    mret_ ret
  else mret_ 0.

Definition strela_submit_ioctl (args : drm_strela_submit) : M kst Z :=
  if bad_flags (sub_flags args) DRM_STRELA_SUBMIT_WAIT_SYNCOBJ || negb (sub_pad args =? 0)
  then mret_ (- EINVAL) else
  let! job := kzalloc_ A_job in
  if job =? 0 then mret_ (- ENOMEM) else
  do! modify_ (fun s => set_jobs s (<[job := job0]> (k_jobs s))) in
  let! hw_fence := kzalloc_ A_fence in
  if hw_fence =? 0 then
    do! free_job_struct job in mret_ (- ENOMEM)
  else
  do! update_job job (fun j => set_hw_fence j hw_fence) in
  do! update_dev (fun d => dev_set_seqno d (u64 (sd_fence_seqno d + 1))) in
  let! sdev := get_dev in
  do! vcall_ (dma_fence_init hw_fence (sd_fence_context sdev) (sd_fence_seqno sdev)) in
  let! ret := icall_ (drm_sched_job_init job) in
  if negb (ret =? 0) then
    do! vcall_ (dma_fence_put hw_fence) in
    do! free_job_struct job in
    mret_ ret
  else
  submit_or_cleanup job hw_fence args.
End Job.
