(* ===== verification/DrvCheck.v ===== *)
(** * What a binding that passed the check guarantees

    The check of driver/strela_job.c is exact although its 64-bit products can
    wrap; a binding that passes fits the 16-bit fields of the size register and
    its buffer; and what [strela_hw_program] writes into the registers is
    therefore only what the client owns. *)
From S2P Require Export DrvJob.

(** A request as the ioctl receives it: 32-bit fields. *)
Definition strided_ok (b : drm_strela_strided_binding) : Prop :=
  is_u 32 (us_offset b) /\ is_u 32 (us_count b) /\ is_u 32 (us_stride b).

(** The bytes a binding spans, without wrap-around. *)
Definition span (count stride : Z) : Z := count * Z.max stride 1 * STRELA_WORD_SIZE.

(** What the check is meant to decide. *)
Definition binding_fits (obj_size offset count stride : Z) : Prop :=
  span count stride <= STRELA_MAX_COLUMN_BYTES
  /\ (count <> 0 -> Z.max stride 1 * STRELA_WORD_SIZE <= STRELA_MAX_COLUMN_BYTES)
  /\ offset * STRELA_WORD_SIZE + span count stride <= obj_size.

#[export] Instance binding_fits_dec obj_size offset count stride :
  Decision (binding_fits obj_size offset count stride).
Proof. unfold binding_fits. solve_decision. Defined.

Lemma binding_check_fits obj_size b :
  strided_ok b -> is_u 64 obj_size ->
  strela_binding_check obj_size b
  = if decide (binding_fits obj_size (us_offset b) (us_count b) (us_stride b)) then 0 else - EINVAL.
Proof.
  intros (Ho & Hc & Hs) Hz. unfold is_u in *. destruct b as [h off cnt str]; cbn in *.
  unfold strela_binding_check, binding_fits, span, STRELA_WORD_SIZE, STRELA_MAX_COLUMN_BYTES. cbn.
  set (st := Z.max str 1). assert (Hst : 1 <= st < 2 ^ 32) by lia.
  rewrite (wrap_small 64 (cnt * st)) by nia. rewrite (wrap_small 64 (st * 4)) by lia.
  destruct (decide (st * 4 <= 65535)) as [Hle|Hgt].
  - assert (Hcs : 0 <= cnt * st * 4 < 2 ^ 48) by nia.
    rewrite (wrap_small 64 (cnt * st * 4)), (wrap_small 64 (off * 4)), wrap_small by lia.
    replace (65535 <? st * 4) with false by lia. rewrite andb_false_r.
    case_decide as H.
    + replace (65535 <? cnt * st * 4) with false by lia.
      by replace (obj_size <? off * 4 + cnt * st * 4) with false by lia.
    + destruct (65535 <? cnt * st * 4) eqn:E1; [done|].
      destruct (obj_size <? off * 4 + cnt * st * 4) eqn:E2; [done|]. lia.
  - replace (65535 <? st * 4) with true by lia. rewrite andb_true_r.
    destruct (Z.eqb_spec cnt 0) as [->|Hne]; cbn [negb].
    + replace (u64 (0 * st * 4)) with 0 by done. rewrite (wrap_small 64 (off * 4)), wrap_small by lia.
      case_decide as H; change (65535 <? 0) with false; cbv iota.
      * by replace (obj_size <? off * 4 + 0) with false by lia.
      * destruct (Z.ltb_spec obj_size (off * 4 + 0)); [done|]. exfalso. apply H.
        split; [lia|]. split; [done|lia].
    + rewrite decide_False; [by break_if|]. intros (_ & H & _). specialize (H Hne). lia.
Qed.

(** The two halves of the size register. *)
Lemma input_size_value count stride :
  is_u 32 count -> is_u 32 stride -> count <> 0 ->
  span count stride <= STRELA_MAX_COLUMN_BYTES ->
  Z.max stride 1 * STRELA_WORD_SIZE <= STRELA_MAX_COLUMN_BYTES ->
  strela_input_size count stride = stride * STRELA_WORD_SIZE * 2 ^ 16 + span count stride.
Proof.
  unfold is_u, span, strela_input_size, STRELA_WORD_SIZE, STRELA_MAX_COLUMN_BYTES.
  intros Hc Hs Hne Hsp Hst. rewrite Z.shiftl_mul_pow2 by lia.
  rewrite (wrap_small 32 (stride * 4)), wrap_small by lia.
  rewrite (wrap_small 32 (Z.max stride 1 * count)), wrap_small by nia.
  replace (Z.max stride 1 * count * 4) with (count * Z.max stride 1 * 4) by lia.
  apply lor_pack; nia.
Qed.

(** ** Bindings of a job *)
Section Program.
Context {A : abi}.

(** The buffers of a device with a 32-bit DMA mask. *)
Definition obj_dma32 (o : gem_obj) : Prop :=
  0 <= o_dma_addr o /\ 0 <= o_size o /\ o_dma_addr o + o_size o < 2 ^ 32.

(** A binding that was resolved and checked with [stride]. *)
Definition binding_good (b : strela_binding) (stride : Z) : Prop :=
  exists o, b_obj b = Some o /\ obj_dma32 o
    /\ is_u 32 (b_offset b) /\ is_u 32 (b_count b) /\ is_u 32 stride
    /\ binding_fits (o_size o) (b_offset b) (b_count b) stride.

Record job_good (j : strela_job) : Prop := {
  jg_config : binding_good (j_config j) 1;
  jg_inputs : Forall2 binding_good (j_inputs j) (j_input_strides j);
  jg_outputs : Forall (fun b => binding_good b 1) (j_outputs j);
  jg_cols : length (j_inputs j) = STRELA_NUM_IO_COLS /\ length (j_outputs j) = STRELA_NUM_IO_COLS
}.

(** The bus address of a binding. *)
Definition bus_addr (b : strela_binding) : Z :=
  match b_obj b with Some o => o_dma_addr o + b_offset b * STRELA_WORD_SIZE | None => 0 end.

Lemma binding_good_addr b st :
  binding_good b st ->
  (forall s, strela_binding_addr b s = Ok (bus_addr b, s)) /\ 0 <= bus_addr b < 2 ^ 32.
Proof.
  intros (o & Ho & (Hd & Hz & Hlt) & Hoff & Hcnt & Hst & _ & _ & Hfit).
  unfold strela_binding_addr, bus_addr, is_u, span, STRELA_WORD_SIZE in *. rewrite Ho.
  assert (0 <= b_count b * Z.max st 1) by nia.
  assert (2 ^ 32 <= 2 ^ ptr_bits) by (unfold ptr_bits, ptr_bytes; destruct A; lia).
  rewrite (wptr_small (b_offset b * 4)), wptr_small by lia. split; [done|lia].
Qed.

Lemma write_binding_ok b st regs size s :
  binding_good b st ->
  strela_hw_write_binding b regs size s
  = Ok (tt, set_log s (Writel (u32 size) (r_size regs) :: Writel (bus_addr b) (r_addr regs) :: k_log s)).
Proof.
  intros Hg. destruct (binding_good_addr _ _ Hg) as [Ha Hr].
  unfold strela_hw_write_binding. rewrite (mbind_Ok _ _ _ _ _ (Ha s)).
  unfold upper_32_bits. rewrite Z.shiftr_div_pow2, Z.div_small by lia. cbn.
  unfold writel, emit, mbind_, modify_. cbn. by rewrite (wrap_small 32 (bus_addr b)).
Qed.

(** The register writes of one job, in order: (register, value). *)
Definition column_writes (i : Z) (inp : strela_binding) (st : Z) (out : strela_binding)
  : list (Z * Z) :=
  [(STRELA_REG_INP_ADDR i, bus_addr inp); (STRELA_REG_INP_SIZE i, strela_input_size (b_count inp) st);
   (STRELA_REG_OUT_ADDR i, bus_addr out); (STRELA_REG_OUT_SIZE i, b_count out * STRELA_WORD_SIZE)].

Fixpoint columns_writes (i : Z) (inps : list strela_binding) (sts : list Z)
    (outs : list strela_binding) : list (Z * Z) :=
  match inps, sts, outs with
  | inp :: inps, st :: sts, out :: outs =>
      column_writes i inp st out ++ columns_writes (i + 1) inps sts outs
  | _, _, _ => []
  end.

Definition job_writes (j : strela_job) : list (Z * Z) :=
  [(STRELA_REG_CONF_ADDR, bus_addr (j_config j));
   (STRELA_REG_CONF_SIZE, b_count (j_config j) * STRELA_WORD_SIZE)]
  ++ columns_writes 0 (j_inputs j) (j_input_strides j) (j_outputs j)
  ++ [(STRELA_REG_OUT_ARB_HOLD, 1)].

(** The log after a list of register writes. *)
Definition log_writes (ws : list (Z * Z)) (l : list event) : list event :=
  rev ((fun w => Writel w.2 w.1) <$> ws) ++ l.

Lemma good_count b st : binding_good b st -> u32 (b_count b * STRELA_WORD_SIZE) = b_count b * STRELA_WORD_SIZE.
Proof.
  intros (o & _ & _ & _ & Hc & Hs & Hsp & _). unfold is_u, span, STRELA_WORD_SIZE, STRELA_MAX_COLUMN_BYTES in *.
  apply wrap_small. nia.
Qed.

Lemma input_size_u32 count stride : u32 (strela_input_size count stride) = strela_input_size count stride.
Proof.
  apply wrap_small, lor_range; [lia| |]; apply wrap_range; lia.
Qed.

Lemma nth_Ok {X} (l : list X) i x (s : kst) : l !! i = Some x -> nth_ l (Z.of_nat i) s = Ok (x, s).
Proof. intros H. unfold nth_. by rewrite Nat2Z.id, H. Qed.

Lemma regs_at i :
  (i < STRELA_NUM_IO_COLS)%nat ->
  inp_regs !! i = Some (mkRegs (STRELA_REG_INP_ADDR (Z.of_nat i)) (STRELA_REG_INP_SIZE (Z.of_nat i)))
  /\ out_regs !! i = Some (mkRegs (STRELA_REG_OUT_ADDR (Z.of_nat i)) (STRELA_REG_OUT_SIZE (Z.of_nat i))).
Proof. unfold STRELA_NUM_IO_COLS. intros Hi. do 4 (destruct i as [|i]; [done|]). lia. Qed.

Lemma program_column_ok j i inp st out s :
  (i < STRELA_NUM_IO_COLS)%nat ->
  j_inputs j !! i = Some inp -> j_input_strides j !! i = Some st -> j_outputs j !! i = Some out ->
  binding_good inp st -> binding_good out 1 ->
  hw_program_column j (Z.of_nat i) s
  = Ok (tt, set_log s (log_writes (column_writes (Z.of_nat i) inp st out) (k_log s))).
Proof.
  intros Hi Hin Hst Hout Hgi Hgo. destruct (regs_at i Hi) as [Hri Hro]. unfold hw_program_column.
  rewrite (mbind_Ok _ _ _ _ _ (nth_Ok _ _ _ _ Hin)), (mbind_Ok _ _ _ _ _ (nth_Ok _ _ _ _ Hri)),
    (mbind_Ok _ _ _ _ _ (nth_Ok _ _ _ _ Hst)), (mbind_Ok _ _ _ _ _ (write_binding_ok _ _ _ _ _ Hgi)),
    (mbind_Ok _ _ _ _ _ (nth_Ok _ _ _ _ Hout)), (mbind_Ok _ _ _ _ _ (nth_Ok _ _ _ _ Hro)).
  by rewrite (write_binding_ok _ _ _ _ _ Hgo), !(good_count _ _ Hgo), input_size_u32.
Qed.

Lemma log_writes_app ws ws' l : log_writes (ws ++ ws') l = log_writes ws' (log_writes ws l).
Proof. unfold log_writes. by rewrite fmap_app, rev_app_distr, app_assoc. Qed.

(** The columns from [i] on. *)
Lemma program_columns_ok j i n s :
  (i + n <= STRELA_NUM_IO_COLS)%nat -> job_good j ->
  for_from (Z.of_nat i) n (fun i _ => hw_program_column j i) tt s
  = Ok (tt, set_log s (log_writes
      (columns_writes (Z.of_nat i) (firstn n (drop i (j_inputs j))) (firstn n (drop i (j_input_strides j)))
                      (firstn n (drop i (j_outputs j)))) (k_log s))).
Proof.
  intros Hin [Hc Hi Ho [Hl1 Hl2]]. revert i s Hin. induction n as [|n IH]; intros i s Hin; cbn [for_from].
  { by destruct s. }
  destruct (lookup_lt_is_Some_2 (j_inputs j) i ltac:(lia)) as [inp Hinp].
  destruct (lookup_lt_is_Some_2 (j_outputs j) i ltac:(lia)) as [out Hout].
  destruct (Forall2_lookup_l _ _ _ _ _ Hi Hinp) as (st & Hst & Hgi).
  pose proof (Forall_lookup_1 _ _ _ _ Ho Hout) as Hgo. cbn in Hgo.
  rewrite (mbind_Ok _ _ _ _ _ (program_column_ok j i inp st out s ltac:(lia) Hinp Hst Hout Hgi Hgo)).
  replace (Z.of_nat i + 1) with (Z.of_nat (S i)) by lia. rewrite IH by lia. do 3 f_equal.
  rewrite (drop_S _ _ _ Hinp), (drop_S _ _ _ Hst), (drop_S _ _ _ Hout). cbn [firstn columns_writes].
  rewrite log_writes_app. cbn [k_log set_log]. do 2 f_equal. lia.
Qed.

(** Programming a job writes exactly the registers of [job_writes], in order. *)
Lemma hw_program_ok j s :
  job_good j -> sd_is_sim (k_dev s) = false ->
  strela_hw_program j s = Ok (tt, set_log s (log_writes (job_writes j) (k_log s))).
Proof.
  intros Hg Hsim. pose proof Hg as [Hc Hi Ho [Hl1 Hl2]]. unfold strela_hw_program.
  rewrite (mbind_Ok _ _ s (k_dev s) s) by done. rewrite Hsim.
  rewrite (mbind_Ok _ _ _ _ _ (write_binding_ok _ _ _ _ _ Hc)).
  unfold for_. rewrite Nat2Z.id. change 0 with (Z.of_nat 0).
  rewrite (mbind_Ok _ _ _ _ _ (program_columns_ok j 0 STRELA_NUM_IO_COLS _ ltac:(lia) Hg)). cbn [k_log set_log].
  pose proof (Forall2_length _ _ _ Hi) as Hl3.
  rewrite !drop_0, !firstn_all2 by (unfold STRELA_NUM_IO_COLS in *; lia).
  unfold job_writes. rewrite !log_writes_app.
  by rewrite !(good_count _ _ Hc).
Qed.

(** What the hardware finds in a register: the value written last. *)
Fixpoint reg_value (l : list event) (reg : Z) : option Z :=
  match l with
  | [] => None
  | Writel v r :: l => if r =? reg then Some v else reg_value l reg
  | _ :: l => reg_value l reg
  end.

Lemma reg_value_writes ws l reg v :
  NoDup ws.*1 -> (reg, v) ∈ ws -> reg_value (log_writes ws l) reg = Some v.
Proof.
  induction ws as [|[r w] ws IH] using rev_ind; [set_solver|].
  rewrite fmap_app, log_writes_app. cbn. intros (Hnd & Hdis & _)%NoDup_app Hin.
  apply elem_of_app in Hin as [Hin|Hin%list_elem_of_singleton].
  - destruct (Z.eqb_spec r reg) as [->|Hne]; [|by apply IH].
    exfalso. apply (Hdis reg); [|set_solver]. apply list_elem_of_fmap. by exists (reg, v).
  - injection Hin as -> ->. by rewrite Z.eqb_refl.
Qed.

(** [n] bytes at bus address [a] are inside the buffer of the binding. *)
Definition inside_buffer (b : strela_binding) (a n : Z) : Prop :=
  exists o, b_obj b = Some o /\ o_dma_addr o <= a /\ a + n <= o_dma_addr o + o_size o.

Lemma binding_good_inside b st :
  binding_good b st -> inside_buffer b (bus_addr b) (span (b_count b) st).
Proof.
  intros (o & Ho & _ & Hoff & _ & _ & _ & _ & Hfit). exists o.
  unfold bus_addr, is_u, STRELA_WORD_SIZE in *. rewrite Ho. split_and!; [done|lia|lia].
Qed.

Lemma input_size_zero st : is_u 32 st -> Z.land (strela_input_size 0 st) (2 ^ 16 - 1) = 0.
Proof.
  unfold is_u, strela_input_size, STRELA_WORD_SIZE. intros Hst. rewrite Z.mul_0_r.
  change (u32 (u32 0 * 4)) with 0. rewrite Z.lor_0_r, land_pow2_mod by lia.
  rewrite Z.shiftl_mul_pow2 by lia. unfold wrap.
  rewrite <- (Znumtheory.Zmod_div_mod (2 ^ 16) (2 ^ 32)) by (lia || (exists (2 ^ 16); lia)).
  apply Z_mod_mult.
Qed.

(** The low half of an input's size register is the span of the binding, the
    high half its stride in bytes. *)
Lemma input_size_low b st :
  binding_good b st ->
  Z.land (strela_input_size (b_count b) st) (2 ^ 16 - 1) = span (b_count b) st
  /\ (b_count b <> 0 -> Z.shiftr (strela_input_size (b_count b) st) 16 = st * STRELA_WORD_SIZE).
Proof.
  intros (o & _ & _ & _ & Hc & Hs & Hsp & Hst & _).
  destruct (decide (b_count b = 0)) as [E0|Hne].
  { rewrite E0. split; [by apply input_size_zero|done]. }
  rewrite input_size_value by auto. unfold is_u, span, STRELA_WORD_SIZE, STRELA_MAX_COLUMN_BYTES in *.
  assert (0 <= b_count b * Z.max st 1 * 4) by nia. split.
  - rewrite land_pow2_mod, Z.add_comm, Z_mod_plus_full by lia. apply Z.mod_small. lia.
  - intros _. rewrite Z.shiftr_div_pow2, Z.div_add_l, (Z.div_small (_ * _ * 4)) by lia. lia.
Qed.

(** The value of a column's registers after programming. *)
Lemma job_writes_columns j i inp st out l :
  job_good j -> (i < STRELA_NUM_IO_COLS)%nat ->
  j_inputs j !! i = Some inp -> j_input_strides j !! i = Some st -> j_outputs j !! i = Some out ->
  let l' := log_writes (job_writes j) l in
  reg_value l' STRELA_REG_CONF_ADDR = Some (bus_addr (j_config j))
  /\ reg_value l' STRELA_REG_CONF_SIZE = Some (b_count (j_config j) * STRELA_WORD_SIZE)
  /\ reg_value l' (STRELA_REG_INP_ADDR (Z.of_nat i)) = Some (bus_addr inp)
  /\ reg_value l' (STRELA_REG_INP_SIZE (Z.of_nat i)) = Some (strela_input_size (b_count inp) st)
  /\ reg_value l' (STRELA_REG_OUT_ADDR (Z.of_nat i)) = Some (bus_addr out)
  /\ reg_value l' (STRELA_REG_OUT_SIZE (Z.of_nat i)) = Some (b_count out * STRELA_WORD_SIZE).
Proof.
  intros [_ Hi _ [Hl1 Hl2]] Hlt Hin Hst Hout. pose proof (Forall2_length _ _ _ Hi) as Hl3.
  destruct j as [f c ins ss os ph]; cbn in *. unfold STRELA_NUM_IO_COLS in *.
  destruct ins as [|i0 [|i1 [|i2 [|i3 [|]]]]]; try done.
  destruct os as [|o0 [|o1 [|o2 [|o3 [|]]]]]; try done.
  destruct ss as [|s0 [|s1 [|s2 [|s3 [|]]]]]; try done.
  do 4 (destruct i as [|i]; [cbn in Hin, Hst, Hout; simplify_eq; by split_and!|]). lia.
Qed.

(** What the registers [l] hold for the configuration and column [i] describes
    ranges inside the buffers bound there. *)
Definition confined (l : list event) (j : strela_job) (i : nat) (inp : strela_binding) (st : Z) (out : strela_binding)
  : Prop :=
  (exists a n, reg_value l STRELA_REG_CONF_ADDR = Some a
     /\ reg_value l STRELA_REG_CONF_SIZE = Some n /\ inside_buffer (j_config j) a n)
  /\ (exists a v, reg_value l (STRELA_REG_INP_ADDR (Z.of_nat i)) = Some a
        /\ reg_value l (STRELA_REG_INP_SIZE (Z.of_nat i)) = Some v
        /\ inside_buffer inp a (Z.land v (2 ^ 16 - 1))
        /\ (b_count inp <> 0 -> Z.shiftr v 16 = st * STRELA_WORD_SIZE))
  /\ (exists a n, reg_value l (STRELA_REG_OUT_ADDR (Z.of_nat i)) = Some a
        /\ reg_value l (STRELA_REG_OUT_SIZE (Z.of_nat i)) = Some n
        /\ inside_buffer out a n).

Lemma job_writes_confined j i inp st out l :
  job_good j -> (i < STRELA_NUM_IO_COLS)%nat ->
  j_inputs j !! i = Some inp -> j_input_strides j !! i = Some st -> j_outputs j !! i = Some out ->
  confined (log_writes (job_writes j) l) j i inp st out.
Proof.
  intros Hg Hi Hin Hst Hout.
  destruct (job_writes_columns j i inp st out l Hg Hi Hin Hst Hout) as (Hc1 & Hc2 & H1 & H2 & H3 & H4).
  pose proof Hg as [Hc Hgi Hgo _].
  destruct (Forall2_lookup_l _ _ _ _ _ Hgi Hin) as (st' & Hst' & Hgi'). simplify_eq.
  pose proof (Forall_lookup_1 _ _ _ _ Hgo Hout) as Hgo'. cbn in Hgo'.
  destruct (input_size_low _ _ Hgi') as [Hlow Hhigh].
  assert (Hone : forall b, binding_good b 1 -> inside_buffer b (bus_addr b) (b_count b * STRELA_WORD_SIZE)).
  { intros b Hb. pose proof (binding_good_inside _ _ Hb) as H. unfold span in H.
    by replace (b_count b * Z.max 1 1) with (b_count b) in H by lia. }
  split_and!.
  - do 2 eexists. split_and!; [done|done|by apply Hone].
  - do 2 eexists. split_and!; [done|done| |done]. rewrite Hlow. by apply binding_good_inside.
  - do 2 eexists. split_and!; [done|done|by apply Hone].
Qed.
End Program.

(** ** Properties *)

(** C13: The submit-time check of a binding is exact: although the 64-bit product
    of a count and a stride can wrap around, [strela_binding_check] accepts a
    binding if and only if its span fits the 16-bit fields of the size register
    and the whole span lies inside the buffer object; otherwise it returns
    -EINVAL. *)
Theorem binding_check_exact obj_size b :
  strided_ok b -> is_u 64 obj_size ->
  (strela_binding_check obj_size b = 0
   <-> binding_fits obj_size (us_offset b) (us_count b) (us_stride b))
  /\ (strela_binding_check obj_size b = 0 \/ strela_binding_check obj_size b = - EINVAL).
Proof.
  intros Hb Hs. rewrite binding_check_fits by done. case_decide; [tauto|].
  split; [|tauto]. split; [done|tauto].
Qed.

Lemma binding_check_exact_witness :
  strela_binding_check 64 (mkUStrided 1 0 4 4) = 0 /\ binding_fits 64 0 4 4
  /\ ~ binding_fits (2 ^ 64 - 1) 0 (2 ^ 31) (2 ^ 31).
Proof.
  pose proof (binding_check_exact 64 (mkUStrided 1 0 4 4) ltac:(by vm_compute) ltac:(by vm_compute))
    as [H1 _].
  pose proof (binding_check_exact (2 ^ 64 - 1) (mkUStrided 1 0 (2 ^ 31) (2 ^ 31))
    ltac:(by vm_compute) ltac:(by vm_compute)) as [H2 _].
  split; [reflexivity|]. split; [apply H1; reflexivity|]. intros H. apply H2 in H. by vm_compute in H.
Defined.

(** Programming a job points the DMA engines only at memory the client owns.
    For a job whose bindings passed the check, [strela_hw_program] completes,
    and then the address and size registers of the configuration and of every
    column describe a range inside the buffer object bound there; the stride
    field of an input that moves anything is the stride asked for. *)
Theorem program_confines_dma {A : abi} j s i inp st out :
  job_good j -> sd_is_sim (k_dev s) = false -> (i < STRELA_NUM_IO_COLS)%nat ->
  j_inputs j !! i = Some inp -> j_input_strides j !! i = Some st -> j_outputs j !! i = Some out ->
  exists s', strela_hw_program j s = Ok (tt, s')
    /\ (exists a n, reg_value (k_log s') STRELA_REG_CONF_ADDR = Some a
          /\ reg_value (k_log s') STRELA_REG_CONF_SIZE = Some n /\ inside_buffer (j_config j) a n)
    /\ (exists a v, reg_value (k_log s') (STRELA_REG_INP_ADDR (Z.of_nat i)) = Some a
          /\ reg_value (k_log s') (STRELA_REG_INP_SIZE (Z.of_nat i)) = Some v
          /\ inside_buffer inp a (Z.land v (2 ^ 16 - 1))
          /\ (b_count inp <> 0 -> Z.shiftr v 16 = st * STRELA_WORD_SIZE))
    /\ (exists a n, reg_value (k_log s') (STRELA_REG_OUT_ADDR (Z.of_nat i)) = Some a
          /\ reg_value (k_log s') (STRELA_REG_OUT_SIZE (Z.of_nat i)) = Some n
          /\ inside_buffer out a n).
Proof.
  intros Hg Hsim Hi Hin Hst Hout. rewrite (hw_program_ok j s Hg Hsim). eexists. split; [done|].
  by apply job_writes_confined.
Qed.

(** A job on one 64-byte buffer, and an environment for witnesses. *)
Definition obj64 : gem_obj := mkObj 1 64 0x1000 0x8000 false.

Definition bind64 : strela_binding := mkBinding (Some obj64) 0 4.

Definition job64 : strela_job :=
  mkJob 7 bind64 (replicate 4 bind64) (replicate 4 2) (replicate 4 bind64) STRELA_JOB_PHASE_CONFIG.

Definition env64 : Env := {|
  env_readl := fun _ _ => 0;
  env_kzalloc := fun l k => match k with A_job => 100 | _ => 200 end;
  env_gem_lookup := fun _ h => if h =? 1 then Some obj64 else None;
  env_dma_alloc := fun _ _ => (0x8000, 0x1000);
  env_icall := fun _ c => match c with drm_syncobj_find _ => 300 | _ => 0 end
|}.

Definition hw_state : kst := mkK [] (mkDev false 0 false 0 1 0) ∅ ∅.

Lemma bind64_good st : 0 <= st <= 4 -> binding_good bind64 st.
Proof.
  intros Hst. exists obj64. split; [done|]. split; [by vm_compute|].
  split; [by vm_compute|]. split; [by vm_compute|]. unfold is_u.
  split; [lia|]. unfold binding_fits, span, STRELA_WORD_SIZE, STRELA_MAX_COLUMN_BYTES; cbn. lia.
Qed.

Lemma job64_good : job_good job64.
Proof.
  split; cbn.
  - apply bind64_good. lia.
  - repeat constructor; apply bind64_good; lia.
  - repeat constructor; apply bind64_good; lia.
  - done.
Qed.

Lemma program_confines_dma_witness :
  exists s', strela_hw_program (A := ARMv7) job64 hw_state = Ok (tt, s')
    /\ exists a n, reg_value (k_log s') (STRELA_REG_OUT_ADDR 2) = Some a
         /\ reg_value (k_log s') (STRELA_REG_OUT_SIZE 2) = Some n /\ inside_buffer bind64 a n.
Proof.
  destruct (program_confines_dma (A := ARMv7) job64 hw_state 2 bind64 2 bind64
    job64_good eq_refl ltac:(unfold STRELA_NUM_IO_COLS; lia) eq_refl eq_refl eq_refl) as (s' & He & _ & _ & H).
  exists s'. split; [exact He|exact H].
Defined.
