(* ===== verification/DrvSubmit.v ===== *)
(** * What a submit takes and gives back

    Reference counts of everything [strela_submit_ioctl] acquires, read off the
    log: a failed submit gives everything back, a successful one leaves exactly
    what the job holds, and [strela_free_job] releases exactly that. *)
From S2P Require Export DrvCheck.

(** ** Counting references in a log *)
Variant resource :=
| RObj (o : gem_obj)      (* references on a buffer object *)
| RFence (f : Z)          (* references on a hardware fence *)
| RJob (p : Z)            (* the job's memory *)
| RSched (p : Z)          (* the scheduler's part of the job *)
| RSync (x : Z)           (* references on a sync object *)
| RPush (p : Z).          (* how often a job was handed to the scheduler *)

Definition one (b : bool) : Z := if b then 1 else 0.

(** What an event adds to the references held on [r]. *)
Definition delta (r : resource) (e : event) : Z :=
  match r, e with
  | RObj o, GemLookup _ (Some o') => one (bool_decide (o' = o))
  | RObj o, VCall (drm_gem_object_put (Some o')) => - one (bool_decide (o' = o))
  | RFence f, VCall (dma_fence_init f' _ _) => one (f' =? f)
  | RFence f, VCall (dma_fence_get f') => one (f' =? f)
  | RFence f, VCall (dma_fence_put f') => - one (f' =? f)
  | RJob p, Kzalloc A_job p' => one ((p' =? p) && negb (p' =? 0))
  | RJob p, VCall (kfree p') => - one (p' =? p)
  | RSched p, ICall (drm_sched_job_init p') ret => one ((p' =? p) && (ret =? 0))
  | RSched p, VCall (drm_sched_job_cleanup p') => - one (p' =? p)
  | RSync x, ICall (drm_syncobj_find _) x' => one ((x' =? x) && negb (x' =? 0))
  | RSync x, VCall (drm_syncobj_put x') => - one (x' =? x)
  | RPush p, VCall (drm_sched_entity_push_job p') => one (p' =? p)
  | _, _ => 0
  end.

Fixpoint held (r : resource) (l : list event) : Z :=
  match l with
  | [] => 0
  | e :: l => delta r e + held r l
  end.

(** What a binding, a list of bindings and a job hold. *)
Definition b_holds (r : resource) (b : strela_binding) : Z :=
  match r, b_obj b with
  | RObj o, Some o' => one (bool_decide (o' = o))
  | _, _ => 0
  end.

Fixpoint bs_hold (r : resource) (bs : list strela_binding) : Z :=
  match bs with
  | [] => 0
  | b :: bs => b_holds r b + bs_hold r bs
  end.

Definition bindings_hold (r : resource) (j : strela_job) : Z :=
  b_holds r (j_config j) + bs_hold r (j_inputs j) + bs_hold r (j_outputs j).

Definition job_holds (r : resource) (p : Z) (j : strela_job) : Z :=
  bindings_hold r j
  + match r with
    | RFence f => one (j_hw_fence j =? f)
    | RJob q => one (p =? q)
    | RSched q => one (p =? q)
    | _ => 0
    end.

Lemma bs_hold_insert r bs i b b' :
  bs !! i = Some b -> bs_hold r (<[i := b']> bs) = bs_hold r bs - b_holds r b + b_holds r b'.
Proof.
  revert i. induction bs as [|x bs IH]; intros [|i] H; cbn in *; simplify_eq; try lia.
  rewrite IH by done. lia.
Qed.

Lemma delta_put r b : delta r (VCall (drm_gem_object_put (b_obj b))) = - b_holds r b.
Proof. unfold b_holds. destruct r, (b_obj b); reflexivity. Qed.

(** Events that only give references back. *)
Definition releases (e : event) : bool :=
  match e with
  | VCall (drm_gem_object_put _) | VCall (drm_sched_job_cleanup _) | VCall (dma_fence_put _)
  | VCall (kfree _) => true
  | _ => false
  end.

(** The log [l'] is [l] and releases. *)
Definition released (l l' : list event) : Prop :=
  exists es, l' = es ++ l /\ Forall (fun e => releases e = true) es.

Lemma released_refl l : released l l.
Proof. exists []. by split. Qed.

Lemma released_cons l l' e : released l l' -> releases e = true -> released l (e :: l').
Proof. intros (es & -> & Hes) He. exists (e :: es). split; [done|by constructor]. Qed.

Lemma released_trans l1 l2 l3 : released l1 l2 -> released l2 l3 -> released l1 l3.
Proof.
  intros (es & -> & H1) (es' & -> & H2). exists (es' ++ es). split; [by rewrite app_assoc|].
  by apply Forall_app.
Qed.

Section Submit.
Context {A : abi} {E : Env}.

(** The request [src] was resolved to the binding [b]. *)
Definition resolved (src : drm_strela_strided_binding) (b : strela_binding) : Prop :=
  exists o, b = mkBinding (Some o) (us_offset src) (us_count src)
            /\ strela_binding_check (o_size o) src = 0
            /\ exists l, env_gem_lookup l (us_handle src) = Some o.

Definition strided (src : drm_strela_binding) : drm_strela_strided_binding :=
  mkUStrided (ub_handle src) (ub_offset src) (ub_count src) 1.

Lemma binding_get_ok src s :
  exists ret b l, strela_strided_binding_get src s = Ok ((ret, b), set_log s l)
    /\ (forall r, held r l = held r (k_log s) + b_holds r b)
    /\ (ret = 0 -> resolved src b) /\ (ret <> 0 -> b = binding0).
Proof.
  unfold strela_strided_binding_get, drm_gem_object_lookup, mbind_, get_, emit, modify_. cbn.
  destruct (env_gem_lookup (k_log s) (us_handle src)) as [o|] eqn:Eo.
  - destruct (Z.eqb_spec (strela_binding_check (o_size o) src) 0) as [E0|Hne]; cbn.
    + do 3 eexists. split; [done|]. split_and!; [|intros _; exists o; by eauto|done].
      intros r. cbn. unfold b_holds. destruct r; cbn; lia.
    + exists (strela_binding_check (o_size o) src), binding0. eexists. split; [done|]. split_and!; [|done|done].
      intros r. cbn. unfold b_holds. destruct r; cbn; lia.
  - exists (- ENOENT), binding0. eexists. split; [done|]. split_and!; [|done|done].
    intros r. cbn. unfold b_holds. destruct r; cbn; lia.
Qed.

Lemma update_job_Ok p f j s :
  k_jobs s !! p = Some j -> update_job p f s = Ok (tt, set_jobs s (<[p := f j]> (k_jobs s))).
Proof. intros H. unfold update_job, get_job, mbind_, get_, modify_. by rewrite H. Qed.

Lemma get_job_Ok p j s : k_jobs s !! p = Some j -> get_job p s = Ok (j, s).
Proof. intros H. unfold get_job, mbind_, get_. by rewrite H. Qed.

(** Column [k] of the job is what the arguments ask for. *)
Definition col_ok (args : drm_strela_submit) (j : strela_job) (k : nat) : Prop :=
  exists inp b out b', sub_inputs args !! k = Some inp /\ j_inputs j !! k = Some b /\ resolved inp b
    /\ j_input_strides j !! k = Some (us_stride inp)
    /\ sub_outputs args !! k = Some out /\ j_outputs j !! k = Some b' /\ resolved (strided out) b'.

(** The job while its bindings are being resolved: columns from [i] on are
    still empty. *)
Definition empty_from (i : nat) (j : strela_job) : Prop :=
  length (j_inputs j) = STRELA_NUM_IO_COLS /\ length (j_input_strides j) = STRELA_NUM_IO_COLS
  /\ length (j_outputs j) = STRELA_NUM_IO_COLS
  /\ forall k, (i <= k < STRELA_NUM_IO_COLS)%nat ->
       j_inputs j !! k = Some binding0 /\ j_outputs j !! k = Some binding0.

(** The two jobs agree outside the columns from [i] on. *)
Definition same_before (i : nat) (j j' : strela_job) : Prop :=
  j_hw_fence j' = j_hw_fence j /\ j_config j' = j_config j /\ j_phase j' = j_phase j
  /\ forall k, (k < i)%nat -> j_inputs j' !! k = j_inputs j !! k
       /\ j_input_strides j' !! k = j_input_strides j !! k /\ j_outputs j' !! k = j_outputs j !! k.

Lemma col_ok_same args i j j' k :
  same_before i j j' -> (k < i)%nat -> col_ok args j k -> col_ok args j' k.
Proof.
  intros (_ & _ & _ & H) Hk (inp & b & out & b' & H1 & H2 & H3 & H4 & H5 & H6 & H7).
  destruct (H k Hk) as (E1 & E2 & E3). exists inp, b, out, b'. split_and!; congruence.
Qed.

(** What is known after resolving bindings into the job [j]. *)
Definition resolving (job : Z) (i : nat) (s s' : kst) (j j' : strela_job) : Prop :=
  k_jobs s' = <[job := j']> (k_jobs s) /\ k_dev s' = k_dev s /\ k_ram s' = k_ram s
  /\ same_before i j j'
  /\ forall r, held r (k_log s') - held r (k_log s) = bindings_hold r j' - bindings_hold r j.

Lemma empty_from_S i j : empty_from i j -> empty_from (S i) j.
Proof. intros (? & ? & ? & He). repeat split; try done; apply He; lia. Qed.

Lemma same_before_refl i j : same_before i j j.
Proof. by repeat split. Qed.

Lemma resolving_fail job i s j l :
  k_jobs s !! job = Some j -> (forall r, held r l = held r (k_log s)) ->
  resolving job i s (set_log s l) j j.
Proof.
  intros Hj Hh. split_and!; try done; cbn; [by rewrite insert_id|].
  intros r. rewrite Hh. lia.
Qed.

(** Storing a resolved input, its stride and a resolved output. *)
Lemma set_input_same i j b st :
  empty_from i j -> (i < STRELA_NUM_IO_COLS)%nat ->
  same_before i j (set_stride (set_input j i b) i st)
  /\ empty_from (S i) (set_stride (set_input j i b) i st)
  /\ j_outputs (set_stride (set_input j i b) i st) !! i = Some binding0
  /\ j_inputs (set_stride (set_input j i b) i st) !! i = Some b
  /\ j_input_strides (set_stride (set_input j i b) i st) !! i = Some st
  /\ forall r, bindings_hold r (set_stride (set_input j i b) i st) = bindings_hold r j + b_holds r b.
Proof.
  intros (H1 & H2 & H3 & H) Hi. destruct (H i ltac:(lia)) as [Hbi Hbo].
  split_and!; cbn; try done.
  - split_and!; try done. intros k Hk. cbn. rewrite !list_lookup_insert_ne by lia. done.
  - unfold empty_from; cbn. rewrite !length_insert. split_and!; try done. intros k Hk.
    rewrite list_lookup_insert_ne by lia. apply H. lia.
  - apply list_lookup_insert_eq. lia.
  - apply list_lookup_insert_eq. lia.
  - intros r. unfold bindings_hold. cbn. rewrite (bs_hold_insert _ _ _ _ _ Hbi).
    unfold b_holds at 2. destruct r; cbn; lia.
Qed.

Lemma set_output_same i j b :
  j_outputs j !! i = Some binding0 -> empty_from (S i) j ->
  same_before i j (set_output j i b)
  /\ empty_from (S i) (set_output j i b)
  /\ j_outputs (set_output j i b) !! i = Some b
  /\ forall r, bindings_hold r (set_output j i b) = bindings_hold r j + b_holds r b.
Proof.
  intros Hbo (H1 & H2 & H3 & H). split_and!; cbn.
  - split_and!; try done. intros k Hk. cbn. rewrite !list_lookup_insert_ne by lia. done.
  - unfold empty_from; cbn. rewrite !length_insert. split_and!; try done. intros k Hk.
    rewrite list_lookup_insert_ne by lia. apply H. lia.
  - apply list_lookup_insert_eq. by eapply lookup_lt_Some.
  - intros r. unfold bindings_hold. cbn. rewrite (bs_hold_insert _ _ _ _ _ Hbo).
    unfold b_holds at 3. destruct r; cbn; lia.
Qed.

Lemma same_before_trans i j1 j2 j3 : same_before i j1 j2 -> same_before i j2 j3 -> same_before i j1 j3.
Proof.
  intros (E1 & E2 & E3 & H1) (F1 & F2 & F3 & H2). split_and!; try congruence.
  intros k Hk. destruct (H1 k Hk) as (? & ? & ?), (H2 k Hk) as (? & ? & ?). split_and!; congruence.
Qed.

Lemma same_before_le i i' j1 j2 : (i' <= i)%nat -> same_before i j1 j2 -> same_before i' j1 j2.
Proof. intros Hi (? & ? & ? & H). split_and!; try done. intros k Hk. apply H. lia. Qed.

Lemma submit_column_ok job args i s j :
  (i < STRELA_NUM_IO_COLS)%nat ->
  length (sub_inputs args) = STRELA_NUM_IO_COLS -> length (sub_outputs args) = STRELA_NUM_IO_COLS ->
  k_jobs s !! job = Some j -> empty_from i j ->
  exists ret s' j', submit_column job args i s = Ok (ret, s') /\ resolving job i s s' j j'
    /\ empty_from (S i) j' /\ (ret = 0 -> col_ok args j' i).
Proof.
  intros Hi Hl1 Hl2 Hj Hemp.
  destruct (lookup_lt_is_Some_2 (sub_inputs args) i ltac:(lia)) as [inp Hinp].
  destruct (lookup_lt_is_Some_2 (sub_outputs args) i ltac:(lia)) as [out Hout].
  unfold submit_column. rewrite (mbind_Ok _ _ _ _ _ (nth_Ok _ _ _ _ Hinp)).
  destruct (binding_get_ok inp s) as (ret & b & l & Hg & Hh & Hr & Hz).
  rewrite (mbind_Ok _ _ _ _ _ Hg). destruct (Z.eqb_spec ret 0) as [->|Hne]; cbn [negb].
  2:{ exists ret, (set_log s l), j. specialize (Hz Hne) as ->. split; [done|]. split; [|split].
      - apply resolving_fail; [done|]. intros r. rewrite Hh. unfold b_holds. destruct r; cbn; lia.
      - by apply empty_from_S.
      - done. }
  clear Hz. rewrite (mbind_Ok _ _ _ _ _ (update_job_Ok job _ j (set_log s l) Hj)).
  erewrite (mbind_Ok (update_job _ _)) by (apply update_job_Ok; cbn; apply lookup_insert_eq).
  rewrite (mbind_Ok _ _ _ _ _ (nth_Ok _ _ _ _ Hout)). unfold strela_binding_get. fold (strided out).
  destruct (set_input_same i j b (us_stride inp) Hemp Hi) as (S1 & S2 & S3 & S4 & S5 & S6).
  set (j1 := set_stride (set_input j i b) i (us_stride inp)) in *.
  set (s1 := set_jobs _ _). destruct (binding_get_ok (strided out) s1) as (ret' & b' & l' & Hg' & Hh' & Hr' & Hz').
  rewrite (mbind_Ok _ _ _ _ _ Hg'). destruct (Z.eqb_spec ret' 0) as [->|Hne]; cbn [negb].
  2:{ exists ret', (set_log s1 l'), j1. specialize (Hz' Hne) as ->. split; [done|]. split; [|done].
      split_and!; try done.
      - cbn. by rewrite insert_insert_eq.
      - intros r. cbn. rewrite Hh', S6. cbn. rewrite Hh. unfold b_holds at 2. destruct r; cbn; lia. }
  destruct (set_output_same i j1 b' S3 S2) as (T1 & T2 & T3 & T4).
  erewrite (mbind_Ok (update_job _ _)) by (apply update_job_Ok; cbn; apply lookup_insert_eq).
  do 3 eexists. split; [done|]. split; [|split; [exact T2|]].
  - split_and!; cbn; try done.
    + by rewrite !insert_insert_eq.
    + by eapply same_before_trans.
    + intros r. rewrite Hh', T4, S6. cbn. rewrite Hh. lia.
  - intros _. exists inp, b, out, b'. cbn. split_and!; try done; [by apply Hr|by apply Hr'].
Qed.

Lemma resolving_trans job i i' s1 s2 s3 j1 j2 j3 :
  (i <= i')%nat -> resolving job i s1 s2 j1 j2 -> resolving job i' s2 s3 j2 j3 ->
  resolving job i s1 s3 j1 j3.
Proof.
  intros Hi (E1 & E2 & E3 & E4 & E5) (F1 & F2 & F3 & F4 & F5). split_and!; try congruence.
  - by rewrite F1, E1, insert_insert_eq.
  - eapply same_before_trans; [done|]. by eapply same_before_le.
  - intros r. specialize (E5 r). specialize (F5 r). lia.
Qed.

Lemma submit_columns_ok job args i n s j :
  (i + n <= STRELA_NUM_IO_COLS)%nat ->
  length (sub_inputs args) = STRELA_NUM_IO_COLS -> length (sub_outputs args) = STRELA_NUM_IO_COLS ->
  k_jobs s !! job = Some j -> empty_from i j ->
  exists ret s' j', submit_columns job args i n s = Ok (ret, s') /\ resolving job i s s' j j'
    /\ length (j_inputs j') = STRELA_NUM_IO_COLS /\ length (j_input_strides j') = STRELA_NUM_IO_COLS
    /\ length (j_outputs j') = STRELA_NUM_IO_COLS
    /\ (ret = 0 -> forall k, (i <= k < i + n)%nat -> col_ok args j' k).
Proof.
  intros Hin Hl1 Hl2. revert i s j Hin. induction n as [|n IH]; intros i s j Hin Hj Hemp; cbn.
  { exists 0, s, j. split; [done|]. split.
    - pose proof (resolving_fail job i s j (k_log s) Hj) as H. destruct s. by apply H.
    - destruct Hemp as (? & ? & ? & _). do 3 (split; [done|]). intros _ k Hk. lia. }
  destruct (submit_column_ok job args i s j ltac:(lia) Hl1 Hl2 Hj Hemp) as (ret & s1 & j1 & He & Hr & Hemp1 & Hc).
  rewrite (mbind_Ok _ _ _ _ _ He). destruct (Z.eqb_spec ret 0) as [->|Hne]; cbn [negb].
  2:{ exists ret, s1, j1. destruct Hemp1 as (? & ? & ? & _). by split_and!. }
  assert (Hj1 : k_jobs s1 !! job = Some j1).
  { destruct Hr as (-> & _). apply lookup_insert_eq. }
  destruct (IH (S i) s1 j1 ltac:(lia) Hj1 Hemp1) as (ret2 & s2 & j2 & He2 & Hr2 & L1 & L2 & L3 & Hc2).
  exists ret2, s2, j2. split; [done|]. split_and!; try done.
  - eapply resolving_trans; [|done|done]. lia.
  - intros H0 k Hk. destruct (decide (k = i)) as [->|]; [|apply Hc2; [done|lia]].
    destruct Hr2 as (_ & _ & _ & Hs & _). eapply col_ok_same; [done|lia|]. by apply Hc.
Qed.

(** The whole job is what the arguments ask for. *)
Definition job_resolved (args : drm_strela_submit) (j : strela_job) : Prop :=
  resolved (strided (sub_config args)) (j_config j)
  /\ length (j_inputs j) = STRELA_NUM_IO_COLS /\ length (j_input_strides j) = STRELA_NUM_IO_COLS
  /\ length (j_outputs j) = STRELA_NUM_IO_COLS
  /\ forall k, (k < STRELA_NUM_IO_COLS)%nat -> col_ok args j k.

Definition args_ok (args : drm_strela_submit) : Prop :=
  length (sub_inputs args) = STRELA_NUM_IO_COLS /\ length (sub_outputs args) = STRELA_NUM_IO_COLS.

(** The state after a step that only logged and changed the job. *)
Definition job_step (job : Z) (s s' : kst) (j j' : strela_job) : Prop :=
  k_jobs s' = <[job := j']> (k_jobs s) /\ k_dev s' = k_dev s /\ k_ram s' = k_ram s
  /\ j_hw_fence j' = j_hw_fence j
  /\ length (j_inputs j') = STRELA_NUM_IO_COLS /\ length (j_outputs j') = STRELA_NUM_IO_COLS.

Lemma empty_job0 f : empty_from 0 (set_hw_fence job0 f).
Proof. split_and!; try done. intros k Hk. unfold STRELA_NUM_IO_COLS in Hk.
  do 4 (destruct k as [|k]; [done|]). lia.
Qed.

Lemma job0_holds r f : bindings_hold r (set_hw_fence job0 f) = 0.
Proof. by destruct r. Qed.

Lemma submit_bindings_ok job args s f :
  args_ok args -> k_jobs s !! job = Some (set_hw_fence job0 f) ->
  exists ret s' j', submit_bindings job args s = Ok (ret, s') /\ job_step job s s' (set_hw_fence job0 f) j'
    /\ (forall r, held r (k_log s') = held r (k_log s) + bindings_hold r j')
    /\ (ret = 0 -> job_resolved args j').
Proof.
  intros [Hl1 Hl2] Hj. unfold submit_bindings, strela_binding_get. fold (strided (sub_config args)).
  destruct (binding_get_ok (strided (sub_config args)) s) as (ret & b & l & Hg & Hh & Hr & Hz).
  rewrite (mbind_Ok _ _ _ _ _ Hg). set (j := set_hw_fence job0 f) in *.
  assert (H0 : forall r, bindings_hold r j = 0) by (intros r; apply job0_holds).
  destruct (Z.eqb_spec ret 0) as [->|Hne]; cbn [negb].
  2:{ exists ret, (set_log s l), j. specialize (Hz Hne) as ->. split; [done|]. split_and!; try done.
      - split_and!; try done. cbn. by rewrite insert_id.
      - intros r. cbn. rewrite Hh, H0. unfold b_holds. destruct r; cbn; lia. }
  rewrite (mbind_Ok _ _ _ _ _ (update_job_Ok job _ j (set_log s l) Hj)). set (s1 := set_jobs _ _).
  destruct (submit_columns_ok job args 0 STRELA_NUM_IO_COLS s1 (set_config j b)) as
    (ret2 & s2 & j2 & He2 & (E1 & E2 & E3 & E4 & E5) & L1 & L2 & L3 & Hc2);
    [lia|done|done|apply lookup_insert_eq|apply empty_job0|].
  pose proof E4 as (F1 & F2 & _).
  exists ret2, s2, j2. split; [done|]. split_and!.
  - split_and!; try done. rewrite E1. cbn. by rewrite insert_insert_eq.
  - intros r. specialize (E5 r). cbn in E5. rewrite Hh in E5.
    assert (bindings_hold r (set_config j b) = b_holds r b)
      by (unfold bindings_hold; destruct r; cbn; lia). lia.
  - intros Hz2. split_and!; try done; [rewrite F2; by apply Hr|]. intros k Hk. apply Hc2; [done|lia].
Qed.

(** drm_gem_object_put on every binding. *)
Lemma put_columns_ok j i n s :
  (i + n <= STRELA_NUM_IO_COLS)%nat ->
  length (j_inputs j) = STRELA_NUM_IO_COLS -> length (j_outputs j) = STRELA_NUM_IO_COLS ->
  exists l, for_from (Z.of_nat i) n (fun i _ =>
    let! input := nth_ (j_inputs j) i in
    do! vcall_ (drm_gem_object_put (b_obj input)) in
    let! output := nth_ (j_outputs j) i in
    vcall_ (drm_gem_object_put (b_obj output))) tt s = Ok (tt, set_log s l)
  /\ released (k_log s) l
  /\ forall r, held r l = held r (k_log s) - bs_hold r (firstn n (drop i (j_inputs j)))
                         - bs_hold r (firstn n (drop i (j_outputs j))).
Proof.
  intros Hin Hl1 Hl2. revert i s Hin. induction n as [|n IH]; intros i s Hin; cbn [for_from].
  { exists (k_log s). split; [by destruct s|]. split; [apply released_refl|]. intros r. rewrite !take_0. cbn. lia. }
  destruct (lookup_lt_is_Some_2 (j_inputs j) i ltac:(lia)) as [inp Hinp].
  destruct (lookup_lt_is_Some_2 (j_outputs j) i ltac:(lia)) as [out Hout].
  set (s1 := set_log s (VCall (drm_gem_object_put (b_obj out))
                          :: VCall (drm_gem_object_put (b_obj inp)) :: k_log s)).
  erewrite mbind_Ok with (s' := s1) (x := tt).
  2:{ rewrite (mbind_Ok _ _ _ _ _ (nth_Ok _ _ _ _ Hinp)).
      unfold vcall_, emit, modify_. unfold mbind_ at 1. cbn.
      by rewrite (mbind_Ok _ _ _ _ _ (nth_Ok _ _ _ _ Hout)). }
  replace (Z.of_nat i + 1) with (Z.of_nat (S i)) by lia.
  destruct (IH (S i) s1 ltac:(lia)) as (l & He & Hrel & Hh). exists l. split; [exact He|].
  split; [eapply released_trans; [|exact Hrel]; do 2 (apply released_cons; [|done]); apply released_refl|].
  intros r. rewrite Hh, (drop_S _ _ _ Hinp), (drop_S _ _ _ Hout). cbn [firstn bs_hold].
  unfold s1. cbn [k_log set_log held]. rewrite !delta_put. lia.
Qed.

Lemma put_bindings_ok j s :
  length (j_inputs j) = STRELA_NUM_IO_COLS -> length (j_outputs j) = STRELA_NUM_IO_COLS ->
  exists l, strela_job_put_bindings j s = Ok (tt, set_log s l)
    /\ released (k_log s) l
    /\ forall r, held r l = held r (k_log s) - bindings_hold r j.
Proof.
  intros Hl1 Hl2. unfold strela_job_put_bindings.
  set (s1 := set_log s (VCall (drm_gem_object_put (b_obj (j_config j))) :: k_log s)).
  rewrite (mbind_Ok _ _ _ tt s1) by done. unfold for_. rewrite Nat2Z.id. change 0 with (Z.of_nat 0).
  destruct (put_columns_ok j 0 STRELA_NUM_IO_COLS s1 ltac:(lia) Hl1 Hl2) as (l & He & Hrel & Hh).
  exists l. split; [exact He|].
  split; [eapply released_trans; [|exact Hrel]; apply released_cons; [apply released_refl|done]|]. intros r. rewrite Hh. unfold bindings_hold.
  rewrite !drop_0, !firstn_all2 by lia. unfold s1. cbn [k_log set_log held]. rewrite delta_put. lia.
Qed.

(** The push that a result of 0 stands for. *)
Definition push_of (r : resource) (job ret : Z) : Z :=
  match r with RPush p => if ret =? 0 then one (job =? p) else 0 | _ => 0 end.

Lemma icall_Ok c s :
  icall_ c s = Ok (env_icall (k_log s) c, set_log s (ICall c (env_icall (k_log s) c) :: k_log s)).
Proof. done. Qed.

Lemma submit_finish_ok job args s :
  exists ret l,
    (let! out_syncobj := icall_ (drm_syncobj_find (sub_out_syncobj args)) in
     if out_syncobj =? 0 then mret_ (- ENOENT) else
     do! vcall_ (drm_sched_job_arm job) in
     do! vcall_ (drm_syncobj_replace_fence out_syncobj job) in
     do! vcall_ (drm_syncobj_put out_syncobj) in
     do! vcall_ (drm_sched_entity_push_job job) in
     mret_ 0) s = Ok (ret, set_log s l)
    /\ forall r, held r l = held r (k_log s) + push_of r job ret.
Proof.
  rewrite (mbind_Ok _ _ _ _ _ (icall_Ok _ _)). set (x := env_icall _ _). clearbody x.
  destruct (Z.eqb_spec x 0) as [Hx|Hne].
  - do 2 eexists. split; [done|]. intros r. cbn. unfold push_of. change (- ENOENT =? 0) with false.
    destruct r; cbn; rewrite ?Hx; cbn; rewrite ?andb_false_r; cbn; lia.
  - do 2 eexists. split; [reflexivity|]. intros r. unfold push_of.
    destruct r; cbn; rewrite ?(proj2 (Z.eqb_neq _ _) Hne); cbn; rewrite ?andb_true_r; lia.
Qed.

Lemma submit_body_ok job args s f :
  args_ok args -> k_jobs s !! job = Some (set_hw_fence job0 f) ->
  exists ret s' j', submit_body job args s = Ok (ret, s') /\ job_step job s s' (set_hw_fence job0 f) j'
    /\ (forall r, held r (k_log s') = held r (k_log s) + bindings_hold r j' + push_of r job ret)
    /\ (ret = 0 -> job_resolved args j').
Proof.
  intros Hargs Hj. unfold submit_body.
  assert (Hdep : exists ret l,
    (if negb (Z.land (sub_flags args) DRM_STRELA_SUBMIT_WAIT_SYNCOBJ =? 0)
     then icall_ (drm_sched_job_add_syncobj_dependency job (sub_in_syncobj args))
     else mret_ 0) s = Ok (ret, set_log s l) /\ forall r, held r l = held r (k_log s)).
  { break_if; [|exists 0, (k_log s); by destruct s]. do 2 eexists. split; [apply icall_Ok|].
    intros r. by destruct r. }
  destruct Hdep as (ret & l & He & Hh). rewrite (mbind_Ok _ _ _ _ _ He).
  destruct (Z.eqb_spec ret 0) as [->|Hne]; cbn [negb].
  2:{ exists ret, (set_log s l), (set_hw_fence job0 f). split; [done|]. split_and!; try done.
      - split_and!; try done. cbn. by rewrite insert_id.
      - intros r. cbn [k_log set_log]. rewrite Hh, job0_holds. unfold push_of.
        rewrite (proj2 (Z.eqb_neq _ _) Hne). destruct r; lia. }
  destruct (submit_bindings_ok job args (set_log s l) f Hargs Hj) as (ret2 & s2 & j2 & He2 & Hst & Hh2 & Hr2).
  rewrite (mbind_Ok _ _ _ _ _ He2). destruct (Z.eqb_spec ret2 0) as [->|Hne]; cbn [negb].
  2:{ exists ret2, s2, j2. split; [done|]. split_and!; try done. intros r. rewrite Hh2. cbn. rewrite Hh.
      unfold push_of. rewrite (proj2 (Z.eqb_neq _ _) Hne). destruct r; lia. }
  destruct (submit_finish_ok job args s2) as (ret3 & l3 & He3 & Hh3).
  rewrite He3. do 3 eexists. split; [done|]. split_and!; [exact Hst| |].
  - intros r. cbn. rewrite Hh3, Hh2. cbn. rewrite Hh. lia.
  - intros _. by apply Hr2.
Qed.

Lemma free_job_struct_ok job s :
  free_job_struct job s = Ok (tt, mkK (VCall (kfree job) :: k_log s) (k_dev s)
                                      (delete job (k_jobs s)) (k_ram s)).
Proof. done. Qed.

(** What was acquired before the body of a submit. *)
Definition acquired (r : resource) (job f : Z) : Z :=
  match r with
  | RFence f' => one (f =? f')
  | RJob q => one (job =? q)
  | RSched q => one (job =? q)
  | _ => 0
  end.

Lemma submit_or_cleanup_ok job args s f :
  args_ok args -> k_jobs s !! job = Some (set_hw_fence job0 f) ->
  exists ret s', submit_or_cleanup job f args s = Ok (ret, s')
    /\ (ret <> 0 -> k_jobs s' = delete job (k_jobs s)
                    /\ forall r, held r (k_log s') = held r (k_log s) - acquired r job f)
    /\ (ret = 0 -> exists j, k_jobs s' = <[job := j]> (k_jobs s) /\ job_resolved args j
          /\ j_hw_fence j = f
          /\ forall r, held r (k_log s') = held r (k_log s) + bindings_hold r j + push_of r job 0).
Proof.
  intros Hargs Hj. unfold submit_or_cleanup.
  destruct (submit_body_ok job args s f Hargs Hj) as (ret & s1 & j1 & He & (E1 & E2 & E3 & E4 & L1 & L2) & Hh & Hr).
  rewrite (mbind_Ok _ _ _ _ _ He). destruct (Z.eqb_spec ret 0) as [->|Hne]; cbn [negb].
  { exists 0, s1. split; [done|]. split; [done|]. intros _. exists j1. split_and!; try done. by apply Hr. }
  rewrite (mbind_Ok (vcall_ _) _ _ tt _ eq_refl).
  erewrite (mbind_Ok (get_job _)) by (apply get_job_Ok; cbn; rewrite E1; apply lookup_insert_eq).
  destruct (put_bindings_ok j1 (set_log s1 (VCall (drm_sched_job_cleanup job) :: k_log s1)) L1 L2)
    as (l & Hp & _ & Hph).
  rewrite (mbind_Ok _ _ _ _ _ Hp), (mbind_Ok (vcall_ _) _ _ tt _ eq_refl),
    (mbind_Ok _ _ _ _ _ (free_job_struct_ok _ _)).
  exists ret. eexists. split; [done|]. split; [|done]. intros _. cbn.
  split; [by rewrite E1, delete_insert_eq|].
  intros r. rewrite Hph. cbn [k_log set_log held]. rewrite Hh. unfold push_of.
  rewrite (proj2 (Z.eqb_neq _ _) Hne). destruct r; cbn; lia.
Qed.

(** The outcome of a submit. *)
(** The job and its fence are what kzalloc answered. *)
Definition job_ids (s : kst) (job : Z) (j : strela_job) : Prop :=
  job <> 0 /\ job = env_kzalloc (k_log s) A_job
  /\ j_hw_fence j = env_kzalloc (Kzalloc A_job job :: k_log s) A_fence.

Lemma submit_ok args s :
  args_ok args -> (forall l, k_jobs s !! env_kzalloc l A_job = None) ->
  exists ret s', strela_submit_ioctl args s = Ok (ret, s')
    /\ (ret <> 0 -> k_jobs s' = k_jobs s /\ forall r, held r (k_log s') = held r (k_log s))
    /\ (ret = 0 -> exists job j, k_jobs s' = <[job := j]> (k_jobs s) /\ job_resolved args j
          /\ job_ids s job j
          /\ forall r, held r (k_log s') = held r (k_log s) + job_holds r job j + push_of r job 0).
Proof.
  intros Hargs Hfresh. unfold strela_submit_ioctl, job_ids.
  destruct (bad_flags _ _ || _). { exists (- EINVAL), s. by split_and!. }
  rewrite (mbind_Ok (kzalloc_ A_job) _ s (env_kzalloc (k_log s) A_job) _ eq_refl).
  set (job := env_kzalloc (k_log s) A_job). assert (Hj : k_jobs s !! job = None) by apply Hfresh.
  destruct (Z.eqb_spec job 0) as [E0|Hne].
  { exists (- ENOMEM). eexists. split; [done|]. split; [|done]. intros _. split; [done|].
    intros r. destruct r; cbn; rewrite ?E0; cbn; rewrite ?andb_false_r; cbn; lia. }
  rewrite (mbind_Ok (modify_ _) _ _ tt _ eq_refl).
  rewrite (mbind_Ok (kzalloc_ A_fence) _ _ _ _ eq_refl). cbn [k_log set_jobs set_log].
  set (f := env_kzalloc _ A_fence). destruct (Z.eqb_spec f 0) as [E0|Hnf].
  { rewrite (mbind_Ok _ _ _ _ _ (free_job_struct_ok _ _)). do 2 eexists. split; [done|].
    split; [|done]. intros _. cbn. split; [by rewrite delete_insert_id|].
    intros r. destruct r; cbn; rewrite ?(proj2 (Z.eqb_neq _ _) Hne), ?andb_true_r; cbn; lia. }
  erewrite (mbind_Ok (update_job _ _)) by (apply update_job_Ok; cbn; apply lookup_insert_eq).
  rewrite (mbind_Ok (update_dev _) _ _ tt _ eq_refl), (mbind_Ok get_dev _ _ _ _ eq_refl).
  rewrite (mbind_Ok (vcall_ _) _ _ tt _ eq_refl). rewrite (mbind_Ok _ _ _ _ _ (icall_Ok _ _)).
  set (ret := env_icall _ _). clearbody ret. cbn [k_jobs k_dev k_log set_jobs set_log set_dev].
  rewrite !insert_insert_eq. destruct (Z.eqb_spec ret 0) as [->|Hret]; cbn [negb].
  2:{ rewrite (mbind_Ok (vcall_ _) _ _ tt _ eq_refl), (mbind_Ok _ _ _ _ _ (free_job_struct_ok _ _)).
      exists ret. eexists. split; [done|]. split; [|done]. intros _. cbn. split; [by rewrite delete_insert_id|].
      intros r. destruct r; cbn;
        rewrite ?(proj2 (Z.eqb_neq _ _) Hne), ?(proj2 (Z.eqb_neq _ _) Hret), ?andb_true_r, ?andb_false_r;
        cbn; lia. }
  match goal with |- context [submit_or_cleanup _ _ _ ?st] =>
    destruct (submit_or_cleanup_ok job args st f Hargs) as (ret & s2 & He & Hfail & Hgood) end.
  { cbn. apply lookup_insert_eq. }
  exists ret, s2. split; [exact He|]. cbn [k_jobs k_log set_jobs set_log set_dev] in Hfail, Hgood. split.
  - intros Hr. destruct (Hfail Hr) as [-> Hh]. split; [by rewrite delete_insert_id|].
    intros r. rewrite Hh. destruct r; cbn;
      rewrite ?(proj2 (Z.eqb_neq _ _) Hne), ?andb_true_r; cbn; lia.
  - intros Hr. destruct (Hgood Hr) as (j & -> & Hres & Hjf & Hh). exists job, j.
    split; [by rewrite insert_insert_eq|]. split_and!; try done. intros r. rewrite Hh. unfold job_holds.
    rewrite Hjf. destruct r; cbn; rewrite ?(proj2 (Z.eqb_neq _ _) Hne), ?andb_true_r; cbn; lia.
Qed.

(** Freeing a job releases what it holds. *)
Lemma free_job_ok job j s :
  k_jobs s !! job = Some j ->
  length (j_inputs j) = STRELA_NUM_IO_COLS -> length (j_outputs j) = STRELA_NUM_IO_COLS ->
  exists s', strela_free_job job s = Ok (tt, s') /\ k_jobs s' = delete job (k_jobs s)
    /\ k_dev s' = k_dev s /\ released (k_log s) (k_log s')
    /\ forall r, held r (k_log s') = held r (k_log s) - job_holds r job j.
Proof.
  intros Hj L1 L2. unfold strela_free_job. rewrite (mbind_Ok _ _ _ _ _ (get_job_Ok _ _ _ Hj)).
  rewrite (mbind_Ok (vcall_ _) _ _ tt _ eq_refl).
  destruct (put_bindings_ok j (set_log s (VCall (drm_sched_job_cleanup job) :: k_log s)) L1 L2)
    as (l & Hp & Hrel & Hh).
  rewrite (mbind_Ok _ _ _ _ _ Hp), (mbind_Ok (vcall_ _) _ _ tt _ eq_refl), free_job_struct_ok.
  eexists. split; [done|]. cbn. split_and!; try done.
  { do 2 (apply released_cons; [|done]). eapply released_trans; [|exact Hrel].
    apply released_cons; [apply released_refl|done]. }
  intros r. rewrite Hh. cbn [k_log set_log held]. unfold job_holds. destruct r; cbn; lia.
Qed.

(** ** Submitted jobs are good jobs *)

(** 32-bit fields, as the ioctl copies them in. *)
Definition args_u32 (args : drm_strela_submit) : Prop :=
  args_ok args /\ strided_ok (strided (sub_config args))
  /\ Forall strided_ok (sub_inputs args) /\ Forall (fun o => strided_ok (strided o)) (sub_outputs args).

(** The objects the lookup returns are below 4 GiB on the bus. *)
Definition env_dma32 : Prop := forall l h o, env_gem_lookup l h = Some o -> obj_dma32 o.

Lemma resolved_good src b :
  env_dma32 -> strided_ok src -> resolved src b -> binding_good b (us_stride src).
Proof.
  intros Henv Hsrc (o & -> & Hc & l & Hl). pose proof (Henv _ _ _ Hl) as Ho. exists o.
  pose proof Hsrc as (? & ? & ?). split_and!; try done; cbn;
    rewrite binding_check_fits in Hc; try done; try (by case_decide);
    destruct Ho as (? & ? & ?); unfold is_u; lia.
Qed.

Lemma job_resolved_good args j :
  env_dma32 -> args_u32 args -> job_resolved args j -> job_good j.
Proof.
  intros Henv ((Ha1 & Ha2) & Hc & Hi & Ho) (Hrc & L1 & L2 & L3 & Hcol). split.
  - exact (resolved_good _ _ Henv Hc Hrc).
  - apply Forall2_same_length_lookup. split; [congruence|]. intros k b st Hb Hst.
    destruct (Hcol k) as (inp & b' & out & b'' & H1 & H2 & H3 & H4 & _).
    { apply lookup_lt_Some in Hb. lia. }
    simplify_eq. eapply resolved_good; [done| |done]. by eapply Forall_lookup_1.
  - apply Forall_lookup. intros k b Hb.
    destruct (Hcol k) as (inp & b' & out & b'' & _ & _ & _ & _ & H5 & H6 & H7).
    { apply lookup_lt_Some in Hb. lia. }
    simplify_eq. eapply (resolved_good (strided out)); [done| |done].
    exact (Forall_lookup_1 _ _ _ _ Ho H5).
  - done.
Qed.

(** ** Properties *)

(** C19: A submit leaks nothing. Whatever the kernel answers to each of its calls,
    [strela_submit_ioctl] returns; if it reports an error, every reference it
    took (buffer objects, the fence, the sync object, the scheduler's job, the
    job's memory) has been given back and no job was pushed; if it returns 0,
    exactly one job was pushed, its bindings are the ones asked for and passed
    the check, and what stays referenced is exactly what that job holds. *)
Theorem submit_balanced args s :
  args_ok args -> (forall l, k_jobs s !! env_kzalloc l A_job = None) ->
  exists ret s', strela_submit_ioctl args s = Ok (ret, s')
    /\ (ret <> 0 -> k_jobs s' = k_jobs s /\ forall r, held r (k_log s') = held r (k_log s))
    /\ (ret = 0 -> exists job j, k_jobs s' = <[job := j]> (k_jobs s) /\ job_resolved args j
          /\ forall r, held r (k_log s') = held r (k_log s) + job_holds r job j + push_of r job 0).
Proof.
  intros Hargs Hfresh. destruct (submit_ok args s Hargs Hfresh) as (ret & s' & He & H1 & H2).
  exists ret, s'. split_and!; try done. intros H0. destruct (H2 H0) as (job & j & ? & ? & _ & ?). eauto 10.
Qed.

(** The life of a job is neutral: when a job that was submitted successfully
    is freed by the scheduler, every reference the submit took is released,
    whatever happened to other jobs in between as long as this one was kept. *)
Theorem submit_free_neutral args s s2 job j :
  args_ok args -> (forall l, k_jobs s !! env_kzalloc l A_job = None) ->
  forall s1, strela_submit_ioctl args s = Ok (0, s1) -> k_jobs s1 = <[job := j]> (k_jobs s) ->
  k_jobs s !! job = None -> k_jobs s2 !! job = Some j ->
  exists s3, strela_free_job job s2 = Ok (tt, s3)
    /\ forall r, held r (k_log s3) - held r (k_log s2)
                 = held r (k_log s) + push_of r job 0 - held r (k_log s1).
Proof.
  intros Hargs Hfresh s1 Hs1 Hj1 Hj0 Hj2. destruct (submit_ok args s Hargs Hfresh) as (ret & s1' & He & _ & Hgood).
  rewrite Hs1 in He. injection He as <- <-.
  destruct (Hgood eq_refl) as (job' & j' & Hj' & (_ & L1 & _ & L2 & _) & _ & Hh).
  assert (job' = job /\ j' = j) as [-> ->].
  { rewrite Hj1 in Hj'. assert (Hl : <[job' := j']> (k_jobs s) !! job = Some j).
    { rewrite <- Hj'. apply lookup_insert_eq. }
    destruct (decide (job' = job)) as [->|Hne]; [rewrite lookup_insert_eq in Hl; by simplify_eq|].
    rewrite lookup_insert_ne in Hl by done. congruence. }
  destruct (free_job_ok job j s2 Hj2 L1 L2) as (s3 & He & _ & _ & _ & Hf). exists s3. split; [done|].
  intros r. rewrite Hf, Hh. lia.
Qed.
End Submit.

(** The environment of DrvCheck and a submit with four columns on handle 1. *)
Definition submit64 : drm_strela_submit :=
  mkSubmit (mkUBinding 1 0 4) (replicate 4 (mkUStrided 1 0 4 2)) (replicate 4 (mkUBinding 1 8 4)) 5 0 0 0.

Lemma submit_balanced_witness :
  exists s' job j, strela_submit_ioctl (E := env64) submit64 hw_state = Ok (0, s')
    /\ held (RObj obj64) (k_log s') = job_holds (RObj obj64) job j.
Proof.
  destruct (submit_balanced (E := env64) submit64 hw_state) as (ret & s' & He & _ & Hok).
  - by split.
  - intros l. reflexivity.
  - assert (Hr : ret = 0).
    { assert (H : match strela_submit_ioctl (E := env64) submit64 hw_state with
                  | Ok (r, _) => r | Trap _ => 1 end = 0) by (vm_compute; reflexivity).
      rewrite He in H. exact H. }
    destruct (Hok Hr) as (job & j & _ & _ & Hh). exists s', job, j. rewrite Hr in He.
    split; [exact He|]. rewrite (Hh (RObj obj64)). cbn. lia.
Defined.

Lemma submit_free_neutral_witness :
  exists s1 job j s3, strela_submit_ioctl (E := env64) submit64 hw_state = Ok (0, s1)
    /\ k_jobs s1 !! job = Some j /\ strela_free_job job s1 = Ok (tt, s3)
    /\ held (RObj obj64) (k_log s3) = 0.
Proof.
  assert (Hex : exists s1 j, strela_submit_ioctl (E := env64) submit64 hw_state = Ok (0, s1)
    /\ k_jobs s1 = <[100 := j]> (k_jobs hw_state)).
  { do 2 eexists. split; [vm_compute; reflexivity|reflexivity]. }
  destruct Hex as (s1 & j & He & Hj).
  assert (Hl : k_jobs s1 !! 100 = Some j) by (rewrite Hj; apply lookup_insert_eq).
  destruct (submit_free_neutral (E := env64) submit64 hw_state s1 100 j ltac:(by split)
    ltac:(intros; reflexivity) s1 He Hj eq_refl Hl) as (s3 & Hf & Hh).
  exists s1, 100, j, s3. split; [exact He|]. split; [exact Hl|]. split; [exact Hf|].
  specialize (Hh (RObj obj64)). cbn in Hh. lia.
Defined.
