(* ===== verification/DrvIrq.v ===== *)
(** * Completion: the interrupt and the simulated device (driver/strela_core.c)

    Both report a finished phase to [strela_job_phase_done]: the interrupt
    handler with its thread for the real CGRA, a work item for a simulated
    one. *)
From S2P Require Export DrvSubmit.

Variant irqreturn_t := IRQ_NONE | IRQ_HANDLED | IRQ_WAKE_THREAD.

Section Irq.
Context {A : abi} {E : Env}.

Definition strela_irq_handler : M kst irqreturn_t :=
  let! status := readl STRELA_REG_CTRL in
  if negb (Z.land status STRELA_CMD_PENDING_INT_CONFIG =? 0) then
    do! writel STRELA_CMD_CLEAR_INT_CONFIG STRELA_REG_CTRL in
    do! update_dev (fun d => dev_set_irq_status d status) in
    mret_ IRQ_WAKE_THREAD
  else if negb (Z.land status STRELA_CMD_PENDING_INT_EXEC =? 0) then
    do! writel STRELA_CMD_CLEAR_INT_EXEC STRELA_REG_CTRL in
    do! update_dev (fun d => dev_set_irq_status d status) in
    mret_ IRQ_WAKE_THREAD
  else mret_ IRQ_NONE.

Definition strela_irq_thread_fn : M kst irqreturn_t :=
  let! sdev := get_dev in
  let status := sd_irq_status sdev in
  do! update_dev (fun d => dev_set_irq_status d 0) in
  if negb (Z.land status STRELA_CMD_PENDING_INT_CONFIG =? 0) then
    do! strela_job_phase_done STRELA_JOB_PHASE_CONFIG in
    mret_ IRQ_HANDLED
  else if negb (Z.land status STRELA_CMD_PENDING_INT_EXEC =? 0) then
    do! strela_job_phase_done STRELA_JOB_PHASE_EXEC in
    mret_ IRQ_HANDLED
  else mret_ IRQ_NONE.

(** ** The simulated device *)

(** The module parameter. *)
Context (sim_job_delay_us : Z).

Definition ETIME : Z := 62.

(** wait_event_hrtimeout: the kernel's timer or the abort wins. *)
Definition strela_sim_wait (us : Z) : M kst bool :=
  let! r := icall_ (sim_wait us) in mret_ (r =? - ETIME).

Definition strela_sim_phase_us (phase : strela_job_phase) : M kst Z :=
  let us := sim_job_delay_us in
  let us := match phase with STRELA_JOB_PHASE_CONFIG => us / 4 | STRELA_JOB_PHASE_EXEC => us end in
  let us := if us =? 0 then 1 else us in
  let! r := icall_ (get_random_u32_below (us / 2 + 1)) in
  mret_ (u64 (us + r)).

(** The columns of the exec phase from [i] on: None when aborted. *)
Fixpoint sim_columns (job : strela_job) (slice_us : Z) (i n : nat) (fed : bool)
  : M kst (option bool) :=
  match n with
  | O => mret_ (Some fed)
  | S n =>
      let! ran := strela_sim_wait slice_us in
      if negb ran then mret_ None else
      let! input := nth_ (j_inputs job) (Z.of_nat i) in
      let! stride := nth_ (j_input_strides job) (Z.of_nat i) in
      let! output := nth_ (j_outputs job) (Z.of_nat i) in
      let! ok := strela_sim_bypass_column input stride output in
      sim_columns job slice_us (S i) n (fed && ok)
  end.

Definition strela_sim_work : M kst unit :=
  let! sdev := get_dev in
  let job := sd_active sdev in
  if job =? 0 then mret_ tt else
  let! us := strela_sim_phase_us STRELA_JOB_PHASE_CONFIG in
  let! ran := strela_sim_wait us in
  if negb ran then mret_ tt else
  do! strela_job_phase_done STRELA_JOB_PHASE_CONFIG in
  let! us := strela_sim_phase_us STRELA_JOB_PHASE_EXEC in
  let slice_us := us / Z.of_nat STRELA_NUM_IO_COLS in
  let! j := get_job job in
  let! fed := sim_columns j slice_us 0 STRELA_NUM_IO_COLS true in
  match fed with
  | None => mret_ tt
  | Some false => mret_ tt
  | Some true => strela_job_phase_done STRELA_JOB_PHASE_EXEC
  end.
End Irq.

(** ** The simulated column copy *)
Section Bypass.
Context {A : abi}.

(** Word [i] of the buffer [o]. *)
Definition word (s : kst) (o : gem_obj) (i : Z) : Z :=
  default 0 (k_ram s !! (o_vaddr o + i * STRELA_WORD_SIZE)).

(** The copy loop, when source and destination do not overlap: output word [k]
    is input word [k * stride], and no other memory changes. *)
Lemma bypass_copy_ok io oo ioff ooff st n s :
  0 <= n -> 0 <= ioff -> 0 <= ooff -> 0 <= st -> n * Z.max st 1 < 2 ^ 32 ->
  (ioff + n * Z.max st 1) * STRELA_WORD_SIZE <= o_size io -> (ooff + n) * STRELA_WORD_SIZE <= o_size oo ->
  (forall i k, 0 <= i < n -> 0 <= k < n ->
     o_vaddr io + (ioff + i * st) * STRELA_WORD_SIZE <> o_vaddr oo + (ooff + k) * STRELA_WORD_SIZE) ->
  exists s', bypass_copy io oo ioff ooff st n s = Ok (tt, s')
    /\ k_log s' = k_log s /\ k_dev s' = k_dev s /\ k_jobs s' = k_jobs s
    /\ (forall k, 0 <= k < n -> word s' oo (ooff + k) = word s io (ioff + k * st))
    /\ (forall a, (forall k, 0 <= k < n -> a <> o_vaddr oo + (ooff + k) * STRELA_WORD_SIZE) ->
          k_ram s' !! a = k_ram s !! a).
Proof.
  intros Hn Hio Hoo Hst Hov Hfi Hfo Hdis. unfold bypass_copy, STRELA_WORD_SIZE in *.
  destruct (for_ok (St := kst) (fun i _ => let! v := obj_word io (ioff + u32 (i * st)) in
    set_obj_word oo (ooff + i) v) (fun i _ s' =>
    k_log s' = k_log s /\ k_dev s' = k_dev s /\ k_jobs s' = k_jobs s
    /\ (forall k, 0 <= k < i -> word s' oo (ooff + k) = word s io (ioff + k * st))
    /\ (forall a, (forall k, 0 <= k < i -> a <> o_vaddr oo + (ooff + k) * 4) ->
          k_ram s' !! a = k_ram s !! a)) n tt s Hn) as ([] & s' & He & H).
  - intros i [] s1 Hi (H1 & H2 & H3 & H4 & H5).
    assert (Hbnd : 0 <= i * st /\ i * st <= i * Z.max st 1 /\ i * Z.max st 1 + Z.max st 1 <= n * Z.max st 1) by nia.
    unfold obj_word, set_obj_word, STRELA_WORD_SIZE, mbind_, get_. rewrite (wrap_small 32 (i * st)) by lia.
    replace ((0 <=? ioff + i * st) && ((ioff + i * st + 1) * 4 <=? o_size io)) with true by lia.
    unfold mret_. replace ((0 <=? ooff + i) && ((ooff + i + 1) * 4 <=? o_size oo)) with true by lia.
    do 2 eexists. split; [done|]. cbn. split_and!; try done.
    + intros k Hk. unfold word, STRELA_WORD_SIZE in *. cbn. destruct (decide (k = i)) as [->|Hne].
      * rewrite lookup_insert_eq. cbn. f_equal. apply H5. intros k Hk'. apply Hdis; lia.
      * rewrite lookup_insert_ne by lia. apply H4. lia.
    + intros a Ha. rewrite lookup_insert_ne by (specialize (Ha i); lia). apply H5.
      intros k Hk'. apply Ha. lia.
  - split_and!; try done. intros k Hk. lia.
  - exists s'. done.
Qed.

(** The kernel mappings of two buffers do not overlap. *)
Definition obj_apart (o o' : gem_obj) : Prop :=
  o_vaddr o + o_size o <= o_vaddr o' \/ o_vaddr o' + o_size o' <= o_vaddr o.

(** Word [i] that an input or output column moves, through the kernel mapping. *)
Definition col_addr (o : gem_obj) (b : strela_binding) (st i : Z) : Z :=
  o_vaddr o + (b_offset b + i * st) * STRELA_WORD_SIZE.

(** One column whose words do not overlap; the buffers may be the same. *)
Lemma sim_column_ok in_ st out s io oo :
  binding_good in_ st -> binding_good out 1 ->
  b_obj in_ = Some io -> b_obj out = Some oo -> o_vaddr io <> 0 -> o_vaddr oo <> 0 ->
  (forall i k, 0 <= i < b_count in_ -> 0 <= k < b_count out -> col_addr io in_ st i <> col_addr oo out 1 k) ->
  exists s', strela_sim_bypass_column in_ st out s = Ok (b_count out <=? b_count in_, s')
    /\ (forall k, 0 <= k < Z.min (b_count in_) (b_count out) ->
          word s' oo (b_offset out + k) = word s io (b_offset in_ + k * st))
    /\ (forall a, (forall k, 0 <= k < b_count out -> a <> col_addr oo out 1 k) -> k_ram s' !! a = k_ram s !! a)
    /\ k_dev s' = k_dev s /\ k_jobs s' = k_jobs s
    /\ (k_log s' = k_log s \/ exists a l a' l',
          k_log s' = VCall (dma_sync_single_for_device a' l' DMA_TO_DEVICE)
                     :: VCall (dma_sync_single_for_cpu a l DMA_FROM_DEVICE) :: k_log s).
Proof.
  intros Hgi Hgo Hio Hoo Hvi Hvo Hap.
  destruct (binding_good_addr _ _ Hgi) as [Hai _]. destruct (binding_good_addr _ _ Hgo) as [Hao _].
  destruct Hgi as (io' & Hio' & _ & Hf1 & Hc1 & Hs1 & (Hsp1 & _ & Hfit1)).
  destruct Hgo as (oo' & Hoo' & _ & Hf2 & Hc2 & _ & (Hsp2 & _ & Hfit2)).
  rewrite Hio in Hio'. injection Hio' as <-. rewrite Hoo in Hoo'. injection Hoo' as <-.
  unfold is_u, span, STRELA_MAX_COLUMN_BYTES in *. unfold strela_sim_bypass_column.
  set (n := Z.min (b_count in_) (b_count out)). destruct (Z.eqb_spec n 0) as [E0|Hne].
  { exists s. split_and!; try done; [intros k Hk; lia|by left]. }
  unfold binding_obj. rewrite Hio, Hoo, !mbind_ret.
  rewrite (proj2 (Z.eqb_neq _ _) Hvi), (proj2 (Z.eqb_neq _ _) Hvo).
  rewrite (mbind_Ok (warn_on _) _ s false s) by done. rewrite (mbind_Ok _ _ _ _ _ (Hai _)).
  rewrite (mbind_Ok (vcall_ _) _ _ tt _ eq_refl). set (s1 := set_log s _).
  assert (0 <= n * Z.max st 1 <= b_count in_ * Z.max st 1) by (unfold STRELA_WORD_SIZE in *; nia).
  unfold col_addr in *.
  destruct (bypass_copy_ok io oo (b_offset in_) (b_offset out) st n s1)
    as (s2 & He & Hl & Hd & Hj & Hw & Hr); unfold STRELA_WORD_SIZE in *; try lia.
  { intros i k Hi Hk. specialize (Hap i k ltac:(lia) ltac:(lia)). lia. }
  rewrite (mbind_Ok _ _ _ _ _ He), (mbind_Ok _ _ _ _ _ (Hao _)),
    (mbind_Ok (vcall_ _) _ _ tt _ eq_refl).
  eexists. split; [done|]. split_and!; try done.
  - intros a Ha. apply Hr. intros k Hk. specialize (Ha k ltac:(lia)). lia.
  - right. cbn [k_log set_log]. rewrite Hl. unfold s1. cbn [k_log set_log]. eauto.
Qed.

(** The simulated device copies. For an input and an output that passed the
    submit check, on different buffers, [strela_sim_bypass_column] stays inside
    both buffers, copies as many words as both counts allow with the input's
    stride (a stride of 0 repeats one word), changes no other memory, and
    returns whether the output got all its words. *)
Theorem sim_column_copies in_ st out s io oo :
  binding_good in_ st -> binding_good out 1 ->
  b_obj in_ = Some io -> b_obj out = Some oo ->
  o_vaddr io <> 0 -> o_vaddr oo <> 0 -> obj_apart io oo ->
  exists s', strela_sim_bypass_column in_ st out s = Ok (b_count out <=? b_count in_, s')
    /\ (forall k, 0 <= k < Z.min (b_count in_) (b_count out) ->
          word s' oo (b_offset out + k) = word s io (b_offset in_ + k * st))
    /\ (forall a, (forall k, 0 <= k < b_count out -> a <> o_vaddr oo + (b_offset out + k) * STRELA_WORD_SIZE) ->
          k_ram s' !! a = k_ram s !! a)
    /\ k_dev s' = k_dev s /\ k_jobs s' = k_jobs s.
Proof.
  intros Hgi Hgo Hio Hoo Hvi Hvo Hap.
  destruct (sim_column_ok in_ st out s io oo Hgi Hgo Hio Hoo Hvi Hvo) as (s' & He & Hw & Hr & Hd & Hj & _).
  - destruct Hgi as (io' & Hio' & _ & Hf1 & Hc1 & Hs1 & (_ & _ & Hfit1)).
    destruct Hgo as (oo' & Hoo' & _ & Hf2 & Hc2 & _ & (_ & _ & Hfit2)).
    rewrite Hio in Hio'. injection Hio' as <-. rewrite Hoo in Hoo'. injection Hoo' as <-.
    unfold is_u, span, obj_apart, col_addr, STRELA_WORD_SIZE in *. intros i k Hi Hk.
    assert (0 <= i * st /\ i * st + 1 <= b_count in_ * Z.max st 1) by nia. lia.
  - exists s'. split_and!; try done. intros a Ha. apply Hr. intros k Hk. unfold col_addr. rewrite Z.mul_1_r. by apply Ha.
Qed.
End Bypass.

Lemma sim_column_copies_witness :
  exists s', strela_sim_bypass_column (A := ARMv7) bind64 3
               (mkBinding (Some (mkObj 2 64 0x2000 0x9000 false)) 1 4) hw_state = Ok (true, s').
Proof.
  assert (Hg : binding_good (mkBinding (Some (mkObj 2 64 0x2000 0x9000 false)) 1 4) 1).
  { eexists. split; [reflexivity|]. by vm_compute. }
  destruct (sim_column_copies (A := ARMv7) bind64 3 (mkBinding (Some (mkObj 2 64 0x2000 0x9000 false)) 1 4)
    hw_state obj64 (mkObj 2 64 0x2000 0x9000 false) (bind64_good 3 ltac:(lia)) Hg eq_refl eq_refl
    ltac:(by vm_compute) ltac:(by vm_compute) ltac:(left; by vm_compute)) as (s' & He & _).
  exists s'. exact He.
Defined.
