(* ===== verification/DrvMachine.v ===== *)
(** * Jobs on the device: every interleaving

    The scheduler, the interrupt, its thread and the timeout run concurrently;
    what each does under the device's lock is one step. The scheduler is known
    only by what drm_sched documents for one run-queue with one credit: a job is
    run when none is pending, a pending job ends when its fence signals or when
    a timeout has been handled, and a job is freed after that. Which of the
    queued jobs runs next is up to the scheduler: every client has a queue of
    its own, and a job may wait for another fence. A timeout fires for the
    pending job, and its handler comes later: by then that job may have
    completed and the next one may be running. Within this, the steps come in
    any order, and the hardware raises any interrupts. *)
From S2P Require Export DrvIrq.

(** ** Observations on a log *)

(** How often the fence [f] was signalled since it was initialised (its memory
    may have been another fence's before). *)
Fixpoint signals (f : Z) (l : list event) : Z :=
  match l with
  | [] => 0
  | VCall (dma_fence_init f' _ _) :: l => if f' =? f then 0 else signals f l
  | VCall (dma_fence_signal f') :: l => one (f' =? f) + signals f l
  | _ :: l => signals f l
  end.

Lemma signals_nonneg f l : 0 <= signals f l.
Proof.
  induction l as [|e l IH]; cbn; [lia|]. destruct e as [| | | | | |c]; try done. destruct c; try done.
  - by destruct (_ =? f).
  - unfold one. by destruct (_ =? f); lia.
Qed.

(** Did a drm_WARN_ON fire? *)
Fixpoint warned (l : list event) : bool :=
  match l with
  | [] => false
  | VCall drm_WARN_ON :: _ => true
  | _ :: l => warned l
  end.

(** What the control register was told: nothing is loaded, a configuration is
    loading or loaded, a kernel is executing; [HBad] if it was ever told to
    execute without a configuration loaded for that execution. *)
Variant hw := HIdle | HConfig | HExec | HBad.

#[export] Instance hw_eq_dec : EqDecision hw.
Proof. solve_decision. Defined.

Definition hw_next (e : event) (h : hw) : hw :=
  match e with
  | Writel v r =>
      if negb (r =? STRELA_REG_CTRL) then h else
      match h with
      | HBad => HBad
      | _ => if v =? STRELA_CMD_LOAD_CONFIG then HConfig
             else if v =? STRELA_CMD_START_EXEC then match h with HConfig => HExec | _ => HBad end
             else if v =? STRELA_CMD_CLEAR_CONFIG then HIdle
             else h
      end
  | _ => h
  end.

Fixpoint hw_of (l : list event) : hw :=
  match l with
  | [] => HIdle
  | e :: l => hw_next e (hw_of l)
  end.

(** ** The machine *)
Record machine := mkMach {
  m_k : kst;
  m_queue : list Z;            (* pushed and waiting *)
  m_pending : option Z;        (* the job the scheduler waits for *)
  m_stopping : bool;           (* a timeout is being handled, the scheduler stopped *)
  m_irq : bool;                (* the interrupt thread was woken *)
  m_retired : list Z;          (* ended, not yet freed *)
  m_fired : option Z           (* the job whose timeout fired, handler yet to come *)
}.

(** Reduce the projections of an explicit machine, and nothing else. *)
Ltac mcbn :=
  cbn [m_k m_queue m_pending m_stopping m_irq m_retired m_fired k_dev k_jobs k_log k_ram set_log set_jobs
       set_dev sd_active sd_is_sim dev_set_active dev_set_irq_status option_list].

Section Machine.
Context {A : abi}.

(** The two locked parts of handling a timeout: the job is taken off the
    device, then the device is reset and the scheduler restarted. *)
Definition timeout_begin (job : Z) : M kst unit :=
  do! get_job job in
  do! vcall_ (drm_sched_stop job) in
  update_dev (fun d => dev_set_active d 0).

Definition timeout_end : M kst unit :=
  do! strela_hw_stop in
  vcall_ drm_sched_start.

Lemma timedout_split job s :
  strela_timedout_job job s = (do! timeout_begin job in timeout_end) s.
Proof.
  unfold strela_timedout_job, timeout_begin, timeout_end, strela_job_abort, mbind_.
  by destruct (get_job job s) as [[]|].
Qed.

Inductive step : machine -> machine -> Prop :=
| step_run k k' job q1 q2 irq ret fi f :
    strela_run_job job k = Ok (f, k') ->
    step (mkMach k (q1 ++ job :: q2) None false irq ret fi)
         (mkMach k' (q1 ++ q2) (Some job) false irq ret fi)
| step_irq {E : Env} k k' q p st ret fi r :
    strela_irq_handler k = Ok (r, k') ->
    step (mkMach k q p st false ret fi)
         (mkMach k' q p st (match r with IRQ_WAKE_THREAD => true | _ => false end) ret fi)
| step_thread k k' q p st ret fi r :
    strela_irq_thread_fn k = Ok (r, k') ->
    step (mkMach k q p st true ret fi) (mkMach k' q p st false ret fi)
| step_retire k job j q irq ret fi :
    k_jobs k !! job = Some j -> 0 < signals (j_hw_fence j) (k_log k) ->
    step (mkMach k q (Some job) false irq ret fi) (mkMach k q None false irq (job :: ret) fi)
| step_fire k job q irq ret :
    step (mkMach k q (Some job) false irq ret None) (mkMach k q (Some job) false irq ret (Some job))
| step_timeout k k' job q p irq ret :
    timeout_begin job k = Ok (tt, k') ->
    step (mkMach k q p false irq ret (Some job)) (mkMach k' q p true irq ret None)
| step_reset k k' q p irq ret :
    timeout_end k = Ok (tt, k') ->
    step (mkMach k q p true irq ret None) (mkMach k' q None false irq (option_list p ++ ret) None)
| step_free k k' job q p st irq ret1 ret2 fi :
    strela_free_job job k = Ok (tt, k') -> fi <> Some job ->
    step (mkMach k q p st irq (ret1 ++ job :: ret2) fi) (mkMach k' q p st irq (ret1 ++ ret2) fi).

(** The jobs that exist. *)
Definition all_jobs (m : machine) : list Z :=
  m_queue m ++ option_list (m_pending m) ++ m_retired m.

(** ** The invariant *)
Record minv (m : machine) : Prop := {
  mi_sim : sd_is_sim (k_dev (m_k m)) = false;
  mi_jobs : forall p, p ∈ all_jobs m -> p <> 0 /\ exists j, k_jobs (m_k m) !! p = Some j /\ job_good j;
  mi_nodup : NoDup (all_jobs m);
  mi_fences : forall p q jp jq, k_jobs (m_k m) !! p = Some jp -> k_jobs (m_k m) !! q = Some jq ->
                j_hw_fence jp = j_hw_fence jq -> p = q;
  mi_fired : forall p, m_fired m = Some p ->
               m_stopping m = false /\ p ∈ option_list (m_pending m) ++ m_retired m;
  mi_active : sd_active (k_dev (m_k m)) = 0
              \/ (m_stopping m = false /\ m_pending m = Some (sd_active (k_dev (m_k m))));
  mi_once : forall f, signals f (k_log (m_k m)) <= 1;
  mi_queue : forall p j, p ∈ m_queue m -> k_jobs (m_k m) !! p = Some j ->
               signals (j_hw_fence j) (k_log (m_k m)) = 0;
  mi_running : forall p j, m_pending m = Some p -> m_stopping m = false -> k_jobs (m_k m) !! p = Some j ->
                 (sd_active (k_dev (m_k m)) = p /\ signals (j_hw_fence j) (k_log (m_k m)) = 0
                  /\ hw_of (k_log (m_k m)) = match j_phase j with
                                              | STRELA_JOB_PHASE_CONFIG => HConfig
                                              | STRELA_JOB_PHASE_EXEC => HExec
                                              end)
                 \/ (sd_active (k_dev (m_k m)) = 0 /\ signals (j_hw_fence j) (k_log (m_k m)) = 1);
  mi_warn : warned (k_log (m_k m)) = false;
  mi_hw : hw_of (k_log (m_k m)) <> HBad
}.

(** ** Register writes and the observations *)
Lemma signals_writes f ws l : signals f (log_writes ws l) = signals f l.
Proof.
  induction ws as [|w ws IH] using rev_ind; [done|]. rewrite log_writes_app. cbn. done.
Qed.

Lemma warned_writes ws l : warned (log_writes ws l) = warned l.
Proof.
  induction ws as [|w ws IH] using rev_ind; [done|]. rewrite log_writes_app. cbn. done.
Qed.

Lemma hw_writes ws l :
  Forall (fun w => w.1 <> STRELA_REG_CTRL) ws -> hw_of (log_writes ws l) = hw_of l.
Proof.
  induction ws as [|w ws IH] using rev_ind; [done|]. intros [H1 H2]%Forall_app.
  apply Forall_cons in H2 as [H2 _]. rewrite log_writes_app. cbn.
  rewrite (proj2 (Z.eqb_neq _ _) H2). cbn. by apply IH.
Qed.

Lemma columns_writes_regs i inps sts outs :
  0 <= i -> Forall (fun w => w.1 <> STRELA_REG_CTRL) (columns_writes i inps sts outs).
Proof.
  revert i sts outs. induction inps as [|inp inps IH]; intros i [|st sts] [|out outs] Hi; cbn; try constructor.
  all: unfold STRELA_REG_INP_ADDR, STRELA_REG_INP_SIZE, STRELA_REG_OUT_ADDR, STRELA_REG_OUT_SIZE,
    STRELA_REG_CTRL; cbn; try lia.
  do 3 (constructor; [cbn; lia|]). apply IH. lia.
Qed.

Lemma job_writes_regs j : Forall (fun w => w.1 <> STRELA_REG_CTRL) (job_writes j).
Proof.
  unfold job_writes. apply Forall_app. split; [repeat constructor; done|].
  apply Forall_app. split; [by apply columns_writes_regs|repeat constructor; done].
Qed.

(** ** What the steps do *)
Lemma job_good_phase j ph : job_good j -> job_good (set_phase j ph).
Proof. by intros [H1 H2 H3 H4]. Qed.

(** The log of starting job [j], whose fence is [f], on idle hardware. *)
Definition run_log (j : strela_job) (l : list event) : list event :=
  VCall (dma_fence_get (j_hw_fence j))
  :: Writel STRELA_CMD_LOAD_CONFIG STRELA_REG_CTRL
  :: Writel STRELA_RESET_DMA_PULSE STRELA_REG_RESET_DMA
  :: Writel STRELA_CMD_CLEAR_CONFIG STRELA_REG_CTRL
  :: log_writes (job_writes j) l.

Lemma run_job_ok job j k :
  k_jobs k !! job = Some j -> job_good j -> sd_is_sim (k_dev k) = false -> sd_active (k_dev k) = 0 ->
  strela_run_job job k
  = Ok (j_hw_fence j, mkK (run_log j (k_log k)) (dev_set_active (k_dev k) job)
          (<[job := set_phase j STRELA_JOB_PHASE_CONFIG]> (k_jobs k)) (k_ram k)).
Proof.
  intros Hj Hg Hsim Hact. unfold strela_run_job.
  rewrite (mbind_Ok get_dev _ _ (k_dev k) k eq_refl), Hact.
  rewrite (mbind_Ok (warn_on _) _ k false k) by done.
  rewrite (mbind_Ok _ _ _ _ _ (update_job_Ok _ _ _ _ Hj)).
  rewrite (mbind_Ok (update_dev _) _ _ tt _ eq_refl).
  erewrite (mbind_Ok (get_job _)) by (apply get_job_Ok; cbn; apply lookup_insert_eq).
  erewrite (mbind_Ok (strela_hw_program _))
    by (apply hw_program_ok; [by apply job_good_phase|exact Hsim]).
  unfold strela_hw_start. cbn [k_log k_dev set_log set_jobs set_dev].
  unfold mbind_ at 1. unfold mbind_ at 1. cbn. rewrite Hsim. done.
Qed.

Lemma run_log_obs j l :
  (forall f, signals f (run_log j l) = signals f l) /\ warned (run_log j l) = warned l
  /\ (hw_of l <> HBad -> hw_of (run_log j l) = HConfig).
Proof.
  unfold run_log. cbn [signals warned hw_of]. rewrite warned_writes. split_and!; [|done|].
  - intros f. by rewrite signals_writes.
  - intros H. rewrite hw_writes by apply job_writes_regs. cbn. by destruct (hw_of l).
Qed.

(** The four outcomes of [strela_job_phase_done] on real hardware. *)
Definition phase_done_result (ph : strela_job_phase) (k : kst) : kst :=
  match k_jobs k !! sd_active (k_dev k) with
  | Some j =>
      if bool_decide (sd_active (k_dev k) <> 0 /\ j_phase j = ph) then
        match ph with
        | STRELA_JOB_PHASE_CONFIG =>
            mkK (Writel STRELA_CMD_START_EXEC STRELA_REG_CTRL
                 :: Writel STRELA_CMD_CLEAR_STATE STRELA_REG_CTRL :: k_log k) (k_dev k)
                (<[sd_active (k_dev k) := set_phase j STRELA_JOB_PHASE_EXEC]> (k_jobs k)) (k_ram k)
        | STRELA_JOB_PHASE_EXEC =>
            mkK (VCall (dma_fence_signal (j_hw_fence j)) :: k_log k) (dev_set_active (k_dev k) 0)
                (k_jobs k) (k_ram k)
        end
      else k
  | None => k
  end.

Lemma phase_done_ok ph k :
  sd_is_sim (k_dev k) = false ->
  sd_active (k_dev k) = 0 \/ is_Some (k_jobs k !! sd_active (k_dev k)) ->
  strela_job_phase_done ph k = Ok (tt, phase_done_result ph k).
Proof.
  intros Hsim Hact. unfold strela_job_phase_done, phase_done_result.
  rewrite (mbind_Ok get_dev _ _ (k_dev k) k eq_refl).
  destruct (Z.eqb_spec (sd_active (k_dev k)) 0) as [E0|Hne].
  { destruct (k_jobs k !! _); [|done]. rewrite bool_decide_eq_false_2 by tauto. done. }
  destruct Hact as [?|[j Hj]]; [done|]. rewrite Hj, (mbind_Ok _ _ _ _ _ (get_job_Ok _ _ _ Hj)).
  destruct (decide (j_phase j = ph)) as [Hp|Hp].
  - rewrite (bool_decide_eq_true_2 (_ = _)) by done. rewrite bool_decide_eq_true_2 by done. cbn [negb].
    destruct ph; [|done]. rewrite (mbind_Ok _ _ _ _ _ (update_job_Ok _ _ _ _ Hj)).
    unfold strela_hw_start, mbind_ at 1. cbn. by rewrite Hsim.
  - rewrite (bool_decide_eq_false_2 (_ = _)) by done. rewrite bool_decide_eq_false_2 by tauto. done.
Qed.

(** The thread clears the status and reports the phase it found there, if any. *)
Definition thread_start (k : kst) : kst := set_dev k (dev_set_irq_status (k_dev k) 0).

Lemma irq_thread_cases k :
  sd_is_sim (k_dev k) = false ->
  sd_active (k_dev k) = 0 \/ is_Some (k_jobs k !! sd_active (k_dev k)) ->
  exists r k', strela_irq_thread_fn k = Ok (r, k')
    /\ (k' = thread_start k \/ exists ph, k' = phase_done_result ph (thread_start k)).
Proof.
  intros Hsim Hact. unfold strela_irq_thread_fn.
  rewrite (mbind_Ok get_dev _ _ (k_dev k) _ eq_refl), (mbind_Ok (update_dev _) _ _ tt _ eq_refl).
  fold (thread_start k).
  assert (Hpd : forall ph, strela_job_phase_done ph (thread_start k)
                           = Ok (tt, phase_done_result ph (thread_start k))).
  { intros ph. by apply phase_done_ok. }
  repeat case_match; [rewrite (mbind_Ok _ _ _ _ _ (Hpd _))..|]; eauto 10.
Qed.

(** The handler only logs and stores the status. *)
Lemma irq_handler_ok {E : Env} k :
  exists r k', strela_irq_handler k = Ok (r, k')
    /\ k_jobs k' = k_jobs k /\ sd_is_sim (k_dev k') = sd_is_sim (k_dev k)
    /\ sd_active (k_dev k') = sd_active (k_dev k)
    /\ (forall f, signals f (k_log k') = signals f (k_log k)) /\ warned (k_log k') = warned (k_log k)
    /\ hw_of (k_log k') = hw_of (k_log k).
Proof.
  unfold strela_irq_handler, readl, mbind_, get_, emit, modify_, update_dev, writel. cbn.
  set (v := u32 (env_readl (k_log k) STRELA_REG_CTRL)).
  repeat break_if; do 2 eexists; (split; [done|]); cbn; split_and!; try done; by destruct (hw_of (k_log k)).
Qed.

Lemma hw_stop_ok k :
  sd_is_sim (k_dev k) = false -> sd_active (k_dev k) = 0 ->
  timeout_end k = Ok (tt, set_log k (VCall drm_sched_start
    :: Writel STRELA_CMD_CLEAR_STATE STRELA_REG_CTRL
    :: Writel STRELA_RESET_DMA_PULSE STRELA_REG_RESET_DMA
    :: Writel STRELA_CMD_CLEAR_CONFIG STRELA_REG_CTRL :: k_log k)).
Proof.
  intros Hsim Hact. unfold timeout_end, strela_hw_stop, mbind_, get_dev, mbind_, get_. cbn.
  by rewrite Hact, Hsim.
Qed.

(** ** Preservation *)

(** Facts about the jobs that survive a change of one job's phase. *)
Lemma phase_update_jobs (jobs : gmap Z strela_job) a ja ph p j :
  jobs !! a = Some ja -> <[a := set_phase ja ph]> jobs !! p = Some j ->
  exists j0, jobs !! p = Some j0 /\ j_hw_fence j = j_hw_fence j0 /\ (job_good j0 -> job_good j)
             /\ (p <> a -> j = j0).
Proof.
  intros Ha Hp. destruct (decide (p = a)) as [->|Hne].
  - rewrite lookup_insert_eq in Hp. simplify_eq. exists ja. split_and!; try done. apply job_good_phase.
  - rewrite lookup_insert_ne in Hp by done. by exists j.
Qed.

Lemma phase_update_jobs_fwd (jobs : gmap Z strela_job) a ja ph p j :
  jobs !! a = Some ja -> jobs !! p = Some j -> job_good j ->
  exists j', <[a := set_phase ja ph]> jobs !! p = Some j' /\ job_good j'.
Proof.
  intros Ha Hp Hg. destruct (decide (p = a)) as [->|Hne].
  - simplify_eq. rewrite lookup_insert_eq. eexists. split; [done|]. by apply job_good_phase.
  - rewrite lookup_insert_ne by done. eauto.
Qed.

Lemma fences_phase (jobs : gmap Z strela_job) a ja ph :
  jobs !! a = Some ja ->
  (forall p q jp jq, jobs !! p = Some jp -> jobs !! q = Some jq -> j_hw_fence jp = j_hw_fence jq -> p = q) ->
  forall p q jp jq, <[a := set_phase ja ph]> jobs !! p = Some jp -> <[a := set_phase ja ph]> jobs !! q = Some jq ->
    j_hw_fence jp = j_hw_fence jq -> p = q.
Proof.
  intros Ha H p q jp jq Hp Hq Hf.
  destruct (phase_update_jobs _ _ _ _ _ _ Ha Hp) as (j1 & H1 & E1 & _).
  destruct (phase_update_jobs _ _ _ _ _ _ Ha Hq) as (j2 & H2 & E2 & _).
  eapply H; [exact H1|exact H2|congruence].
Qed.

Lemma step_run_inv k k' job q1 q2 irq ret fi f :
  minv (mkMach k (q1 ++ job :: q2) None false irq ret fi) -> strela_run_job job k = Ok (f, k') ->
  minv (mkMach k' (q1 ++ q2) (Some job) false irq ret fi).
Proof.
  intros [Hsim Hjobs Hnd Hfen Hfi Hact Honce Hq Hrun Hw Hhw] He.
  cbn in Hsim, Hjobs, Hnd, Hfen, Hfi, Hact, Honce, Hq, Hrun, Hw, Hhw.
  assert (Ha0 : sd_active (k_dev k) = 0) by (by destruct Hact as [|[_ ?]]).
  destruct (Hjobs job) as (Hj0 & j & Hj & Hg); [set_solver|].
  rewrite (run_job_ok job j k Hj Hg Hsim Ha0) in He. injection He as _ <-.
  destruct (run_log_obs j (k_log k)) as (Os & Ow & Oh).
  assert (HP : (q1 ++ job :: q2) ++ ret ≡ₚ (q1 ++ q2) ++ job :: ret) by solve_Permutation.
  split; mcbn; try done.
  - intros p Hp. destruct (Hjobs p) as (Hp0 & jp & Hjp & Hgp); [cbn in *; set_solver|].
    split; [done|]. by eapply phase_update_jobs_fwd.
  - unfold all_jobs in *. mcbn. cbn [app] in *. by rewrite <- HP.
  - by eapply fences_phase.
  - intros p Hp. destruct (Hfi p Hp). split; [done|]. set_solver.
  - by right.
  - intros g. by rewrite Os.
  - intros p jp Hp Hjp. destruct (phase_update_jobs _ _ _ _ _ _ Hj Hjp) as (j0 & H0 & -> & _).
    rewrite Os. eapply Hq; [|exact H0]. set_solver.
  - intros p jp [= <-] _ Hjp. rewrite lookup_insert_eq in Hjp. simplify_eq. left. cbn [j_phase j_hw_fence set_phase].
    rewrite Os. split_and!; [done|eapply Hq; [|done]; set_solver|by apply Oh].
  - by rewrite Ow.
  - by rewrite Oh.
Qed.

(** A state that differs only in what the invariant does not look at. *)
Lemma minv_same k k' q p st irq irq' ret fi :
  k_jobs k' = k_jobs k -> sd_is_sim (k_dev k') = sd_is_sim (k_dev k) ->
  sd_active (k_dev k') = sd_active (k_dev k) ->
  (forall f, signals f (k_log k') = signals f (k_log k)) -> warned (k_log k') = warned (k_log k) ->
  hw_of (k_log k') = hw_of (k_log k) ->
  minv (mkMach k q p st irq ret fi) -> minv (mkMach k' q p st irq' ret fi).
Proof.
  intros E1 E2 E3 E4 E5 E6 [Hsim Hjobs Hnd Hfen Hfi Hact Honce Hq Hrun Hw Hhw].
  split; mcbn; rewrite ?E1, ?E2, ?E3, ?E5, ?E6; try done.
  - intros f. rewrite E4. apply Honce.
  - intros p0 j. rewrite E4. apply Hq.
  - intros p0 j. rewrite E4. apply Hrun.
Qed.

(** The running job is the pending one and exists. *)
Lemma minv_active_job m :
  minv m -> sd_active (k_dev (m_k m)) = 0 \/ is_Some (k_jobs (m_k m) !! sd_active (k_dev (m_k m))).
Proof.
  intros [_ Hjobs _ _ _ Hact _ _ _ _ _]. destruct Hact as [|[_ Hp]]; [by left|right].
  destruct (Hjobs (sd_active (k_dev (m_k m)))) as (_ & j & Hj & _); [|by exists j].
  unfold all_jobs. rewrite Hp. cbn. set_solver.
Qed.

Lemma phase_done_inv ph k q p st irq ret fi :
  minv (mkMach k q p st irq ret fi) -> minv (mkMach (phase_done_result ph k) q p st irq ret fi).
Proof.
  intros Hinv. pose proof Hinv as [Hsim Hjobs Hnd Hfen Hfi Hact Honce Hq Hrun Hw Hhw].
  cbn in Hsim, Hjobs, Hnd, Hfen, Hfi, Hact, Honce, Hq, Hrun, Hw, Hhw. unfold phase_done_result.
  destruct (k_jobs k !! sd_active (k_dev k)) as [j|] eqn:Hj; [|done].
  case_bool_decide as Hb; [|done]. destruct Hb as [Hne Hph].
  destruct Hact as [?|[Hst Hp]]; [done|]. subst st p.
  destruct (Hrun _ _ eq_refl eq_refl Hj) as [(_ & Hsig & Hhwj)|[? _]]; [|done]. rewrite Hph in Hhwj.
  destruct ph.
  - split; mcbn; try done.
    + intros p Hp. destruct (Hjobs p Hp) as (? & jp & Hjp & Hgp). split; [done|].
      by eapply phase_update_jobs_fwd.
    + by eapply fences_phase.
    + by right.
    + intros p jp Hpq Hjp. destruct (phase_update_jobs _ _ _ _ _ _ Hj Hjp) as (j0 & H0 & -> & _).
      by eapply Hq.
    + intros p jp [= <-] _ Hjp. rewrite lookup_insert_eq in Hjp. simplify_eq. left.
      split_and!; [done|exact Hsig|]. cbn. by rewrite Hhwj.
    + cbn. by rewrite Hhwj.
  - split; mcbn; try done.
    + by left.
    + intros f. cbn. specialize (Honce f). destruct (Z.eqb_spec (j_hw_fence j) f) as [E|]; cbn; [subst f|]; lia.
    + intros p jp Hpq Hjp. cbn. specialize (Hq p jp Hpq Hjp).
      destruct (Z.eqb_spec (j_hw_fence j) (j_hw_fence jp)) as [Hf|]; cbn; [|lia].
      exfalso. rewrite (Hfen _ _ _ _ Hj Hjp Hf) in *. apply NoDup_app in Hnd as (_ & Hnd & _).
      apply (Hnd _ Hpq). set_solver.
    + intros p jp [= <-] _ Hjp. rewrite Hj in Hjp. simplify_eq. right. split; [done|]. cbn.
      rewrite Z.eqb_refl, Hsig. done.
Qed.

Lemma step_thread_inv k k' q p st ret fi r :
  minv (mkMach k q p st true ret fi) -> strela_irq_thread_fn k = Ok (r, k') ->
  minv (mkMach k' q p st false ret fi).
Proof.
  intros Hinv He. assert (Hinv1 : minv (mkMach (thread_start k) q p st false ret fi)) by (by eapply (minv_same k)).
  destruct (irq_thread_cases k (mi_sim _ Hinv) (minv_active_job _ Hinv)) as (r1 & k1 & He1 & Hk).
  rewrite He1 in He. injection He as <- <-.
  destruct Hk as [->|[ph ->]]; [done|by apply phase_done_inv].
Qed.

Lemma step_retire_inv k job j q irq ret fi :
  minv (mkMach k q (Some job) false irq ret fi) ->
  k_jobs k !! job = Some j -> 0 < signals (j_hw_fence j) (k_log k) ->
  minv (mkMach k q None false irq (job :: ret) fi).
Proof.
  intros [Hsim Hjobs Hnd Hfen Hfi Hact Honce Hq Hrun Hw Hhw] Hj Hs.
  cbn in Hsim, Hjobs, Hnd, Hfen, Hfi, Hact, Honce, Hq, Hrun, Hw, Hhw.
  destruct (Hrun _ _ eq_refl eq_refl Hj) as [(_ & ? & _)|[Ha _]]; [lia|].
  split; mcbn; try done. by left.
Qed.

Lemma step_fire_inv k job q irq ret :
  minv (mkMach k q (Some job) false irq ret None) -> minv (mkMach k q (Some job) false irq ret (Some job)).
Proof.
  intros [Hsim Hjobs Hnd Hfen Hfi Hact Honce Hq Hrun Hw Hhw]. split; mcbn; try done.
  intros p [= <-]. split; [done|]. set_solver.
Qed.

(** What the first part of handling a timeout does. *)
Lemma timeout_begin_ok k job j :
  k_jobs k !! job = Some j ->
  timeout_begin job k = Ok (tt, mkK (VCall (drm_sched_stop job) :: k_log k) (dev_set_active (k_dev k) 0)
                                    (k_jobs k) (k_ram k)).
Proof. intros Hj. unfold timeout_begin. by rewrite (mbind_Ok _ _ _ _ _ (get_job_Ok _ _ _ Hj)). Qed.

(** The job whose timeout fired exists. *)
Lemma fired_job m job : minv m -> m_fired m = Some job -> exists j, k_jobs (m_k m) !! job = Some j.
Proof.
  intros Hinv Hf. destruct (mi_fired _ Hinv job Hf) as [_ Hin].
  destruct (mi_jobs _ Hinv job) as (_ & j & Hj & _); [unfold all_jobs; set_solver|eauto].
Qed.

Lemma step_timeout_inv k k' job q p irq ret :
  minv (mkMach k q p false irq ret (Some job)) -> timeout_begin job k = Ok (tt, k') ->
  minv (mkMach k' q p true irq ret None).
Proof.
  intros Hinv He. pose proof Hinv as [Hsim Hjobs Hnd Hfen Hfi Hact Honce Hq Hrun Hw Hhw].
  cbn in Hsim, Hjobs, Hnd, Hfen, Hfi, Hact, Honce, Hq, Hrun, Hw, Hhw.
  destruct (fired_job _ job Hinv eq_refl) as [j Hj]. cbn in Hj.
  rewrite (timeout_begin_ok _ _ _ Hj) in He.
  injection He as <-. split; mcbn; try done. by left.
Qed.

Lemma step_reset_inv k k' q p irq ret fi :
  minv (mkMach k q p true irq ret fi) -> timeout_end k = Ok (tt, k') ->
  minv (mkMach k' q None false irq (option_list p ++ ret) fi).
Proof.
  intros [Hsim Hjobs Hnd Hfen Hfi Hact Honce Hq Hrun Hw Hhw] He.
  cbn in Hsim, Hjobs, Hnd, Hfen, Hfi, Hact, Honce, Hq, Hrun, Hw, Hhw.
  assert (Ha : sd_active (k_dev k) = 0) by (by destruct Hact as [|[? _]]).
  rewrite (hw_stop_ok k Hsim Ha) in He. injection He as <-.
  split; mcbn; try done.
  - intros x Hx. destruct (Hfi x Hx). done.
  - by left.
  - cbn. by destruct (hw_of (k_log k)).
Qed.

Lemma released_obs l l' :
  released l l' -> (forall f, signals f l' = signals f l) /\ warned l' = warned l /\ hw_of l' = hw_of l.
Proof.
  intros (es & -> & Hes). induction Hes as [|e es He _ (IH1 & IH2 & IH3)]; cbn; [done|].
  destruct e as [| | | | | |c]; try done. by destruct c.
Qed.

Lemma step_free_inv k k' job q p st irq ret1 ret2 fi :
  minv (mkMach k q p st irq (ret1 ++ job :: ret2) fi) -> strela_free_job job k = Ok (tt, k') ->
  fi <> Some job -> minv (mkMach k' q p st irq (ret1 ++ ret2) fi).
Proof.
  intros [Hsim Hjobs Hnd Hfen Hfi Hact Honce Hq Hrun Hw Hhw] He Hne.
  cbn in Hsim, Hjobs, Hnd, Hfen, Hfi, Hact, Honce, Hq, Hrun, Hw, Hhw.
  destruct (Hjobs job) as (_ & j & Hj & Hg); [set_solver|].
  destruct (jg_cols _ Hg) as [L1 L2].
  destruct (free_job_ok job j k Hj L1 L2) as (k1 & He1 & Ej & Ed & Hrel & _).
  rewrite He1 in He. injection He as <-. destruct (released_obs _ _ Hrel) as (Os & Ow & Oh).
  assert (HP : (q ++ option_list p ++ ret1 ++ job :: ret2) ≡ₚ job :: (q ++ option_list p ++ ret1 ++ ret2)).
  { rewrite !app_assoc. symmetry. apply Permutation_middle. }
  rewrite HP in Hnd. apply NoDup_cons in Hnd as [Hn1 Hn2].
  assert (Hdel : forall x jx, k_jobs k1 !! x = Some jx -> k_jobs k !! x = Some jx).
  { intros x jx. rewrite Ej, lookup_delete_Some. tauto. }
  split; mcbn; rewrite ?Ed, ?Ow, ?Oh; try done.
  - unfold all_jobs; mcbn. intros x Hx. destruct (Hjobs x) as (Hx0 & jx & Hjx & Hgx).
    { rewrite HP. set_solver. }
    split; [done|]. exists jx. split; [|done]. rewrite Ej, lookup_delete_ne; [done|]. congruence.
  - intros x y jx jy Hx Hy. eapply Hfen; by apply Hdel.
  - intros x ->. destruct (Hfi x eq_refl) as [? Hx]. split; [done|].
    rewrite !elem_of_app, elem_of_cons in Hx. rewrite !elem_of_app. naive_solver.
  - intros f. by rewrite Os.
  - intros x jx Hx Hjx. rewrite Os. eapply Hq; [done|by apply Hdel].
  - intros x jx Hx Hst Hjx. rewrite Os. eapply Hrun; [done|done|by apply Hdel].
Qed.

Lemma step_inv m m' : minv m -> step m m' -> minv m'.
Proof.
  intros Hinv Hs. destruct Hs.
  - by eapply step_run_inv.
  - destruct (irq_handler_ok (E := E) k) as (r' & k1 & He & ? & ? & ? & ? & ? & ?).
    match goal with H : strela_irq_handler k = Ok (_, k') |- _ => rewrite He in H; injection H as -> -> end.
    by eapply (minv_same k).
  - by eapply step_thread_inv.
  - by eapply step_retire_inv.
  - by eapply step_fire_inv.
  - by eapply step_timeout_inv.
  - by eapply step_reset_inv.
  - by eapply step_free_inv.
Qed.

(** ** The machine never gets stuck in the driver's code *)
Lemma step_enabled m :
  minv m ->
  (forall job, m_pending m = None -> job ∈ m_queue m ->
     exists f k', strela_run_job job (m_k m) = Ok (f, k'))
  /\ (forall E : Env, exists r k', strela_irq_handler (E := E) (m_k m) = Ok (r, k'))
  /\ (exists r k', strela_irq_thread_fn (m_k m) = Ok (r, k'))
  /\ (forall job, m_fired m = Some job -> exists k', timeout_begin job (m_k m) = Ok (tt, k'))
  /\ (m_stopping m = true -> exists k', timeout_end (m_k m) = Ok (tt, k'))
  /\ (forall job, job ∈ m_retired m -> exists k', strela_free_job job (m_k m) = Ok (tt, k')).
Proof.
  intros Hinv. pose proof Hinv as [Hsim Hjobs Hnd Hfen Hfi Hact Honce Hq Hrun Hw Hhw]. split_and!.
  - intros job Hp Hin. destruct (Hjobs job) as (_ & j & Hj & Hg); [unfold all_jobs; set_solver|].
    destruct Hact as [Ha|[_ ?]]; [|congruence]. rewrite (run_job_ok job j _ Hj Hg Hsim Ha). eauto.
  - intros E. destruct (irq_handler_ok (E := E) (m_k m)) as (r & k' & He & _). eauto.
  - destruct (irq_thread_cases (m_k m) Hsim (minv_active_job _ Hinv)) as (r & k' & He & _). eauto.
  - intros job Hf. destruct (fired_job _ job Hinv Hf) as [j Hj]. rewrite (timeout_begin_ok _ _ _ Hj). eauto.
  - intros Hst. assert (Ha : sd_active (k_dev (m_k m)) = 0) by (destruct Hact as [|[? _]]; congruence).
    rewrite (hw_stop_ok _ Hsim Ha). eauto.
  - intros job Hr. destruct (Hjobs job) as (_ & j & Hj & Hg).
    { unfold all_jobs. set_solver. }
    destruct (jg_cols _ Hg) as [L1 L2].
    destruct (free_job_ok job j (m_k m) Hj L1 L2) as (k' & He & _). eauto.
Qed.

(** A batch of submitted jobs on an idle device. *)
Record batch (k : kst) (q : list Z) : Prop := {
  ba_sim : sd_is_sim (k_dev k) = false;
  ba_idle : sd_active (k_dev k) = 0;
  ba_nodup : NoDup q;
  ba_jobs : forall p, p ∈ q -> p <> 0 /\ exists j, k_jobs k !! p = Some j /\ job_good j
                                               /\ signals (j_hw_fence j) (k_log k) = 0;
  ba_fences : forall p q jp jq, k_jobs k !! p = Some jp -> k_jobs k !! q = Some jq ->
                j_hw_fence jp = j_hw_fence jq -> p = q;
  ba_log : warned (k_log k) = false /\ hw_of (k_log k) <> HBad /\ forall f, signals f (k_log k) <= 1
}.

Definition start_machine (k : kst) (q : list Z) : machine := mkMach k q None false false [] None.

Lemma batch_inv k q : batch k q -> minv (start_machine k q).
Proof.
  intros [Hsim Hidle Hnd Hjobs Hfen (Hw & Hhw & Honce)]. split; cbn; try done.
  - unfold all_jobs; cbn. rewrite app_nil_r. intros p Hp. destruct (Hjobs p Hp) as (? & j & ? & ? & _). eauto.
  - unfold all_jobs; cbn. by rewrite app_nil_r.
  - by left.
  - intros p j Hp Hj. destruct (Hjobs p Hp) as (_ & j' & Hj' & _ & Hs). congruence.
Qed.

Lemma reachable_inv k q m : batch k q -> rtc step (start_machine k q) m -> minv m.
Proof.
  intros Hb Hr. apply batch_inv in Hb. induction Hr as [|m1 m2 m3 Hs _ IH]; [done|].
  apply IH. by eapply step_inv.
Qed.

Lemma phase_done_signal ph f k q p st irq ret fi :
  minv (mkMach k q p st irq ret fi) ->
  signals f (k_log k) < signals f (k_log (phase_done_result ph (thread_start k))) ->
  hw_of (k_log k) = HExec
  /\ exists j, k_jobs k !! sd_active (k_dev k) = Some j /\ j_hw_fence j = f
              /\ j_phase j = STRELA_JOB_PHASE_EXEC.
Proof.
  intros Hinv Hlt. unfold phase_done_result in Hlt. cbn in Hlt.
  destruct (k_jobs k !! sd_active (k_dev k)) as [j|] eqn:Hj; [|cbn in Hlt; lia].
  case_bool_decide as Hb; [|cbn in Hlt; lia]. destruct Hb as [Hne Hph].
  destruct ph; cbn in Hlt; [lia|].
  destruct (Z.eqb_spec (j_hw_fence j) f) as [Hf|]; cbn in Hlt; [|lia].
  destruct Hinv as [_ _ _ _ _ Hact _ _ Hrun _ _]. cbn in Hact, Hrun.
  destruct Hact as [?|[-> ->]]; [done|].
  destruct (Hrun _ _ eq_refl eq_refl Hj) as [(_ & _ & Hh)|[? _]]; [|done].
  rewrite Hph in Hh. split; [done|]. by exists j.
Qed.

(** Which step can signal a fence. *)
Lemma step_signal m m' f :
  minv m -> step m m' -> signals f (k_log (m_k m)) < signals f (k_log (m_k m')) ->
  hw_of (k_log (m_k m)) = HExec
  /\ exists j, k_jobs (m_k m) !! sd_active (k_dev (m_k m)) = Some j /\ j_hw_fence j = f
              /\ j_phase j = STRELA_JOB_PHASE_EXEC.
Proof.
  intros Hinv Hs Hlt. destruct Hs; cbn in Hlt |- *; try lia.
  - exfalso. destruct Hinv as [Hsim Hjobs _ _ _ Hact _ _ _ _ _].
    cbn in Hsim, Hjobs, Hact. destruct (Hjobs job) as (_ & j & Hj & Hg); [set_solver|].
    destruct Hact as [Ha|[_ ?]]; [|done].
    match goal with H : strela_run_job _ _ = _ |- _ => rewrite (run_job_ok job j k Hj Hg Hsim Ha) in H;
      injection H as _ <- end.
    cbn [k_log] in Hlt. rewrite (proj1 (run_log_obs j (k_log k))) in Hlt. lia.
  - exfalso. destruct (irq_handler_ok (E := E) k) as (r' & k1 & He & _ & _ & _ & Hsig & _).
    match goal with H : strela_irq_handler k = Ok (_, k') |- _ => rewrite He in H; injection H as -> -> end.
    rewrite Hsig in Hlt. lia.
  - destruct (irq_thread_cases k (mi_sim _ Hinv) (minv_active_job _ Hinv)) as (r1 & k1 & He1 & Hk).
    match goal with H : strela_irq_thread_fn k = _ |- _ => rewrite He1 in H; injection H as <- <- end.
    destruct Hk as [->|[ph ->]]; [cbn in Hlt; lia|]. by eapply phase_done_signal.
  - exfalso. destruct (fired_job _ job Hinv eq_refl) as [j Hj]. cbn in Hj.
    match goal with H : timeout_begin _ _ = _ |- _ => rewrite (timeout_begin_ok _ _ _ Hj) in H; injection H as <- end.
    cbn in Hlt. lia.
  - exfalso. destruct Hinv as [Hsim _ _ _ _ Hact _ _ _ _ _]. cbn in Hsim, Hact.
    destruct Hact as [Ha|[? _]]; [|done].
    match goal with H : timeout_end _ = _ |- _ => rewrite (hw_stop_ok k Hsim Ha) in H; injection H as <- end.
    cbn in Hlt. lia.
  - exfalso. destruct Hinv as [_ Hjobs _ _ _ _ _ _ _ _ _]. cbn in Hjobs.
    destruct (Hjobs job) as (_ & j & Hj & Hg); [set_solver|]. destruct (jg_cols _ Hg) as [L1 L2].
    destruct (free_job_ok job j k Hj L1 L2) as (k1 & He1 & _ & _ & Hrel & _).
    match goal with H : strela_free_job _ _ = _ |- _ => rewrite He1 in H; injection H as <- end.
    rewrite (proj1 (released_obs _ _ Hrel)) in Hlt. lia.
Qed.

(** ** Properties *)

(** Safety of the device under every interleaving of scheduler, interrupts,
    interrupt thread, timeouts and frees: the driver never trips its own
    warnings (a second job is never put on a busy device, the device is never
    reset under a job), a fence is never signalled twice, the job on the device
    is the one the scheduler waits for, and the CGRA is never told to execute
    anything but the configuration that was loaded last, and that only once. *)
Theorem machine_safe k q m :
  batch k q -> rtc step (start_machine k q) m ->
  warned (k_log (m_k m)) = false
  /\ (forall f, signals f (k_log (m_k m)) <= 1)
  /\ (sd_active (k_dev (m_k m)) <> 0 -> m_pending m = Some (sd_active (k_dev (m_k m))))
  /\ hw_of (k_log (m_k m)) <> HBad.
Proof.
  intros Hb Hr. destruct (reachable_inv k q m Hb Hr) as [_ _ _ _ _ Hact Honce _ _ Hw Hhw].
  split_and!; try done. intros Ha. by destruct Hact as [|[_ ?]].
Qed.

End Machine.

(** ** Witnesses: two jobs on the board *)
Definition two_jobs : kst :=
  mkK [] (mkDev false 0 false 0 1 2) (<[100 := job64]> (<[101 := set_hw_fence job64 8]> ∅)) ∅.

Lemma two_jobs_batch : batch two_jobs [100; 101].
Proof.
  split; try done.
  - repeat constructor; set_solver.
  - intros p Hp. apply elem_of_cons in Hp as [->|Hp]; [|apply list_elem_of_singleton in Hp as ->].
    + split; [done|]. exists job64. split_and!; [done|apply job64_good|done].
    + split; [done|]. exists (set_hw_fence job64 8). split_and!; [done| |done].
      by destruct job64_good.
  - intros p q jp jq Hp Hq Hf. unfold two_jobs in *; cbn in *.
    apply lookup_insert_Some in Hp as [[<- <-]|[_ Hp]]; apply lookup_insert_Some in Hq as [[<- <-]|[_ Hq]];
      try apply lookup_insert_Some in Hp as [[<- <-]|[_ Hp]]; try apply lookup_insert_Some in Hq as [[<- <-]|[_ Hq]];
      done.
Qed.

(** Hardware whose control register reads [v]. *)
Definition env_status (v : Z) : Env := {|
  env_readl := fun _ _ => v;
  env_kzalloc := fun _ _ => 0;
  env_gem_lookup := fun _ _ => None;
  env_dma_alloc := fun _ _ => (0, 0);
  env_icall := fun _ _ => 0
|}.

(** The first job is configured, executed and about to be reported. *)
Lemma first_job_runs :
  exists m, rtc (step (A := ARMv7)) (start_machine two_jobs [100; 101]) m
    /\ m_irq m = true /\ sd_irq_status (k_dev (m_k m)) = STRELA_CMD_PENDING_INT_EXEC
    /\ k_jobs (m_k m) !! 100 = Some (set_phase job64 STRELA_JOB_PHASE_EXEC)
    /\ m_pending m = Some 100 /\ sd_active (k_dev (m_k m)) = 100 /\ sd_is_sim (k_dev (m_k m)) = false
    /\ m_stopping m = false.
Proof.
  eexists. split.
  { eapply rtc_l; [eapply (step_run _ _ _ []); vm_compute; reflexivity|].
    eapply rtc_l; [eapply (step_irq (E := env_status STRELA_CMD_PENDING_INT_CONFIG)); vm_compute; reflexivity|].
    eapply rtc_l; [eapply step_thread; vm_compute; reflexivity|].
    eapply rtc_l; [eapply (step_irq (E := env_status STRELA_CMD_PENDING_INT_EXEC)); vm_compute; reflexivity|].
    apply rtc_refl. }
  by vm_compute.
Qed.

Lemma machine_safe_witness :
  exists m, rtc (step (A := ARMv7)) (start_machine two_jobs [100; 101]) m
    /\ warned (k_log (m_k m)) = false /\ m_pending m = Some 100.
Proof.
  destruct first_job_runs as (m & Hr & _ & _ & _ & Hp & _). exists m. split; [exact Hr|].
  destruct (machine_safe (A := ARMv7) two_jobs [100; 101] m two_jobs_batch Hr) as (Hw & _).
  split; [exact Hw|exact Hp].
Defined.

(** A completion that is late enough is credited to the wrong job. The
    interrupt thread of a job that timed out can run after the next job was
    started; the driver only compares phases, so the next job is taken from its
    config to its exec phase although the hardware has not reported anything
    since its configuration began to load. *)
Theorem late_completion_credited :
  exists m l, rtc (step (A := ARMv7)) (start_machine two_jobs [100; 101]) m
    /\ m_pending m = Some 101 /\ (j_phase <$> k_jobs (m_k m) !! 101) = Some STRELA_JOB_PHASE_EXEC
    /\ k_log (m_k m) = [Writel STRELA_CMD_START_EXEC STRELA_REG_CTRL;
                        Writel STRELA_CMD_CLEAR_STATE STRELA_REG_CTRL;
                        VCall (dma_fence_get 8);
                        Writel STRELA_CMD_LOAD_CONFIG STRELA_REG_CTRL] ++ l.
Proof.
  do 2 eexists. split.
  { eapply rtc_l; [eapply (step_run _ _ _ []); vm_compute; reflexivity|].
    eapply rtc_l; [eapply (step_irq (E := env_status STRELA_CMD_PENDING_INT_CONFIG)); vm_compute; reflexivity|].
    eapply rtc_l; [apply step_fire|].
    eapply rtc_l; [eapply step_timeout; vm_compute; reflexivity|].
    eapply rtc_l; [eapply step_reset; vm_compute; reflexivity|].
    eapply rtc_l; [eapply (step_run _ _ _ []); vm_compute; reflexivity|].
    eapply rtc_l; [eapply step_thread; vm_compute; reflexivity|].
    apply rtc_refl. }
  split; [reflexivity|]. split; [reflexivity|]. reflexivity.
Qed.

(** A photo finish costs the next job, and nothing else: the timeout of the
    first job fires, the job completes all the same, the second one is started,
    and only then the handler stops the scheduler. The first job's fence was
    signalled; the second ends without having been signalled, and the device is
    idle. *)
Lemma photo_finish :
  exists m, rtc (step (A := ARMv7)) (start_machine two_jobs [100; 101]) m
    /\ m_retired m = [101; 100] /\ m_pending m = None /\ sd_active (k_dev (m_k m)) = 0
    /\ signals 7 (k_log (m_k m)) = 1 /\ signals 8 (k_log (m_k m)) = 0 /\ hw_of (k_log (m_k m)) = HIdle.
Proof.
  eexists. split.
  { eapply rtc_l; [eapply (step_run _ _ _ []); vm_compute; reflexivity|].
    eapply rtc_l; [eapply (step_irq (E := env_status STRELA_CMD_PENDING_INT_CONFIG)); vm_compute; reflexivity|].
    eapply rtc_l; [eapply step_thread; vm_compute; reflexivity|].
    eapply rtc_l; [apply step_fire|].
    eapply rtc_l; [eapply (step_irq (E := env_status STRELA_CMD_PENDING_INT_EXEC)); vm_compute; reflexivity|].
    eapply rtc_l; [eapply step_thread; vm_compute; reflexivity|].
    eapply rtc_l; [eapply step_retire; [vm_compute; reflexivity|done]|].
    eapply rtc_l; [eapply (step_run _ _ _ []); vm_compute; reflexivity|].
    eapply rtc_l; [eapply step_timeout; vm_compute; reflexivity|].
    eapply rtc_l; [eapply step_reset; vm_compute; reflexivity|].
    apply rtc_refl. }
  by vm_compute.
Qed.
