(* ===== verification/DrvSystem.v ===== *)
(** * The driver as an open system

    [DrvMachine] runs a batch of jobs. Here clients submit at any time, through
    the ioctl and its error paths, while jobs run: the machine's steps and
    submissions interleave in any order. A submission that succeeds ends with
    pushing a job, and that push is what the scheduler's queue sees. *)
From S2P Require Export DrvMachine.

(** ** Code that the running job does not notice *)

(** Events that are not about the control register, a warning or a fence. *)
Definition calm_event (e : event) : Prop :=
  match e with
  | Writel _ _ | VCall drm_WARN_ON | VCall (dma_fence_signal _) | VCall (dma_fence_init _ _ _)
  | VCall (dma_fence_get _) => False
  | _ => True
  end.

Lemma calm_obs es l :
  Forall calm_event es ->
  (forall f, signals f (es ++ l) = signals f l) /\ warned (es ++ l) = warned l /\ hw_of (es ++ l) = hw_of l
  /\ (forall r, reg_value (es ++ l) r = reg_value l r).
Proof.
  induction 1 as [|e es He _ (IH1 & IH2 & IH3 & IH4)]; [done|]. cbn [app].
  destruct e as [| | | | | |c]; try done. by destruct c.
Qed.

(** Code that leaves the device and the buffers alone and only logs calm events. *)
Definition calm {X} (c : M kst X) : Prop :=
  forall s x s', c s = Ok (x, s') ->
    (k_dev s' = k_dev s /\ k_ram s' = k_ram s) /\ exists es, k_log s' = es ++ k_log s /\ Forall calm_event es.

Create HintDb calm.

Section Calm.
Context {A : abi} {E : Env}.

Lemma calm_ret {X} (x : X) : calm (mret_ x).
Proof. intros s y s' [= <- <-]. split; [done|]. by exists []. Qed.

Lemma calm_trap {X} t : calm (X := X) (trap_ t).
Proof. intros s y s' H. discriminate. Qed.

Lemma calm_bind {X Y} (c : M kst X) (k : X -> M kst Y) : calm c -> (forall x, calm (k x)) -> calm (mbind_ c k).
Proof.
  intros Hc Hk s y s' H. apply mbind_inv in H as (x & s1 & H1 & H2).
  destruct (Hc _ _ _ H1) as [Hd1 (es1 & Hl1 & Hf1)], (Hk _ _ _ _ H2) as [Hd2 (es2 & Hl2 & Hf2)].
  split; [split; naive_solver congruence|]. exists (es2 ++ es1). split; [by rewrite Hl2, Hl1, app_assoc|by apply Forall_app].
Qed.

Lemma calm_vcall c : calm_event (VCall c) -> calm (vcall_ c).
Proof. intros Hc s y s' [= <- <-]. split; [done|]. exists [VCall c]. split; [done|by constructor]. Qed.

Lemma calm_icall c : calm (icall_ c).
Proof. intros s y s' [= <- <-]. split; [done|]. eexists [_]. split; [reflexivity|by constructor]. Qed.

Lemma calm_kzalloc k : calm (kzalloc_ k).
Proof. intros s y s' [= <- <-]. split; [done|]. eexists [_]. split; [reflexivity|by constructor]. Qed.

Lemma calm_lookup h : calm (drm_gem_object_lookup h).
Proof. intros s y s' [= <- <-]. split; [done|]. eexists [_]. split; [reflexivity|by constructor]. Qed.

Lemma calm_jobs f : calm (modify_ (fun s => set_jobs s (f s))).
Proof. intros s y s' [= <- <-]. split; [done|]. by exists []. Qed.

Lemma calm_get : calm get_.
Proof. intros s y s' [= <- <-]. split; [done|]. by exists []. Qed.
End Calm.

#[export] Hint Resolve calm_ret calm_trap calm_icall calm_kzalloc calm_lookup calm_jobs calm_get : calm.

(** Split a computation into its calls. *)
Ltac calm_solve :=
  repeat first
    [ solve [auto 2 with calm] | apply calm_vcall; exact I | apply calm_bind; [|intros ?] | progress cbv zeta
    | match goal with
      | |- calm (if ?b then _ else _) => destruct b
      | |- calm (match ?x with _ => _ end) => destruct x
      end ].

Section Submit.
Context {A : abi} {E : Env}.

Lemma calm_nth {X} (l : list X) i : calm (nth_ l i).
Proof. unfold nth_. calm_solve. Qed.

Lemma calm_get_job p : calm (get_job p).
Proof. unfold get_job. calm_solve. Qed.

Lemma calm_update_job p f : calm (update_job p f).
Proof. unfold update_job. apply calm_bind; [apply calm_get_job|intros j]. calm_solve. Qed.

#[local] Hint Resolve calm_nth calm_get_job calm_update_job : calm.

Lemma calm_binding_get src : calm (strela_strided_binding_get src).
Proof. unfold strela_strided_binding_get. calm_solve. Qed.

#[local] Hint Resolve calm_binding_get : calm.

Lemma calm_columns job args i n : calm (submit_columns job args i n).
Proof.
  revert i. induction n as [|n IH]; intros i; cbn [submit_columns]; [apply calm_ret|].
  apply calm_bind; [|intros ret; by calm_solve]. unfold submit_column, strela_binding_get. calm_solve.
Qed.

Lemma calm_put_bindings j : calm (strela_job_put_bindings j).
Proof. unfold strela_job_put_bindings, for_. calm_solve. Qed.

Lemma calm_free_struct job : calm (free_job_struct job).
Proof. unfold free_job_struct. calm_solve. Qed.

#[local] Hint Resolve calm_columns calm_put_bindings calm_free_struct : calm.

Lemma calm_submit_or_cleanup job f args : calm (submit_or_cleanup job f args).
Proof.
  unfold submit_or_cleanup, submit_body, submit_bindings, strela_binding_get. calm_solve.
Qed.

(** The job that was pushed last, if the last thing that happened was a push. *)
Definition pushed (l : list event) : list Z :=
  match l with VCall (drm_sched_entity_push_job job) :: _ => [job] | _ => [] end.

Lemma body_pushes job args s s' : submit_body job args s = Ok (0, s') -> pushed (k_log s') = [job].
Proof.
  intros H. unfold submit_body in H. apply mbind_inv in H as (r1 & s1 & _ & H).
  destruct (Z.eqb_spec r1 0); cbn [negb] in H; [|unfold mret_ in H; congruence].
  apply mbind_inv in H as (r2 & s2 & _ & H).
  destruct (Z.eqb_spec r2 0); cbn [negb] in H; [|unfold mret_ in H; congruence].
  apply mbind_inv in H as (so & s3 & _ & H). destruct (so =? 0); [discriminate|].
  do 4 apply mbind_inv in H as (? & ? & ? & H). unfold vcall_, emit, modify_, mret_ in *.
  injection H as <-. simplify_eq. done.
Qed.

Lemma cleanup_pushes job f args s s' : submit_or_cleanup job f args s = Ok (0, s') -> pushed (k_log s') = [job].
Proof.
  intros H. unfold submit_or_cleanup in H. apply mbind_inv in H as (r & s1 & Hb & H).
  destruct (Z.eqb_spec r 0) as [->|Hr]; cbn [negb] in H.
  - unfold mret_ in H. injection H as <-. by eapply body_pushes.
  - do 5 apply mbind_inv in H as (? & ? & _ & H). unfold mret_ in H. congruence.
Qed.

Lemma submit_pushes args s s' :
  strela_submit_ioctl args s = Ok (0, s') -> pushed (k_log s') = [env_kzalloc (k_log s) A_job].
Proof.
  unfold strela_submit_ioctl. destruct (bad_flags _ _ || _); [discriminate|].
  rewrite (mbind_Ok (kzalloc_ A_job) _ s (env_kzalloc (k_log s) A_job) _ eq_refl).
  set (job := env_kzalloc (k_log s) A_job). destruct (job =? 0); [discriminate|]. intros H.
  do 2 apply mbind_inv in H as (? & ? & _ & H). destruct (_ =? 0); [by apply mbind_inv in H as (? & ? & _ & H)|].
  do 4 apply mbind_inv in H as (? & ? & _ & H). apply mbind_inv in H as (r & ? & _ & H).
  destruct (Z.eqb_spec r 0); cbn [negb] in H; [by eapply cleanup_pushes|].
  do 2 apply mbind_inv in H as (? & ? & _ & H). unfold mret_ in H. congruence.
Qed.

(** The fence a submission allocates. *)
Definition new_fence (s : kst) : Z := env_kzalloc (Kzalloc A_job (env_kzalloc (k_log s) A_job) :: k_log s) A_fence.

(** What stays as it was when [f] is the fence of a submission. *)
Definition undisturbed (f : Z) (s s' : kst) : Prop :=
  sd_active (k_dev s') = sd_active (k_dev s) /\ sd_is_sim (k_dev s') = sd_is_sim (k_dev s)
  /\ k_ram s' = k_ram s /\ warned (k_log s') = warned (k_log s) /\ hw_of (k_log s') = hw_of (k_log s)
  /\ (forall g, g <> f -> signals g (k_log s') = signals g (k_log s))
  /\ (signals f (k_log s') = 0 \/ signals f (k_log s') = signals f (k_log s))
  /\ (forall r, reg_value (k_log s') r = reg_value (k_log s) r).

(** What a submission logs: calm events, around the initialisation of its fence
    if it came that far, which it does when it succeeds. *)
Lemma submit_shape args s ret s' :
  strela_submit_ioctl args s = Ok (ret, s') ->
  k_ram s' = k_ram s
  /\ ((ret <> 0 /\ k_dev s' = k_dev s /\ exists es, k_log s' = es ++ k_log s /\ Forall calm_event es)
      \/ let n := u64 (sd_fence_seqno (k_dev s) + 1) in
         k_dev s' = dev_set_seqno (k_dev s) n
         /\ exists es es0, Forall calm_event es /\ Forall calm_event es0
              /\ k_log s' = es ++ VCall (dma_fence_init (new_fence s) (sd_fence_context (k_dev s)) n)
                                 :: es0 ++ k_log s).
Proof.
  unfold strela_submit_ioctl, new_fence. destruct (bad_flags _ _ || _).
  { intros [= <- <-]. split; [done|left]. split_and!; [done|done|]. by exists []. }
  rewrite (mbind_Ok (kzalloc_ A_job) _ s (env_kzalloc (k_log s) A_job) _ eq_refl).
  set (job := env_kzalloc (k_log s) A_job). destruct (job =? 0).
  { intros [= <- <-]. split; [done|left]. split_and!; [done|done|]. eexists [_]. split; [done|by repeat constructor]. }
  rewrite (mbind_Ok (modify_ _) _ _ tt _ eq_refl), (mbind_Ok (kzalloc_ A_fence) _ _ _ _ eq_refl).
  cbn [k_log set_jobs set_log]. set (f := env_kzalloc _ A_fence). destruct (f =? 0).
  { rewrite (mbind_Ok _ _ _ _ _ (free_job_struct_ok _ _)). intros [= <- <-]. split; [done|left].
    split_and!; [done|done|]. eexists [_; _; _]. split; [done|by repeat constructor]. }
  erewrite (mbind_Ok (update_job _ _)) by (apply update_job_Ok; cbn; apply lookup_insert_eq).
  rewrite (mbind_Ok (update_dev _) _ _ tt _ eq_refl), (mbind_Ok get_dev _ _ _ _ eq_refl).
  rewrite (mbind_Ok (vcall_ _) _ _ tt _ eq_refl). set (s1 := set_log _ (VCall (dma_fence_init _ _ _) :: _)).
  match goal with |- mbind_ ?c ?k s1 = _ -> _ => assert (Hc : calm (mbind_ c k)) end.
  { apply calm_bind; [apply calm_icall|intros r]. pose proof (calm_submit_or_cleanup job f args).
    pose proof (calm_free_struct job). calm_solve. all: assumption. }
  intros He. destruct (Hc _ _ _ He) as [[Hd Hram] (es & Hl & Hes)]. split; [exact Hram|right].
  split; [exact Hd|]. exists es, [Kzalloc A_fence f; Kzalloc A_job job].
  split; [exact Hes|]. split; [by repeat constructor|exact Hl].
Qed.

Lemma submit_obs args s ret s' :
  strela_submit_ioctl args s = Ok (ret, s') ->
  undisturbed (new_fence s) s s' /\ (ret = 0 -> signals (new_fence s) (k_log s') = 0).
Proof.
  intros He. destruct (submit_shape _ _ _ _ He) as [Hram [(Hret & Hd & es & Hl & Hes)|(Hd & es & es0 & Hes & Hes0 & Hl)]].
  - destruct (calm_obs es (k_log s) Hes) as (O1 & O2 & O3 & O4). unfold undisturbed. rewrite Hd, Hl, O2, O3.
    split; [|done]. split_and!; try done; by right; apply O1.
  - destruct (calm_obs es0 (k_log s) Hes0) as (P1 & P2 & P3 & P4).
    destruct (calm_obs es (VCall (dma_fence_init (new_fence s) (sd_fence_context (k_dev s))
      (u64 (sd_fence_seqno (k_dev s) + 1))) :: es0 ++ k_log s) Hes) as (O1 & O2 & O3 & O4).
    rewrite <- Hl in O1, O2, O3, O4. cbn [signals warned hw_of hw_next reg_value] in O1, O2, O3, O4.
    assert (H0 : signals (new_fence s) (k_log s') = 0) by (rewrite O1; by rewrite Z.eqb_refl).
    unfold undisturbed. rewrite Hd. split; [|done]. split; [done|]. split; [done|]. split; [done|]. split; [congruence|]. split; [congruence|].
    split; [|split; [by left|]].
    + intros g Hg. rewrite O1, P1. by rewrite (proj2 (Z.eqb_neq (new_fence s) g)) by congruence.
    + intros r. by rewrite O4, P4.
Qed.
End Submit.

(** ** The system *)
Section System.
Context {A : abi}.

(** What the kernel promises a submission: kzalloc answers memory that no job
    and no job's fence occupies, and buffers are below 4 GiB on the bus. *)
Record kernel_ok {E : Env} (k : kst) : Prop := {
  ko_job : forall l, k_jobs k !! env_kzalloc l A_job = None;
  ko_fence : forall l p j, k_jobs k !! p = Some j -> j_hw_fence j <> env_kzalloc l A_fence;
  ko_dma : env_dma32
}.

(** The machine and its clients. A submission is one step here. In
    strela_submit_ioctl the fence's number is taken under sdev->lock and the job
    is pushed later without it, so that submissions of several threads may
    interleave: between its lock section and its push a submission touches only
    the job and the fence it has allocated itself and takes references, which
    commute with the steps of the others, and the push is what the rest of the
    system sees. What may differ is that jobs are pushed in another order than
    their numbers; no theorem relies on the two being the same. *)
Inductive sys_step : machine -> machine -> Prop :=
| sys_machine m m' : step m m' -> sys_step m m'
| sys_submit {E : Env} args k k' ret q p st irq retired fi :
    kernel_ok k -> args_u32 args -> strela_submit_ioctl args k = Ok (ret, k') ->
    sys_step (mkMach k q p st irq retired fi)
             (mkMach k' (if ret =? 0 then q ++ pushed (k_log k') else q) p st irq retired fi).

Lemma minv_undisturbed f k k' q p st irq ret fi :
  undisturbed f k k' -> k_jobs k' = k_jobs k -> (forall p j, k_jobs k !! p = Some j -> j_hw_fence j <> f) ->
  minv (mkMach k q p st irq ret fi) -> minv (mkMach k' q p st irq ret fi).
Proof.
  intros (E1 & E2 & _ & E3 & E4 & E5 & E6 & _) Ej Hf [Hsim Hjobs Hnd Hfen Hstop Hact Honce Hq Hrun Hw Hhw].
  split; mcbn; rewrite ?E1, ?E2, ?E3, ?E4, ?Ej; try done.
  - intros g. destruct (decide (g = f)) as [->|Hne]; [|by rewrite E5].
    specialize (Honce f). cbn in Honce. destruct E6 as [->| ->]; lia.
  - intros x j Hx Hj. rewrite E5; [by eapply Hq|by eapply Hf].
  - intros x j Hx Hst Hj. rewrite E5; [by eapply Hrun|by eapply Hf].
Qed.

Lemma minv_add k q p st irq ret fi job j :
  minv (mkMach k q p st irq ret fi) -> k_jobs k !! job = None -> job <> 0 -> job_good j ->
  (forall x jx, k_jobs k !! x = Some jx -> j_hw_fence jx <> j_hw_fence j) ->
  signals (j_hw_fence j) (k_log k) = 0 ->
  minv (mkMach (set_jobs k (<[job := j]> (k_jobs k))) (q ++ [job]) p st irq ret fi).
Proof.
  intros [Hsim Hjobs Hnd Hfen Hstop Hact Honce Hq Hrun Hw Hhw] Hnone H0 Hg Hf Hs.
  cbn in Hsim, Hjobs, Hnd, Hfen, Hstop, Hact, Honce, Hq, Hrun, Hw, Hhw.
  assert (Hold : forall x jx, k_jobs k !! x = Some jx -> <[job := j]> (k_jobs k) !! x = Some jx).
  { intros x jx Hx. rewrite lookup_insert_ne; [done|]. congruence. }
  assert (Hcase : forall x jx, <[job := j]> (k_jobs k) !! x = Some jx ->
                    (x = job /\ jx = j) \/ (x <> job /\ k_jobs k !! x = Some jx)).
  { intros x jx Hx. apply lookup_insert_Some in Hx as [[<- <-]|[? ?]]; eauto. }
  assert (HP : (q ++ [job]) ++ option_list p ++ ret ≡ₚ job :: (q ++ option_list p ++ ret)).
  { rewrite <- app_assoc. symmetry. apply Permutation_middle. }
  split; mcbn; try done; unfold all_jobs; mcbn.
  - intros x. rewrite HP. intros [->|Hx]%elem_of_cons.
    + split; [done|]. exists j. split; [apply lookup_insert_eq|done].
    + destruct (Hjobs x Hx) as (? & jx & Hjx & ?). split; [done|]. exists jx. split; [by apply Hold|done].
  - rewrite HP. constructor; [|done]. intros Hin. destruct (Hjobs job Hin) as (_ & jx & Hjx & _). congruence.
  - intros x y jx jy Hx Hy Heq. apply Hcase in Hx as [[-> ->]|[Hx1 Hx]]; apply Hcase in Hy as [[-> ->]|[Hy1 Hy]].
    + done.
    + by destruct (Hf _ _ Hy).
    + by destruct (Hf _ _ Hx).
    + by eapply Hfen.
  - intros x jx Hx Hjx. apply Hcase in Hjx as [[-> ->]|[Hne Hjx]]; [done|]. eapply Hq; [|done]. set_solver.
  - intros x jx Hx Hst Hjx. apply Hcase in Hjx as [[-> ->]|[Hne Hjx]]; [|by eapply Hrun].
    destruct (Hjobs job) as (_ & jx & Hjx & _); [subst p; set_solver|]. congruence.
Qed.

Lemma sys_step_inv m m' : minv m -> sys_step m m' -> minv m'.
Proof.
  intros Hinv Hs. destruct Hs as [m m' Hs|E args k k' ret q p st irq retired fi Hko Hargs He]; [by eapply step_inv|].
  destruct (submit_ok args k (proj1 Hargs) (ko_job _ Hko)) as (ret' & s' & He' & Hfail & Hok).
  rewrite He in He'. injection He' as <- <-. destruct (submit_obs _ _ _ _ He) as [Hund Hsig].
  assert (Hf : forall x jx, k_jobs k !! x = Some jx -> j_hw_fence jx <> new_fence k) by (intros; by eapply ko_fence).
  destruct (Z.eqb_spec ret 0) as [->|Hne].
  2: { destruct (Hfail Hne) as [Hj _]. by eapply minv_undisturbed. }
  rewrite (submit_pushes _ _ _ He). destruct (Hok eq_refl) as (job & j & Hj & Hres & (H0 & -> & Hfj) & _).
  set (k1 := mkK (k_log k') (k_dev k') (k_jobs k) (k_ram k')).
  assert (Hk : k' = set_jobs k1 (<[env_kzalloc (k_log k) A_job := j]> (k_jobs k1))) by (cbn; rewrite <- Hj; by destruct k').
  rewrite Hk. apply minv_add; try done.
  - by eapply (minv_undisturbed (new_fence k) k).
  - apply (ko_job _ Hko).
  - eapply job_resolved_good; [apply (ko_dma _ Hko)|done|done].
  - intros x jx Hx. rewrite Hfj. by apply (Hf x).
  - rewrite Hfj. by apply Hsig.
Qed.

Lemma sys_reachable_inv k q m : batch k q -> rtc sys_step (start_machine k q) m -> minv m.
Proof.
  intros Hb Hr. apply batch_inv in Hb. induction Hr as [|m1 m2 m3 Hs _ IH]; [done|].
  apply IH. by eapply sys_step_inv.
Qed.
End System.

Section Properties.
Context {A : abi}.

(** C1: The driver is safe as an open system. On a device that starts idle,
    however submissions (with any arguments, failing or not), the scheduler,
    interrupts, their thread, timeouts and frees interleave: the driver never
    trips its own warnings, a fence is never signalled twice, the job on the
    device is the one the scheduler waits for, the CGRA is never told to
    execute anything but the configuration loaded last, and every job in the
    system is one whose bindings passed the check. *)
Theorem system_safe k m :
  batch k [] -> rtc sys_step (start_machine k []) m ->
  warned (k_log (m_k m)) = false
  /\ (forall f, signals f (k_log (m_k m)) <= 1)
  /\ (sd_active (k_dev (m_k m)) <> 0 -> m_pending m = Some (sd_active (k_dev (m_k m))))
  /\ hw_of (k_log (m_k m)) <> HBad
  /\ NoDup (all_jobs m)
  /\ (forall p, p ∈ all_jobs m -> exists j, k_jobs (m_k m) !! p = Some j /\ job_good j).
Proof.
  intros Hb Hr. destruct (sys_reachable_inv k [] m Hb Hr) as [_ Hjobs Hnd _ _ Hact Honce _ _ Hw Hhw].
  split_and!; try done; [intros Ha; by destruct Hact as [|[_ ?]]|]. intros p Hp. by destruct (Hjobs p Hp).
Qed.

(** The only step that signals a fence is the interrupt thread handling an exec
    interrupt of the job on the device. *)
Lemma signal_after_exec k m m' f :
  batch k [] -> rtc sys_step (start_machine k []) m -> sys_step m m' ->
  signals f (k_log (m_k m)) < signals f (k_log (m_k m')) ->
  hw_of (k_log (m_k m)) = HExec
  /\ exists j, k_jobs (m_k m) !! sd_active (k_dev (m_k m)) = Some j /\ j_hw_fence j = f
              /\ j_phase j = STRELA_JOB_PHASE_EXEC.
Proof.
  intros Hb Hr Hs Hlt. pose proof (sys_reachable_inv k [] m Hb Hr) as Hinv.
  destruct Hs as [m m' Hs|E args k1 k' ret q p st irq retired fi Hko Hargs He]; [by eapply step_signal|].
  exfalso. destruct (submit_obs _ _ _ _ He) as [(_ & _ & _ & _ & _ & Hg & Hf & _) _]. cbn [m_k] in Hlt.
  destruct (decide (f = new_fence k1)) as [->|Hne]; [|rewrite Hg in Hlt by done; lia].
  pose proof (signals_nonneg (new_fence k1) (k_log k1)). destruct Hf as [Hf|Hf]; rewrite Hf in Hlt; lia.
Qed.

(** C32: The driver's code never faults and completes jobs truthfully: in every
    state of the open system, whatever comes next (a submission, any of the
    queued jobs, an interrupt with any status, its thread, a timeout that
    fired, the reset that follows it, freeing a retired job) runs to
    completion; in particular no handler touches a job that has been freed.
    And the only step that can signal a fence is the interrupt thread handling
    an exec interrupt: the fence is that of the job on the device, that job is
    in its exec phase, and the control register has last been told to
    execute. *)
Theorem system_never_faults k m :
  batch k [] -> rtc sys_step (start_machine k []) m ->
  (forall (E : Env) args, kernel_ok (m_k m) -> args_u32 args ->
     exists ret k', strela_submit_ioctl args (m_k m) = Ok (ret, k'))
  /\ (forall job, m_pending m = None -> job ∈ m_queue m ->
       exists f k', strela_run_job job (m_k m) = Ok (f, k'))
  /\ (forall E : Env, exists r k', strela_irq_handler (E := E) (m_k m) = Ok (r, k'))
  /\ (exists r k', strela_irq_thread_fn (m_k m) = Ok (r, k'))
  /\ (forall job, m_fired m = Some job -> exists k', timeout_begin job (m_k m) = Ok (tt, k'))
  /\ (m_stopping m = true -> exists k', timeout_end (m_k m) = Ok (tt, k'))
  /\ (forall job, job ∈ m_retired m -> exists k', strela_free_job job (m_k m) = Ok (tt, k'))
  /\ (forall m' f, sys_step m m' -> signals f (k_log (m_k m)) < signals f (k_log (m_k m')) ->
       hw_of (k_log (m_k m)) = HExec
       /\ exists j, k_jobs (m_k m) !! sd_active (k_dev (m_k m)) = Some j /\ j_hw_fence j = f
                   /\ j_phase j = STRELA_JOB_PHASE_EXEC).
Proof.
  intros Hb Hr. split.
  { intros E args Hko Hargs. destruct (submit_ok args (m_k m) (proj1 Hargs) (ko_job _ Hko)) as (ret & k' & He & _). eauto. }
  destruct (step_enabled m ltac:(by eapply sys_reachable_inv)) as (H1 & H2 & H3 & H4 & H5 & H6).
  do 6 (split; [done|]). intros m' f. by apply (signal_after_exec k).
Qed.
End Properties.
