(* ===== verification/DrvOwn.v ===== *)
(** * What the driver holds

    At any time the references the driver holds (on buffer objects, job
    structs, the scheduler's part of jobs, sync objects, fences) are those of
    the jobs in the system; a fence also has the references that were handed to
    the scheduler with the jobs it ran. Removal gives back what is left and lets no waiter hang. *)
From S2P Require Export DrvSystem.

(** ** Sums over jobs *)
Definition holds_at (r : resource) (jobs : gmap Z strela_job) (p : Z) : Z :=
  match jobs !! p with Some j => job_holds r p j | None => 0 end.

Fixpoint jobs_hold (r : resource) (jobs : gmap Z strela_job) (ps : list Z) : Z :=
  match ps with
  | [] => 0
  | p :: ps => holds_at r jobs p + jobs_hold r jobs ps
  end.

Lemma jobs_hold_app r jobs ps qs : jobs_hold r jobs (ps ++ qs) = jobs_hold r jobs ps + jobs_hold r jobs qs.
Proof. induction ps as [|p ps IH]; cbn; lia. Qed.

#[export] Instance jobs_hold_perm r jobs : Proper ((≡ₚ) ==> (=)) (jobs_hold r jobs).
Proof. induction 1; cbn; lia. Qed.

Lemma jobs_hold_ext r jobs jobs' ps :
  (forall p, p ∈ ps -> holds_at r jobs' p = holds_at r jobs p) -> jobs_hold r jobs' ps = jobs_hold r jobs ps.
Proof.
  induction ps as [|p ps IH]; intros H; cbn; [done|]. rewrite (H p), IH; [done| |]; set_solver.
Qed.

Lemma holds_at_ne r jobs p q j : q <> p -> holds_at r (<[p := j]> jobs) q = holds_at r jobs q.
Proof. intros H. unfold holds_at. by rewrite lookup_insert_ne. Qed.

Lemma holds_at_phase r jobs p q j ph :
  jobs !! p = Some j -> holds_at r (<[p := set_phase j ph]> jobs) q = holds_at r jobs q.
Proof.
  intros Hj. destruct (decide (q = p)) as [->|Hne]; [|by apply holds_at_ne].
  unfold holds_at. by rewrite lookup_insert_eq, Hj.
Qed.

(** ** The invariant *)

(** The resources only the driver holds: a fence is shared with the scheduler,
    and pushes are counted, not held. *)
Definition own (r : resource) : bool :=
  match r with RObj _ | RJob _ | RSched _ | RSync _ => true | RFence _ | RPush _ => false end.

(** The references on fence [f] handed to the scheduler: one each time its job
    was run. *)
Fixpoint given (f : Z) (l : list event) : Z :=
  match l with
  | [] => 0
  | VCall (dma_fence_get f') :: l => one (f' =? f) + given f l
  | _ :: l => given f l
  end.

Definition passed (r : resource) (l : list event) : Z := match r with RFence f => given f l | _ => 0 end.

(** The references the driver keeps for itself. *)
Definition kept (r : resource) (l : list event) : Z := held r l - passed r l.

Definition counted (r : resource) : bool := match r with RPush _ => false | _ => true end.

Lemma given_app f es l :
  Forall (fun e => match e with VCall (dma_fence_get _) => False | _ => True end) es -> given f (es ++ l) = given f l.
Proof. induction 1 as [|e es He _ IH]; [done|]. destruct e as [| | | | | |[]]; cbn; done. Qed.

Lemma given_calm f es l : Forall calm_event es -> given f (es ++ l) = given f l.
Proof. intros H. apply given_app. eapply Forall_impl; [exact H|]. intros e. by destruct e as [| | | | | |[]]. Qed.

Lemma given_released f l l' : released l l' -> given f l' = given f l.
Proof.
  intros (es & -> & H). apply given_app. eapply Forall_impl; [exact H|]. intros e. by destruct e as [| | | | | |[]].
Qed.

Lemma kept_writes r ws l : counted r = true -> kept r (log_writes ws l) = kept r l.
Proof.
  intros Hr. induction ws as [|w ws IH] using rev_ind; [done|]. rewrite log_writes_app, <- IH.
  unfold kept. cbn. by destruct r.
Qed.

Lemma run_log_kept r j l : counted r = true -> kept r (run_log j l) = kept r l.
Proof.
  intros Hr. rewrite <- (kept_writes r (job_writes j) l Hr). unfold run_log, kept. cbn [held].
  destruct r; try discriminate; cbn; lia.
Qed.

Section Own.
Context {A : abi}.

(** Beyond what was kept in [l0], the driver keeps what its jobs hold. *)
Definition owned (l0 : list event) (m : machine) : Prop :=
  forall r, counted r = true ->
    kept r (k_log (m_k m)) = kept r l0 + jobs_hold r (k_jobs (m_k m)) (all_jobs m).

Lemma irq_handler_kept {E : Env} k r' k' r :
  counted r = true -> strela_irq_handler k = Ok (r', k') -> kept r (k_log k') = kept r (k_log k).
Proof.
  intros Hr. unfold strela_irq_handler, readl, mbind_, get_, emit, modify_, update_dev, writel. cbn.
  repeat break_if; intros [= <- <-]; unfold kept; cbn; by destruct r.
Qed.

(** A finished phase changes at most the phase of the job on the device. *)
Lemma phase_done_kept ph k r :
  counted r = true ->
  kept r (k_log (phase_done_result ph k)) = kept r (k_log k)
  /\ forall p, holds_at r (k_jobs (phase_done_result ph k)) p = holds_at r (k_jobs k) p.
Proof.
  intros Hr. unfold phase_done_result. destruct (k_jobs k !! sd_active (k_dev k)) as [j|] eqn:Hj; [|done].
  case_bool_decide; [|done]. destruct ph; (split; [unfold kept; cbn; by destruct r|intros p; cbn [k_jobs]]); [by apply holds_at_phase|done].
Qed.

Lemma owned_same l0 k k' q p st st' irq irq' ret fi fi' :
  (forall r, counted r = true -> kept r (k_log k') = kept r (k_log k)) ->
  (forall r x, counted r = true -> holds_at r (k_jobs k') x = holds_at r (k_jobs k) x) ->
  owned l0 (mkMach k q p st irq ret fi) -> owned l0 (mkMach k' q p st' irq' ret fi').
Proof.
  intros H1 H2 Ho r Hr. specialize (Ho r Hr). cbn [m_k] in *. rewrite H1 by done. rewrite Ho. f_equal.
  symmetry. apply jobs_hold_ext. intros x _. by apply H2.
Qed.

(** A change of what is held, when nothing is handed to the scheduler. *)
Lemma kept_held r l l' d :
  held r l' = held r l + d -> (forall f, given f l' = given f l) -> kept r l' = kept r l + d.
Proof. intros Hh Hg. unfold kept, passed. destruct r; rewrite ?Hg; lia. Qed.

Lemma submit_given {E : Env} args k ret k' f :
  strela_submit_ioctl args k = Ok (ret, k') -> given f (k_log k') = given f (k_log k).
Proof.
  intros He. destruct (submit_shape _ _ _ _ He) as [_ [(_ & _ & es & -> & H)|(_ & es & es0 & H & H0 & ->)]].
  - by apply given_calm.
  - rewrite given_calm by done. cbn. by apply given_calm.
Qed.

Lemma step_owned l0 m m' : minv m -> owned l0 m -> step m m' -> owned l0 m'.
Proof.
  intros Hinv Ho Hs. destruct Hs as [k k' job q1 q2 irq ret fi f He|E k k' q p st ret fi r He|k k' q p st ret fi r He
    |k job j q irq ret fi Hj Hsig|k job q irq ret|k k' job q p irq ret He|k k' q p irq ret He
    |k k' job q p st irq ret1 ret2 fi He _].
  - destruct Hinv as [Hsim Hjobs _ _ _ Hact _ _ _ _ _]. cbn in Hsim, Hjobs, Hact.
    destruct (Hjobs job) as (_ & j & Hj & Hg); [set_solver|]. destruct Hact as [Ha|[_ ?]]; [|done].
    rewrite (run_job_ok job j k Hj Hg Hsim Ha) in He. injection He as _ <-. intros r Hr. specialize (Ho r Hr).
    unfold all_jobs in *. cbn [m_k m_queue m_pending m_retired k_log k_jobs option_list app] in *.
    rewrite run_log_kept by done. assert (HP : (q1 ++ job :: q2) ++ ret ≡ₚ (q1 ++ q2) ++ job :: ret) by solve_Permutation.
    rewrite Ho, HP. f_equal. symmetry. apply jobs_hold_ext. intros x _. by apply holds_at_phase.
  - destruct (irq_handler_ok (E := E) k) as (r' & k1 & He1 & Ej & _). rewrite He in He1. injection He1 as <- <-.
    eapply owned_same; [| |exact Ho]; [intros; by eapply irq_handler_kept|intros; by rewrite Ej].
  - destruct (irq_thread_cases k (mi_sim _ Hinv) (minv_active_job _ Hinv)) as (r1 & k1 & He1 & Hk).
    rewrite He in He1. injection He1 as <- <-.
    destruct Hk as [->|[ph ->]]; (eapply owned_same; [| |exact Ho]); try done; intros; by apply (phase_done_kept _ (thread_start k)).
  - exact Ho.
  - exact Ho.
  - destruct (fired_job _ job Hinv eq_refl) as [j Hj]. cbn in Hj. rewrite (timeout_begin_ok _ _ _ Hj) in He. injection He as <-.
    eapply owned_same; [| |exact Ho]; [intros r Hr; unfold kept; cbn; by destruct r|done].
  - destruct (mi_active _ Hinv) as [Ha|[? _]]; [|done]. rewrite (hw_stop_ok k (mi_sim _ Hinv) Ha) in He.
    injection He as <-. intros r Hr. specialize (Ho r Hr). unfold kept in *. cbn in *. by destruct r.
  - destruct Hinv as [_ Hjobs Hnd _ _ _ _ _ _ _ _]. cbn in Hjobs. unfold all_jobs in *; cbn in Hnd, Hjobs.
    destruct (Hjobs job) as (_ & j & Hj & Hg); [set_solver|]. destruct (jg_cols _ Hg) as [L1 L2].
    destruct (free_job_ok job j k Hj L1 L2) as (k1 & He1 & Ej & _ & Hrel & Hh). rewrite He in He1. injection He1 as <-.
    intros r Hr. specialize (Ho r Hr). unfold all_jobs in *. cbn [m_k m_queue m_pending m_retired] in *.
    assert (HP : q ++ option_list p ++ ret1 ++ job :: ret2 ≡ₚ job :: (q ++ option_list p ++ ret1 ++ ret2)).
    { rewrite !app_assoc. symmetry. apply Permutation_middle. }
    rewrite HP in Ho, Hnd. apply NoDup_cons in Hnd as [Hn _]. rewrite (kept_held r (k_log k) (k_log k') (- job_holds r job j)), Ho;
      [|rewrite Hh; lia|intros g; by apply given_released]. cbn [jobs_hold].
    unfold holds_at at 1. rewrite Hj. rewrite (jobs_hold_ext r (k_jobs k) (k_jobs k')); [lia|].
    intros x Hx. unfold holds_at. rewrite Ej, lookup_delete_ne; [done|]. congruence.
Qed.

Lemma sys_step_owned l0 m m' : minv m -> owned l0 m -> sys_step m m' -> owned l0 m'.
Proof.
  intros Hinv Ho Hs. destruct Hs as [m m' Hs|E args k k' ret q p st irq retired fi Hko Hargs He]; [by eapply step_owned|].
  destruct (submit_ok args k (proj1 Hargs) (ko_job _ Hko)) as (ret' & s' & He' & Hfail & Hok).
  rewrite He in He'. injection He' as <- <-. intros r Hr. specialize (Ho r Hr). unfold all_jobs in *.
  cbn [m_k m_queue m_pending m_retired] in *. destruct (Z.eqb_spec ret 0) as [->|Hne].
  2: { destruct (Hfail Hne) as [-> Hh]. rewrite (kept_held r (k_log k) (k_log k') 0);
         [by rewrite Z.add_0_r|by rewrite Hh, Z.add_0_r|intros g; by eapply submit_given]. }
  rewrite (submit_pushes _ _ _ He). destruct (Hok eq_refl) as (job & j & Hj & _ & (_ & -> & _) & Hh).
  rewrite (kept_held r (k_log k) (k_log k') (job_holds r (env_kzalloc (k_log k) A_job) j)), Ho, Hj;
    [|rewrite Hh; unfold push_of; destruct r; try discriminate; lia|intros g; by eapply submit_given].
  rewrite <- app_assoc. cbn [app]. rewrite <- Permutation_middle. cbn [jobs_hold]. unfold holds_at at 1. rewrite lookup_insert_eq.
  rewrite (jobs_hold_ext r (k_jobs k) (<[_ := j]> _)).
  { lia. }
  intros x Hx. apply holds_at_ne. intros ->. destruct (mi_jobs _ Hinv _ Hx) as (_ & jx & Hjx & _). cbn in Hjx.
  rewrite (ko_job _ Hko) in Hjx. discriminate.
Qed.

Lemma sys_reachable_owned k m :
  batch k [] -> rtc sys_step (start_machine k []) m -> minv m /\ owned (k_log k) m.
Proof.
  intros Hb Hr. assert (H0 : minv (start_machine k []) /\ owned (k_log k) (start_machine k [])).
  { split; [by apply batch_inv|]. intros r _. cbn. lia. }
  clear Hb. revert H0. generalize (k_log k). intros l0 [Hi Ho].
  induction Hr as [|m1 m2 m3 Hs _ IH]; [done|]. apply IH; [by eapply sys_step_inv|by eapply sys_step_owned].
Qed.

(** The same of what is held: all of it for the driver's own resources, and
    what was not handed to the scheduler for fences. *)
Lemma owned_held l0 m :
  owned l0 m ->
  (forall r, own r = true -> held r (k_log (m_k m)) = held r l0 + jobs_hold r (k_jobs (m_k m)) (all_jobs m))
  /\ (forall f, held (RFence f) (k_log (m_k m)) - given f (k_log (m_k m))
               = held (RFence f) l0 - given f l0 + jobs_hold (RFence f) (k_jobs (m_k m)) (all_jobs m)).
Proof.
  intros Ho. split; [|intros f; exact (Ho (RFence f) eq_refl)]. intros r Hr. specialize (Ho r).
  unfold kept in Ho. destruct r; try discriminate; specialize (Ho eq_refl); cbn [passed] in Ho; lia.
Qed.

(** A job that exists keeps its buffers alive. *)
Lemma job_holds_obj p j b o :
  b ∈ j_config j :: j_inputs j ++ j_outputs j -> b_obj b = Some o -> 0 < job_holds (RObj o) p j.
Proof.
  intros Hb Ho. assert (Hone : b_holds (RObj o) b = 1).
  { unfold b_holds. rewrite Ho. by rewrite bool_decide_eq_true_2. }
  assert (H0 : forall x, 0 <= b_holds (RObj o) x).
  { intros x. unfold b_holds. destruct (b_obj x); [|done]. unfold one. by case_bool_decide. }
  assert (Hs : forall bs, 0 <= bs_hold (RObj o) bs /\ (b ∈ bs -> 1 <= bs_hold (RObj o) bs)).
  { induction bs as [|x bs [IH1 IH2]]; cbn [bs_hold]; [split; [done|set_solver]|]. specialize (H0 x).
    split; [lia|]. intros [<-|Hx]%elem_of_cons; [lia|]. specialize (IH2 Hx). lia. }
  unfold job_holds, bindings_hold. cbn -[b_holds bs_hold]. pose proof (H0 (j_config j)).
  pose proof (Hs (j_inputs j)) as [? Hi]. pose proof (Hs (j_outputs j)) as [? Ho'].
  apply elem_of_cons in Hb as [->|[Hb|Hb]%elem_of_app]; [|specialize (Hi Hb)|specialize (Ho' Hb)]; lia.
Qed.

Lemma holds_at_nonneg o jobs p : 0 <= holds_at (RObj o) jobs p.
Proof.
  unfold holds_at. destruct (jobs !! p) as [j|]; [|done]. unfold job_holds, bindings_hold. cbn -[b_holds bs_hold].
  assert (H0 : forall x, 0 <= b_holds (RObj o) x).
  { intros x. unfold b_holds. destruct (b_obj x); [|done]. unfold one. by case_bool_decide. }
  assert (Hs : forall bs, 0 <= bs_hold (RObj o) bs) by (induction bs; cbn [bs_hold]; [done|]; specialize (H0 a); lia).
  pose proof (H0 (j_config j)). pose proof (Hs (j_inputs j)). pose proof (Hs (j_outputs j)). lia.
Qed.

(** A buffer a job of the system names has a reference more than at the start. *)
Lemma held_more k m p j b o :
  batch k [] -> rtc sys_step (start_machine k []) m -> p ∈ all_jobs m -> k_jobs (m_k m) !! p = Some j ->
  b ∈ j_config j :: j_inputs j ++ j_outputs j -> b_obj b = Some o ->
  held (RObj o) (k_log k) < held (RObj o) (k_log (m_k m)).
Proof.
  intros Hb Hr Hp Hj Hbj Hbo. destruct (sys_reachable_owned k m Hb Hr) as [_ [Ho _]%owned_held].
  rewrite (Ho (RObj o) eq_refl). apply elem_of_Permutation in Hp as [ps ->]. cbn [jobs_hold].
  unfold holds_at at 1. rewrite Hj. pose proof (job_holds_obj p j b o Hbj Hbo).
  assert (0 <= jobs_hold (RObj o) (k_jobs (m_k m)) ps); [|lia].
  clear. induction ps as [|x ps IH]; cbn [jobs_hold]; [done|]. pose proof (holds_at_nonneg o (k_jobs (m_k m)) x). lia.
Qed.

(** C10: References are exact at any time. In any state the open system can be in,
    the references the driver holds on buffer objects, job structs, scheduler
    jobs and sync objects are what it held at the start plus what the jobs in
    the system hold; so a buffer named by a queued, running or unfreed job is
    still referenced, and once all jobs are freed nothing is. For a fence the
    same holds of the references that were not handed to the scheduler
    ([given]: one each time the fence's job was run). *)
Theorem system_balanced k m :
  batch k [] -> rtc sys_step (start_machine k []) m ->
  (forall r, own r = true ->
     held r (k_log (m_k m)) = held r (k_log k) + jobs_hold r (k_jobs (m_k m)) (all_jobs m))
  /\ (forall p j b o, p ∈ all_jobs m -> k_jobs (m_k m) !! p = Some j ->
        b ∈ j_config j :: j_inputs j ++ j_outputs j -> b_obj b = Some o ->
        held (RObj o) (k_log k) < held (RObj o) (k_log (m_k m)))
  /\ (forall f, held (RFence f) (k_log (m_k m)) - given f (k_log (m_k m))
               = held (RFence f) (k_log k) - given f (k_log k)
                 + jobs_hold (RFence f) (k_jobs (m_k m)) (all_jobs m)).
Proof.
  intros Hb Hr. destruct (owned_held _ _ (proj2 (sys_reachable_owned k m Hb Hr))) as [H1 H2].
  split_and!; [exact H1| |exact H2]. intros p j b o. by apply held_more.
Qed.
End Own.

(** ** Removal *)
Section Remove.
Context {A : abi} {E : Env}.

(** The kernel knows whether a fence was signalled. *)
Context (HS : forall l f, env_icall l (dma_fence_is_signaled f) = 0 <-> signals f l = 0).

(** The log after failing an unfinished job. *)
Definition failed_log (f : Z) (l : list event) : list event :=
  let l := ICall (dma_fence_is_signaled f) (env_icall l (dma_fence_is_signaled f)) :: l in
  if signals f l =? 0 then VCall (dma_fence_signal f) :: VCall (dma_fence_set_error f (- ENODEV)) :: l else l.

Lemma failed_log_obs f l :
  (forall g, signals g l <= 1) -> (forall g, 0 <= signals g l) ->
  signals f (failed_log f l) = 1 /\ (forall g, g <> f -> signals g (failed_log f l) = signals g l)
  /\ warned (failed_log f l) = warned l /\ hw_of (failed_log f l) = hw_of l
  /\ (forall r, held r (failed_log f l) = held r l) /\ (forall g, given g (failed_log f l) = given g l).
Proof.
  intros H1 H0. specialize (H1 f). specialize (H0 f). unfold failed_log. cbn [signals].
  destruct (Z.eqb_spec (signals f l) 0) as [E0|Hne].
  - cbn. rewrite Z.eqb_refl. split_and!; [cbn; lia| |done|done|intros r; by destruct r|done].
    intros g Hg. by rewrite (proj2 (Z.eqb_neq f g)) by congruence.
  - cbn. split_and!; [lia|done|done|done| |done]. intros r. by destruct r.
Qed.

Lemma fini_one_ok job j s :
  k_jobs s !! job = Some j -> job_good j ->
  exists s', fini_one job s = Ok (tt, s') /\ k_jobs s' = delete job (k_jobs s) /\ k_dev s' = k_dev s
    /\ released (failed_log (j_hw_fence j) (k_log s)) (k_log s')
    /\ forall r, held r (k_log s') = held r (failed_log (j_hw_fence j) (k_log s)) - job_holds r job j.
Proof.
  intros Hj Hg. destruct (jg_cols _ Hg) as [L1 L2]. unfold fini_one.
  rewrite (mbind_Ok _ _ _ _ _ (get_job_Ok _ _ _ Hj)), (mbind_Ok _ _ _ _ _ (icall_Ok _ _)).
  set (s1 := set_log s (failed_log (j_hw_fence j) (k_log s))).
  match goal with |- context [mbind_ ?c _ _] => assert (Hc : c (set_log s (ICall (dma_fence_is_signaled (j_hw_fence j))
    (env_icall (k_log s) (dma_fence_is_signaled (j_hw_fence j))) :: k_log s)) = Ok (tt, s1)) end.
  { unfold s1, failed_log. cbn [signals].
    destruct (Z.eqb_spec (env_icall (k_log s) (dma_fence_is_signaled (j_hw_fence j))) 0) as [E0|Hne].
    - rewrite (proj1 (HS _ _) E0). reflexivity.
    - rewrite (proj2 (Z.eqb_neq _ _)) by (intros E0; apply Hne; by apply HS). reflexivity. }
  rewrite (mbind_Ok _ _ _ _ _ Hc). destruct (free_job_ok job j s1 Hj L1 L2) as (s' & He & H1 & H2 & H3 & H4). eauto 10.
Qed.

(** The jobs the scheduler leaves behind, in a state the machine can be in. *)
Record leftover (ps : list Z) (s : kst) : Prop := {
  lo_jobs : forall p, p ∈ ps -> exists j, k_jobs s !! p = Some j /\ job_good j;
  lo_nodup : NoDup ps;
  lo_fences : forall p q jp jq, k_jobs s !! p = Some jp -> k_jobs s !! q = Some jq ->
                j_hw_fence jp = j_hw_fence jq -> p = q;
  lo_once : forall f, signals f (k_log s) <= 1
}.

Lemma leftover_next p ps j s s' :
  leftover (p :: ps) s -> k_jobs s !! p = Some j -> k_jobs s' = delete p (k_jobs s) ->
  released (failed_log (j_hw_fence j) (k_log s)) (k_log s') -> leftover ps s'.
Proof.
  intros [Hj Hnd Hf Ho] Hp Ej Hrel. destruct (released_obs _ _ Hrel) as (O1 & _).
  destruct (failed_log_obs (j_hw_fence j) (k_log s) Ho (fun g => signals_nonneg g _)) as (F1 & F2 & _).
  apply NoDup_cons in Hnd as [Hn Hnd]. split; [|done|..].
  - intros x Hx. destruct (Hj x) as (jx & Hjx & Hg); [set_solver|]. exists jx. split; [|done].
    rewrite Ej, lookup_delete_ne; [done|]. congruence.
  - intros x y jx jy. rewrite Ej, !lookup_delete_Some. intros [_ Hx] [_ Hy]. by eapply Hf.
  - intros f. rewrite O1. destruct (decide (f = j_hw_fence j)) as [->|Hne]; [lia|]. by rewrite F2.
Qed.

Lemma fini_all_ok ps s :
  leftover ps s ->
  exists s', fini_all ps s = Ok (tt, s') /\ k_dev s' = k_dev s
    /\ warned (k_log s') = warned (k_log s) /\ hw_of (k_log s') = hw_of (k_log s)
    /\ (forall p, p ∈ ps -> k_jobs s' !! p = None)
    /\ (forall p j, p ∈ ps -> k_jobs s !! p = Some j -> signals (j_hw_fence j) (k_log s') = 1)
    /\ (forall p, k_jobs s !! p = None -> k_jobs s' !! p = None)
    /\ (forall f, (forall p j, p ∈ ps -> k_jobs s !! p = Some j -> j_hw_fence j <> f) ->
          signals f (k_log s') = signals f (k_log s))
    /\ (forall r, held r (k_log s') = held r (k_log s) - jobs_hold r (k_jobs s) ps)
    /\ (forall f, given f (k_log s') = given f (k_log s)).
Proof.
  revert s. induction ps as [|p ps IH]; intros s Hlo; cbn [fini_all].
  { exists s. split_and!; try done; [set_solver|set_solver|intros r; cbn; lia]. }
  destruct (lo_jobs _ _ Hlo p) as (j & Hj & Hg); [set_solver|].
  destruct (fini_one_ok p j s Hj Hg) as (s1 & He1 & Ej1 & Ed1 & Hrel & Hh1).
  pose proof (leftover_next p ps j s s1 Hlo Hj Ej1 Hrel) as Hlo1.
  destruct (IH s1 Hlo1) as (s2 & He2 & Ed2 & Hw2 & Hhw2 & Hn2 & Hs2 & Hk2 & Ho2 & Hh2 & Hg2).
  destruct (released_obs _ _ Hrel) as (O1 & O2 & O3).
  destruct (failed_log_obs (j_hw_fence j) (k_log s) (lo_once _ _ Hlo) (fun g => signals_nonneg g _)) as (F1 & F2 & F3 & F4 & F5 & F6).
  pose proof (lo_nodup _ _ Hlo) as [Hn _]%NoDup_cons.
  assert (Hold : forall x jx, x ∈ ps -> k_jobs s !! x = Some jx -> k_jobs s1 !! x = Some jx).
  { intros x jx Hx Hjx. rewrite Ej1, lookup_delete_ne; [done|]. congruence. }
  assert (Hdel : k_jobs s1 !! p = None) by (rewrite Ej1; apply lookup_delete_eq).
  exists s2. rewrite (mbind_Ok _ _ _ _ _ He1). split_and!; [exact He2|congruence|congruence|congruence|..].
  - intros x [->|Hx]%elem_of_cons; [by apply Hk2|by apply Hn2].
  - intros x jx [->|Hx]%elem_of_cons Hjx; [|by eapply Hs2; [|apply Hold]]. rewrite Hj in Hjx. injection Hjx as <-.
    rewrite Ho2, O1; [done|]. intros y jy Hy Hjy Heq. rewrite Ej1, lookup_delete_Some in Hjy. destruct Hjy as [Hne Hjy].
    apply Hne. symmetry. by eapply (lo_fences _ _ Hlo).
  - intros x Hx. apply Hk2. rewrite Ej1. destruct (decide (x = p)) as [->|]; [apply lookup_delete_eq|].
    by rewrite lookup_delete_ne by congruence.
  - intros f Hf. rewrite Ho2, O1, F2; [done| |]; [intros ->; eapply Hf; [|exact Hj|done]; set_solver|].
    intros x jx Hx Hjx. rewrite Ej1, lookup_delete_Some in Hjx. eapply Hf; [|apply Hjx]. set_solver.
  - intros r. rewrite Hh2, Hh1, F5. cbn [jobs_hold]. unfold holds_at at 1. rewrite Hj.
    rewrite (jobs_hold_ext r (k_jobs s) (k_jobs s1)); [lia|]. intros x Hx. unfold holds_at.
    rewrite Ej1, lookup_delete_ne; [done|]. congruence.
  - intros f. by rewrite Hg2, (given_released f _ _ Hrel), F6.
Qed.

(** C11: Removal lets no waiter hang and leaks nothing. In any state the system can
    be in, [strela_job_fini] on what the scheduler still lists (the running job
    and those that ended, in any order) returns; afterwards the device is idle
    and reset, no warning fired, every one of these jobs is freed and its fence
    has been signalled exactly once; and when nothing was queued, every reference
    the driver ever took on buffers, job structs, scheduler jobs and sync
    objects has been given back, and so has every reference on a fence but those
    it handed to the scheduler when it ran the job, which the scheduler drops
    ([given]). The kernel's dma_fence_is_signaled is assumed to tell whether the
    fence was signalled ([HS]). *)
Theorem removal_completes k m ps :
  batch k [] -> rtc sys_step (start_machine k []) m -> ps ≡ₚ option_list (m_pending m) ++ m_retired m ->
  exists k', strela_job_fini ps (m_k m) = Ok (tt, k')
    /\ sd_active (k_dev k') = 0 /\ warned (k_log k') = false /\ hw_of (k_log k') = HIdle
    /\ (forall p j, p ∈ ps -> k_jobs (m_k m) !! p = Some j ->
           k_jobs k' !! p = None /\ signals (j_hw_fence j) (k_log k') = 1)
    /\ (m_queue m = [] ->
          (forall r, own r = true -> held r (k_log k') = held r (k_log k))
          /\ (forall f, held (RFence f) (k_log k') - given f (k_log k')
                       = held (RFence f) (k_log k) - given f (k_log k))).
Proof.
  intros Hb Hr Hps. destruct (sys_reachable_owned k m Hb Hr) as [Hinv [Ho Hof]%owned_held].
  unfold strela_job_fini, strela_job_abort, strela_hw_stop.
  set (s1 := mkK (Writel STRELA_CMD_CLEAR_STATE STRELA_REG_CTRL :: Writel STRELA_RESET_DMA_PULSE STRELA_REG_RESET_DMA
     :: Writel STRELA_CMD_CLEAR_CONFIG STRELA_REG_CTRL :: VCall drm_sched_fini :: VCall cancel_delayed_work_sync
     :: k_log (m_k m)) (dev_set_active (k_dev (m_k m)) 0) (k_jobs (m_k m)) (k_ram (m_k m))).
  assert (Hlo : leftover ps s1).
  { destruct Hinv as [_ Hjobs Hnd Hfen _ _ Honce _ _ _ _]. unfold all_jobs in *. split; try done.
    - intros p Hp. rewrite Hps in Hp. destruct (Hjobs p) as (_ & j & ? & ?); [set_solver|]. eauto.
    - rewrite Hps. by apply NoDup_app in Hnd as (_ & _ & ?). }
  destruct (fini_all_ok ps s1 Hlo) as (s2 & He & Hd & Hw & Hh & Hn & Hs & _ & _ & Hheld & Hgiven).
  exists s2. split_and!.
  - rewrite (mbind_Ok (vcall_ _) _ _ tt _ eq_refl), (mbind_Ok (vcall_ _) _ _ tt _ eq_refl).
    etransitivity; [|exact He]. unfold mbind_ at 1. unfold mbind_ at 1, update_dev, modify_, get_dev, mbind_, get_. cbn.
    rewrite (mi_sim _ Hinv). reflexivity.
  - by rewrite Hd.
  - rewrite Hw. exact (mi_warn _ Hinv).
  - rewrite Hh. pose proof (mi_hw _ Hinv). cbn. by destruct (hw_of (k_log (m_k m))).
  - intros p j Hp Hj. split; [by apply Hn|by eapply Hs].
  - intros Hq. unfold all_jobs in Ho, Hof. rewrite Hq in Ho, Hof. split.
    + intros r Hr'. rewrite Hheld, Hps. specialize (Ho r Hr').
      cbn [s1 k_log k_jobs held app] in *. rewrite Ho. destruct r; try discriminate; cbn; lia.
    + intros f. rewrite Hheld, Hgiven, Hps. specialize (Hof f). cbn [s1 k_log k_jobs held app given delta] in *. lia.
Qed.
End Remove.
