(* ===== verification/DrvLive.v ===== *)
(** * Every job ends

    Safety says what the driver does not do. Here: the scheduler is never left
    without something to do while jobs exist, even if the hardware never
    answers, and it can act only so often, however interrupts interleave; and a
    job whose hardware answers is completed. *)
From S2P Require Export DrvOwn.

(** What is left to do. A queued job is run, its timeout may fire and be
    handled in two parts, it ends and is freed; a timeout that fired is handled
    even when its job has ended. *)
Definition todo_pending (m : machine) : nat :=
  match m_pending m, m_stopping m, m_fired m with
  | Some _, true, _ => 2
  | Some _, false, Some _ => 4
  | Some _, false, None => 5
  | None, true, _ => 1
  | None, false, Some _ => 2
  | None, false, None => 0
  end.

Definition todo (m : machine) : nat := 6 * length (m_queue m) + todo_pending m + length (m_retired m).

(** The scheduler acted: its view of the jobs changed. *)
Definition moved (m m' : machine) : Prop :=
  (m_queue m, m_pending m, m_stopping m, m_retired m, m_fired m)
  <> (m_queue m', m_pending m', m_stopping m', m_retired m', m_fired m').

#[export] Instance moved_dec m m' : Decision (moved m m').
Proof. unfold moved. apply _. Defined.

Section Live.
Context {A : abi}.

Lemma step_todo m m' : step m m' -> (todo m' <= todo m)%nat /\ (moved m m' -> (todo m' < todo m)%nat).
Proof.
  intros Hs. destruct Hs; unfold todo, todo_pending, moved; cbn; rewrite ?length_app; cbn;
    repeat match goal with |- context [match ?x with _ => _ end] => destruct x end;
    cbn; (split; [lia|intros Hm]); lia || by destruct Hm.
Qed.

(** Runs, counting how often the scheduler acted. *)
Inductive run : nat -> machine -> machine -> Prop :=
| run_nil m : run 0 m m
| run_quiet n m1 m2 m3 : step m1 m2 -> ~ moved m1 m2 -> run n m2 m3 -> run n m1 m3
| run_move n m1 m2 m3 : step m1 m2 -> moved m1 m2 -> run n m2 m3 -> run (S n) m1 m3.

Lemma run_todo n m m' : run n m m' -> (n + todo m' <= todo m)%nat.
Proof.
  induction 1 as [m|n m1 m2 m3 Hs _ _ IH|n m1 m2 m3 Hs Hm _ IH]; [lia|..].
  - destruct (step_todo _ _ Hs). lia.
  - destruct (step_todo _ _ Hs) as [_ H]. specialize (H Hm). lia.
Qed.

(** While jobs exist, the scheduler can act, without the hardware. *)
Lemma progress m : minv m -> all_jobs m <> [] -> exists m', step m m' /\ moved m m'.
Proof.
  intros Hinv Hne. destruct (step_enabled m Hinv) as (Hrun & _ & _ & Htime & Hreset & Hfree).
  destruct m as [k q p st irq ret fi]. cbn in *. destruct st.
  { destruct fi as [job|]; [by destruct (mi_fired _ Hinv job eq_refl)|].
    destruct (Hreset eq_refl) as [k' He]. eexists. split; [by apply (step_reset k k')|]. by unfold moved; cbn. }
  destruct fi as [job|].
  { destruct (Htime job eq_refl) as [k' He]. eexists. split; [by eapply (step_timeout k k')|]. by unfold moved; cbn. }
  destruct ret as [|job ret].
  2: { destruct (Hfree job) as [k' He]; [set_solver|]. eexists.
       split; [by apply (step_free k k' job q p false irq [] ret)|].
       intros Heq. injection Heq as Heq. by apply (f_equal length) in Heq; cbn in Heq; lia. }
  destruct p as [job|]; [eexists; split; [apply step_fire|by unfold moved; cbn]|].
  destruct q as [|job q]; [done|]. destruct (Hrun job eq_refl) as (f & k' & He); [set_solver|].
  eexists. split; [by eapply (step_run k k' job [])|]. by unfold moved; cbn.
Qed.

Lemma drain m : minv m -> exists m', rtc step m m' /\ all_jobs m' = [].
Proof.
  remember (todo m) as n eqn:Hn. revert m Hn. induction n as [n IH] using lt_wf_ind. intros m -> Hinv.
  destruct (decide (all_jobs m = [])) as [|Hne]; [by eauto using rtc_refl|].
  destruct (progress m Hinv Hne) as (m1 & Hs & Hm). destruct (step_todo _ _ Hs) as [_ Hlt].
  destruct (IH (todo m1) (Hlt Hm) m1 eq_refl) as (m' & Hr & H0); [by eapply step_inv|]. exists m'. split; [by eapply rtc_l|done].
Qed.

(** C9: No job waits for ever. For a batch of jobs, in every reachable state:
    while a job is left, the scheduler can act without help from the hardware;
    and however interrupts and their thread interleave, it acts at most six
    times per job in the whole run. So a run in which it keeps acting ends with
    every job ended and freed. *)
Theorem jobs_always_end k q m n :
  batch k q -> run n (start_machine k q) m ->
  (n <= 6 * length q)%nat
  /\ (all_jobs m <> [] -> exists m', step m m' /\ moved m m')
  /\ exists m', rtc step m m' /\ all_jobs m' = [] /\ sd_active (k_dev (m_k m')) = 0.
Proof.
  intros Hb Hr. assert (Hrt : rtc step (start_machine k q) m).
  { clear Hb. induction Hr; [apply rtc_refl|by eapply rtc_l|by eapply rtc_l]. }
  pose proof (reachable_inv k q m Hb Hrt) as Hinv. split_and!.
  - pose proof (run_todo _ _ _ Hr) as H. unfold todo in H at 2. cbn in H. lia.
  - by apply progress.
  - destruct (drain m Hinv) as (m' & Hr' & H0). exists m'. split_and!; try done.
    assert (Hinv' : minv m') by (clear -Hinv Hr'; induction Hr'; eauto using step_inv).
    destruct (mi_active _ Hinv') as [|[_ Hp]]; [done|]. unfold all_jobs in H0. rewrite Hp in H0.
    by destruct (m_queue m').
Qed.

(** ** A job whose hardware answers *)

(** The status register reports the end of [ph]. *)
Definition reports (E : Env) (ph : strela_job_phase) : Prop :=
  forall l, let v := u32 (env_readl l STRELA_REG_CTRL) in
  match ph with
  | STRELA_JOB_PHASE_CONFIG => Z.land v STRELA_CMD_PENDING_INT_CONFIG <> 0
  | STRELA_JOB_PHASE_EXEC => Z.land v STRELA_CMD_PENDING_INT_CONFIG = 0 /\ Z.land v STRELA_CMD_PENDING_INT_EXEC <> 0
  end.

Lemma irq_wakes (E : Env) ph k :
  reports E ph ->
  exists k1, strela_irq_handler k = Ok (IRQ_WAKE_THREAD, k1)
    /\ match ph with
       | STRELA_JOB_PHASE_CONFIG => Z.land (sd_irq_status (k_dev k1)) STRELA_CMD_PENDING_INT_CONFIG <> 0
       | STRELA_JOB_PHASE_EXEC => Z.land (sd_irq_status (k_dev k1)) STRELA_CMD_PENDING_INT_CONFIG = 0
                                  /\ Z.land (sd_irq_status (k_dev k1)) STRELA_CMD_PENDING_INT_EXEC <> 0
       end.
Proof.
  intros Hr. specialize (Hr (k_log k)). cbv zeta in Hr.
  unfold strela_irq_handler, readl, mbind_, get_, emit, modify_, update_dev, writel, mret_. cbn.
  set (v := u32 _) in *. destruct ph.
  - rewrite (proj2 (Z.eqb_neq _ _) Hr). cbn. eexists. split; [reflexivity|]. exact Hr.
  - destruct Hr as [H1 H2]. rewrite H1, (proj2 (Z.eqb_neq _ _) H2). cbn. eexists. split; [reflexivity|]. by split.
Qed.

(** The interrupt and its thread, on a machine whose job is in that phase. *)
Lemma irq_round (E : Env) ph k q p ret fi j :
  minv (mkMach k q (Some p) false false ret fi) -> reports E ph ->
  sd_active (k_dev k) = p -> k_jobs k !! p = Some j -> j_phase j = ph ->
  exists k', rtc step (mkMach k q (Some p) false false ret fi) (mkMach k' q (Some p) false false ret fi)
    /\ match ph with
       | STRELA_JOB_PHASE_CONFIG => sd_active (k_dev k') = p
                                    /\ k_jobs k' !! p = Some (set_phase j STRELA_JOB_PHASE_EXEC)
       | STRELA_JOB_PHASE_EXEC => sd_active (k_dev k') = 0 /\ k_jobs k' !! p = Some j
                                  /\ signals (j_hw_fence j) (k_log k') = 1
       end.
Proof.
  intros Hinv Hrep Hact Hj Hph. destruct (irq_wakes E ph k Hrep) as (k1 & He & Hbits).
  destruct (irq_handler_ok (E := E) k) as (r & k1' & He' & Ej & Esim & Ea & Es & _). rewrite He in He'. injection He' as <- <-.
  assert (Hne : p <> 0).
  { destruct (mi_jobs _ Hinv p) as (? & _); [unfold all_jobs; cbn; set_solver|done]. }
  assert (Hsim : sd_is_sim (k_dev k1) = false) by (rewrite Esim; exact (mi_sim _ Hinv)).
  assert (Ht : strela_irq_thread_fn k1 = Ok (IRQ_HANDLED, phase_done_result ph (thread_start k1))).
  { unfold strela_irq_thread_fn. rewrite (mbind_Ok get_dev _ _ (k_dev k1) _ eq_refl), (mbind_Ok (update_dev _) _ _ tt _ eq_refl).
    fold (thread_start k1). assert (Hpd := phase_done_ok ph (thread_start k1) Hsim).
    destruct ph.
    - rewrite (proj2 (Z.eqb_neq _ _) Hbits). cbn [negb]. rewrite (mbind_Ok _ _ _ _ _ (Hpd ltac:(right; cbn; rewrite Ea, Hact, Ej; eauto))). done.
    - destruct Hbits as [-> H2]. rewrite (proj2 (Z.eqb_neq _ _) H2). cbn [negb Z.eqb].
      rewrite (mbind_Ok _ _ _ _ _ (Hpd ltac:(right; cbn; rewrite Ea, Hact, Ej; eauto))). done. }
  exists (phase_done_result ph (thread_start k1)). split.
  { eapply rtc_l; [eapply (step_irq (E := E)); exact He|]. eapply rtc_l; [eapply step_thread; exact Ht|apply rtc_refl]. }
  unfold phase_done_result. cbn [k_dev k_jobs thread_start set_dev dev_set_irq_status sd_active k_log].
  rewrite Ea, Hact, Ej, Hj. rewrite bool_decide_eq_true_2 by done. destruct ph; cbn.
  - rewrite Ea, Hact. split; [done|apply lookup_insert_eq].
  - split_and!; [done|done|]. rewrite Z.eqb_refl. rewrite Es.
    pose proof (mi_running _ Hinv p j eq_refl eq_refl Hj) as Hrun. cbn in Hrun.
    destruct Hrun as [(_ & -> & _)|[H0 _]]; [done|congruence].
Qed.

(** C12: A job whose hardware answers is completed: in any state of the open system
    in which a job is on the device and in its config phase, the interrupt that
    reports the configuration, its thread, the interrupt that reports the
    execution and its thread signal the job's fence exactly once and take it
    off the device, and the scheduler can then retire it. *)
Theorem job_completes (E1 E2 : Env) k m p j :
  batch k [] -> rtc sys_step (start_machine k []) m ->
  m_pending m = Some p -> m_stopping m = false -> m_irq m = false ->
  sd_active (k_dev (m_k m)) = p -> k_jobs (m_k m) !! p = Some j -> j_phase j = STRELA_JOB_PHASE_CONFIG ->
  reports E1 STRELA_JOB_PHASE_CONFIG -> reports E2 STRELA_JOB_PHASE_EXEC ->
  exists m', rtc step m m' /\ signals (j_hw_fence j) (k_log (m_k m')) = 1
    /\ sd_active (k_dev (m_k m')) = 0 /\ m_pending m' = None /\ m_retired m' = p :: m_retired m
    /\ m_queue m' = m_queue m.
Proof.
  intros Hb Hr Hp Hst Hirq Hact Hj Hph H1 H2. pose proof (sys_reachable_inv k [] m Hb Hr) as Hinv.
  destruct m as [k0 q p0 st irq ret fi]. cbn in Hp, Hst, Hirq, Hact, Hj |- *. subst p0 st irq.
  destruct (irq_round E1 _ k0 q p ret fi j Hinv H1 Hact Hj Hph) as (k1 & Hr1 & Hact1 & Hj1).
  assert (Hinv1 : minv (mkMach k1 q (Some p) false false ret fi)) by (clear -Hinv Hr1; induction Hr1; eauto using step_inv).
  destruct (irq_round E2 _ k1 q p ret fi _ Hinv1 H2 Hact1 Hj1 eq_refl) as (k2 & Hr2 & Hact2 & Hj2 & Hs).
  cbn [j_hw_fence set_phase] in Hs. exists (mkMach k2 q None false false (p :: ret) fi). cbn. split_and!; try done.
  etransitivity; [exact Hr1|]. etransitivity; [exact Hr2|]. apply rtc_once. eapply step_retire; [exact Hj2|]. cbn. lia.
Qed.
End Live.

(** ** Witnesses: a job submitted to an idle board *)
Lemma idle_batch : batch hw_state [].
Proof. split; try done; [constructor|set_solver]. Qed.

Lemma env64_ok : kernel_ok (E := env64) hw_state.
Proof. split; [done|done|]. intros l h o. cbn. destruct (h =? 1); [|done]. intros [= <-]. by vm_compute. Qed.

Lemma submit64_u32 : args_u32 submit64.
Proof. split; [by split|]. by repeat constructor. Qed.

(** What a computation leaves behind. *)
Definition state_after {X} (c : M kst X) (s : kst) : kst := match c s with Ok (_, s') => s' | Trap _ => s end.

Definition submitted : kst := state_after (strela_submit_ioctl (E := env64) submit64) hw_state.
Definition started : kst := state_after (strela_run_job (A := ARMv7) 100) submitted.

Definition demo_machine : machine := mkMach started [] (Some 100) false false [] None.

Lemma demo_reachable : rtc (sys_step (A := ARMv7)) (start_machine hw_state []) demo_machine.
Proof.
  apply rtc_l with (y := mkMach submitted [100] None false false [] None).
  - apply (sys_submit (E := env64) submit64 hw_state submitted 0 [] None false false [] None);
      [apply env64_ok|apply submit64_u32|vm_compute; reflexivity].
  - apply rtc_once, sys_machine. eapply (step_run _ _ _ []). vm_compute. reflexivity.
Qed.

Lemma system_safe_witness :
  warned (k_log (m_k demo_machine)) = false /\ NoDup (all_jobs demo_machine).
Proof.
  destruct (system_safe (A := ARMv7) hw_state demo_machine idle_batch demo_reachable) as (Hw & _ & _ & _ & Hn & _).
  exact (conj Hw Hn).
Defined.

Lemma system_balanced_witness :
  held (RObj obj64) (k_log (m_k demo_machine)) = 9
  /\ held (RObj obj64) (k_log (m_k demo_machine)) = jobs_hold (RObj obj64) (k_jobs started) [100].
Proof.
  destruct (system_balanced (A := ARMv7) hw_state demo_machine idle_batch demo_reachable) as [H _].
  split; [vm_compute; reflexivity|exact (H (RObj obj64) eq_refl)].
Defined.

(** A kernel that knows which fences were signalled. *)
Definition env_fences : Env := {|
  env_readl := fun _ _ => 0;
  env_kzalloc := fun _ _ => 0;
  env_gem_lookup := fun _ _ => None;
  env_dma_alloc := fun _ _ => (0, 0);
  env_icall := fun l c => match c with dma_fence_is_signaled f => signals f l | _ => 0 end
|}.

Lemma removal_completes_witness :
  exists k', strela_job_fini (E := env_fences) [100] started = Ok (tt, k')
    /\ sd_active (k_dev k') = 0 /\ held (RObj obj64) (k_log k') = 0.
Proof.
  destruct (removal_completes (A := ARMv7) (E := env_fences) ltac:(reflexivity) hw_state demo_machine [100]
    idle_batch demo_reachable ltac:(reflexivity)) as (k' & He & Ha & _ & _ & _ & Hh).
  exists k'. split; [exact He|]. split; [exact Ha|]. exact (proj1 (Hh eq_refl) (RObj obj64) eq_refl).
Defined.

Lemma jobs_always_end_witness :
  exists m, run (A := ARMv7) 1 (start_machine two_jobs [100; 101]) m
    /\ exists m', rtc (step (A := ARMv7)) m m' /\ all_jobs m' = [].
Proof.
  assert (Hr : exists m, run (A := ARMv7) 1 (start_machine two_jobs [100; 101]) m).
  { eexists. eapply run_move; [eapply (step_run _ _ _ []); vm_compute; reflexivity|by unfold moved|apply run_nil]. }
  destruct Hr as [m Hr]. exists m. split; [exact Hr|].
  destruct (jobs_always_end (A := ARMv7) two_jobs [100; 101] m 1 two_jobs_batch Hr) as (_ & _ & m' & H1 & H2 & _).
  exact (ex_intro _ m' (conj H1 H2)).
Defined.

Lemma job_completes_witness :
  exists m', rtc (step (A := ARMv7)) demo_machine m' /\ signals 200 (k_log (m_k m')) = 1 /\ m_retired m' = [100].
Proof.
  assert (Hj : exists j, k_jobs started !! 100 = Some j /\ j_phase j = STRELA_JOB_PHASE_CONFIG /\ j_hw_fence j = 200).
  { eexists. split; [vm_compute; reflexivity|]. by split. }
  destruct Hj as (j & Hj & Hph & Hf).
  destruct (job_completes (A := ARMv7) (env_status STRELA_CMD_PENDING_INT_CONFIG)
    (env_status STRELA_CMD_PENDING_INT_EXEC) hw_state demo_machine 100 j idle_batch demo_reachable)
    as (m' & H1 & H2 & _ & _ & H3 & _);
    [reflexivity|reflexivity|reflexivity|vm_compute; reflexivity|exact Hj|exact Hph
    |intros l; discriminate|intros l; split; [reflexivity|discriminate]|].
  exists m'. rewrite Hf in H2. exact (conj H1 (conj H2 H3)).
Defined.

(** The job submitted there is configured, executed and about to be reported. *)
Lemma demo_exec :
  exists m m', rtc (sys_step (A := ARMv7)) (start_machine hw_state []) m /\ sys_step (A := ARMv7) m m'
    /\ signals 200 (k_log (m_k m)) = 0 /\ signals 200 (k_log (m_k m')) = 1.
Proof.
  do 2 eexists. split.
  { etransitivity; [exact demo_reachable|]. unfold demo_machine.
    eapply rtc_l; [eapply sys_machine, (step_irq (E := env_status STRELA_CMD_PENDING_INT_CONFIG)); vm_compute; reflexivity|].
    eapply rtc_l; [eapply sys_machine, step_thread; vm_compute; reflexivity|].
    eapply rtc_l; [eapply sys_machine, (step_irq (E := env_status STRELA_CMD_PENDING_INT_EXEC)); vm_compute; reflexivity|].
    apply rtc_refl. }
  split; [eapply sys_machine, step_thread; vm_compute; reflexivity|]. by vm_compute.
Qed.

Lemma system_never_faults_witness :
  (exists r k', strela_irq_thread_fn (m_k demo_machine) = Ok (r, k'))
  /\ exists m m', rtc (sys_step (A := ARMv7)) (start_machine hw_state []) m /\ sys_step (A := ARMv7) m m'
       /\ signals 200 (k_log (m_k m')) = 1 /\ hw_of (k_log (m_k m)) = HExec.
Proof.
  split.
  - destruct (system_never_faults (A := ARMv7) hw_state demo_machine idle_batch demo_reachable)
      as (_ & _ & _ & (r & k' & He) & _).
    exists r, k'. exact He.
  - destruct demo_exec as (m & m' & Hr & Hs & H0 & H1). exists m, m'. split; [exact Hr|]. split; [exact Hs|].
    split; [exact H1|].
    assert (Hlt : signals 200 (k_log (m_k m)) < signals 200 (k_log (m_k m'))) by (rewrite H0, H1; reflexivity).
    destruct (system_never_faults (A := ARMv7) hw_state m idle_batch Hr) as (_ & _ & _ & _ & _ & _ & _ & Ht).
    exact (proj1 (Ht m' 200 Hs Hlt)).
Defined.
