(* ===== verification/DrvDma.v ===== *)
(** * Where the hardware may read and write, at any time

    The DMA registers are written when a job is started and stay as they are
    while it is on the device. So at every moment of the open system, what the
    CGRA may touch lies in buffers the running job was given, and on which it
    holds references. *)
From S2P Require Export DrvLive.

(** Registers that are not for control. *)
Definition dma_reg (r : Z) : Prop := r <> STRELA_REG_CTRL /\ r <> STRELA_REG_RESET_DMA.

(** The registers other than the control registers read the same. *)
Definition same_regs (l l' : list event) : Prop := forall r, dma_reg r -> reg_value l' r = reg_value l r.

#[export] Instance same_regs_preorder : PreOrder same_regs.
Proof. split; [done|]. intros l1 l2 l3 H1 H2 r Hr. by rewrite H2, H1. Qed.

Definition control_event (e : event) : Prop :=
  match e with Writel _ r => r = STRELA_REG_CTRL \/ r = STRELA_REG_RESET_DMA | _ => True end.

Lemma control_same es l : Forall control_event es -> same_regs l (es ++ l).
Proof.
  induction 1 as [|e es He _ IH]; [done|]. intros r Hr. cbn [app]. rewrite <- (IH r Hr).
  destruct e; cbn; try done. destruct Hr as [H1 H2]. by destruct He as [->| ->]; rewrite (proj2 (Z.eqb_neq _ _)) by congruence.
Qed.

Lemma released_same l l' : released l l' -> same_regs l l'.
Proof.
  intros (es & -> & Hes). apply control_same. eapply Forall_impl; [exact Hes|].
  intros e. by destruct e as [| | | | | |[]].
Qed.

(** Whether the ranges are confined depends on those registers only. *)
Lemma confined_same l l' j i inp st out :
  (i < STRELA_NUM_IO_COLS)%nat -> same_regs l l' -> confined l j i inp st out -> confined l' j i inp st out.
Proof.
  intros Hi Hs (C1 & C2 & C3). unfold confined, STRELA_NUM_IO_COLS in *.
  rewrite !Hs; [by split_and!|..];
    unfold dma_reg, STRELA_REG_CTRL, STRELA_REG_RESET_DMA, STRELA_REG_CONF_ADDR, STRELA_REG_CONF_SIZE,
      STRELA_REG_INP_ADDR, STRELA_REG_INP_SIZE, STRELA_REG_OUT_ADDR, STRELA_REG_OUT_SIZE; lia.
Qed.

Section Dma.
Context {A : abi}.

(** The job on the device is the one the registers were written for. *)
Definition programmed (k : kst) : Prop :=
  sd_active (k_dev k) <> 0 -> forall j, k_jobs k !! sd_active (k_dev k) = Some j ->
    exists l, same_regs (log_writes (job_writes j) l) (k_log k).

Lemma programmed_same k k' :
  sd_active (k_dev k') = sd_active (k_dev k) -> same_regs (k_log k) (k_log k') ->
  (forall j, k_jobs k' !! sd_active (k_dev k) = Some j ->
     exists j0, k_jobs k !! sd_active (k_dev k) = Some j0 /\ job_writes j = job_writes j0) ->
  programmed k -> programmed k'.
Proof.
  intros Ha Hr Hj Hp Hne j Hj'. rewrite Ha in Hne, Hj'. destruct (Hj j Hj') as (j0 & Hj0 & ->).
  destruct (Hp Hne j0 Hj0) as [l Hl]. exists l. by etransitivity.
Qed.

Lemma programmed_idle k : sd_active (k_dev k) = 0 -> programmed k.
Proof. intros Ha Hne. done. Qed.

Lemma run_log_programmed j l : same_regs (log_writes (job_writes j) l) (run_log j l).
Proof.
  unfold run_log. eapply (control_same [_; _; _; _]). repeat apply List.Forall_cons; cbn; auto.
Qed.

Lemma irq_handler_regs {E : Env} k r k' :
  strela_irq_handler k = Ok (r, k') -> same_regs (k_log k) (k_log k').
Proof.
  unfold strela_irq_handler, readl, mbind_, get_, emit, modify_, update_dev, writel. cbn.
  repeat break_if; intros [= <- <-]; cbn; first
    [by apply (control_same [_; _]); repeat apply List.Forall_cons; cbn; auto | by apply (control_same [_]); repeat constructor].
Qed.

Lemma phase_done_programmed ph k : programmed k -> programmed (phase_done_result ph k).
Proof.
  intros Hp. unfold phase_done_result. destruct (k_jobs k !! sd_active (k_dev k)) as [j|] eqn:Hj; [|done].
  case_bool_decide; [|done]. destruct ph; [|by apply programmed_idle].
  eapply (programmed_same k); [done| | |exact Hp].
  - by apply (control_same [_; _]); repeat apply List.Forall_cons; cbn; auto.
  - intros j'. cbn. rewrite lookup_insert_eq. intros [= <-]. by exists j.
Qed.

Lemma step_programmed m m' : minv m -> programmed (m_k m) -> step m m' -> programmed (m_k m').
Proof.
  intros Hinv Hp Hs. destruct Hs as [k k' job q1 q2 irq ret fi f He|E k k' q p st ret fi r He|k k' q p st ret fi r He
    |k job j q irq ret fi Hj Hsig|k job q irq ret|k k' job q p irq ret He|k k' q p irq ret He
    |k k' job q p st irq ret1 ret2 fi He _];
    pose proof Hinv as [Hsim Hjobs _ _ _ Hact _ _ _ _ _]; cbn [m_k m_queue m_pending m_stopping] in *.
  - destruct (Hjobs job) as (_ & j & Hj & Hg); [set_solver|]. destruct Hact as [Ha|[_ ?]]; [|done].
    rewrite (run_job_ok job j k Hj Hg Hsim Ha) in He. injection He as _ <-. intros Hne j'. cbn.
    rewrite lookup_insert_eq. intros [= <-]. exists (k_log k). exact (run_log_programmed j (k_log k)).
  - destruct (irq_handler_ok (E := E) k) as (r' & k1 & He' & Ej & _ & Ea & _). rewrite He in He'.
    injection He' as -> <-. eapply (programmed_same k); [done|by eapply irq_handler_regs| |done].
    intros j. rewrite Ej. eauto.
  - destruct (irq_thread_cases k Hsim (minv_active_job _ Hinv)) as (r1 & k1 & He1 & Hk). rewrite He1 in He.
    injection He as <- <-. assert (Hts : programmed (thread_start k)) by exact Hp.
    destruct Hk as [->|[ph ->]]; [done|by apply phase_done_programmed].
  - done.
  - done.
  - destruct (fired_job _ job Hinv eq_refl) as [j Hj]. cbn in Hj. rewrite (timeout_begin_ok _ _ _ Hj) in He.
    injection He as <-. by apply programmed_idle.
  - assert (Ha : sd_active (k_dev k) = 0) by (by destruct Hact as [|[? _]]).
    rewrite (hw_stop_ok k Hsim Ha) in He. injection He as <-. by apply programmed_idle.
  - destruct (Hjobs job) as (_ & j & Hj & Hg); [set_solver|]. destruct (jg_cols _ Hg) as [L1 L2].
    destruct (free_job_ok job j k Hj L1 L2) as (k1 & He1 & Ej & Ed & Hrel & _). rewrite He1 in He. injection He as <-.
    eapply (programmed_same k); [by rewrite Ed|by apply released_same| |done].
    intros j'. rewrite Ej. intros [_ Hj']%lookup_delete_Some. eauto.
Qed.

Lemma sys_step_programmed m m' : minv m -> programmed (m_k m) -> sys_step m m' -> programmed (m_k m').
Proof.
  intros Hinv Hp Hs. destruct Hs as [m m' Hs|E args k k' ret q p st irq retired fi Hko Hargs He]; [by eapply step_programmed|].
  destruct (submit_ok args k (proj1 Hargs) (ko_job _ Hko)) as (ret' & s' & He' & Hfail & Hok).
  rewrite He in He'. injection He' as <- <-. destruct (submit_obs _ _ _ _ He) as [(Ea & _ & _ & _ & _ & _ & _ & Er) _].
  cbn [m_k] in *. eapply (programmed_same k); [done|intros r _; apply Er| |done]. intros j Hj'.
  destruct (Z.eq_dec ret 0) as [->|Hne]; [|destruct (Hfail Hne) as [Ej _]; rewrite Ej in Hj'; eauto].
  destruct (Hok eq_refl) as (job & j0 & Ej & _ & (H0 & -> & _) & _). rewrite Ej in Hj'.
  apply lookup_insert_Some in Hj' as [[Heq _]|[_ Hj']]; [|eauto].
  destruct (minv_active_job _ Hinv) as [Ha|[x Hx]]; cbn [m_k] in *; [congruence|].
  rewrite <- Heq, (ko_job _ Hko) in Hx. done.
Qed.

Lemma sys_reachable_programmed k m :
  batch k [] -> rtc sys_step (start_machine k []) m -> programmed (m_k m).
Proof.
  intros Hb Hr. assert (H0 : minv (start_machine k []) /\ programmed (m_k (start_machine k []))).
  { split; [by apply batch_inv|]. apply programmed_idle, (ba_idle _ _ Hb). }
  clear Hb. destruct H0 as [Hi Hp]. induction Hr as [|m1 m2 m3 Hs _ IH]; [done|].
  apply IH; [by eapply sys_step_inv|by eapply sys_step_programmed].
Qed.

(** C2: The hardware never reaches outside memory that is held for it. In any
    state of the open system in which a job is on the device, the address and
    size registers of the configuration and of every column, as they were last
    written, describe ranges inside the buffers that job was given; and on each
    of these buffers the driver holds a reference it took for the job, so that
    the client cannot make it go away. *)
Theorem dma_in_held_buffers k m j i inp st out :
  batch k [] -> rtc sys_step (start_machine k []) m ->
  sd_active (k_dev (m_k m)) <> 0 -> k_jobs (m_k m) !! sd_active (k_dev (m_k m)) = Some j ->
  (i < STRELA_NUM_IO_COLS)%nat ->
  j_inputs j !! i = Some inp -> j_input_strides j !! i = Some st -> j_outputs j !! i = Some out ->
  confined (k_log (m_k m)) j i inp st out
  /\ forall b o, b ∈ [j_config j; inp; out] -> b_obj b = Some o ->
       held (RObj o) (k_log k) < held (RObj o) (k_log (m_k m)).
Proof.
  intros Hb Hr Hne Hj Hi Hin Hst Hout. pose proof (sys_reachable_inv k [] m Hb Hr) as Hinv.
  destruct (mi_active _ Hinv) as [?|[_ Hp]]; [done|].
  assert (Hall : sd_active (k_dev (m_k m)) ∈ all_jobs m) by (unfold all_jobs; rewrite Hp; set_solver).
  destruct (mi_jobs _ Hinv _ Hall) as (_ & j' & Hj' & Hg). rewrite Hj in Hj'. injection Hj' as <-. split.
  - destruct (sys_reachable_programmed k m Hb Hr Hne j Hj) as [l Hl].
    eapply confined_same; [done|exact Hl|by apply job_writes_confined].
  - intros b o Hbin Ho. eapply held_more; [done|done|exact Hall|exact Hj| |exact Ho].
    apply list_elem_of_lookup_2 in Hin, Hout. set_solver.
Qed.
End Dma.

Lemma dma_in_held_buffers_witness :
  exists j inp out, k_jobs started !! 100 = Some j
    /\ confined (k_log started) j 2 inp 2 out /\ 0 < held (RObj obj64) (k_log started).
Proof.
  assert (Hj : exists j inp out, k_jobs started !! 100 = Some j /\ j_inputs j !! 2%nat = Some inp
            /\ j_input_strides j !! 2%nat = Some 2 /\ j_outputs j !! 2%nat = Some out /\ b_obj inp = Some obj64).
  { do 3 eexists. split; [vm_compute; reflexivity|]. split_and!; reflexivity. }
  destruct Hj as (j & inp & out & Hj & Hi & Hst & Ho & Hobj). exists j, inp, out. split; [exact Hj|].
  destruct (dma_in_held_buffers (A := ARMv7) hw_state demo_machine j 2 inp 2 out idle_batch demo_reachable)
    as [Hc Hh]; [vm_compute; discriminate|exact Hj|unfold STRELA_NUM_IO_COLS; lia|exact Hi|exact Hst|exact Ho|].
  split; [exact Hc|]. specialize (Hh inp obj64 ltac:(constructor 2; constructor 1) Hobj).
  change (k_log (m_k demo_machine)) with (k_log started) in Hh.
  change (held (RObj obj64) (k_log hw_state)) with 0 in Hh. exact Hh.
Defined.
