(* ===== verification/DrvOrder.v ===== *)
(** * Jobs run and complete in the order they were pushed

    For one client (or any clients whose jobs the scheduler takes in the order
    they were pushed) the device is a first-in first-out server: [fifo], in
    terms of the numbers of the jobs' fences only. The driver implements it, so
    jobs are started and their fences signalled in the order in which they were
    pushed to the scheduler. Numbers name fences here and are not an order:
    strela_submit_ioctl takes the number under the lock and pushes the job
    later without it, so two submissions at once may push out of number order;
    the abstract server keeps the two apart for that reason. Across clients
    there is no order at all: [fences_out_of_order]. *)
From S2P Require Export DrvDma.

(** ** The abstract server *)
Record fifo := mkFifo {
  f_next : Z;                (* the number given last *)
  f_pushed : list Z;         (* numbers of the jobs pushed, in that order *)
  f_queue : list Z;          (* numbers of the jobs that wait, the first to run first *)
  f_active : option Z;       (* the number of the job being served *)
  f_started : list Z;        (* numbers of the jobs started, latest first *)
  f_signalled : list Z       (* numbers of the fences signalled, latest first *)
}.

Inductive fifo_step : fifo -> fifo -> Prop :=
| fifo_number n ps q a st sg : fifo_step (mkFifo n ps q a st sg) (mkFifo (n + 1) ps q a st sg)
| fifo_push n ps q a st sg x :
    x <= n -> x ∉ ps -> fifo_step (mkFifo n ps q a st sg) (mkFifo n (ps ++ [x]) (q ++ [x]) a st sg)
| fifo_start n ps x q st sg :
    fifo_step (mkFifo n ps (x :: q) None st sg) (mkFifo n ps q (Some x) (x :: st) sg)
| fifo_signal n ps q x st sg :
    fifo_step (mkFifo n ps q (Some x) st sg) (mkFifo n ps q None st (x :: sg))
| fifo_drop n ps q x st sg : fifo_step (mkFifo n ps q (Some x) st sg) (mkFifo n ps q None st sg).

(** The invariant of the server: the jobs started and then the jobs that wait
    are the jobs pushed, in the order they were pushed; the fences signalled,
    then the active job, then the jobs that wait are in that order too. *)
Record fifo_ok (F : fifo) : Prop := {
  fo_started : reverse (f_started F) ++ f_queue F = f_pushed F;
  fo_signalled : reverse (f_signalled F) ++ option_list (f_active F) ++ f_queue F `sublist_of` f_pushed F;
  fo_nodup : NoDup (f_pushed F);
  fo_next : Forall (fun x => x <= f_next F) (f_pushed F)
}.

Lemma fifo_step_ok F F' : fifo_step F F' -> fifo_ok F -> fifo_ok F'.
Proof.
  intros Hs. destruct Hs; intros [H1 H2 H3 H4];
    cbn [f_started f_queue f_pushed f_signalled f_active f_next option_list] in H1, H2, H3, H4;
    split; cbn [f_started f_queue f_pushed f_signalled f_active f_next option_list]; try done.
  - eapply Forall_impl; [exact H4|]. cbn. lia.
  - by rewrite app_assoc, H1.
  - rewrite !app_assoc, <- (app_assoc (reverse sg)). by apply sublist_app.
  - apply NoDup_app. split_and!; [done|set_solver|apply NoDup_singleton].
  - apply Forall_app. split; [done|]. by repeat constructor.
  - by rewrite reverse_cons, <- app_assoc.
  - by rewrite reverse_cons, <- app_assoc.
  - etransitivity; [|exact H2]. apply sublist_app; [done|]. by apply sublist_inserts_l.
Qed.

Definition fifo_init (n : Z) : fifo := mkFifo n [] [] None [] [].

Lemma fifo_init_ok n : fifo_ok (fifo_init n).
Proof. by split; cbn; [|apply sublist_nil|apply NoDup_nil|constructor]. Qed.

Lemma fifo_reach_ok n F : rtc fifo_step (fifo_init n) F -> fifo_ok F.
Proof.
  intros Hr. pose proof (fifo_init_ok n) as Hok. induction Hr; [done|eauto using fifo_step_ok].
Qed.

(** ** What a log says about the numbers *)

(** The number of fence [f]: as it was initialised last. *)
Fixpoint seqno_of (f : Z) (l : list event) : Z :=
  match l with
  | [] => 0
  | VCall (dma_fence_init f' _ n) :: l => if f' =? f then n else seqno_of f l
  | _ :: l => seqno_of f l
  end.

(** The numbers of the fences signalled, and of the fences handed to the
    scheduler when their jobs were started. *)
Fixpoint signal_seqnos (l : list event) : list Z :=
  match l with
  | [] => []
  | VCall (dma_fence_signal f) :: l => seqno_of f l :: signal_seqnos l
  | _ :: l => signal_seqnos l
  end.

Fixpoint start_seqnos (l : list event) : list Z :=
  match l with
  | [] => []
  | VCall (dma_fence_get f) :: l => seqno_of f l :: start_seqnos l
  | _ :: l => start_seqnos l
  end.

(** Two logs say the same about the numbers. *)
Record same_order (l l' : list event) : Prop := {
  so_seqno : forall f, seqno_of f l' = seqno_of f l;
  so_signal : signal_seqnos l' = signal_seqnos l;
  so_start : start_seqnos l' = start_seqnos l
}.

#[export] Instance same_order_preorder : PreOrder same_order.
Proof.
  split; [by split|]. intros l1 l2 l3 [A1 A2 A3] [B1 B2 B3].
  split; [intros f; by rewrite B1, A1|by rewrite B2, A2|by rewrite B3, A3].
Qed.

(** Events that are not about numbered fences. *)
Definition inert (e : event) : Prop :=
  match e with
  | VCall (dma_fence_init _ _ _) | VCall (dma_fence_signal _) | VCall (dma_fence_get _) => False
  | _ => True
  end.

Lemma inert_same es l : Forall inert es -> same_order l (es ++ l).
Proof.
  induction 1 as [|e es He _ IH]; [reflexivity|]. etransitivity; [exact IH|].
  destruct e as [| | | | | |c]; try done. by destruct c.
Qed.

Lemma calm_same es l : Forall calm_event es -> same_order l (es ++ l).
Proof.
  intros H. apply inert_same. eapply Forall_impl; [exact H|]. intros e. by destruct e as [| | | | | |[]].
Qed.

Lemma released_order l l' : released l l' -> same_order l l'.
Proof.
  intros (es & -> & Hes). apply inert_same. eapply Forall_impl; [exact Hes|]. intros e. by destruct e as [| | | | | |[]].
Qed.

Lemma writes_order ws l : same_order l (log_writes ws l).
Proof.
  induction ws as [|w ws IH] using rev_ind; [reflexivity|]. rewrite log_writes_app. etransitivity; [exact IH|].
  by apply (inert_same [_]); repeat constructor.
Qed.

Lemma irq_handler_order {E : Env} k r k' :
  strela_irq_handler k = Ok (r, k') ->
  same_order (k_log k) (k_log k') /\ sd_fence_seqno (k_dev k') = sd_fence_seqno (k_dev k).
Proof.
  unfold strela_irq_handler, readl, mbind_, get_, emit, modify_, update_dev, writel. cbn.
  repeat break_if; intros [= <- <-]; cbn; (split; [|done]); first
    [by apply (inert_same [_; _]); repeat constructor | by apply (inert_same [_]); repeat constructor].
Qed.

(** ** The driver implements the server *)

(** The number of a job's fence. *)
Definition job_seq (k : kst) (p : Z) : Z :=
  match k_jobs k !! p with Some j => seqno_of (j_hw_fence j) (k_log k) | None => 0 end.

(** The server a machine is, when the jobs [ps] have been pushed so far. *)
Definition abs (ps : list Z) (m : machine) : fifo :=
  let k := m_k m in
  mkFifo (sd_fence_seqno (k_dev k)) ps (job_seq k <$> m_queue m)
         (if sd_active (k_dev k) =? 0 then None else Some (job_seq k (sd_active (k_dev k))))
         (start_seqnos (k_log k)) (signal_seqnos (k_log k)).

(** The scheduler takes the job that was pushed first. *)
Definition in_order (m m' : machine) : Prop :=
  forall p, m_pending m = None -> m_pending m' = Some p -> head (m_queue m) = Some p.

(** The numbers of the jobs a step pushes: those new at the end of the queue. *)
Definition new_pushes (m m' : machine) : list Z :=
  job_seq (m_k m') <$> drop (length (m_queue m)) (m_queue m').

(** The 64-bit counter of fences is not at its end. *)
Definition numbered (m : machine) : Prop := 0 <= sd_fence_seqno (k_dev (m_k m)) < 2 ^ 64 - 1.

Lemma job_seq_same k k' x :
  (forall f, seqno_of f (k_log k') = seqno_of f (k_log k)) ->
  j_hw_fence <$> k_jobs k' !! x = j_hw_fence <$> k_jobs k !! x -> job_seq k' x = job_seq k x.
Proof.
  intros Hs Hf. unfold job_seq. destruct (k_jobs k' !! x), (k_jobs k !! x); cbn in Hf; try done.
  injection Hf as ->. apply Hs.
Qed.

Section Order.
Context {A : abi}.

Definition sys_fifo (m m' : machine) : Prop := sys_step m m' /\ in_order m m' /\ numbered m.

(** Runs of the system, with the numbers of the jobs pushed, in order. *)
Inductive fifo_run (m0 : machine) : list Z -> machine -> Prop :=
| run_start : fifo_run m0 [] m0
| run_step ps m m' : fifo_run m0 ps m -> sys_fifo m m' -> fifo_run m0 (ps ++ new_pushes m m') m'.

Lemma fifo_run_l m0 m1 ps m :
  sys_fifo m0 m1 -> fifo_run m1 ps m -> fifo_run m0 (new_pushes m0 m1 ++ ps) m.
Proof.
  intros Hs Hr. induction Hr as [|ps m m' _ IH Hs'].
  - rewrite app_nil_r. exact (run_step m0 [] m0 m1 (run_start m0) Hs).
  - rewrite app_assoc. by apply run_step.
Qed.

Lemma abs_same ps k k' q p p' st st' irq irq' ret ret' fi fi' :
  same_order (k_log k) (k_log k') -> sd_fence_seqno (k_dev k') = sd_fence_seqno (k_dev k) ->
  sd_active (k_dev k') = sd_active (k_dev k) ->
  (forall x, x ∈ q \/ x = sd_active (k_dev k) -> j_hw_fence <$> k_jobs k' !! x = j_hw_fence <$> k_jobs k !! x) ->
  abs ps (mkMach k' q p' st' irq' ret' fi') = abs ps (mkMach k q p st irq ret fi).
Proof.
  intros [H1 H2 H3] Hn Ha Hx. unfold abs. cbn [m_k m_queue]. rewrite Hn, Ha, H2, H3. f_equal.
  - apply list_fmap_ext. intros i x Hi. apply job_seq_same; [done|]. apply Hx. left. by eapply list_elem_of_lookup_2.
  - destruct (_ =? 0); [done|]. f_equal. apply job_seq_same; [done|]. apply Hx. by right.
Qed.

(** Taking the job off the device without signalling it. *)
Lemma abs_drop ps k k' q p p' st st' irq irq' ret ret' fi fi' :
  same_order (k_log k) (k_log k') -> k_jobs k' = k_jobs k ->
  sd_fence_seqno (k_dev k') = sd_fence_seqno (k_dev k) -> sd_active (k_dev k') = 0 ->
  let m := mkMach k q p st irq ret fi in
  let m' := mkMach k' q p' st' irq' ret' fi' in
  abs ps m' = abs ps m \/ fifo_step (abs ps m) (abs ps m').
Proof.
  intros Hl Hj Hn Ha m m'. destruct (Z.eqb_spec (sd_active (k_dev k)) 0) as [E0|Hne].
  - left. apply abs_same; [done|done|by rewrite E0|]. intros x _. by rewrite Hj.
  - right. destruct Hl as [H1 H2 H3].
    assert (Hq : job_seq k' <$> q = job_seq k <$> q).
    { apply list_fmap_ext. intros i x _. apply job_seq_same; [done|]. by rewrite Hj. }
    unfold abs. cbn. rewrite (proj2 (Z.eqb_neq _ _) Hne), Ha, H2, H3, Hn, Hq. apply fifo_drop.
Qed.

Lemma fence_phase (jobs : gmap Z strela_job) a ja ph x :
  jobs !! a = Some ja -> j_hw_fence <$> <[a := set_phase ja ph]> jobs !! x = j_hw_fence <$> jobs !! x.
Proof.
  intros Ha. destruct (decide (x = a)) as [->|]; [by rewrite lookup_insert_eq, Ha|by rewrite lookup_insert_ne].
Qed.

Lemma phase_done_abs ps ph k q p st irq irq' ret fi :
  let m := mkMach k q p st irq ret fi in
  let m' := mkMach (phase_done_result ph k) q p st irq' ret fi in
  abs ps m' = abs ps m \/ fifo_step (abs ps m) (abs ps m').
Proof.
  cbn zeta. unfold phase_done_result. destruct (k_jobs k !! sd_active (k_dev k)) as [j|] eqn:Hj; [|by left].
  case_bool_decide as Hb; [|by left]. destruct Hb as [Hne Hph]. destruct ph.
  - left. apply abs_same; [|done|done|intros x _; by apply fence_phase].
    apply (inert_same [Writel STRELA_CMD_START_EXEC STRELA_REG_CTRL; Writel STRELA_CMD_CLEAR_STATE STRELA_REG_CTRL]).
    by repeat constructor.
  - right. unfold abs. cbn. rewrite (proj2 (Z.eqb_neq _ _) Hne). unfold job_seq at 2. rewrite Hj. apply fifo_signal.
Qed.

Lemma run_abs ps k job j q irq irq' ret ret' fi fi' :
  sd_active (k_dev k) = 0 -> job <> 0 -> k_jobs k !! job = Some j ->
  let k' := mkK (run_log j (k_log k)) (dev_set_active (k_dev k) job)
                (<[job := set_phase j STRELA_JOB_PHASE_CONFIG]> (k_jobs k)) (k_ram k) in
  fifo_step (abs ps (mkMach k (job :: q) None false irq ret fi)) (abs ps (mkMach k' q (Some job) false irq' ret' fi')).
Proof.
  intros Ha H0 Hj k'. assert (Hl : same_order (k_log k) (log_writes (job_writes j) (k_log k))) by apply writes_order.
  destruct Hl as [H1 H2 H3]. assert (Hs : forall x, job_seq k' x = job_seq k x).
  { intros x. apply job_seq_same; [exact H1|by apply fence_phase]. }
  unfold abs. cbn [m_k m_queue]. rewrite (list_fmap_ext (job_seq k') (job_seq k)) by (intros; apply Hs).
  rewrite Hs, Ha. cbn [k' k_dev k_log sd_active dev_set_active sd_fence_seqno fmap list_fmap Z.eqb].
  rewrite (proj2 (Z.eqb_neq _ _) H0). unfold run_log. cbn [start_seqnos signal_seqnos seqno_of].
  rewrite H1, H2, H3. assert (Hseq : job_seq k job = seqno_of (j_hw_fence j) (k_log k)) by (unfold job_seq; by rewrite Hj).
  rewrite Hseq. apply fifo_start.
Qed.

Lemma step_abs ps m m' :
  minv m -> step m m' -> in_order m m' -> abs ps m' = abs ps m \/ fifo_step (abs ps m) (abs ps m').
Proof.
  intros Hinv Hs Hord. destruct Hs as [k k' job q1 q2 irq ret fi f He|E k k' q p st ret fi r He|k k' q p st ret fi r He
    |k job j q irq ret fi Hj Hsig|k job q irq ret|k k' job q p irq ret He|k k' q p irq ret He
    |k k' job q p st irq ret1 ret2 fi He _];
    pose proof Hinv as [Hsim Hjobs Hnd _ _ Hact _ _ _ _ _]; cbn [m_k m_queue m_pending m_stopping] in *.
  - destruct (Hjobs job) as (Hj0 & j & Hj & Hg); [set_solver|]. destruct Hact as [Ha|[_ ?]]; [|done].
    rewrite (run_job_ok job j k Hj Hg Hsim Ha) in He. injection He as _ <-.
    assert (q1 = []) as ->.
    { specialize (Hord job eq_refl eq_refl). destruct q1 as [|a q1]; [done|]. injection Hord as ->.
      cbn in Hnd. apply NoDup_cons in Hnd as [Hn _]. set_solver. }
    right. by apply run_abs.
  - destruct (irq_handler_ok (E := E) k) as (r' & k1 & He' & Ej & _ & Ea & _). rewrite He in He'. injection He' as <- <-.
    destruct (irq_handler_order _ _ _ He) as [Hl Hn]. left. apply abs_same; [done|done|done|]. intros x _. by rewrite Ej.
  - destruct (irq_thread_cases k Hsim (minv_active_job _ Hinv)) as (r1 & k1 & He1 & Hk). rewrite He1 in He.
    injection He as <- <-. destruct Hk as [->|[ph ->]]; [by left|].
    exact (phase_done_abs ps ph (thread_start k) q p st false false ret fi).
  - by left.
  - by left.
  - destruct (fired_job _ job Hinv eq_refl) as [j Hj]. cbn in Hj. rewrite (timeout_begin_ok _ _ _ Hj) in He.
    injection He as <-. by apply abs_drop.
  - assert (Ha : sd_active (k_dev k) = 0) by (by destruct Hact as [|[? _]]).
    rewrite (hw_stop_ok k Hsim Ha) in He. injection He as <-. left. by apply abs_same.
  - destruct (Hjobs job) as (_ & j & Hj & Hg); [set_solver|]. destruct (jg_cols _ Hg) as [L1 L2].
    destruct (free_job_ok job j k Hj L1 L2) as (k1 & He1 & Ej & Ed & Hrel & _). rewrite He1 in He. injection He as <-.
    left. apply abs_same; rewrite ?Ed; [by apply released_order|done|done|]. intros x Hx.
    rewrite Ej. destruct (decide (x = job)) as [->|Hne]; [exfalso|by rewrite lookup_delete_ne].
    destruct Hx as [Hx|Hx].
    + apply NoDup_app in Hnd as (_ & Hnd & _). apply (Hnd job Hx). set_solver.
    + destruct Hact as [H0|[_ Hp]]; [by destruct (Hjobs job) as [? _]; [set_solver|congruence]|].
      rewrite <- Hx in Hp. subst p. apply NoDup_app in Hnd as (_ & _ & Hnd). cbn in Hnd.
      apply NoDup_cons in Hnd as [Hn _]. set_solver.
Qed.

(** What a submission does to the numbers: nothing, or it takes the next one,
    for the job it pushes if it succeeds. *)
Lemma submit_numbers {E : Env} args m ret k' :
  let k := m_k m in let n := sd_fence_seqno (k_dev k) in
  minv m -> kernel_ok k -> args_u32 args -> numbered m -> strela_submit_ioctl args k = Ok (ret, k') ->
  (ret <> 0 /\ same_order (k_log k) (k_log k') /\ k_dev k' = k_dev k /\ k_jobs k' = k_jobs k)
  \/ (k_dev k' = dev_set_seqno (k_dev k) (n + 1)
      /\ signal_seqnos (k_log k') = signal_seqnos (k_log k) /\ start_seqnos (k_log k') = start_seqnos (k_log k)
      /\ (forall x, x ∈ all_jobs m -> job_seq k' x = job_seq k x)
      /\ (ret = 0 -> job_seq k' (env_kzalloc (k_log k) A_job) = n + 1)).
Proof.
  intros k n Hinv Hko Hargs Hn He. destruct (submit_ok args k (proj1 Hargs) (ko_job _ Hko)) as (ret' & s' & He' & Hfail & Hok).
  rewrite He in He'. injection He' as <- <-.
  assert (Hwrap : u64 (n + 1) = n + 1) by (apply Z.mod_small; unfold numbered in Hn; fold k n in Hn; lia).
  destruct (submit_shape _ _ _ _ He) as [_ [(Hret & Hd & es & Hl & Hes)|(Hd & es & es0 & Hes & Hes0 & Hl)]].
  { left. destruct (Hfail Hret) as [Ej _]. split_and!; [done| |done|done]. rewrite Hl. by apply calm_same. }
  right. fold n in Hd, Hl. rewrite Hwrap in Hd, Hl. destruct (calm_same es0 (k_log k) Hes0) as [P1 P2 P3].
  destruct (calm_same es (VCall (dma_fence_init (new_fence k) (sd_fence_context (k_dev k)) (n + 1))
    :: es0 ++ k_log k) Hes) as [O1 O2 O3]. rewrite <- Hl in O1, O2, O3.
  cbn [seqno_of signal_seqnos start_seqnos] in O1, O2, O3. split_and!; [done|congruence|congruence|..].
  - intros x Hx. destruct (mi_jobs _ Hinv _ Hx) as (_ & j & Hj & _). fold k in Hj.
    assert (Hx' : k_jobs k' !! x = Some j).
    { destruct (Z.eq_dec ret 0) as [->|Hne]; [|by destruct (Hfail Hne) as [-> _]].
      destruct (Hok eq_refl) as (job & j' & -> & _ & (_ & -> & _) & _). rewrite lookup_insert_ne; [done|].
      intros <-. by rewrite (ko_job _ Hko) in Hj. }
    unfold job_seq. rewrite Hx', Hj, O1, P1.
    by rewrite (proj2 (Z.eqb_neq (new_fence k) _)) by (intros Heq; by eapply (ko_fence _ Hko), eq_sym).
  - intros ->. destruct (Hok eq_refl) as (job & j & Ej & _ & (_ & -> & Hf) & _).
    unfold job_seq. by rewrite Ej, lookup_insert_eq, Hf, O1, Z.eqb_refl.
Qed.

Lemma submit_abs {E : Env} ps args k k' ret q p st irq retired fi :
  let m := mkMach k q p st irq retired fi in
  let m' := mkMach k' (if ret =? 0 then q ++ pushed (k_log k') else q) p st irq retired fi in
  minv m -> kernel_ok k -> args_u32 args -> numbered m -> strela_submit_ioctl args k = Ok (ret, k') ->
  fifo_ok (abs ps m) -> rtc fifo_step (abs ps m) (abs (ps ++ new_pushes m m') m').
Proof.
  intros m m' Hinv Hko Hargs Hn He Hok.
  destruct (submit_numbers args m ret k' Hinv Hko Hargs Hn He) as [(Hret & Hl & Hd & Hj)|(Hd & H2 & H3 & Hseq & Hnew)].
  { subst m'. rewrite (proj2 (Z.eqb_neq _ _) Hret). unfold new_pushes. cbn [m m_queue]. rewrite drop_all, app_nil_r.
    unfold m. rewrite (abs_same ps k k' q p p st st irq irq retired retired fi fi); [done|done|by rewrite Hd..|].
    intros x _. by rewrite Hj. }
  cbn [m_k m] in H2, H3, Hd, Hnew. fold m in Hseq.
  assert (Hq : job_seq k' <$> q = job_seq k <$> q).
  { apply list_fmap_ext. intros i x Hi. apply Hseq. unfold all_jobs. cbn. apply list_elem_of_lookup_2 in Hi. set_solver. }
  assert (Ha : (if sd_active (k_dev k) =? 0 then None else Some (job_seq k' (sd_active (k_dev k))))
             = (if sd_active (k_dev k) =? 0 then None else Some (job_seq k (sd_active (k_dev k))))).
  { destruct (Z.eqb_spec (sd_active (k_dev k)) 0) as [|Hne]; [done|]. rewrite Hseq; [done|].
    destruct (mi_active _ Hinv) as [?|[_ Hp]]; [done|]. unfold all_jobs. cbn in *. subst p. set_solver. }
  unfold new_pushes, abs. cbn [m m' m_k m_queue]. rewrite Hd, H2, H3. cbn [sd_fence_seqno sd_active dev_set_seqno].
  rewrite Ha. eapply rtc_l; [apply fifo_number|].
  destruct (Z.eqb_spec ret 0) as [->|Hne]; [|by rewrite drop_all, app_nil_r, Hq].
  rewrite (submit_pushes _ _ _ He), drop_app_length, fmap_app, Hq. cbn [fmap list_fmap]. rewrite Hnew by done.
  apply rtc_once, fifo_push; [done|]. intros Hin. pose proof (fo_next _ Hok) as HF. rewrite Forall_forall in HF.
  specialize (HF _ Hin). cbn in HF. lia.
Qed.

(** A step of the machine itself pushes nothing. *)
Lemma step_pushes m m' : step m m' -> new_pushes m m' = [].
Proof.
  intros Hs. unfold new_pushes. destruct Hs; cbn [m_k m_queue]; rewrite drop_ge; try done.
  rewrite !length_app. cbn. lia.
Qed.

Lemma sys_fifo_abs ps m m' :
  minv m -> sys_fifo m m' -> fifo_ok (abs ps m) -> rtc fifo_step (abs ps m) (abs (ps ++ new_pushes m m') m').
Proof.
  intros Hinv (Hs & Hord & Hn) Hok. destruct Hs as [m m' Hs|E args k k' ret q p st irq retired fi Hko Hargs He].
  - rewrite (step_pushes m m' Hs), app_nil_r. destruct (step_abs ps m m' Hinv Hs Hord) as [->|Hf]; [done|by apply rtc_once].
  - by eapply submit_abs.
Qed.

Lemma fifo_run_inv k ps m :
  batch k [] -> start_seqnos (k_log k) = [] -> signal_seqnos (k_log k) = [] ->
  fifo_run (start_machine k []) ps m ->
  minv m /\ rtc fifo_step (fifo_init (sd_fence_seqno (k_dev k))) (abs ps m).
Proof.
  intros Hb Hst Hsg Hr. induction Hr as [|ps m m' Hr [IHi IHf] Hs].
  - split; [by apply batch_inv|]. unfold abs, fifo_init. cbn. by rewrite (ba_idle _ _ Hb), Hst, Hsg.
  - split; [by eapply sys_step_inv; [|apply Hs]|]. etransitivity; [exact IHf|].
    apply sys_fifo_abs; [done|done|by eapply fifo_reach_ok].
Qed.

(** C15: The device is a first-in first-out server in the order of pushes. When the
    scheduler takes jobs in the order they were pushed and the 64-bit counter
    of fences does not wrap, every run of the open system is a run of the
    abstract server [fifo], and: the jobs started so far and then the jobs that
    wait are exactly the jobs pushed, in the order they were pushed ([ps]); the
    fences signalled, then the job that runs, then the jobs that wait are in
    that order too, so that no fence is signalled while a job pushed earlier
    waits or runs; and no number is pushed twice. Jobs that fail or time out
    are left out of the second list, never overtaken. Numbers only name the
    fences: nothing is said of their order. *)
Theorem device_refines_fifo k ps m :
  batch k [] -> start_seqnos (k_log k) = [] -> signal_seqnos (k_log k) = [] ->
  fifo_run (start_machine k []) ps m ->
  let waiting := job_seq (m_k m) <$> m_queue m in
  let running := if sd_active (k_dev (m_k m)) =? 0 then [] else [job_seq (m_k m) (sd_active (k_dev (m_k m)))] in
  rtc fifo_step (fifo_init (sd_fence_seqno (k_dev k))) (abs ps m)
  /\ reverse (start_seqnos (k_log (m_k m))) ++ waiting = ps
  /\ reverse (signal_seqnos (k_log (m_k m))) ++ running ++ waiting `sublist_of` ps
  /\ NoDup ps.
Proof.
  intros Hb Hst Hsg Hr waiting running. destruct (fifo_run_inv k ps m Hb Hst Hsg Hr) as [_ Hrt].
  pose proof (fifo_reach_ok _ _ Hrt) as [H1 H2 H3 _]. unfold abs in H1, H2, H3.
  cbn [f_started f_queue f_pushed f_signalled f_active f_next option_list] in H1, H2, H3.
  split_and!; try done. unfold running. by destruct (sd_active (k_dev (m_k m)) =? 0).
Qed.
End Order.

(** ** Two clients *)

(** The kernel as the second client finds it: other memory for job and fence. *)
Definition env64' : Env := {|
  env_readl := fun _ _ => 0;
  env_kzalloc := fun l k => match k with A_job => 101 | _ => 201 end;
  env_gem_lookup := fun _ h => if h =? 1 then Some obj64 else None;
  env_dma_alloc := fun _ _ => (0x8000, 0x1000);
  env_icall := fun _ c => match c with drm_syncobj_find _ => 300 | _ => 0 end
|}.

Definition submitted2 : kst := state_after (strela_submit_ioctl (E := env64') submit64) submitted.

Lemma env64'_ok : kernel_ok (E := env64') submitted.
Proof.
  split.
  - intros l. by vm_compute.
  - intros l p j Hp. assert (Hm : k_jobs submitted = {[100 := default job0 (k_jobs submitted !! 100)]}) by (by vm_compute).
    rewrite Hm in Hp. apply lookup_singleton_Some in Hp as [_ <-]. by vm_compute.
  - intros l h o. cbn. destruct (h =? 1); [|done]. intros [= <-]. by vm_compute.
Qed.

Definition both_queued : machine := mkMach submitted2 [100; 101] None false false [] None.

Lemma queue_first : sys_step (A := ARMv7) (start_machine hw_state []) (mkMach submitted [100] None false false [] None).
Proof.
  apply (sys_submit (E := env64) submit64 hw_state submitted 0 [] None false false [] None);
    [apply env64_ok|apply submit64_u32|vm_compute; reflexivity].
Qed.

Lemma queue_second : sys_step (A := ARMv7) (mkMach submitted [100] None false false [] None) both_queued.
Proof.
  apply (sys_submit (E := env64') submit64 submitted submitted2 0 [100] None false false [] None);
    [apply env64'_ok|apply submit64_u32|vm_compute; reflexivity].
Qed.

(** The interrupts of one job, from its start to the signal. *)
Ltac serve_job :=
  eapply rtc_l; [eapply (step_irq (E := env_status STRELA_CMD_PENDING_INT_CONFIG)); vm_compute; reflexivity|];
  eapply rtc_l; [eapply step_thread; vm_compute; reflexivity|];
  eapply rtc_l; [eapply (step_irq (E := env_status STRELA_CMD_PENDING_INT_EXEC)); vm_compute; reflexivity|];
  eapply rtc_l; [eapply step_thread; vm_compute; reflexivity|];
  eapply rtc_l; [eapply step_retire; [vm_compute; reflexivity|done]|].

(** Between clients the numbers of fences are not an order: each open file has a
    queue of its own, and when the first client's job waits for another fence,
    the second client's, submitted later, is run and signalled before it. The
    fences of the device's one context are then signalled against their
    numbers. *)
Theorem fences_out_of_order :
  exists m, rtc (sys_step (A := ARMv7)) (start_machine hw_state []) m /\ signal_seqnos (k_log (m_k m)) = [1; 2].
Proof.
  eexists. split.
  { eapply rtc_l; [exact queue_first|]. eapply rtc_l; [exact queue_second|]. unfold both_queued.
    eapply (rtc_subrel step); [apply sys_machine|].
    eapply rtc_l; [eapply (step_run _ _ _ [100] []); vm_compute; reflexivity|]. serve_job.
    eapply rtc_l; [eapply (step_run _ _ _ []); vm_compute; reflexivity|]. serve_job. apply rtc_refl. }
  by vm_compute.
Qed.

(** Both jobs, taken in order. *)
Ltac in_turn := split; [intros p; cbn; congruence|vm_compute; split; [discriminate|reflexivity]].

Ltac turn t := eapply fifo_run_l; [split; [eapply sys_machine; t|in_turn]|].

Lemma both_in_order :
  exists ps m, fifo_run (A := ARMv7) (start_machine hw_state []) ps m
    /\ ps = [1; 2] /\ signal_seqnos (k_log (m_k m)) = [2; 1].
Proof.
  do 2 eexists. split.
  { eapply fifo_run_l; [split; [exact queue_first|in_turn]|]. eapply fifo_run_l; [split; [exact queue_second|in_turn]|].
    unfold both_queued.
    do 2 (turn ltac:(eapply (step_run _ _ _ []); vm_compute; reflexivity);
    turn ltac:(eapply (step_irq (E := env_status STRELA_CMD_PENDING_INT_CONFIG)); vm_compute; reflexivity);
    turn ltac:(eapply step_thread; vm_compute; reflexivity);
    turn ltac:(eapply (step_irq (E := env_status STRELA_CMD_PENDING_INT_EXEC)); vm_compute; reflexivity);
    turn ltac:(eapply step_thread; vm_compute; reflexivity);
    turn ltac:(eapply step_retire; [vm_compute; reflexivity|vm_compute; reflexivity])).
    apply run_start. }
  split; vm_compute; reflexivity.
Qed.

Lemma device_refines_fifo_witness :
  exists m, fifo_run (A := ARMv7) (start_machine hw_state []) [1; 2] m
    /\ signal_seqnos (k_log (m_k m)) = [2; 1] /\ rtc fifo_step (fifo_init 0) (abs [1; 2] m).
Proof.
  destruct both_in_order as (ps & m & Hr & -> & Hs). exists m. split; [exact Hr|]. split; [exact Hs|].
  exact (proj1 (device_refines_fifo (A := ARMv7) hw_state [1; 2] m idle_batch eq_refl eq_refl Hr)).
Defined.
