(* ===== verification/DrvSim.v ===== *)
(** * A whole job on the simulated device

    [strela_sim_work] configures, copies the four columns of the bypass kernel
    one after the other and completes the job, unless an output waits for words
    its input does not send, or the job is taken off the device meanwhile. *)
From S2P Require Export DrvLive.

Section Sim.
Context {A : abi} {E : Env} (delay : Z).

(** A column of a job: its bindings, their buffers and the input's stride. *)
Record column := mkCol { c_in : strela_binding; c_st : Z; c_out : strela_binding; c_io : gem_obj; c_oo : gem_obj }.

Definition col_good (c : column) : Prop :=
  binding_good (c_in c) (c_st c) /\ binding_good (c_out c) 1
  /\ b_obj (c_in c) = Some (c_io c) /\ b_obj (c_out c) = Some (c_oo c)
  /\ o_vaddr (c_io c) <> 0 /\ o_vaddr (c_oo c) <> 0.

Definition is_out (c : column) (a : Z) : Prop :=
  exists k, 0 <= k < b_count (c_out c) /\ a = col_addr (c_oo c) (c_out c) 1 k.
Definition is_in (c : column) (a : Z) : Prop :=
  exists k, 0 <= k < b_count (c_in c) /\ a = col_addr (c_io c) (c_in c) (c_st c) k.

Definition col_fed (c : column) : bool := b_count (c_out c) <=? b_count (c_in c).

(** What column [c] writes is what it read in [s]. *)
Definition copied (s s' : kst) (c : column) : Prop :=
  forall k, 0 <= k < Z.min (b_count (c_in c)) (b_count (c_out c)) ->
    word s' (c_oo c) (b_offset (c_out c) + k) = word s (c_io c) (b_offset (c_in c) + k * c_st c).

(** The columns of a job do not get in each other's way: no column writes what
    another reads or writes, or what it reads itself. *)
Definition apart_from (c c' : column) : Prop :=
  (forall a, is_out c a -> ~ is_in c' a) /\ (forall a, is_out c a -> ~ is_out c' a).
Definition cols_apart (cs : list column) : Prop :=
  (forall i c, cs !! i = Some c -> forall a, is_out c a -> ~ is_in c a)
  /\ (forall i i' c c', i <> i' -> cs !! i = Some c -> cs !! i' = Some c' -> apart_from c c').

(** The columns of [j] from [i] on. *)
Definition cols_of (j : strela_job) (i : nat) (cs : list column) : Prop :=
  forall k c, cs !! k = Some c ->
    j_inputs j !! (i + k)%nat = Some (c_in c) /\ j_input_strides j !! (i + k)%nat = Some (c_st c)
    /\ j_outputs j !! (i + k)%nat = Some (c_out c).

(** Only cache maintenance and waiting. *)
Definition sim_event (e : event) : Prop :=
  match e with
  | ICall (sim_wait _) _ | VCall (dma_sync_single_for_device _ _ _) | VCall (dma_sync_single_for_cpu _ _ _) => True
  | _ => False
  end.

(** No abort: every wait runs its course. *)
Context (HW : forall l us, env_icall l (sim_wait us) = - ETIME).

Lemma cols_apart_cons c cs :
  cols_apart (c :: cs) ->
  (forall a, is_out c a -> ~ is_in c a) /\ cols_apart cs /\ (forall i c', cs !! i = Some c' -> apart_from c c' /\ apart_from c' c).
Proof.
  intros [H1 H2]. split; [by apply (H1 0%nat)|]. split; [split|].
  - intros i c' Hc. by apply (H1 (S i)).
  - intros i i' c1 c2 Hne Hc1 Hc2. by apply (H2 (S i) (S i')); [congruence|..].
  - intros i c' Hc. split; [by apply (H2 0%nat (S i))|by apply (H2 (S i) 0%nat)].
Qed.

Lemma sim_wait_ok us s : strela_sim_wait us s = Ok (true, set_log s (ICall (sim_wait us) (- ETIME) :: k_log s)).
Proof. unfold strela_sim_wait. by rewrite (mbind_Ok _ _ _ _ _ (icall_Ok _ _)), HW. Qed.

Lemma sim_columns_ok j slice i cs fed s :
  cols_of j i cs -> Forall col_good cs -> cols_apart cs ->
  exists s' es, sim_columns j slice i (length cs) fed s = Ok (Some (fed && forallb col_fed cs), s')
    /\ Forall (copied s s') cs
    /\ (forall a, Forall (fun c => ~ is_out c a) cs -> k_ram s' !! a = k_ram s !! a)
    /\ k_dev s' = k_dev s /\ k_jobs s' = k_jobs s
    /\ k_log s' = es ++ k_log s /\ Forall sim_event es.
Proof.
  revert i fed s. induction cs as [|c cs IH]; intros i fed s Hcols Hgood Hap.
  { exists s, []. cbn. rewrite andb_true_r. by split_and!. }
  apply Forall_cons in Hgood as [(Hg1 & Hg2 & Hio & Hoo & Hvi & Hvo) Hgood].
  apply cols_apart_cons in Hap as (Hself & Hap & Hpair).
  destruct (Hcols 0%nat c eq_refl) as (Hin & Hst & Hout). rewrite Nat.add_0_r in Hin, Hst, Hout.
  cbn [length sim_columns]. rewrite (mbind_Ok _ _ _ _ _ (sim_wait_ok _ _)). cbn [negb]. set (s0 := set_log s _).
  unfold nth_. rewrite !Nat2Z.id, Hin, Hst, Hout, !mbind_ret.
  destruct (sim_column_ok (c_in c) (c_st c) (c_out c) s0 (c_io c) (c_oo c) Hg1 Hg2 Hio Hoo Hvi Hvo)
    as (s1 & He & Hw & Hr & Hd & Hj & Hl).
  { intros x y Hx Hy Heq. eapply Hself; [exists y; split; [done|reflexivity]|]. exists x. by split. }
  rewrite (mbind_Ok _ _ _ _ _ He).
  assert (Hlog : exists es1, k_log s1 = es1 ++ k_log s /\ Forall sim_event es1).
  { destruct Hl as [->|(? & ? & ? & ? & ->)]; [by eexists [_]; split; [|repeat constructor]|].
    by eexists [_; _; _]; split; [|repeat constructor]. }
  destruct Hlog as (es1 & Hl1 & Hes1).
  destruct (IH (S i) (fed && col_fed c) s1) as (s' & es & He' & Hc' & Hr' & Hd' & Hj' & Hl' & Hes); [|done|done|].
  { intros k c' Hc'. rewrite Nat.add_succ_comm. by apply (Hcols (S k)). }
  assert (Hkeep : forall a, ~ is_out c a -> k_ram s1 !! a = k_ram s !! a).
  { intros a Ha. apply (Hr a). intros k Hk ->. apply Ha. by exists k. }
  exists s', (es ++ es1). split; [exact (eq_trans He' ltac:(by rewrite <- andb_assoc))|]. split_and!.
  - constructor.
    + intros k Hk. etransitivity; [|exact (Hw k Hk)]. unfold word. rewrite Hr'; [done|]. apply Forall_lookup. intros i' c' Hc'' Hbad.
      destruct (Hpair i' c' Hc'') as [[_ Hoo'] _]. eapply (Hoo' _); [|exact Hbad]. exists k. split; [lia|]. unfold col_addr. by rewrite Z.mul_1_r.
    + apply Forall_lookup. intros i' c' Hc'' k Hk. rewrite (Forall_lookup_1 _ _ _ _ Hc' Hc'' k Hk).
      unfold word. rewrite Hkeep; [done|]. intros Hbad. destruct (Hpair i' c' Hc'') as [[Hoi _] _].
      eapply Hoi; [exact Hbad|]. exists k. split; [lia|done].
  - intros a [Ha Has]%Forall_cons. rewrite Hr' by done. by apply Hkeep.
  - by rewrite Hd', Hd.
  - by rewrite Hj', Hj.
  - by rewrite Hl', Hl1, app_assoc.
  - by apply Forall_app.
Qed.

Lemma sim_phase_us_ok ph s :
  exists us e, strela_sim_phase_us delay ph s = Ok (us, set_log s (e :: k_log s)) /\ calm_event e.
Proof. unfold strela_sim_phase_us. rewrite (mbind_Ok _ _ _ _ _ (icall_Ok _ _)). do 2 eexists. split; [reflexivity|exact I]. Qed.

Lemma sim_events_calm es : Forall sim_event es -> Forall calm_event es.
Proof. intros H. eapply Forall_impl; [exact H|]. intros e. destruct e as [| | | | |c|c]; try done. by destruct c. Qed.

Lemma sim_config_done s p j :
  sd_is_sim (k_dev s) = true -> sd_active (k_dev s) = p -> p <> 0 -> k_jobs s !! p = Some j ->
  j_phase j = STRELA_JOB_PHASE_CONFIG ->
  strela_job_phase_done STRELA_JOB_PHASE_CONFIG s
  = Ok (tt, set_jobs s (<[p := set_phase j STRELA_JOB_PHASE_EXEC]> (k_jobs s))).
Proof.
  intros Hsim <- Hne Hj Hph. unfold strela_job_phase_done. rewrite (mbind_Ok get_dev _ _ (k_dev s) s eq_refl).
  rewrite (proj2 (Z.eqb_neq _ _) Hne), (mbind_Ok _ _ _ _ _ (get_job_Ok _ _ _ Hj)), bool_decide_eq_true_2 by done. cbn [negb].
  rewrite (mbind_Ok _ _ _ _ _ (update_job_Ok _ _ _ _ Hj)). unfold strela_hw_start, mbind_, get_dev, mbind_, get_. cbn. by rewrite Hsim.
Qed.

Lemma sim_exec_done s p j :
  sd_active (k_dev s) = p -> p <> 0 -> k_jobs s !! p = Some j -> j_phase j = STRELA_JOB_PHASE_EXEC ->
  strela_job_phase_done STRELA_JOB_PHASE_EXEC s
  = Ok (tt, mkK (VCall (dma_fence_signal (j_hw_fence j)) :: k_log s) (dev_set_active (k_dev s) 0) (k_jobs s) (k_ram s)).
Proof.
  intros <- Hne Hj Hph. unfold strela_job_phase_done. rewrite (mbind_Ok get_dev _ _ (k_dev s) s eq_refl).
  rewrite (proj2 (Z.eqb_neq _ _) Hne), (mbind_Ok _ _ _ _ _ (get_job_Ok _ _ _ Hj)), bool_decide_eq_true_2 by done. done.
Qed.

(** The whole work item, when nothing aborts it. *)
Lemma sim_work_runs s p j cs :
  sd_is_sim (k_dev s) = true -> sd_active (k_dev s) = p -> p <> 0 -> k_jobs s !! p = Some j ->
  j_phase j = STRELA_JOB_PHASE_CONFIG ->
  length cs = STRELA_NUM_IO_COLS -> cols_of j 0 cs -> Forall col_good cs -> cols_apart cs ->
  exists s', strela_sim_work delay s = Ok (tt, s')
    /\ Forall (copied s s') cs
    /\ (forall a, Forall (fun c => ~ is_out c a) cs -> k_ram s' !! a = k_ram s !! a)
    /\ k_jobs s' !! p = Some (set_phase j STRELA_JOB_PHASE_EXEC)
    /\ sd_active (k_dev s') = (if forallb col_fed cs then 0 else p)
    /\ (forall f, signals f (k_log s')
                  = signals f (k_log s) + one (forallb col_fed cs && (j_hw_fence j =? f))).
Proof.
  intros Hsim Hact Hne Hj Hph Hlen Hcols Hgood Hap. unfold strela_sim_work.
  rewrite (mbind_Ok get_dev _ _ (k_dev s) s eq_refl), Hact, (proj2 (Z.eqb_neq _ _) Hne).
  destruct (sim_phase_us_ok STRELA_JOB_PHASE_CONFIG s) as (us & e & Hus & He). rewrite (mbind_Ok _ _ _ _ _ Hus).
  rewrite (mbind_Ok _ _ _ _ _ (sim_wait_ok _ _)). cbn [negb k_log set_log].
  set (s1 := set_log (set_log s _) _). rewrite (mbind_Ok _ _ _ _ _ (sim_config_done s1 p j Hsim Hact Hne Hj Hph)).
  set (s2 := set_jobs s1 _). destruct (sim_phase_us_ok STRELA_JOB_PHASE_EXEC s2) as (us2 & e2 & Hus2 & He2).
  rewrite (mbind_Ok _ _ _ _ _ Hus2). set (s3 := set_log s2 _).
  set (j' := set_phase j STRELA_JOB_PHASE_EXEC). assert (Hj3 : k_jobs s3 !! p = Some j') by apply lookup_insert_eq.
  rewrite (mbind_Ok _ _ _ _ _ (get_job_Ok _ _ _ Hj3)), <- Hlen.
  destruct (sim_columns_ok j' (us2 / Z.of_nat (length cs)) 0 cs true s3 Hcols Hgood Hap)
    as (s4 & es & Hrun & Hc & Hr & Hd & Hj4 & Hl & Hes).
  rewrite (mbind_Ok _ _ _ _ _ Hrun). cbn [andb]. apply sim_events_calm in Hes.
  destruct (calm_obs es (k_log s3) Hes) as (O1 & _). rewrite <- Hl in O1.
  assert (Hs3 : forall f, signals f (k_log s4) = signals f (k_log s)).
  { intros f. rewrite O1. apply (calm_obs [e2; _; e] (k_log s)). repeat constructor; done. }
  destruct (forallb col_fed cs) eqn:Hfed.
  - rewrite (sim_exec_done s4 p j'); [|by rewrite Hd|done|by rewrite Hj4|done].
    eexists. split; [reflexivity|]. split_and!; [exact Hc|exact Hr|by rewrite <- Hj3, <- Hj4|done|].
    intros f. cbn [k_log signals]. rewrite Hs3. cbn. unfold j'. cbn. lia.
  - exists s4. split; [reflexivity|]. split_and!; [exact Hc|exact Hr|by rewrite Hj4|by rewrite Hd|].
    intros f. rewrite Hs3. cbn. lia.
Qed.
(** C24: The simulated device runs a whole job. When nothing aborts it (every
    wait of the work item ends by its timeout, [-ETIME]), the columns passed the
    check and do not overlap (no word is written twice or both written and
    read), [strela_sim_work] returns; in every column, as many output words as
    the smaller of its two counts allows are the input words they stand for, as
    they were before the job; no other memory changes; and the job completes
    (its fence is signalled once more and the device is free) exactly when
    every output is fed, that is, no column has fewer inputs than outputs:
    otherwise no fence is signalled and the job stays on the device for the
    timeout. *)
Theorem sim_job_runs s p j cs :
  sd_is_sim (k_dev s) = true -> sd_active (k_dev s) = p -> p <> 0 -> k_jobs s !! p = Some j ->
  j_phase j = STRELA_JOB_PHASE_CONFIG ->
  length cs = STRELA_NUM_IO_COLS -> cols_of j 0 cs -> Forall col_good cs -> cols_apart cs ->
  exists s', strela_sim_work delay s = Ok (tt, s')
    /\ Forall (copied s s') cs
    /\ (forall a, Forall (fun c => ~ is_out c a) cs -> k_ram s' !! a = k_ram s !! a)
    /\ k_jobs s' !! p = Some (set_phase j STRELA_JOB_PHASE_EXEC)
    /\ sd_active (k_dev s') = (if forallb col_fed cs then 0 else p)
    /\ (forall f, signals f (k_log s')
                  = signals f (k_log s) + one (forallb col_fed cs && (j_hw_fence j =? f))).
Proof. apply sim_work_runs. Qed.
End Sim.

(** ** Witness: two words in, two words out per column *)
Definition obj_sim : gem_obj := mkObj 1 256 0x1000 0x8000 false.

Definition col_sim (i : Z) : column :=
  mkCol (mkBinding (Some obj_sim) (2 * i) 2) 1 (mkBinding (Some obj_sim) (16 + 2 * i) 2) obj_sim obj_sim.

Definition cols_sim : list column := col_sim <$> [0; 1; 2; 3].

Definition job_sim : strela_job :=
  mkJob 7 (mkBinding (Some obj_sim) 40 4) (c_in <$> cols_sim) (c_st <$> cols_sim) (c_out <$> cols_sim)
        STRELA_JOB_PHASE_CONFIG.

(** The kernel of a simulated device that nobody aborts. *)
Definition env_sim : Env := {|
  env_readl := fun _ _ => 0;
  env_kzalloc := fun l k => match k with A_job => 100 | _ => 200 end;
  env_gem_lookup := fun _ _ => None;
  env_dma_alloc := fun _ _ => (0, 0);
  env_icall := fun _ c => match c with sim_wait _ => - ETIME | _ => 0 end
|}.

Definition sim_state : kst :=
  mkK [] (mkDev true 0 false 100 1 0) {[100 := job_sim]} {[0x8000 := 11; 0x8004 := 22; 0x800c := 33]}.

Lemma col_sim_good i : 0 <= i <= 3 -> col_good (col_sim i).
Proof.
  intros Hi. unfold col_good. cbn. split_and!; try done; exists obj_sim; split_and!; try done;
    unfold is_u, binding_fits, span, STRELA_WORD_SIZE, STRELA_MAX_COLUMN_BYTES; cbn; lia.
Qed.

Lemma cols_sim_apart : cols_apart cols_sim.
Proof.
  assert (Hl : forall i c, cols_sim !! i = Some c -> c = col_sim (Z.of_nat i) /\ (i < 4)%nat).
  { intros i c. do 4 (destruct i as [|i]; [intros [= <-]; split; [done|lia]|]). by destruct i. }
  split.
  - intros i c [-> Hi]%Hl a (k & Hk & ->) (k' & Hk' & Ha). unfold col_addr, STRELA_WORD_SIZE in *. cbn in *. lia.
  - intros i i' c c' Hne [-> Hi]%Hl [-> Hi']%Hl.
    split; intros a (k & Hk & ->) (k' & Hk' & Ha); unfold col_addr, STRELA_WORD_SIZE in *; cbn in *; lia.
Qed.

Lemma sim_job_runs_witness :
  exists s', strela_sim_work (A := ARMv7) (E := env_sim) 4 sim_state = Ok (tt, s')
    /\ word s' obj_sim 16 = 11 /\ word s' obj_sim 17 = 22 /\ signals 7 (k_log s') = 1.
Proof.
  destruct (sim_job_runs (A := ARMv7) (E := env_sim) 4 ltac:(reflexivity) sim_state 100 job_sim cols_sim)
    as (s' & He & Hc & _ & _ & _ & Hs); try reflexivity; [discriminate| | |apply cols_sim_apart|].
  - intros k c. do 4 (destruct k as [|k]; [intros [= <-]; split_and!; reflexivity|]). by destruct k.
  - repeat constructor; apply col_sim_good; lia.
  - exists s'. split; [exact He|]. apply Forall_cons in Hc as [Hc _].
    split; [exact (Hc 0 ltac:(cbn; lia))|]. split; [exact (Hc 1 ltac:(cbn; lia))|]. exact (Hs 7).
Defined.
