(* ===== verification/DrvAccept.v ===== *)
(** * When a submission is accepted

    A request whose bindings pass the check, on a kernel that has memory and
    knows the handles, is never refused: the job is queued. *)
From S2P Require Export DrvSim.

(** [c] answers only what satisfies [P]. *)
Definition yields {X} (c : M kst X) (P : X -> Prop) : Prop := forall s x s', c s = Ok (x, s') -> P x.

Section Yields.
Context {A : abi} {E : Env}.

Lemma yields_ret {X} (x : X) (P : X -> Prop) : P x -> yields (mret_ x) P.
Proof. intros H s y s' [= <- <-]. done. Qed.

Lemma yields_bind {X Y} (c : M kst X) (k : X -> M kst Y) (Q : X -> Prop) P :
  yields c Q -> (forall x, Q x -> yields (k x) P) -> yields (mbind_ c k) P.
Proof. intros Hc Hk s y s' H. apply mbind_inv in H as (x & s1 & H1 & H2). eapply Hk; [|done]. by eapply Hc. Qed.

Lemma yields_skip {X Y} (c : M kst X) (k : X -> M kst Y) P :
  (forall x, yields (k x) P) -> yields (mbind_ c k) P.
Proof. intros Hk s y s' H. apply mbind_inv in H as (x & s1 & H1 & H2). by eapply Hk. Qed.

Lemma yields_icall c (P : Z -> Prop) : (forall l, P (env_icall l c)) -> yields (icall_ c) P.
Proof. intros H s y s' [= <- <-]. done. Qed.

Lemma yields_kzalloc k (P : Z -> Prop) : (forall l, P (env_kzalloc l k)) -> yields (kzalloc_ k) P.
Proof. intros H s y s' [= <- <-]. done. Qed.

(** A binding the driver accepts: its handle names an object it fits. *)
Definition admitted (src : drm_strela_strided_binding) : Prop :=
  exists o, (forall l, env_gem_lookup l (us_handle src) = Some o) /\ strela_binding_check (o_size o) src = 0.

(** A kernel in which the calls of a submission succeed. *)
Record willing : Prop := {
  wi_job : forall l, env_kzalloc l A_job <> 0;
  wi_fence : forall l, env_kzalloc l A_fence <> 0;
  wi_init : forall l p, env_icall l (drm_sched_job_init p) = 0;
  wi_syncobj : forall l h, env_icall l (drm_syncobj_find h) <> 0
}.

Lemma binding_admitted src : admitted src -> yields (strela_strided_binding_get src) (fun r => r.1 = 0).
Proof.
  intros (o & Ho & Hc) s x s'. unfold strela_strided_binding_get, drm_gem_object_lookup, mbind_, get_, emit, modify_. cbn.
  rewrite Ho. cbn. rewrite Hc. cbn. by intros [= <- <-].
Qed.

(** Requests without flags, of four columns each way. *)
Record request_ok (args : drm_strela_submit) : Prop := {
  ro_args : args_ok args;
  ro_config : admitted (strided (sub_config args));
  ro_inputs : Forall admitted (sub_inputs args);
  ro_outputs : Forall (fun b => admitted (strided b)) (sub_outputs args);
  ro_flags : sub_flags args = 0;
  ro_pad : sub_pad args = 0
}.

Lemma yields_nth {X} (l : list X) i P : Forall P l -> yields (nth_ l i) P.
Proof.
  intros H s x s'. unfold nth_. destruct (l !! Z.to_nat i) as [y|] eqn:E'; [|done].
  intros [= <- <-]. by eapply Forall_lookup_1.
Qed.

Lemma columns_accepted job args i n : request_ok args -> yields (submit_columns job args i n) (fun r => r = 0).
Proof.
  intros Hr. revert i. induction n as [|n IH]; intros i; cbn [submit_columns]; [by apply yields_ret|].
  apply (yields_bind _ _ (fun r => r = 0)); [|intros ? ->; apply IH]. unfold submit_column, strela_binding_get.
  apply (yields_bind _ _ admitted); [apply yields_nth, Hr|]. intros inp Hinp.
  eapply yields_bind; [by apply binding_admitted|]. intros [r b]. cbn. intros ->. cbn.
  do 2 (apply yields_skip; intros _).
  apply (yields_bind _ _ (fun b => admitted (strided b))); [apply yields_nth, Hr|]. intros out Hout.
  eapply yields_bind; [by apply binding_admitted|]. intros [r b']. cbn. intros ->. cbn.
  apply yields_skip; intros _. by apply yields_ret.
Qed.

Lemma body_accepted job args : willing -> request_ok args -> yields (submit_body job args) (fun r => r = 0).
Proof.
  intros Hw Hr. unfold submit_body. rewrite (ro_flags _ Hr). cbn [Z.land negb Z.eqb].
  apply (yields_bind _ _ (fun r => r = 0)); [by apply yields_ret|]. intros ? ->. cbn [negb Z.eqb].
  apply (yields_bind _ _ (fun r => r = 0)).
  - unfold submit_bindings, strela_binding_get.
    eapply yields_bind; [apply binding_admitted, Hr|]. intros [r b]. cbn [fst]. intros ->. cbn [negb Z.eqb].
    apply yields_skip; intros _. by apply columns_accepted.
  - intros ? ->. cbn [negb Z.eqb]. apply (yields_bind _ _ (fun h => h <> 0)); [apply yields_icall; intros l; apply (wi_syncobj Hw l)|].
    cbn. intros so Hso. rewrite (proj2 (Z.eqb_neq _ _) Hso). do 4 (apply yields_skip; intros _). by apply yields_ret.
Qed.

Lemma submit_accepted args : willing -> request_ok args -> yields (strela_submit_ioctl args) (fun r => r = 0).
Proof.
  intros Hw Hr. unfold strela_submit_ioctl. rewrite (ro_flags _ Hr), (ro_pad _ Hr).
  change (bad_flags 0 DRM_STRELA_SUBMIT_WAIT_SYNCOBJ || negb (0 =? 0)) with false. cbv iota.
  apply (yields_bind _ _ (fun p => p <> 0)); [apply yields_kzalloc, (wi_job Hw)|]. cbn. intros job Hjob.
  rewrite (proj2 (Z.eqb_neq _ _) Hjob). apply yields_skip; intros _.
  apply (yields_bind _ _ (fun p => p <> 0)); [apply yields_kzalloc, (wi_fence Hw)|]. cbn. intros f Hf. rewrite (proj2 (Z.eqb_neq _ _) Hf).
  do 4 (apply yields_skip; intros ?). apply (yields_bind _ _ (fun r => r = 0)); [apply yields_icall; intros l; apply (wi_init Hw l)|].
  cbn. intros ? ->. cbn [negb Z.eqb]. unfold submit_or_cleanup.
  eapply yields_bind; [by apply body_accepted|]. cbn. intros ? ->. by apply yields_ret.
Qed.

(** The job a good request leaves in the scheduler's queue. *)
Lemma submit_queues args k :
  willing -> request_ok args -> (forall l, k_jobs k !! env_kzalloc l A_job = None) ->
  exists k' p j, strela_submit_ioctl args k = Ok (0, k') /\ p <> 0 /\ k_jobs k' !! p = Some j
    /\ pushed (k_log k') = [p] /\ job_resolved args j
    /\ signals (j_hw_fence j) (k_log k') = 0
    /\ k_ram k' = k_ram k /\ sd_active (k_dev k') = sd_active (k_dev k) /\ sd_is_sim (k_dev k') = sd_is_sim (k_dev k).
Proof.
  intros Hw Hr Hfresh. destruct (submit_ok args k (ro_args _ Hr) Hfresh) as (ret & k' & He & _ & Hok).
  pose proof (submit_accepted args Hw Hr _ _ _ He) as ->. destruct (Hok eq_refl) as (p & j & Hj & Hres & (H0 & -> & Hf) & _).
  destruct (submit_obs _ _ _ _ He) as [(Ha & Hs & Hram & _) Hsig].
  exists k', (env_kzalloc (k_log k) A_job), j. split_and!; try done.
  - rewrite Hj. apply lookup_insert_eq.
  - by apply (submit_pushes args).
  - rewrite Hf. by apply Hsig.
Qed.

(** Starting a job on a simulated device queues the work item. *)
Lemma run_job_sim p j k :
  sd_is_sim (k_dev k) = true -> sd_active (k_dev k) = 0 -> k_jobs k !! p = Some j ->
  exists k', strela_run_job p k = Ok (j_hw_fence j, k')
    /\ k_jobs k' !! p = Some (set_phase j STRELA_JOB_PHASE_CONFIG)
    /\ sd_is_sim (k_dev k') = true /\ sd_active (k_dev k') = p /\ k_ram k' = k_ram k
    /\ forall f, signals f (k_log k') = signals f (k_log k).
Proof.
  intros Hsim Hact Hj. unfold strela_run_job. rewrite (mbind_Ok get_dev _ _ (k_dev k) k eq_refl), Hact.
  rewrite (mbind_Ok (warn_on _) _ k false k) by done. rewrite (mbind_Ok _ _ _ _ _ (update_job_Ok _ _ _ _ Hj)).
  rewrite (mbind_Ok (update_dev _) _ _ tt _ eq_refl). set (k1 := set_dev _ _).
  assert (Hj1 : k_jobs k1 !! p = Some (set_phase j STRELA_JOB_PHASE_CONFIG)) by apply lookup_insert_eq.
  rewrite (mbind_Ok _ _ _ _ _ (get_job_Ok _ _ _ Hj1)).
  rewrite (mbind_Ok (strela_hw_program _) _ k1 tt k1).
  2: { unfold strela_hw_program. rewrite (mbind_Ok get_dev _ _ (k_dev k1) k1 eq_refl). cbn. by rewrite Hsim. }
  unfold strela_hw_start. unfold mbind_ at 1, mbind_ at 1, get_dev, mbind_ at 1, get_. cbn. rewrite Hsim.
  eexists. split; [reflexivity|]. cbn. by split_and!.
Qed.
End Yields.
