(* ===== verification/DrvAnswer.v ===== *)
(** * What a submission answers

    [strela_submit_ioctl] makes its checks in an order a client can rely on: it
    answers the error of the first that fails, or 0. The reference definition
    is a list of answers; the code is proved to compute its first error. *)
From S2P Require Export DrvAccept.

(** The first number that is not 0. *)
Fixpoint first_error (l : list Z) : Z :=
  match l with
  | [] => 0
  | r :: l => if r =? 0 then first_error l else r
  end.

Lemma first_error_app l1 l2 : first_error (l1 ++ l2) = if first_error l1 =? 0 then first_error l2 else first_error l1.
Proof.
  induction l1 as [|r l1 IH]; [done|]. cbn [app first_error]. destruct (r =? 0) eqn:Hr; [done|]. by rewrite Hr.
Qed.

Lemma first_error_0 l : first_error l = 0 <-> Forall (fun r => r = 0) l.
Proof.
  induction l as [|r l IH]; [by split|]. cbn. rewrite Forall_cons, <- IH. destruct (Z.eqb_spec r 0) as [->|Hne]; [tauto|].
  split; [done|]. by intros [? _].
Qed.

Lemma first_error_skip r l : r = 0 -> first_error (r :: l) = first_error l.
Proof. by intros ->. Qed.

Lemma first_error_stop r l : r <> 0 -> first_error (r :: l) = r.
Proof. intros Hr. cbn. by rewrite (proj2 (Z.eqb_neq _ _) Hr). Qed.

(** How the kernel around the driver answers the calls of a submission: memory
    for the job and its fence, the scheduler's set-up of the job, the objects
    behind handles, the dependency on a sync object, and whether one exists. *)
Record kernel_answers := mkAnswers {
  ka_job : bool; ka_fence : bool; ka_init : Z;
  ka_object : Z -> option gem_obj; ka_depend : Z -> Z; ka_syncobj : Z -> bool
}.

Definition binding_answer (K : kernel_answers) (src : drm_strela_strided_binding) : Z :=
  match ka_object K (us_handle src) with
  | None => - ENOENT
  | Some o => strela_binding_check (o_size o) src
  end.

Definition column_answers (K : kernel_answers) (c : drm_strela_strided_binding * drm_strela_binding) : list Z :=
  [binding_answer K c.1; binding_answer K (strided c.2)].

Definition columns_of (args : drm_strela_submit) : list (drm_strela_strided_binding * drm_strela_binding) :=
  zip (sub_inputs args) (sub_outputs args).

(** The checks of a submission, in order. *)
Definition bindings_answers (K : kernel_answers) (args : drm_strela_submit) : list Z :=
  binding_answer K (strided (sub_config args)) :: concat (column_answers K <$> columns_of args).

Definition body_answers (K : kernel_answers) (args : drm_strela_submit) : list Z :=
  (if negb (Z.land (sub_flags args) DRM_STRELA_SUBMIT_WAIT_SYNCOBJ =? 0) then ka_depend K (sub_in_syncobj args) else 0)
  :: bindings_answers K args ++ [if ka_syncobj K (sub_out_syncobj args) then 0 else - ENOENT].

Definition submit_answers (K : kernel_answers) (args : drm_strela_submit) : list Z :=
  (if bad_flags (sub_flags args) DRM_STRELA_SUBMIT_WAIT_SYNCOBJ || negb (sub_pad args =? 0) then - EINVAL else 0)
  :: (if ka_job K then 0 else - ENOMEM) :: (if ka_fence K then 0 else - ENOMEM) :: ka_init K :: body_answers K args.

Section Answer.
Context {A : abi} {E : Env} (K : kernel_answers).

(** The environment gives these answers, at any time. *)
Record answering : Prop := {
  an_job : forall l, (env_kzalloc l A_job =? 0) = negb (ka_job K);
  an_fence : forall l, (env_kzalloc l A_fence =? 0) = negb (ka_fence K);
  an_init : forall l p, env_icall l (drm_sched_job_init p) = ka_init K;
  an_object : forall l h, env_gem_lookup l h = ka_object K h;
  an_depend : forall l p h, env_icall l (drm_sched_job_add_syncobj_dependency p h) = ka_depend K h;
  an_syncobj : forall l h, (env_icall l (drm_syncobj_find h) =? 0) = negb (ka_syncobj K h)
}.
Context (HK : answering).

(** A step that checks, and what comes after it. *)
Lemma yields_check (c : M kst Z) (k : M kst Z) a l :
  yields c (fun r => r = first_error a) -> yields k (fun r => r = first_error l) ->
  yields (let! ret := c in if negb (ret =? 0) then mret_ ret else k) (fun r => r = first_error (a ++ l)).
Proof.
  intros Hc Hk. eapply yields_bind; [exact Hc|]. cbv beta. intros r Hr. rewrite first_error_app, <- Hr.
  destruct (r =? 0); cbn [negb]; [exact Hk|by apply yields_ret].
Qed.

Lemma yields_check_pair {X} (c : M kst (Z * X)) (k : X -> M kst Z) a l :
  yields c (fun r => r.1 = a) -> (forall x, yields (k x) (fun r => r = first_error l)) ->
  yields (let! '(ret, x) := c in if negb (ret =? 0) then mret_ ret else k x) (fun r => r = first_error (a :: l)).
Proof.
  intros Hc Hk. eapply yields_bind; [exact Hc|]. cbv beta. intros [r x]. cbn [fst first_error]. intros ->.
  destruct (a =? 0); cbn [negb]; [apply Hk|by apply yields_ret].
Qed.

Lemma binding_answered src : yields (strela_strided_binding_get src) (fun r => r.1 = binding_answer K src).
Proof.
  intros s x s'. unfold strela_strided_binding_get, drm_gem_object_lookup, mbind_, get_, emit, modify_, binding_answer. cbn.
  rewrite (an_object HK). destruct (ka_object K (us_handle src)) as [o|]; cbn; [|by intros [= <- <-]].
  destruct (Z.eqb_spec (strela_binding_check (o_size o) src) 0) as [Hc|_]; cbn; by intros [= <- <-].
Qed.

Lemma yields_nth_lookup {X} (l : list X) i : yields (nth_ l (Z.of_nat i)) (fun x => l !! i = Some x).
Proof.
  intros s x s'. unfold nth_. rewrite Nat2Z.id. destruct (l !! i); [|done]. by intros [= <- <-].
Qed.

Lemma column_answered job args i c :
  columns_of args !! i = Some c -> yields (submit_column job args i) (fun r => r = first_error (column_answers K c)).
Proof.
  intros Hc. destruct c as [inp out]. unfold columns_of in Hc. apply lookup_zip_with_Some in Hc as (x & y & [= <- <-] & Hi & Ho).
  unfold submit_column, column_answers. cbn [fst snd].
  eapply yields_bind; [apply yields_nth_lookup|]. cbv beta. intros x Hx. rewrite Hi in Hx. injection Hx as <-.
  apply yields_check_pair; [apply binding_answered|]. intros b. do 2 (apply yields_skip; intros _).
  eapply yields_bind; [apply yields_nth_lookup|]. cbv beta. intros y Hy. rewrite Ho in Hy. injection Hy as <-.
  apply yields_check_pair; [apply binding_answered|]. intros b'. apply yields_skip; intros _. by apply yields_ret.
Qed.

Lemma columns_answered job args cs : forall i,
  (forall k c, cs !! k = Some c -> columns_of args !! (i + k)%nat = Some c) ->
  yields (submit_columns job args i (length cs)) (fun r => r = first_error (concat (column_answers K <$> cs))).
Proof.
  induction cs as [|c cs IH]; intros i Hcs; cbn [length submit_columns fmap list_fmap concat]; [by apply yields_ret|].
  apply yields_check; [apply column_answered; rewrite <- (Nat.add_0_r i); by apply Hcs|].
  apply IH. intros k c' Hk. replace (S i + k)%nat with (i + S k)%nat by lia. by apply Hcs.
Qed.

Lemma bindings_answered job args :
  args_ok args -> yields (submit_bindings job args) (fun r => r = first_error (bindings_answers K args)).
Proof.
  intros [Hi Ho]. unfold submit_bindings, bindings_answers. apply yields_check_pair; [apply binding_answered|].
  intros b. apply yields_skip; intros _.
  assert (Hlen : length (columns_of args) = STRELA_NUM_IO_COLS) by (unfold columns_of; rewrite length_zip_with, Hi, Ho; done).
  rewrite <- Hlen. by apply columns_answered.
Qed.

Lemma body_answered job args : args_ok args -> yields (submit_body job args) (fun r => r = first_error (body_answers K args)).
Proof.
  intros Hok. unfold submit_body, body_answers. apply (yields_check _ _ [_]).
  { cbn [first_error]. destruct (negb (Z.land _ _ =? 0)); [|by apply yields_ret].
    apply yields_icall. intros l. rewrite (an_depend HK). by destruct (Z.eqb_spec (ka_depend K (sub_in_syncobj args)) 0). }
  apply yields_check; [by apply bindings_answered|].
  apply (yields_bind _ _ (fun h => (h =? 0) = negb (ka_syncobj K (sub_out_syncobj args)))); [apply yields_icall; intros l; apply (an_syncobj HK)|].
  cbv beta. intros so Hso. rewrite Hso. destruct (ka_syncobj K _); cbn [negb]; [|by apply yields_ret].
  do 4 (apply yields_skip; intros _). by apply yields_ret.
Qed.

Lemma submit_answered args :
  args_ok args -> yields (strela_submit_ioctl args) (fun r => r = first_error (submit_answers K args)).
Proof.
  intros Hok. unfold strela_submit_ioctl, submit_answers. destruct (bad_flags _ _ || _); [by apply yields_ret|].
  apply (yields_bind _ _ (fun p => (p =? 0) = negb (ka_job K))); [apply yields_kzalloc, (an_job HK)|]. cbv beta. intros job ->.
  destruct (ka_job K); cbn [negb]; [|by apply yields_ret]. apply yields_skip; intros _.
  apply (yields_bind _ _ (fun p => (p =? 0) = negb (ka_fence K))); [apply yields_kzalloc, (an_fence HK)|]. cbv beta. intros f ->.
  destruct (ka_fence K); cbn [negb]; [|apply yields_skip; intros _; by apply yields_ret].
  do 4 (apply yields_skip; intros ?). apply (yields_bind _ _ (fun r => r = ka_init K)); [apply yields_icall; intros l; apply (an_init HK)|].
  cbv beta. intros r ->. cbn [first_error Z.eqb]. destruct (ka_init K =? 0); cbn [negb].
  - unfold submit_or_cleanup. eapply yields_bind; [by apply body_answered|]. cbv beta. intros r Hr. rewrite <- Hr.
    destruct (Z.eqb_spec r 0) as [->|_]; cbn [negb]; [by apply yields_ret|].
    do 5 (apply yields_skip; intros ?). by apply yields_ret.
  - do 2 (apply yields_skip; intros ?). by apply yields_ret.
Qed.

(** The answer, and the job it stands for. *)
Lemma submit_answer_runs args s :
  args_ok args -> (forall l, k_jobs s !! env_kzalloc l A_job = None) ->
  exists s', strela_submit_ioctl args s = Ok (first_error (submit_answers K args), s')
    /\ (Forall (fun r => r = 0) (submit_answers K args) ->
         exists p j, pushed (k_log s') = [p] /\ k_jobs s' !! p = Some j /\ job_resolved args j)
    /\ (first_error (submit_answers K args) = 0 <-> Forall (fun r => r = 0) (submit_answers K args))
    /\ (Exists (fun r => r <> 0) (submit_answers K args) -> k_jobs s' = k_jobs s).
Proof.
  intros Hok Hfresh. destruct (submit_ok args s Hok Hfresh) as (ret & s' & He & Hbad & Hgood).
  pose proof (submit_answered args Hok _ _ _ He) as Hr. cbv beta in Hr. subst ret.
  assert (Hne : Exists (fun r => r <> 0) (submit_answers K args) -> first_error (submit_answers K args) <> 0).
  { intros Hx H0%first_error_0. apply Exists_exists in Hx as (r & Hr & Hn). rewrite Forall_forall in H0. by apply Hn, H0. }
  exists s'. split; [done|]. split_and!.
  - intros H0%first_error_0. destruct (Hgood H0) as (p & j & Hj & Hres & (_ & -> & _) & _).
    exists (env_kzalloc (k_log s) A_job), j. rewrite H0 in He. split; [by apply (submit_pushes args)|]. split; [|done].
    rewrite Hj. apply lookup_insert_eq.
  - apply first_error_0.
  - intros Hx%Hne. by apply Hbad.
Qed.

(** C20: A submission answers the error of the first check that fails. On a
    kernel that answers in one way at a time (it has memory or not, a handle
    names an object or none), [strela_submit_ioctl] returns, and its answer is
    the first error in this order: flags or padding that must be 0; memory for
    the job, then for its fence; the scheduler; the sync object to wait for,
    when the flag asks for it; the configuration, then input and output of each
    column in turn, each of which is -ENOENT when its handle names nothing and
    otherwise what the check of a binding says; the sync object to signal. When
    all pass the answer is 0 and a job with the bindings asked for is pushed;
    otherwise no job is left behind. *)
Theorem submit_answer_exact args s :
  args_ok args -> (forall l, k_jobs s !! env_kzalloc l A_job = None) ->
  exists s', strela_submit_ioctl args s = Ok (first_error (submit_answers K args), s')
    /\ (Forall (fun r => r = 0) (submit_answers K args) ->
         exists p j, pushed (k_log s') = [p] /\ k_jobs s' !! p = Some j /\ job_resolved args j)
    /\ (first_error (submit_answers K args) = 0 <-> Forall (fun r => r = 0) (submit_answers K args))
    /\ (Exists (fun r => r <> 0) (submit_answers K args) -> k_jobs s' = k_jobs s).
Proof. apply submit_answer_runs. Qed.
End Answer.

(** ** Every way of answering is that of some kernel *)
Definition env_of (K : kernel_answers) : Env := {|
  env_readl := fun _ _ => 0;
  env_kzalloc := fun _ a => match a with
                            | A_job => if ka_job K then 100 else 0
                            | A_fence => if ka_fence K then 200 else 0
                            | _ => 0
                            end;
  env_gem_lookup := fun _ h => ka_object K h;
  env_dma_alloc := fun _ _ => (0, 0);
  env_icall := fun _ c => match c with
                          | drm_sched_job_init _ => ka_init K
                          | drm_sched_job_add_syncobj_dependency _ h => ka_depend K h
                          | drm_syncobj_find h => if ka_syncobj K h then 300 else 0
                          | dma_get_cache_alignment => 64
                          | _ => 0
                          end
|}.

Lemma env_of_answering K : answering (E := env_of K) K.
Proof.
  split; cbn; try done; [by destruct (ka_job K)|by destruct (ka_fence K)|]. intros l h. by destruct (ka_syncobj K h).
Qed.

(** A kernel with pages behind the handles 1 to 4. *)
Definition pages_kernel : kernel_answers :=
  mkAnswers true true 0 (fun h => if (1 <=? h) && (h <=? 4) then Some (mkObj h 4096 (h * 4096) (h * 4096) false) else None)
    (fun h => if h =? 0xdeadbeef then - ENOENT else 0) (fun h => negb (h =? 0)).

(** The second column reads past its page, the third names nothing. *)
Definition two_mistakes : drm_strela_submit :=
  mkSubmit (mkUBinding 1 0 80)
    [mkUStrided 2 0 16 1; mkUStrided 2 1020 16 1; mkUStrided 9 0 0 1; mkUStrided 2 0 0 1] (replicate 4 (mkUBinding 3 0 0)) 5 0 0 0.

Lemma submit_answer_exact_witness :
  exists s', strela_submit_ioctl (E := env_of pages_kernel) two_mistakes hw_state = Ok (- EINVAL, s') /\ k_jobs s' = k_jobs hw_state.
Proof.
  destruct (submit_answer_exact (E := env_of pages_kernel) pages_kernel (env_of_answering pages_kernel) two_mistakes hw_state)
    as (s' & He & _ & _ & Hj); [by split|done|].
  exists s'. split; [exact He|]. apply Hj. apply Exists_exists. exists (- ENOENT). split; [|done].
  apply (list_elem_of_lookup_2 _ 10). reflexivity.
Defined.
