(* ===== verification/DrvGem.v ===== *)
(** * Buffer objects (driver/strela_gem.c)

    Allocating a contiguous cached buffer, freeing it, and the ioctl that hands
    a range of it from the CPU to the device and back. *)
From S2P Require Export DrvSubmit.

Definition PAGE_SIZE : Z := 4096.

(** ALIGN(x, a) and IS_ALIGNED(x, a) on u64, for a power of two [a]. *)
Definition PAGE_ALIGN (x : Z) : Z := Z.land (u64 (x + (PAGE_SIZE - 1))) (Z.lxor (PAGE_SIZE - 1) (2 ^ 64 - 1)).

Definition IS_ALIGNED (x a : Z) : bool := Z.land x (u64 (a - 1)) =? 0.

Section Gem.
Context {A : abi} {E : Env}.

Definition strela_gem_free (obj : gem_obj) : M kst unit :=
  let! w := warn_on (o_import_attach obj) in
  if w then mret_ tt else
  do! (if negb (o_vaddr obj =? 0)
       then vcall_ (dma_free_noncoherent (o_size obj) (o_vaddr obj) (o_dma_addr obj) DMA_BIDIRECTIONAL)
       else mret_ tt) in
  do! vcall_ (drm_gem_object_release (o_id obj)) in
  vcall_ (kfree (o_id obj)).

(** [err_release]. *)
Definition gem_err_release (dma_obj ret : Z) : M kst (Z + gem_obj) :=
  do! vcall_ (drm_gem_object_release dma_obj) in
  do! vcall_ (kfree dma_obj) in
  mret_ (inl ret).

(** The new object, or the error. *)
Definition strela_gem_create (size : Z) : M kst (Z + gem_obj) :=
  let! dma_obj := kzalloc_ A_gem in
  if dma_obj =? 0 then mret_ (inl (- ENOMEM)) else
  let! ret := icall_ (drm_gem_object_init dma_obj size) in
  if negb (ret =? 0) then
    do! vcall_ (kfree dma_obj) in mret_ (inl ret)
  else
  let! ret := icall_ (drm_gem_create_mmap_offset dma_obj) in
  if negb (ret =? 0) then gem_err_release dma_obj ret else
  let! '(vaddr, dma_addr) := dma_alloc_noncoherent size DMA_BIDIRECTIONAL in
  if vaddr =? 0 then gem_err_release dma_obj (- ENOMEM) else
  let! err := icall_ (dma_mapping_error dma_addr) in
  if negb (err =? 0) then
    do! vcall_ (dma_free_noncoherent size vaddr dma_addr DMA_BIDIRECTIONAL) in
    gem_err_release dma_obj (- ENOMEM)
  else mret_ (inr (mkObj dma_obj size dma_addr vaddr false)).

(** Giving the new object a handle: the result and, on success, the mmap offset
    written back to the caller. *)
Definition gem_new_finish (r : Z + gem_obj) : M kst (Z * option Z) :=
  match r with
  | inl err => mret_ (err, None)
  | inr dma_obj =>
      let! ret := icall_ (drm_gem_handle_create (o_id dma_obj)) in
      let! offset := (if ret =? 0 then
                        let! off := icall_ (drm_vma_node_offset_addr (o_id dma_obj)) in mret_ (Some off)
                      else mret_ None) in
      do! vcall_ (drm_gem_object_put (Some dma_obj)) in
      mret_ (ret, offset)
  end.

Definition strela_gem_new_ioctl (args : drm_strela_gem_new) : M kst (Z * option Z) :=
  if negb (gn_flags args =? 0) then mret_ (- EINVAL, None) else
  if (gn_size args =? 0) || negb (IS_ALIGNED (gn_size args) STRELA_WORD_SIZE)
  then mret_ (- EINVAL, None) else
  let! r := strela_gem_create (wptr (PAGE_ALIGN (gn_size args))) in
  gem_new_finish r.

(** The direction of a sync, or an error. *)
Definition sync_direction (flags : Z) : option dma_data_direction :=
  if Z.land flags DRM_STRELA_SYNC_RW =? DRM_STRELA_SYNC_RW then Some DMA_BIDIRECTIONAL
  else if negb (Z.land flags DRM_STRELA_SYNC_WRITE =? 0) then Some DMA_TO_DEVICE
  else if negb (Z.land flags DRM_STRELA_SYNC_READ =? 0) then Some DMA_FROM_DEVICE
  else None.

(** The range check and the sync on a looked-up object. *)
Definition gem_sync_range (args : drm_strela_gem_sync) (dir : dma_data_direction) (align : Z)
    (obj : gem_obj) : M kst Z :=
  if (o_size obj <? gs_offset args) || (o_size obj - gs_offset args <? gs_length args)
  then mret_ (- EINVAL)
  else if negb (IS_ALIGNED (gs_offset args) align) || negb (IS_ALIGNED (gs_length args) align)
  then mret_ (- EINVAL)
  else if gs_length args =? 0 then mret_ 0
  else
    let addr := wptr (o_dma_addr obj + gs_offset args) in
    let len := wptr (gs_length args) in
    do! (if negb (Z.land (gs_flags args) DRM_STRELA_SYNC_FINI =? 0)
         then vcall_ (dma_sync_single_for_device addr len dir)
         else vcall_ (dma_sync_single_for_cpu addr len dir)) in
    mret_ 0.

Definition strela_gem_sync_ioctl (args : drm_strela_gem_sync) : M kst Z :=
  let! align := icall_ dma_get_cache_alignment in
  if bad_flags (gs_flags args) DRM_STRELA_SYNC_VALID_FLAGS_MASK then mret_ (- EINVAL) else
  match sync_direction (gs_flags args) with
  | None => mret_ (- EINVAL)
  | Some dir =>
      let! obj := drm_gem_object_lookup (gs_handle args) in
      match obj with
      | None => mret_ (- ENOENT)
      | Some o =>
          let! ret := gem_sync_range args dir align o in
          do! vcall_ (drm_gem_object_put obj) in
          mret_ ret
      end
  end.
End Gem.

(** ** Arithmetic *)
Lemma PAGE_ALIGN_value x : 0 <= x < 2 ^ 64 - 4095 -> PAGE_ALIGN x = (x + 4095) / 4096 * 4096.
Proof.
  intros Hx. unfold PAGE_ALIGN, PAGE_SIZE. rewrite wrap_small by lia.
  change (4096 - 1) with (Z.ones 12). change (2 ^ 64 - 1) with (Z.ones 64).
  assert (Hm : Z.lxor (Z.ones 12) (Z.ones 64) = Z.ones 64 - Z.ones 12) by reflexivity.
  assert (Hl : forall y, 0 <= y < 2 ^ 64 -> Z.land y (Z.lxor (Z.ones 12) (Z.ones 64)) = Z.ldiff y (Z.ones 12)).
  { intros y Hy. apply Z.bits_inj'. intros n Hn.
    rewrite Z.land_spec, Z.lxor_spec, Z.ldiff_spec, !Z.testbit_ones by lia.
    destruct (Z.testbit y n) eqn:Eb; [|done]. cbn.
    assert (n < 64).
    { destruct (decide (n < 64)); [done|]. rewrite Z.bits_above_log2 in Eb; [done|lia|].
      destruct (decide (y = 0)) as [->|]; [cbn; lia|].
      apply Z.lt_le_trans with 64; [apply Z.log2_lt_pow2; lia|lia]. }
    replace (n <? 64) with true by lia. replace (0 <=? n) with true by lia. cbn.
    by destruct (n <? 12). }
  rewrite Hl by (change (Z.ones 12) with 4095; lia).
  rewrite Z.ldiff_ones_r, Z.shiftr_div_pow2, Z.shiftl_mul_pow2 by lia. done.
Qed.

Lemma IS_ALIGNED_pow2 x k : 0 <= k < 64 -> IS_ALIGNED x (2 ^ k) = (x mod 2 ^ k =? 0).
Proof.
  intros Hk. unfold IS_ALIGNED. pose proof (Z.pow_pos_nonneg 2 k ltac:(lia) ltac:(lia)).
  pose proof (Z.pow_lt_mono_r 2 k 64 ltac:(lia) ltac:(lia) ltac:(lia)).
  rewrite wrap_small by lia. by rewrite land_pow2_mod by lia.
Qed.

(** ** What a buffer allocation takes and gives back *)

(** The object's memory, its initialisation and its DMA memory, in a log. *)
Variant gem_resource :=
| GMem (p : Z)
| GInit (p : Z)
| GDma (vaddr : Z).

Definition gem_delta (r : gem_resource) (e : event) : Z :=
  match r, e with
  | GMem p, Kzalloc A_gem p' => one ((p' =? p) && negb (p' =? 0))
  | GMem p, VCall (kfree p') => - one (p' =? p)
  | GInit p, ICall (drm_gem_object_init p' _) ret => one ((p' =? p) && (ret =? 0))
  | GInit p, VCall (drm_gem_object_release p') => - one (p' =? p)
  | GDma v, DmaAlloc _ v' _ _ => one ((v' =? v) && negb (v' =? 0))
  | GDma v, VCall (dma_free_noncoherent _ v' _ _) => - one (v' =? v)
  | _, _ => 0
  end.

Fixpoint gem_held (r : gem_resource) (l : list event) : Z :=
  match l with
  | [] => 0
  | e :: l => gem_delta r e + gem_held r l
  end.

(** What an object holds. *)
Definition obj_holds (r : gem_resource) (o : gem_obj) : Z :=
  match r with
  | GMem p => one (o_id o =? p)
  | GInit p => one (o_id o =? p)
  | GDma v => one (o_vaddr o =? v)
  end.

Section Proofs.
Context {A : abi} {E : Env}.

(** Rewrite with every fact about an answer being zero or not. *)
Ltac answers :=
  repeat match goal with
  | H : ?x <> 0 |- context [?x =? 0] => rewrite (proj2 (Z.eqb_neq _ _) H)
  | H : ?x = 0 |- context [?x =? 0] => rewrite (proj2 (Z.eqb_eq _ _) H)
  end; cbn; rewrite ?andb_true_r, ?andb_false_r; cbn.

Lemma gem_create_ok size s :
  exists r s', strela_gem_create size s = Ok (r, s')
    /\ match r with
       | inl err => err <> 0 /\ forall g, gem_held g (k_log s') = gem_held g (k_log s)
       | inr o => o_size o = size /\ o_import_attach o = false /\ o_vaddr o <> 0 /\ o_id o <> 0
                  /\ forall g, gem_held g (k_log s') = gem_held g (k_log s) + obj_holds g o
       end.
Proof.
  unfold strela_gem_create. rewrite (mbind_Ok (kzalloc_ A_gem) _ s _ _ eq_refl).
  set (p := env_kzalloc _ _). clearbody p. destruct (Z.eqb_spec p 0) as [Hp|Hp].
  { do 2 eexists. split; [done|]. split; [done|]. intros g. destruct g; cbn; try lia. answers. lia. }
  rewrite (mbind_Ok _ _ _ _ _ (icall_Ok _ _)). set (r1 := env_icall _ _). clearbody r1.
  destruct (Z.eqb_spec r1 0) as [Hr1|Hr1]; cbn [negb].
  2:{ do 2 eexists. split; [done|]. split; [done|]. intros g. destruct g; cbn; answers; lia. }
  rewrite (mbind_Ok _ _ _ _ _ (icall_Ok _ _)). set (r2 := env_icall _ _). clearbody r2.
  destruct (Z.eqb_spec r2 0) as [Hr2|Hr2]; cbn [negb].
  2:{ do 2 eexists. split; [done|]. split; [done|]. intros g. destruct g; cbn; answers; lia. }
  rewrite (mbind_Ok (dma_alloc_noncoherent _ _) _ _ _ _ eq_refl).
  match goal with |- context [env_dma_alloc ?l size] => destruct (env_dma_alloc l size) as [v d] end.
  cbn [fst snd]. destruct (Z.eqb_spec v 0) as [Hv|Hv].
  { do 2 eexists. split; [done|]. split; [done|]. intros g. destruct g; cbn; answers; lia. }
  rewrite (mbind_Ok _ _ _ _ _ (icall_Ok _ _)). set (r3 := env_icall _ _). clearbody r3.
  destruct (Z.eqb_spec r3 0) as [Hr3|Hr3]; cbn [negb].
  2:{ do 2 eexists. split; [done|]. split; [done|]. intros g. destruct g; cbn; answers; lia. }
  do 2 eexists. split; [done|]. cbn. split_and!; try done. intros g. destruct g; cbn; answers; lia.
Qed.

Lemma gem_free_ok o s :
  o_import_attach o = false -> o_vaddr o <> 0 ->
  exists s', strela_gem_free o s = Ok (tt, s')
    /\ forall g, gem_held g (k_log s') = gem_held g (k_log s) - obj_holds g o.
Proof.
  intros Hi Hv. unfold strela_gem_free. rewrite Hi, (mbind_Ok (warn_on _) _ s false s) by done.
  rewrite (proj2 (Z.eqb_neq _ _) Hv). eexists. split; [reflexivity|].
  intros g. destruct g; cbn; lia.
Qed.

(** C35: Allocating a buffer leaks nothing: whatever the kernel answers,
    [strela_gem_create] returns an object that holds its memory, its GEM state
    and its DMA memory, or an error with everything it had acquired given back;
    and [strela_gem_free] gives back exactly what such an object holds. *)
Theorem gem_create_balanced size s :
  exists r s', strela_gem_create size s = Ok (r, s')
    /\ match r with
       | inl err => err <> 0 /\ forall g, gem_held g (k_log s') = gem_held g (k_log s)
       | inr o => o_size o = size
                  /\ (forall g, gem_held g (k_log s') = gem_held g (k_log s) + obj_holds g o)
                  /\ forall s1, exists s2, strela_gem_free o s1 = Ok (tt, s2)
                       /\ forall g, gem_held g (k_log s2) = gem_held g (k_log s1) - obj_holds g o
       end.
Proof.
  destruct (gem_create_ok size s) as (r & s' & He & Hr). exists r, s'. split; [done|].
  destruct r as [err|o]; [done|]. destruct Hr as (Hsz & Hi & Hv & _ & Hh). split_and!; try done.
  intros s1. by apply gem_free_ok.
Qed.

(** ** The sync ioctl *)

(** The cache maintenance of a log, newest first: to the device or to the CPU,
    bus address, length, direction. *)
Fixpoint syncs (l : list event) : list (bool * Z * Z * dma_data_direction) :=
  match l with
  | [] => []
  | VCall (dma_sync_single_for_device a n d) :: l => (true, a, n, d) :: syncs l
  | VCall (dma_sync_single_for_cpu a n d) :: l => (false, a, n, d) :: syncs l
  | _ :: l => syncs l
  end.

(** A range of the object that can be maintained on its own. *)
Definition sync_range_ok (o : gem_obj) (offset length align : Z) : Prop :=
  offset + length <= o_size o /\ offset mod align = 0 /\ length mod align = 0.

#[local] Instance sync_range_dec o offset length align : Decision (sync_range_ok o offset length align).
Proof. unfold sync_range_ok. apply _. Defined.

Definition sync_args_ok (args : drm_strela_gem_sync) : Prop :=
  is_u 64 (gs_offset args) /\ is_u 64 (gs_length args).

Lemma gem_sync_range_ok args dir k o s :
  sync_args_ok args -> 0 <= k < 64 -> obj_dma32 o ->
  exists ret l, gem_sync_range args dir (2 ^ k) o s = Ok (ret, set_log s l)
    /\ (forall r, held r l = held r (k_log s))
    /\ (ret = 0 <-> sync_range_ok o (gs_offset args) (gs_length args) (2 ^ k))
    /\ (ret <> 0 -> ret = - EINVAL /\ l = k_log s)
    /\ (ret = 0 -> syncs l = (if gs_length args =? 0 then [] else
         [(negb (Z.land (gs_flags args) DRM_STRELA_SYNC_FINI =? 0),
           o_dma_addr o + gs_offset args, gs_length args, dir)]) ++ syncs (k_log s)).
Proof.
  intros (Ho & Hl) Hk (Hd & Hz & H32). unfold is_u in *. unfold gem_sync_range, sync_range_ok.
  rewrite !IS_ALIGNED_pow2 by done. set (a := 2 ^ k).
  assert (Hend : forall ret, ret = - EINVAL ->
    ~ (gs_offset args + gs_length args <= o_size o /\ gs_offset args mod a = 0 /\ gs_length args mod a = 0) ->
    exists r l, mret_ (- EINVAL) s = Ok (r, set_log s l) /\ (forall x, held x l = held x (k_log s))
      /\ (r = 0 <-> (gs_offset args + gs_length args <= o_size o /\ gs_offset args mod a = 0
                     /\ gs_length args mod a = 0))
      /\ (r <> 0 -> r = - EINVAL /\ l = k_log s)
      /\ (r = 0 -> syncs l = (if gs_length args =? 0 then [] else
         [(negb (Z.land (gs_flags args) DRM_STRELA_SYNC_FINI =? 0),
           o_dma_addr o + gs_offset args, gs_length args, dir)]) ++ syncs (k_log s))).
  { intros ret _ Hn. exists (- EINVAL), (k_log s). split; [by destruct s|]. by split_and!. }
  destruct (_ || _) eqn:E1; [apply (Hend _ eq_refl); lia|].
  destruct (_ || _) eqn:E2 in |- *; [apply (Hend _ eq_refl)|].
  { intros (_ & H1 & H2). rewrite H1, H2 in E2. done. }
  assert (Hok : gs_offset args + gs_length args <= o_size o
                /\ gs_offset args mod a = 0 /\ gs_length args mod a = 0) by lia.
  destruct (Z.eqb_spec (gs_length args) 0) as [E0|Hne].
  { exists 0, (k_log s). split; [by destruct s|]. by split_and!. }
  assert (2 ^ 32 <= 2 ^ ptr_bits) by (unfold ptr_bits, ptr_bytes; destruct A; lia).
  rewrite !wptr_small by lia. destruct (Z.land (gs_flags args) DRM_STRELA_SYNC_FINI =? 0); cbn [negb].
  all: do 2 eexists; split; [reflexivity|]; split_and!; try done; intros r; by destruct r.
Qed.

(** What the sync ioctl does with valid flags on a buffer. *)
Lemma gem_sync_call args s k dir o :
  sync_args_ok args -> 0 <= k < 64 ->
  (forall l, env_icall l dma_get_cache_alignment = 2 ^ k) ->
  bad_flags (gs_flags args) DRM_STRELA_SYNC_VALID_FLAGS_MASK = false ->
  sync_direction (gs_flags args) = Some dir ->
  (forall l, env_gem_lookup l (gs_handle args) = Some o) -> obj_dma32 o ->
  exists ret s', strela_gem_sync_ioctl args s = Ok (ret, s')
    /\ (forall r, held r (k_log s') = held r (k_log s))
    /\ (ret = 0 <-> sync_range_ok o (gs_offset args) (gs_length args) (2 ^ k))
    /\ (ret <> 0 -> ret = - EINVAL /\ syncs (k_log s') = syncs (k_log s))
    /\ (ret = 0 -> syncs (k_log s') = (if gs_length args =? 0 then [] else
         [(negb (Z.land (gs_flags args) DRM_STRELA_SYNC_FINI =? 0),
           o_dma_addr o + gs_offset args, gs_length args, dir)]) ++ syncs (k_log s)).
Proof.
  intros Hargs Hk Hal Hfl Hdir Hlk Ho. unfold strela_gem_sync_ioctl.
  rewrite (mbind_Ok _ _ _ _ _ (icall_Ok _ _)), Hal, Hfl, Hdir.
  rewrite (mbind_Ok (drm_gem_object_lookup _) _ _ _ _ eq_refl), Hlk. set (s1 := set_log _ _).
  destruct (gem_sync_range_ok args dir k o s1 Hargs Hk Ho) as (ret & l & He & Hh & Hiff & Hbad & Hsync).
  rewrite (mbind_Ok _ _ _ _ _ He), (mbind_Ok (vcall_ _) _ _ tt _ eq_refl).
  do 2 eexists. split; [reflexivity|]. cbn [k_log set_log held syncs]. split_and!; try done.
  - intros r. rewrite Hh. unfold s1. destruct r; cbn; lia.
  - intros Hne. destruct (Hbad Hne) as [-> ->]. split; [done|]. reflexivity.
Qed.

(** ** The answer of the sync ioctl, from its arguments alone *)

(** What the flags ask for: READ is 1, WRITE is 2, FINI is 4, and nothing else
    may be set. *)
Definition flags_dir (flags : Z) : option dma_data_direction :=
  if (flags =? 1) || (flags =? 5) then Some DMA_FROM_DEVICE
  else if (flags =? 2) || (flags =? 6) then Some DMA_TO_DEVICE
  else if (flags =? 3) || (flags =? 7) then Some DMA_BIDIRECTIONAL
  else None.

Definition sync_answer (args : drm_strela_gem_sync) (align : Z) (look : option gem_obj) : Z :=
  match flags_dir (gs_flags args), look with
  | None, _ => - EINVAL
  | Some _, None => - ENOENT
  | Some _, Some o =>
      if decide (sync_range_ok o (gs_offset args) (gs_length args) align) then 0 else - EINVAL
  end.

(** The cache maintenance an accepted request asks for. *)
Definition sync_request (args : drm_strela_gem_sync) (look : option gem_obj)
  : list (bool * Z * Z * dma_data_direction) :=
  match flags_dir (gs_flags args), look with
  | Some dir, Some o =>
      if gs_length args =? 0 then [] else
      [(4 <=? gs_flags args, o_dma_addr o + gs_offset args, gs_length args, dir)]
  | _, _ => []
  end.

Lemma flags_small flags :
  is_u 32 flags -> bad_flags flags DRM_STRELA_SYNC_VALID_FLAGS_MASK = false -> flags < 8.
Proof.
  unfold is_u, bad_flags. intros Hf Hb. apply negb_false_iff, Z.eqb_eq in Hb.
  assert (Hs : Z.land flags (Z.lor DRM_STRELA_SYNC_VALID_FLAGS_MASK
                               (Z.lxor DRM_STRELA_SYNC_VALID_FLAGS_MASK (2 ^ 32 - 1))) = flags).
  { change (Z.lor _ _) with (Z.ones 32). rewrite Z.land_ones by lia. by apply Z.mod_small. }
  rewrite Z.land_lor_distr_r, Hb, Z.lor_0_r in Hs. rewrite <- Hs.
  change DRM_STRELA_SYNC_VALID_FLAGS_MASK with (Z.ones 3). rewrite Z.land_ones by lia. by apply Z.mod_pos_bound.
Qed.

(** The driver's tests of the flags, as one table. *)
Lemma flags_dir_eq flags :
  is_u 32 flags ->
  (if bad_flags flags DRM_STRELA_SYNC_VALID_FLAGS_MASK then None else sync_direction flags) = flags_dir flags
  /\ (forall dir, flags_dir flags = Some dir -> negb (Z.land flags DRM_STRELA_SYNC_FINI =? 0) = (4 <=? flags)).
Proof.
  intros Hf. destruct (decide (flags < 8)) as [Hlt|Hge].
  - assert (Hc : flags = 0 \/ flags = 1 \/ flags = 2 \/ flags = 3 \/ flags = 4 \/ flags = 5 \/ flags = 6 \/ flags = 7)
      by (unfold is_u in Hf; lia).
    destruct_or! Hc; subst; by (split; [vm_compute|intros dir _; vm_compute]).
  - assert (Hn : flags_dir flags = None) by (unfold flags_dir; repeat (rewrite (proj2 (Z.eqb_neq _ _)) by lia); done).
    rewrite Hn. split; [|done].
    destruct (bad_flags _ _) eqn:Hb; [done|]. by apply flags_small in Hb.
Qed.

(** C36: The sync ioctl, exactly, on every request. [strela_gem_sync_ioctl] answers
    -EINVAL when the flags have an unknown bit or name no direction, -ENOENT
    when the handle names no buffer, -EINVAL when the range leaves the buffer
    or an end of it is not cache aligned, and 0 otherwise. When it answers 0
    and the length is not 0 it issues exactly one sync, of the range asked for,
    to the device with FINI and to the CPU otherwise, in the direction of the
    flags; in every other case it touches no cache. References are balanced.
    The cache alignment is a power of two, the buffer lies below 4 GiB on the
    bus, and what the handle names does not change during the call. *)
Theorem gem_sync_exact args s k look :
  is_u 32 (gs_flags args) -> sync_args_ok args -> 0 <= k < 64 ->
  (forall l, env_icall l dma_get_cache_alignment = 2 ^ k) ->
  (forall l, env_gem_lookup l (gs_handle args) = look) -> (forall o, look = Some o -> obj_dma32 o) ->
  let ret := sync_answer args (2 ^ k) look in
  exists s', strela_gem_sync_ioctl args s = Ok (ret, s')
    /\ (forall r, held r (k_log s') = held r (k_log s))
    /\ syncs (k_log s') = (if ret =? 0 then sync_request args look else []) ++ syncs (k_log s).
Proof.
  intros Hfl Hargs Hk Hal Hlk Ho ret. destruct (flags_dir_eq _ Hfl) as [Hdir Hfini].
  unfold ret, sync_answer, sync_request. destruct (bad_flags _ _) eqn:Hb.
  { rewrite <- Hdir. eexists. unfold strela_gem_sync_ioctl.
    rewrite (mbind_Ok _ _ _ _ _ (icall_Ok _ _)), Hb. split_and!; [reflexivity|intros r; by destruct r|done]. }
  rewrite <- Hdir in *. destruct (sync_direction _) as [dir|] eqn:Hd.
  2: { eexists. unfold strela_gem_sync_ioctl. rewrite (mbind_Ok _ _ _ _ _ (icall_Ok _ _)), Hb, Hd.
       split_and!; [reflexivity|intros r; by destruct r|done]. }
  destruct look as [o|].
  2: { eexists. unfold strela_gem_sync_ioctl. rewrite (mbind_Ok _ _ _ _ _ (icall_Ok _ _)), Hb, Hd.
       rewrite (mbind_Ok (drm_gem_object_lookup _) _ _ _ _ eq_refl), Hlk.
       split_and!; [reflexivity|intros r; by destruct r|done]. }
  destruct (gem_sync_call args s k dir o Hargs Hk Hal Hb Hd Hlk (Ho o eq_refl)) as (r & s' & He & Hh & Hiff & Hbad & Hsync).
  exists s'. rewrite (Hfini dir eq_refl) in Hsync. destruct (decide (sync_range_ok _ _ _ _)) as [Hok|Hno].
  - apply Hiff in Hok as ->. split_and!; [done|done|by apply Hsync].
  - assert (Hne : r <> 0) by (by rewrite Hiff). destruct (Hbad Hne) as [-> Hs]. by split_and!.
Qed.

(** The sizes of new buffers. For a request that is page-aligned upwards
    without leaving size_t, [strela_gem_new_ioctl] creates its object with at
    least the requested bytes and less than a page more; on 64-bit kernels that
    is every request below 2^64 - 4095. *)
Theorem gem_new_size args s :
  gn_flags args = 0 -> 0 < gn_size args -> gn_size args mod STRELA_WORD_SIZE = 0 ->
  gn_size args + 4095 < 2 ^ ptr_bits ->
  exists size r s1, gn_size args <= size < gn_size args + PAGE_SIZE /\ size mod PAGE_SIZE = 0
    /\ strela_gem_create size s = Ok (r, s1) /\ (forall o, r = inr o -> o_size o = size)
    /\ strela_gem_new_ioctl args s = gem_new_finish r s1.
Proof.
  intros Hf Hpos Hal Hb. assert (2 ^ ptr_bits <= 2 ^ 64) by (unfold ptr_bits, ptr_bytes; destruct A; lia).
  exists ((gn_size args + 4095) / 4096 * 4096). unfold PAGE_SIZE.
  pose proof (Z.div_mod (gn_size args + 4095) 4096 ltac:(lia)).
  pose proof (Z.mod_pos_bound (gn_size args + 4095) 4096 ltac:(lia)).
  destruct (gem_create_ok ((gn_size args + 4095) / 4096 * 4096) s) as (o & s1 & He & Ho).
  exists o, s1. split_and!; [lia|lia|apply Z_mod_mult|done| |].
  - intros o' ->. by destruct Ho.
  - unfold strela_gem_new_ioctl.
    rewrite Hf, (proj2 (Z.eqb_neq (gn_size args) 0)) by lia. change STRELA_WORD_SIZE with (2 ^ 2) in *.
    rewrite IS_ALIGNED_pow2, Hal by lia. cbn [negb orb Z.eqb].
    rewrite PAGE_ALIGN_value, wptr_small by lia. by rewrite (mbind_Ok _ _ _ _ _ He).
Qed.
End Proofs.

(** A state in which handle 1 is a 64-byte buffer and cache lines are 32 bytes. *)
Definition env_sync : Env := {|
  env_readl := fun _ _ => 0;
  env_kzalloc := fun _ _ => 200;
  env_gem_lookup := fun _ _ => Some obj64;
  env_dma_alloc := fun _ _ => (0x8000, 0x1000);
  env_icall := fun _ c => match c with dma_get_cache_alignment => 32 | _ => 0 end
|}.

Lemma gem_sync_exact_witness :
  exists s', strela_gem_sync_ioctl (A := ARMv7) (E := env_sync) (mkGemSync 1 6 32 32) hw_state = Ok (0, s')
    /\ syncs (k_log s') = [(true, 0x1020, 32, DMA_TO_DEVICE)].
Proof.
  destruct (gem_sync_exact (A := ARMv7) (E := env_sync) (mkGemSync 1 6 32 32) hw_state 5 (Some obj64))
    as (s' & He & _ & Hs).
  - by vm_compute.
  - by vm_compute.
  - lia.
  - reflexivity.
  - reflexivity.
  - intros o [= <-]. by vm_compute.
  - exists s'. split; [exact He|exact Hs].
Defined.

Lemma gem_new_size_witness :
  exists size r s1, 100 <= size < 100 + PAGE_SIZE
    /\ strela_gem_new_ioctl (A := ARMv7) (E := env_sync) (mkGemNew 100 0) hw_state
       = gem_new_finish (E := env_sync) r s1.
Proof.
  destruct (gem_new_size (A := ARMv7) (E := env_sync) (mkGemNew 100 0) hw_state
    eq_refl ltac:(cbn; lia) eq_refl ltac:(by vm_compute)) as (size & r & s1 & H1 & _ & _ & _ & H2).
  exists size, r, s1. split; [exact H1|exact H2].
Defined.

(** On the 32-bit board a request above 4 GiB is not refused: its size is cut
    to size_t after the page alignment, and asking for 4 GiB + 4 bytes
    succeeds with a buffer of one page. *)
Theorem gem_new_truncates :
  exists s', strela_gem_new_ioctl (A := ARMv7) (E := env_sync) (mkGemNew (2 ^ 32 + 4) 0) hw_state
             = Ok ((0, Some 0), s')
    /\ In (DmaAlloc 4096 0x8000 0x1000 DMA_BIDIRECTIONAL) (k_log s').
Proof. eexists. split; [vm_compute; reflexivity|]. cbn. tauto. Qed.
