(* ===== verification/DrvTests.v ===== *)
(** * The tests that check arguments (tests/test_strela2.c)

    Five tests of the project's suites ask whether the driver refuses what it
    must refuse and nothing else: they call the ioctls on a device without
    waiting for a job, except where noted. Here they are clients of the driver's
    handlers; each gives the outcomes of its checks on them, and all hold. *)
From S2P Require Import DrvGem DrvAnswer.

(** The handle no object has. *)
Definition BOGUS : Z := 0xdeadbeef.

Section Tests.
Context {A : abi} {E : Env}.

Definition gem_sync (handle flags offset length : Z) : M kst Z :=
  strela_gem_sync_ioctl (mkGemSync handle flags offset length).

(** After [gem_new] gave the handle of a buffer of [size] bytes. *)
Definition test_gem_sync_args (handle size : Z) : M kst (list bool) :=
  let both := DRM_STRELA_SYNC_RW in
  let! r1 := gem_sync handle both 0 size in
  let! r2 := gem_sync handle (Z.shiftl 1 7) 0 size in
  let! r3 := gem_sync handle both 0 (size + 1) in
  let! r4 := gem_sync handle both size STRELA_WORD_SIZE in
  let! r5 := gem_sync BOGUS both 0 size in
  mret_ [r1 =? 0; r2 <? 0; r3 <? 0; r4 <? 0; r5 <? 0].

(** A struct without its bindings is zeroed. *)
Definition zero_in : drm_strela_strided_binding := mkUStrided 0 0 0 0.
Definition zero_out : drm_strela_binding := mkUBinding 0 0 0.

(** [strela_submit] points bindings without a handle at the buffer [spare]. *)
Definition with_spare (spare : Z) (args : drm_strela_submit) : drm_strela_submit :=
  mkSubmit (sub_config args)
    ((fun b => if us_handle b =? 0 then mkUStrided spare (us_offset b) (us_count b) (us_stride b) else b) <$> sub_inputs args)
    ((fun b => if ub_handle b =? 0 then mkUBinding spare (ub_offset b) (ub_count b) else b) <$> sub_outputs args)
    (sub_out_syncobj args) (sub_flags args) (sub_in_syncobj args) (sub_pad args).

(** The buffer [spare] was made by [gem_new]; its handle is closed afterwards,
    which no check looks at. *)
Definition strela_submit (spare : Z) (args : drm_strela_submit) : M kst Z := strela_submit_ioctl (with_spare spare args).

(** The errno a negative answer leaves. *)
Definition enoent_or_einval (r : Z) : bool := (r =? - ENOENT) || (r =? - EINVAL).

Definition bad_handle_args (sync : Z) : drm_strela_submit :=
  mkSubmit (mkUBinding BOGUS 0 80) (replicate STRELA_NUM_IO_COLS zero_in) (replicate STRELA_NUM_IO_COLS zero_out) sync 0 0 0.

(** Without the look at the numbers of the process's descriptors: the ioctl
    opens none. *)
Definition test_bad_handle (spare sync : Z) : M kst (list bool) :=
  let! r := strela_submit spare (bad_handle_args sync) in
  mret_ [r <? 0; enoent_or_einval r].

(** The last output has no handle. *)
Definition zero_handle_args (config inp out sync : Z) : drm_strela_submit :=
  mkSubmit (mkUBinding config 0 80) (replicate STRELA_NUM_IO_COLS (mkUStrided inp 0 0 0))
    (<[(STRELA_NUM_IO_COLS - 1)%nat := mkUBinding 0 0 0]> (replicate STRELA_NUM_IO_COLS (mkUBinding out 0 0))) sync 0 0 0.

Definition test_zero_handle (config inp out sync : Z) : M kst (list bool) :=
  let! r := strela_submit_ioctl (zero_handle_args config inp out sync) in
  mret_ [r <? 0; r =? - ENOENT].

(** Idle columns with the stride ~0u. *)
Definition idle_binding_args (config inp out sync : Z) : drm_strela_submit :=
  mkSubmit (mkUBinding config 0 80)
    (mkUStrided inp 0 8 1 :: replicate (STRELA_NUM_IO_COLS - 1) (mkUStrided inp 0 0 (2 ^ 32 - 1)))
    (mkUBinding out 0 8 :: replicate (STRELA_NUM_IO_COLS - 1) (mkUBinding out 0 0)) sync 0 0 0.

(** Up to the wait for the job. *)
Definition test_idle_binding (config inp out sync : Z) : M kst (list bool) :=
  let! r := strela_submit_ioctl (idle_binding_args config inp out sync) in
  mret_ [r =? 0].

Definition in_fence_args (config inp out sync flags in_syncobj : Z) : drm_strela_submit :=
  mkSubmit (mkUBinding config 0 80)
    (mkUStrided inp 0 16 1 :: replicate (STRELA_NUM_IO_COLS - 1) zero_in)
    (mkUBinding out 0 16 :: replicate (STRELA_NUM_IO_COLS - 1) zero_out) sync flags in_syncobj 0.

(** Up to the wait for the second job, which [submit] sends without the flag;
    its [in_syncobj] is 0. *)
Definition test_in_fence_bad_handle (config inp out spare sync sync' : Z) : M kst (list bool) :=
  let! r := strela_submit spare (in_fence_args config inp out sync DRM_STRELA_SUBMIT_WAIT_SYNCOBJ BOGUS) in
  let! r' := strela_submit spare (in_fence_args config inp out sync' 0 0) in
  mret_ [r <? 0; enoent_or_einval r; r' =? 0].

(** ** They pass *)

(** A kernel in which the tests can run: it has memory, a handle names the page
    it was given for, 0 and the bogus handle name nothing, and the sync objects
    made for the test exist. *)
Record test_kernel (K : kernel_answers) (handles syncs : list Z) : Prop := {
  tk_job : ka_job K = true;
  tk_fence : ka_fence K = true;
  tk_init : ka_init K = 0;
  tk_object : forall h, h ∈ handles -> h <> 0 /\ exists o, ka_object K h = Some o /\ o_size o = PAGE_SIZE /\ obj_dma32 o;
  tk_zero : ka_object K 0 = None;
  tk_bogus : ka_object K BOGUS = None;
  tk_wait : ka_depend K BOGUS = - ENOENT;
  tk_sync : forall h, h ∈ syncs -> ka_syncobj K h = true
}.

Context (K : kernel_answers) (HK : answering K).

Lemma submit_says args s r :
  args_ok args -> (forall l, k_jobs s !! env_kzalloc l A_job = None) -> first_error (submit_answers K args) = r ->
  exists s', strela_submit_ioctl args s = Ok (r, s').
Proof. intros Hok Hf <-. destruct (submit_answer_runs K HK args s Hok Hf) as (s' & He & _). by exists s'. Qed.

(** A page holds every range of the tests. *)
Lemma page_answer hs ss h off cnt str :
  test_kernel K hs ss -> h ∈ hs -> binding_answer K (mkUStrided h off cnt str) = strela_binding_check PAGE_SIZE (mkUStrided h off cnt str).
Proof. intros Hk Hh. destruct (tk_object _ _ _ Hk h Hh) as (_ & o & Ho & Hs & _). unfold binding_answer. cbn [us_handle]. rewrite Ho, Hs. reflexivity. Qed.

Lemma plain_answer hs ss args :
  test_kernel K hs ss -> sub_flags args = 0 -> sub_pad args = 0 -> sub_out_syncobj args ∈ ss ->
  first_error (submit_answers K args) = first_error (bindings_answers K args).
Proof.
  intros Hk Hf Hp Hs. unfold submit_answers, body_answers. rewrite Hf, Hp, (tk_job _ _ _ Hk), (tk_fence _ _ _ Hk), (tk_init _ _ _ Hk).
  rewrite !first_error_skip by reflexivity. rewrite first_error_app, (tk_sync _ _ _ Hk _ Hs).
  by destruct (Z.eqb_spec (first_error (bindings_answers K args)) 0) as [->|_].
Qed.

(** The bindings of a request, one by one. *)
Ltac bindings Hk :=
  match goal with |- context [bindings_answers K ?args] =>
    let l := eval cbn in (strided (sub_config args) :: concat ((fun c => [c.1; strided c.2]) <$> columns_of args)) in
    change (bindings_answers K args) with (binding_answer K <$> l) end;
  unfold strided; cbn [fmap list_fmap ub_handle ub_offset ub_count];
  repeat (rewrite first_error_skip by (rewrite (page_answer _ _ _ _ _ _ Hk) by set_solver; reflexivity)).

Lemma bad_handle_answer spare sync :
  test_kernel K [spare] [sync] -> first_error (submit_answers K (with_spare spare (bad_handle_args sync))) = - ENOENT.
Proof.
  intros Hk. rewrite (plain_answer _ _ _ Hk) by (done || set_solver). unfold bindings_answers.
  replace (binding_answer K _) with (- ENOENT); [done|]. unfold binding_answer. cbn [us_handle strided ub_handle sub_config with_spare bad_handle_args].
  by rewrite (tk_bogus _ _ _ Hk).
Qed.

Lemma zero_handle_answer config inp out sync :
  test_kernel K [config; inp; out] [sync] -> first_error (submit_answers K (zero_handle_args config inp out sync)) = - ENOENT.
Proof.
  intros Hk. rewrite (plain_answer _ _ _ Hk) by (done || set_solver). bindings Hk.
  unfold binding_answer. cbn [us_handle]. by rewrite (tk_zero _ _ _ Hk).
Qed.

Lemma idle_binding_answer config inp out sync :
  test_kernel K [config; inp; out] [sync] -> first_error (submit_answers K (idle_binding_args config inp out sync)) = 0.
Proof. intros Hk. rewrite (plain_answer _ _ _ Hk) by (done || set_solver). by bindings Hk. Qed.

Lemma in_fence_answer config inp out spare sync :
  test_kernel K [config; inp; out; spare] [sync] ->
  first_error (submit_answers K (with_spare spare (in_fence_args config inp out sync 0 0))) = 0.
Proof.
  intros Hk. rewrite (plain_answer _ _ _ Hk) by (done || set_solver). unfold with_spare, in_fence_args.
  destruct (tk_object _ _ _ Hk inp ltac:(set_solver)) as [Hi _]. destruct (tk_object _ _ _ Hk out ltac:(set_solver)) as [Ho _].
  cbn [sub_inputs sub_outputs fmap list_fmap replicate us_handle ub_handle].
  rewrite (proj2 (Z.eqb_neq _ _) Hi), (proj2 (Z.eqb_neq _ _) Ho). by bindings Hk.
Qed.

Lemma in_fence_refused config inp out spare sync :
  test_kernel K [config; inp; out; spare] [sync] ->
  first_error (submit_answers K (with_spare spare (in_fence_args config inp out sync DRM_STRELA_SUBMIT_WAIT_SYNCOBJ BOGUS))) = - ENOENT.
Proof.
  intros Hk. unfold submit_answers, body_answers. cbn [with_spare in_fence_args sub_flags sub_pad sub_in_syncobj].
  rewrite (tk_job _ _ _ Hk), (tk_fence _ _ _ Hk), (tk_init _ _ _ Hk). rewrite !first_error_skip by reflexivity.
  change (negb _) with true. cbv iota. by rewrite (tk_wait _ _ _ Hk).
Qed.

(** A sync that the arguments alone refuse. *)
Lemma gem_sync_refused handle flags off len s :
  bad_flags flags DRM_STRELA_SYNC_VALID_FLAGS_MASK = true
  \/ (forall l, env_gem_lookup l handle = None) ->
  exists r s', gem_sync handle flags off len s = Ok (r, s') /\ r < 0.
Proof.
  intros Hbad. unfold gem_sync, strela_gem_sync_ioctl. rewrite (mbind_Ok _ _ _ _ _ (icall_Ok _ _)). cbn [gs_flags gs_handle].
  destruct (bad_flags _ _) eqn:Hf; [by do 2 eexists|]. destruct Hbad as [?|Hno]; [done|].
  destruct (sync_direction flags); [|by do 2 eexists]. unfold drm_gem_object_lookup, mbind_, get_, emit, modify_. cbn. rewrite Hno. by do 2 eexists.
Qed.

(** A sync of a page, as the range says. *)
Lemma gem_sync_page hs ss k handle off len s :
  test_kernel K hs ss -> handle ∈ hs -> 0 <= k <= 12 -> (forall l, env_icall l dma_get_cache_alignment = 2 ^ k) ->
  is_u 64 off -> is_u 64 len ->
  exists r s', gem_sync handle DRM_STRELA_SYNC_RW off len s = Ok (r, s')
    /\ (off = 0 -> len = PAGE_SIZE -> r = 0) /\ (PAGE_SIZE < off + len -> r < 0).
Proof.
  intros Hk Hh Hk2 Hal Ho Hl. destruct (tk_object _ _ _ Hk handle Hh) as (_ & o & Hobj & Hsz & Hd).
  destruct (gem_sync_call (mkGemSync handle DRM_STRELA_SYNC_RW off len) s k DMA_BIDIRECTIONAL o) as (r & s' & He & _ & Hr & Hn & _);
    try done; [lia|intros l; by rewrite (an_object K HK)|].
  exists r, s'. cbn [gs_offset gs_length] in Hr. unfold sync_range_ok in Hr. rewrite Hsz in Hr. split; [done|]. split.
  - intros -> ->. apply Hr. split; [done|]. split; [by apply Z.mod_0_l; lia|]. unfold PAGE_SIZE.
    replace 4096 with (2 ^ (12 - k) * 2 ^ k) by (rewrite <- Z.pow_add_r by lia; by replace (12 - k + k) with 12 by lia). by apply Z_mod_mult.
  - intros Hp. destruct (Z.eq_dec r 0) as [H0|H0]; [apply Hr in H0; lia|]. destruct (Hn H0) as [-> _]. done.
Qed.

(** The five tests run to their end and no check fails, on every kernel they
    can run in and with every cache line up to a page. *)
Theorem argument_tests_pass k s config inp out spare sync sync' :
  test_kernel K [config; inp; out; spare] [sync; sync'] -> 0 <= k <= 12 ->
  (forall l, env_icall l dma_get_cache_alignment = 2 ^ k) -> (forall l, k_jobs s !! env_kzalloc l A_job = None) ->
  (exists l s', test_gem_sync_args inp PAGE_SIZE s = Ok (l, s') /\ Forall Is_true l)
  /\ (exists l s', test_bad_handle spare sync s = Ok (l, s') /\ Forall Is_true l)
  /\ (exists l s', test_zero_handle config inp out sync s = Ok (l, s') /\ Forall Is_true l)
  /\ (exists l s', test_idle_binding config inp out sync s = Ok (l, s') /\ Forall Is_true l)
  /\ (exists l s', test_in_fence_bad_handle config inp out spare sync sync' s = Ok (l, s') /\ Forall Is_true l).
Proof.
  intros Hk Hc Hal Hf.
  assert (Hsub : forall hs ss, hs ⊆ [config; inp; out; spare] -> ss ⊆ [sync; sync'] -> test_kernel K hs ss).
  { intros hs ss H1 H2. destruct Hk as [? ? ? Ho ? ? ? Hs]. split; try done; [intros h Hh; apply Ho; set_solver|intros h Hh; apply Hs; set_solver]. }
  split; [|split; [|split; [|split]]].
  - unfold test_gem_sync_args.
    destruct (gem_sync_page _ _ k inp 0 PAGE_SIZE s Hk ltac:(set_solver) Hc Hal ltac:(done) ltac:(done)) as (r1 & s1 & H1 & R1 & _).
    destruct (gem_sync_refused inp (Z.shiftl 1 7) 0 PAGE_SIZE s1 ltac:(by left)) as (r2 & s2 & H2 & R2).
    destruct (gem_sync_page _ _ k inp 0 (PAGE_SIZE + 1) s2 Hk ltac:(set_solver) Hc Hal ltac:(done) ltac:(done)) as (r3 & s3 & H3 & _ & R3).
    destruct (gem_sync_page _ _ k inp PAGE_SIZE STRELA_WORD_SIZE s3 Hk ltac:(set_solver) Hc Hal ltac:(done) ltac:(done)) as (r4 & s4 & H4 & _ & R4).
    destruct (gem_sync_refused BOGUS DRM_STRELA_SYNC_RW 0 PAGE_SIZE s4) as (r5 & s5 & H5 & R5).
    { right. intros l. rewrite (an_object K HK). apply (tk_bogus _ _ _ Hk). }
    rewrite (mbind_Ok _ _ _ _ _ H1), (mbind_Ok _ _ _ _ _ H2), (mbind_Ok _ _ _ _ _ H3), (mbind_Ok _ _ _ _ _ H4), (mbind_Ok _ _ _ _ _ H5).
    do 2 eexists. split; [done|]. rewrite (R1 eq_refl eq_refl). specialize (R3 eq_refl). specialize (R4 eq_refl).
    rewrite !(proj2 (Z.ltb_lt _ _)) by done. by repeat constructor.
  - destruct (submit_says (with_spare spare (bad_handle_args sync)) s (- ENOENT) ltac:(by split) Hf (bad_handle_answer spare sync (Hsub [spare] [sync] ltac:(set_solver) ltac:(set_solver)))) as [s' He].
    unfold test_bad_handle, strela_submit. rewrite (mbind_Ok _ _ _ _ _ He). do 2 eexists. split; [done|]. by repeat constructor.
  - destruct (submit_says (zero_handle_args config inp out sync) s (- ENOENT) ltac:(by split) Hf (zero_handle_answer config inp out sync (Hsub [config; inp; out] [sync] ltac:(set_solver) ltac:(set_solver)))) as [s' He].
    unfold test_zero_handle. rewrite (mbind_Ok _ _ _ _ _ He). do 2 eexists. split; [done|]. by repeat constructor.
  - destruct (submit_says (idle_binding_args config inp out sync) s 0 ltac:(by split) Hf (idle_binding_answer config inp out sync (Hsub [config; inp; out] [sync] ltac:(set_solver) ltac:(set_solver)))) as [s' He].
    unfold test_idle_binding. rewrite (mbind_Ok _ _ _ _ _ He). do 2 eexists. split; [done|]. by repeat constructor.
  - unfold test_in_fence_bad_handle, strela_submit.
    set (args := with_spare spare (in_fence_args config inp out sync DRM_STRELA_SUBMIT_WAIT_SYNCOBJ BOGUS)).
    pose proof (in_fence_refused config inp out spare sync (Hsub [config; inp; out; spare] [sync] ltac:(set_solver) ltac:(set_solver))) as Ha. fold args in Ha.
    destruct (submit_answer_runs K HK args s ltac:(by split) Hf) as (s1 & He & _ & H0 & Hbad). rewrite Ha in He, H0.
    rewrite (mbind_Ok _ _ _ _ _ He).
    assert (Hj : k_jobs s1 = k_jobs s).
    { apply Hbad, not_Forall_Exists; [apply _|]. intros HF%H0. done. }
    destruct (submit_says (with_spare spare (in_fence_args config inp out sync' 0 0)) s1 0 ltac:(by split) ltac:(by rewrite Hj)
      (in_fence_answer config inp out spare sync' (Hsub [config; inp; out; spare] [sync'] ltac:(set_solver) ltac:(set_solver)))) as [s2 He2].
    rewrite (mbind_Ok _ _ _ _ _ He2). do 2 eexists. split; [done|]. by repeat constructor.
Qed.
End Tests.

Lemma pages_test_kernel : test_kernel pages_kernel [1; 2; 3; 4] [5; 6].
Proof.
  split; try done.
  - intros h Hh. assert (h = 1 \/ h = 2 \/ h = 3 \/ h = 4) as Hc by set_solver.
    destruct Hc as [->|[->|[->| ->]]]; (split; [done|]; eexists; split; [done|]; split; [done|]; by vm_compute).
  - intros h Hh. assert (h = 5 \/ h = 6) as Hc by set_solver. by destruct Hc as [->| ->].
Qed.

Lemma argument_tests_pass_witness :
  exists l s', test_gem_sync_args (A := ARMv7) (E := env_of pages_kernel) 2 PAGE_SIZE hw_state = Ok (l, s') /\ Forall Is_true l.
Proof.
  apply (argument_tests_pass (A := ARMv7) (E := env_of pages_kernel) pages_kernel (env_of_answering pages_kernel) 6 hw_state 1 2 3 4 5 6);
    [exact pages_test_kernel|lia|done|done].
Defined.
