(* ===== verification/DrvWire.v ===== *)
(** * What crosses the system call boundary

    The structs of include/uapi/strela_drm.h as the bytes a client passes and
    the driver reads, the ioctl numbers and the table of driver/strela_drv.c,
    and the self-test table of driver/strela_job.c. *)
From Stdlib Require Import Ascii String.
From S2P Require Import Mem.
From S2P Require Export DrvGem.

(** ** The layout of the structs: little-endian fields without holes *)
Definition enc_binding (b : drm_strela_binding) : list Z :=
  le_bytes 4 (ub_handle b) ++ le_bytes 4 (ub_offset b) ++ le_bytes 4 (ub_count b).

Definition enc_strided (b : drm_strela_strided_binding) : list Z :=
  le_bytes 4 (us_handle b) ++ le_bytes 4 (us_offset b) ++ le_bytes 4 (us_count b) ++ le_bytes 4 (us_stride b).

(** The members in front of [flags], as they were before it was added. *)
Definition enc_submit_old (a : drm_strela_submit) : list Z :=
  enc_binding (sub_config a) ++ (sub_inputs a ≫= enc_strided) ++ (sub_outputs a ≫= enc_binding)
  ++ le_bytes 4 (sub_out_syncobj a).

Definition enc_submit (a : drm_strela_submit) : list Z :=
  enc_submit_old a ++ le_bytes 4 (sub_flags a) ++ le_bytes 4 (sub_in_syncobj a) ++ le_bytes 4 (sub_pad a).

Definition enc_gem_sync (a : drm_strela_gem_sync) : list Z :=
  le_bytes 4 (gs_handle a) ++ le_bytes 4 (gs_flags a) ++ le_bytes 8 (gs_offset a) ++ le_bytes 8 (gs_length a).

(** [handle] and [offset] are results: what they hold on entry is ignored. *)
Definition enc_gem_new (a : drm_strela_gem_new) (handle offset : Z) : list Z :=
  le_bytes 8 (gn_size a) ++ le_bytes 4 (gn_flags a) ++ le_bytes 4 handle ++ le_bytes 8 offset.

Definition sizeof_gem_new : nat := 24.
Definition sizeof_gem_sync : nat := 24.
Definition sizeof_submit : nat := 140.
(** offsetof (struct drm_strela_submit, flags) *)
Definition offsetof_flags : nat := 128.

(** ** Reading them *)
Definition field (n : nat) (l : list Z) : option (Z * list Z) :=
  if (n <=? length l)%nat then Some (le_value (take n l), drop n l) else None.

Definition dec_binding (l : list Z) : option (drm_strela_binding * list Z) :=
  '(h, l) ← field 4 l; '(o, l) ← field 4 l; '(c, l) ← field 4 l; Some (mkUBinding h o c, l).

Definition dec_strided (l : list Z) : option (drm_strela_strided_binding * list Z) :=
  '(h, l) ← field 4 l; '(o, l) ← field 4 l; '(c, l) ← field 4 l; '(s, l) ← field 4 l; Some (mkUStrided h o c s, l).

Fixpoint dec_array {X} (dec : list Z -> option (X * list Z)) (n : nat) (l : list Z) : option (list X * list Z) :=
  match n with
  | O => Some ([], l)
  | S n => '(x, l) ← dec l; '(xs, l) ← dec_array dec n l; Some (x :: xs, l)
  end.

Definition dec_submit (l : list Z) : option drm_strela_submit :=
  '(c, l) ← dec_binding l;
  '(ins, l) ← dec_array dec_strided STRELA_NUM_IO_COLS l;
  '(outs, l) ← dec_array dec_binding STRELA_NUM_IO_COLS l;
  '(so, l) ← field 4 l; '(fl, l) ← field 4 l; '(si, l) ← field 4 l; '(pad, l) ← field 4 l;
  Some (mkSubmit c ins outs so fl si pad).

Definition dec_gem_sync (l : list Z) : option drm_strela_gem_sync :=
  '(h, l) ← field 4 l; '(fl, l) ← field 4 l; '(off, l) ← field 8 l; '(len, l) ← field 8 l;
  Some (mkGemSync h fl off len).

Definition dec_gem_new (l : list Z) : option drm_strela_gem_new :=
  '(sz, l) ← field 8 l; '(fl, l) ← field 4 l; Some (mkGemNew sz fl).

(** ** The ioctls *)
Definition DRM_STRELA_GEM_NEW : Z := 0x00.
Definition DRM_STRELA_GEM_SYNC : Z := 0x01.
Definition DRM_STRELA_SUBMIT : Z := 0x02.

(** <linux/ioctl.h>: direction, size, type and number; DRM's type is 'd' and
    its driver ioctls start at DRM_COMMAND_BASE. *)
Definition DRM_COMMAND_BASE : Z := 0x40.
Definition IOC (dir size nr : Z) : Z := Z.lor (Z.shiftl dir 30) (Z.lor (Z.shiftl size 16) (Z.lor (Z.shiftl 0x64 8) nr)).
Definition IOC_NR (cmd : Z) : Z := Z.land cmd 0xFF.
Definition IOC_SIZE (cmd : Z) : Z := Z.land (Z.shiftr cmd 16) 0x3FFF.

Definition DRM_IOCTL_STRELA_GEM_NEW : Z := IOC 3 (Z.of_nat sizeof_gem_new) (DRM_COMMAND_BASE + DRM_STRELA_GEM_NEW).
Definition DRM_IOCTL_STRELA_GEM_SYNC : Z := IOC 1 (Z.of_nat sizeof_gem_sync) (DRM_COMMAND_BASE + DRM_STRELA_GEM_SYNC).
Definition DRM_IOCTL_STRELA_SUBMIT : Z := IOC 3 (Z.of_nat sizeof_submit) (DRM_COMMAND_BASE + DRM_STRELA_SUBMIT).

Variant strela_handler := H_gem_new | H_gem_sync | H_submit.

Definition strela_ioctls : list (Z * strela_handler) :=
  [(DRM_STRELA_GEM_NEW, H_gem_new); (DRM_STRELA_GEM_SYNC, H_gem_sync); (DRM_STRELA_SUBMIT, H_submit)].

Definition handler_size (h : strela_handler) : nat :=
  match h with H_gem_new => sizeof_gem_new | H_gem_sync => sizeof_gem_sync | H_submit => sizeof_submit end.

Section Ioctl.
Context {A : abi} {E : Env}.

(** A handler on the kernel's copy of the struct. *)
Definition run_handler (h : strela_handler) (l : list Z) : M kst Z :=
  match h with
  | H_gem_new => match dec_gem_new l with
                 | Some a => let! '(ret, _) := strela_gem_new_ioctl a in mret_ ret
                 | None => trap_ TSegv
                 end
  | H_gem_sync => match dec_gem_sync l with Some a => strela_gem_sync_ioctl a | None => trap_ TSegv end
  | H_submit => match dec_submit l with Some a => strela_submit_ioctl a | None => trap_ TSegv end
  end.

(** The kernel's copy of a client's struct, for a handler that expects [n]
    bytes: DRM cuts a longer struct off and fills a shorter one with zeros. *)
Context (copy_in : nat -> list Z -> list Z).
Context (Hcopy : forall n l, copy_in n l = take n l ++ replicate (n - length l) 0).

(** The ioctl with number [cmd] on the client's bytes; [None] when the table has
    no such entry. *)
Definition strela_ioctl (cmd : Z) (data : list Z) : option (M kst Z) :=
  match list_find (fun e => e.1 = IOC_NR cmd - DRM_COMMAND_BASE) strela_ioctls with
  | Some (_, (_, h)) => Some (run_handler h (copy_in (handler_size h) data))
  | None => None
  end.

(** ** Round trips *)
Lemma field_ok n v l : is_u (8 * Z.of_nat n) v -> field n (le_bytes n v ++ l) = Some (v, l).
Proof.
  intros Hv. unfold field, is_u in *. rewrite length_app, length_le_bytes.
  rewrite (proj2 (Nat.leb_le _ _)) by lia. rewrite take_app_length' by (by rewrite length_le_bytes).
  rewrite drop_app_length' by (by rewrite length_le_bytes). rewrite le_value_bytes, Z.mod_small by lia. done.
Qed.

Definition binding_u32 (b : drm_strela_binding) : Prop :=
  is_u 32 (ub_handle b) /\ is_u 32 (ub_offset b) /\ is_u 32 (ub_count b).
Definition strided_u32 (b : drm_strela_strided_binding) : Prop :=
  is_u 32 (us_handle b) /\ is_u 32 (us_offset b) /\ is_u 32 (us_count b) /\ is_u 32 (us_stride b).

(** A struct whose fields have the values their types allow. *)
Record submit_u32 (a : drm_strela_submit) : Prop := {
  su_args : args_ok a;
  su_config : binding_u32 (sub_config a);
  su_inputs : Forall strided_u32 (sub_inputs a);
  su_outputs : Forall binding_u32 (sub_outputs a);
  su_fields : is_u 32 (sub_out_syncobj a) /\ is_u 32 (sub_flags a) /\ is_u 32 (sub_in_syncobj a) /\ is_u 32 (sub_pad a)
}.

Lemma dec_binding_ok b l : binding_u32 b -> dec_binding (enc_binding b ++ l) = Some (b, l).
Proof.
  intros (H1 & H2 & H3). unfold dec_binding, enc_binding. rewrite <- !app_assoc, field_ok by done. cbn [mbind option_bind].
  rewrite field_ok by done. cbn [mbind option_bind]. rewrite field_ok by done. by destruct b.
Qed.

Lemma dec_strided_ok b l : strided_u32 b -> dec_strided (enc_strided b ++ l) = Some (b, l).
Proof.
  intros (H1 & H2 & H3 & H4). unfold dec_strided, enc_strided. rewrite <- !app_assoc, field_ok by done. cbn [mbind option_bind].
  rewrite field_ok by done. cbn [mbind option_bind]. rewrite field_ok by done. cbn [mbind option_bind]. rewrite field_ok by done. by destruct b.
Qed.

Lemma dec_array_ok {X} (enc : X -> list Z) dec (P : X -> Prop) xs l :
  (forall x l, P x -> dec (enc x ++ l) = Some (x, l)) -> Forall P xs ->
  dec_array dec (length xs) ((xs ≫= enc) ++ l) = Some (xs, l).
Proof.
  intros Hd. induction 1 as [|x xs Hx _ IH]; [done|]. cbn. rewrite <- app_assoc, Hd by done. cbn.
  cbn in IH. by rewrite IH.
Qed.

(** Decoding the old part, whatever the last three fields are. *)
Lemma dec_submit_old a fl si pad l :
  submit_u32 a -> is_u 32 fl -> is_u 32 si -> is_u 32 pad ->
  dec_submit (enc_submit_old a ++ le_bytes 4 fl ++ le_bytes 4 si ++ le_bytes 4 pad ++ l)
  = Some (mkSubmit (sub_config a) (sub_inputs a) (sub_outputs a) (sub_out_syncobj a) fl si pad).
Proof.
  intros [[Hl1 Hl2] Hc Hi Ho (Hs & _)] Hf Hsi Hp. unfold dec_submit, enc_submit_old. rewrite <- !app_assoc.
  rewrite dec_binding_ok by done. cbn [mbind option_bind]. rewrite <- Hl1 at 1.
  rewrite (dec_array_ok enc_strided dec_strided strided_u32 (sub_inputs a)) by (done || apply dec_strided_ok).
  cbn [mbind option_bind]. rewrite <- Hl2 at 1.
  rewrite (dec_array_ok enc_binding dec_binding binding_u32 (sub_outputs a)) by (done || apply dec_binding_ok).
  cbn [mbind option_bind]. do 4 (rewrite field_ok by done; cbn [mbind option_bind]). done.
Qed.

Lemma length_array {X} (enc : X -> list Z) n xs :
  (forall x, length (enc x) = n) -> length (xs ≫= enc) = (length xs * n)%nat.
Proof. intros H. induction xs as [|x xs IH]; [done|]. cbn. rewrite length_app, H. cbn in IH. by rewrite IH. Qed.

Lemma enc_submit_old_length a : args_ok a -> length (enc_submit_old a) = offsetof_flags.
Proof.
  intros [H1 H2]. unfold enc_submit_old. rewrite !length_app, (length_array _ 16), (length_array _ 12), H1, H2; [done| |];
    intros x; unfold enc_strided, enc_binding; by rewrite !length_app, !length_le_bytes.
Qed.

Lemma enc_submit_length a : args_ok a -> length (enc_submit a) = sizeof_submit.
Proof. intros H. unfold enc_submit. by rewrite !length_app, enc_submit_old_length, !length_le_bytes. Qed.

(** The entries of the table. *)
Lemma ioctl_entries data :
  strela_ioctl DRM_IOCTL_STRELA_SUBMIT data = Some (run_handler H_submit (copy_in sizeof_submit data))
  /\ strela_ioctl DRM_IOCTL_STRELA_GEM_SYNC data = Some (run_handler H_gem_sync (copy_in sizeof_gem_sync data))
  /\ strela_ioctl DRM_IOCTL_STRELA_GEM_NEW data = Some (run_handler H_gem_new (copy_in sizeof_gem_new data)).
Proof. done. Qed.

Lemma copy_longer n l extra : length l = n -> copy_in n (l ++ extra) = l.
Proof.
  intros <-. rewrite Hcopy, take_app_length, length_app.
  replace (length l - (length l + length extra))%nat with 0%nat by lia. apply app_nil_r.
Qed.

(** C25: What a client encodes is what the driver acts on. The bytes of a
    submit, sync or allocation struct, passed with the number of its ioctl
    (followed by anything: a newer, longer struct is cut off), have the size
    the number says and make the table's entry run the handler on exactly the
    client's fields. A client built before the submit struct had flags, which
    passes only the members in front of them, gets a submit without flags. *)
Theorem ioctl_wire args sync_ new_ extra handle offset :
  submit_u32 args -> is_u 32 (gs_handle sync_) -> is_u 32 (gs_flags sync_) ->
  is_u 64 (gs_offset sync_) -> is_u 64 (gs_length sync_) -> is_u 64 (gn_size new_) -> is_u 32 (gn_flags new_) ->
  strela_ioctl DRM_IOCTL_STRELA_SUBMIT (enc_submit args ++ extra) = Some (strela_submit_ioctl args)
  /\ strela_ioctl DRM_IOCTL_STRELA_GEM_SYNC (enc_gem_sync sync_ ++ extra) = Some (strela_gem_sync_ioctl sync_)
  /\ strela_ioctl DRM_IOCTL_STRELA_GEM_NEW (enc_gem_new new_ handle offset ++ extra)
     = Some (let! '(ret, _) := strela_gem_new_ioctl new_ in mret_ ret)
  /\ strela_ioctl DRM_IOCTL_STRELA_SUBMIT (take offsetof_flags (enc_submit args))
     = Some (strela_submit_ioctl (mkSubmit (sub_config args) (sub_inputs args) (sub_outputs args)
                                           (sub_out_syncobj args) 0 0 0))
  /\ IOC_SIZE DRM_IOCTL_STRELA_SUBMIT = Z.of_nat (length (enc_submit args))
  /\ IOC_SIZE DRM_IOCTL_STRELA_GEM_SYNC = Z.of_nat (length (enc_gem_sync sync_))
  /\ IOC_SIZE DRM_IOCTL_STRELA_GEM_NEW = Z.of_nat (length (enc_gem_new new_ handle offset)).
Proof.
  intros Ha H1 H2 H3 H4 H5 H6. pose proof (su_args _ Ha) as Hok. pose proof (su_fields _ Ha) as (F1 & F2 & F3 & F4).
  destruct (ioctl_entries (enc_submit args ++ extra)) as (-> & _).
  destruct (ioctl_entries (enc_gem_sync sync_ ++ extra)) as (_ & -> & _).
  destruct (ioctl_entries (enc_gem_new new_ handle offset ++ extra)) as (_ & _ & ->).
  destruct (ioctl_entries (take offsetof_flags (enc_submit args))) as (-> & _).
  assert (L2 : length (enc_gem_sync sync_) = sizeof_gem_sync) by (unfold enc_gem_sync; by rewrite !length_app, !length_le_bytes).
  assert (L3 : length (enc_gem_new new_ handle offset) = sizeof_gem_new) by (unfold enc_gem_new; by rewrite !length_app, !length_le_bytes).
  rewrite !copy_longer by (done || by apply enc_submit_length). rewrite enc_submit_length, L2, L3 by done.
  split_and!; try reflexivity; cbn [run_handler].
  - unfold enc_submit. pose proof (dec_submit_old args _ _ _ [] Ha F2 F3 F4) as Hd. rewrite app_nil_r in Hd.
    rewrite Hd. by destruct args.
  - unfold dec_gem_sync, enc_gem_sync. do 3 (rewrite field_ok by done; cbn [mbind option_bind]).
    rewrite <- (app_nil_r (le_bytes 8 (gs_length sync_))), field_ok by done. by destruct sync_.
  - unfold dec_gem_new, enc_gem_new. do 2 (rewrite field_ok by done; cbn [mbind option_bind]). by destruct new_.
  - unfold enc_submit. rewrite take_app_length' by (by rewrite enc_submit_old_length).
    rewrite Hcopy, take_ge by (rewrite enc_submit_old_length by done; unfold offsetof_flags, sizeof_submit; lia).
    rewrite enc_submit_old_length by done.
    change (replicate (sizeof_submit - offsetof_flags) 0) with (le_bytes 4 0 ++ le_bytes 4 0 ++ le_bytes 4 0 ++ []).
    by rewrite dec_submit_old.
Qed.
End Ioctl.

Definition copy_zero (n : nat) (l : list Z) : list Z := take n l ++ replicate (n - length l) 0.

Lemma ioctl_wire_witness :
  strela_ioctl (A := ARMv7) (E := env64) copy_zero DRM_IOCTL_STRELA_SUBMIT (take offsetof_flags (enc_submit submit64))
  = Some (strela_submit_ioctl (E := env64) submit64).
Proof.
  destruct (ioctl_wire (A := ARMv7) (E := env64) copy_zero ltac:(reflexivity) submit64 (mkGemSync 1 2 0 64)
    (mkGemNew 4096 0) [] 0 0) as (_ & _ & _ & H & _); [|by vm_compute..|exact H].
  split; [by split|by vm_compute| | |by vm_compute]; apply Forall_replicate; by vm_compute.
Defined.

(** ** Names *)
Definition c_string (s : string) : list Z := (fun a => Z.of_N (N_of_ascii a)) <$> list_ascii_of_string s.

Definition strela_fence_driver_name : list Z := c_string "strela".
Definition strela_fence_timeline_name : list Z := c_string "strela-hw".
(** strela_drm_driver.name, which DRM_IOCTL_VERSION reports. *)
Definition strela_drm_driver_name : list Z := c_string "strela".

(** ** The self-test of the binding check *)
Record strela_binding_case := mkCase {
  bc_name : string; bc_obj_size : Z; bc_binding : drm_strela_strided_binding; bc_expected : Z }.

Definition U64_MAX : Z := 2 ^ 64 - 1.

Definition strela_binding_cases : list strela_binding_case :=
  [mkCase "exact fit" 64 (mkUStrided 1 0 16 1) 0;
   mkCase "offset to the end" 64 (mkUStrided 1 8 8 1) 0;
   mkCase "empty count" 64 (mkUStrided 1 0 0 1) 0;
   mkCase "stride zero is supported" 64 (mkUStrided 1 0 16 0) 0;
   mkCase "one word past the end" 64 (mkUStrided 1 0 17 1) (- EINVAL);
   mkCase "empty count ignores stride" 64 (mkUStrided 1 16 0 0x40000000) 0;
   mkCase "offset past the end" 64 (mkUStrided 1 17 0 1) (- EINVAL);
   mkCase "strided past the end" 64 (mkUStrided 1 0 16 2) (- EINVAL);
   mkCase "count overflows u32" U64_MAX (mkUStrided 1 0 0x40000000 4) (- EINVAL);
   mkCase "stride overflows u32" U64_MAX (mkUStrided 1 0 4 0x40000000) (- EINVAL);
   mkCase "largest encodable span" 0x100000 (mkUStrided 1 0 0x3FFF 1) 0;
   mkCase "one word too large to encode" 0x100000 (mkUStrided 1 0 0x4000 1) (- EINVAL)].

(** KUNIT_EXPECT_EQ on one parameter. *)
Definition strela_binding_check_test (c : strela_binding_case) : bool :=
  strela_binding_check (bc_obj_size c) (bc_binding c) =? bc_expected c.

(** The suite passes on the code as it is. *)
Lemma strela_test_suite_passes : forallb strela_binding_check_test strela_binding_cases = true.
Proof. vm_compute. reflexivity. Qed.
