(* ===== verification/LibDriver.v ===== *)
(** * The library on top of the driver

    The library and the driver meet in two ioctls: the library fills the
    structs of include/uapi/strela_drm.h and the driver checks and uses them.
    Here the structs of the one are given to the other. *)
From S2P Require Import LibWit.
From S2P Require Import DrvWire.

(** The name the driver reports, read into the library's buffer, is the name
    the library looks for. *)
Lemma driver_recognised :
  cstring (take (sizeof_drm_name - 1) strela_drm_driver_name) = STRELA_DRM_NAME.
Proof. vm_compute. reflexivity. Qed.

(** ** Configured jobs against the driver's check *)

(** The columns of a configuration: offset, count and stride in words. *)
Definition conf_inputs (c : strela_conf) : list (Z * Z * Z) :=
  [(inp0_offset c, inp0_count c, inp0_stride c); (inp1_offset c, inp1_count c, inp1_stride c);
   (inp2_offset c, inp2_count c, inp2_stride c); (inp3_offset c, inp3_count c, inp3_stride c)].
Definition conf_outputs (c : strela_conf) : list (Z * Z * Z) :=
  [(out0_offset c, out0_count c, 1); (out1_offset c, out1_count c, 1);
   (out2_offset c, out2_count c, 1); (out3_offset c, out3_count c, 1)].

Definition column_u32 (c : Z * Z * Z) : Prop :=
  let '(off, cnt, str) := c in is_u 32 off /\ is_u 32 cnt /\ is_u 32 str.

(** A column as it reaches the driver: the fields of struct strela_conf are
    size_t, those of the request __u32. *)
Definition cut (c : Z * Z * Z) : Z * Z * Z := let '(off, cnt, str) := c in (u32 off, u32 cnt, u32 str).

(** The column of three 32-bit fields lies inside an object of [size] bytes and
    fits the hardware's fields. *)
Definition column_accepted (size : Z) (c : Z * Z * Z) : Prop :=
  let '(off, cnt, str) := c in binding_fits size off cnt str.

(** The driver's answer about a column in an object of [size] bytes: it is
    about the column cut to 32 bits, which is the column when it fits them. *)
Definition accepts (size : Z) (b : drm_strela_strided_binding) (c : Z * Z * Z) : Prop :=
  (strela_binding_check size b = 0 <-> column_accepted size (cut c)) /\ (column_u32 c -> cut c = c).

Lemma cut_u32 c : column_u32 c -> cut c = c.
Proof. destruct c as [[off cnt] str]. intros (? & ? & ?). unfold cut, is_u in *. by rewrite !wrap_small by lia. Qed.

(** An output or the kernel, as the driver checks it: with stride 1. *)
Definition unstrided (b : drm_strela_binding) : drm_strela_strided_binding :=
  mkUStrided (ub_handle b) (ub_offset b) (ub_count b) 1.

Lemma accepts_column size h off cnt str :
  is_u 64 size -> accepts size (mkUStrided h (u32 off) (u32 cnt) (u32 str)) (off, cnt, str).
Proof.
  intros Hs. split; [|apply cut_u32]. assert (H32 : forall x, is_u 32 (u32 x)) by (intros x; apply wrap_range; lia).
  rewrite binding_check_fits; [|by unfold strided_ok; cbn; split_and!|done]. cbn. case_decide; [tauto|]. split; [done|tauto].
Qed.

Lemma tensors_u64 : is_u 64 STRELA_TENSOR_MEMORY_SIZE.
Proof. by vm_compute. Qed.

Lemma accepts_column' h c :
  accepts STRELA_TENSOR_MEMORY_SIZE (mkUStrided h (u32 c.1.1) (u32 c.1.2) (u32 c.2)) c.
Proof. destruct c as [[off cnt] str]. apply accepts_column, tensors_u64. Qed.

Lemma accepts_output h off cnt :
  accepts STRELA_TENSOR_MEMORY_SIZE (unstrided (mkUBinding h (u32 off) (u32 cnt))) (off, cnt, 1).
Proof. apply (accepts_column _ _ _ _ 1), tensors_u64. Qed.

(** Every kernel the library knows fits the kernel memory. *)
Lemma kernel_accepted h kernel :
  0 <= k_handle kernel -> kernel_bad kernel = false ->
  strela_binding_check STRELA_KERNEL_MEMORY_SIZE
    (unstrided (mkUBinding h (u32 (k_handle kernel * STRELA_KERNEL_SIZE)) STRELA_KERNEL_SIZE)) = 0.
Proof.
  intros H0 Hb. unfold kernel_bad in Hb. apply orb_false_iff in Hb as [_ Hb].
  assert (Hs : STRELA_KERNEL_SIZE = 80) by reflexivity. assert (Hm : STRELA_KERNEL_MEMORY_SIZE = 40960) by reflexivity.
  rewrite Hs, Hm, wrap_small by lia. rewrite binding_check_fits; [|unfold strided_ok, is_u; cbn; lia|unfold is_u; lia].
  rewrite decide_True; [done|]. unfold binding_fits, span, STRELA_MAX_COLUMN_BYTES, STRELA_WORD_SIZE. cbn. lia.
Qed.

Lemma page_kernels `{A : abi} : wptr (PAGE_ALIGN STRELA_KERNEL_MEMORY_SIZE) = STRELA_KERNEL_MEMORY_SIZE.
Proof. destruct A; by vm_compute. Qed.
Lemma page_tensors `{A : abi} : wptr (PAGE_ALIGN STRELA_TENSOR_MEMORY_SIZE) = STRELA_TENSOR_MEMORY_SIZE.
Proof. destruct A; by vm_compute. Qed.

Section Config.
Context `{A : abi} `{OS : Sys} `{HL : !SysLaws OS} `{HU : !Undisturbed OS}.

(** C22: A job the library configured is what the driver's check is about. When
    [strela_job_config] answers a valid job, its request names the two buffer
    objects of the device, whose sizes the driver leaves as they are; the
    driver accepts the kernel it names; it accepts each column exactly when the
    column, with its size_t fields cut to 32 bits as the request has them, lies
    inside the tensor memory and fits the hardware's fields, and the cut column
    is the one the caller asked for when its fields are below 2^32; and the
    reserved fields are 0. The kernel handle is not negative (it is unsigned
    in the library's struct). *)
Theorem config_checked l0 s kernel conf job s' :
  job_inv l0 s -> log_ok l0 -> 0 <= k_handle kernel ->
  strela_job_config kernel conf s = Ok (job, s') -> jh_valid job = true ->
  exists x, d_jobs (ls_dev s') !! Z.to_nat (jh_handle job) = Some x
    /\ wptr (PAGE_ALIGN STRELA_KERNEL_MEMORY_SIZE) = STRELA_KERNEL_MEMORY_SIZE
    /\ wptr (PAGE_ALIGN STRELA_TENSOR_MEMORY_SIZE) = STRELA_TENSOR_MEMORY_SIZE
    /\ ub_handle (sub_config (sl_submit x)) = d_kernels_bo_handle (ls_dev s)
    /\ strela_binding_check STRELA_KERNEL_MEMORY_SIZE (unstrided (sub_config (sl_submit x))) = 0
    /\ Forall2 (accepts STRELA_TENSOR_MEMORY_SIZE) (sub_inputs (sl_submit x)) (conf_inputs conf)
    /\ Forall2 (accepts STRELA_TENSOR_MEMORY_SIZE) (unstrided <$> sub_outputs (sl_submit x)) (conf_outputs conf)
    /\ Forall (fun b => us_handle b = d_tensors_bo_handle (ls_dev s)) (sub_inputs (sl_submit x))
    /\ Forall (fun b => ub_handle b = d_tensors_bo_handle (ls_dev s)) (sub_outputs (sl_submit x))
    /\ sub_flags (sl_submit x) = 0 /\ sub_pad (sl_submit x) = 0.
Proof.
  intros Hi Hl Hk He Hv.
  destruct (job_config_full_wp l0 Hl s kernel conf Hi) as (job' & s1 & He' & _ & Hd).
  rewrite He in He'. injection He' as <- <-. destruct (Hd Hv) as (Hkb & _ & x & h & Hx & _ & Hsub).
  exists x. split; [done|]. rewrite Hsub. cbn [conf_submit sub_config sub_inputs sub_outputs sub_flags sub_pad ub_handle].
  unfold conf_inputs, conf_outputs in *.
  split; [apply page_kernels|]. split; [apply page_tensors|]. split; [reflexivity|].
  split; [by apply kernel_accepted|].
  split; [do 4 (apply List.Forall2_cons; [by apply (accepts_column' _ (_, _, _))|]); apply List.Forall2_nil|].
  split; [do 4 (apply List.Forall2_cons; [by apply accepts_output|]); apply List.Forall2_nil|]. by repeat constructor.
Qed.
End Config.

(** ** Flushing a buffer, down to the cache *)
Section Flush.
Context `{A : abi} `{OS : Sys} {E : Env}.

(** C23: A flush of the library becomes one write-back by the driver that covers
    the data, or an error. For a part of a held buffer that stays inside the
    buffer when rounded to 64-byte lines, the library makes one ioctl; given
    its arguments, the driver (whose object is the tensor memory, on a machine
    with 64-byte lines) returns 0 and syncs once, to the device, a range of the
    object that contains every byte of the part and lies inside the buffer.
    When the rounded part leaves the buffer, as it does at the end of a buffer
    whose size is not a multiple of 16 words, the library makes no ioctl and
    sets the device's error to BAD_ARG. *)
Theorem flush_reaches_device s ss i b d off cnt o k :
  mem_inv s ss -> ss_bufs ss !! i = Some (b, d) -> strela_dev_ok (ls_dev s) = true ->
  0 <= off -> 0 < cnt -> off + cnt <= b_size_words b ->
  o_size o = STRELA_TENSOR_MEMORY_SIZE -> obj_dma32 o ->
  (forall l, env_icall l dma_get_cache_alignment = CACHELINE_SIZE) ->
  (forall l, env_gem_lookup l (d_tensors_bo_handle (ls_dev s)) = Some o) ->
  (line_end off cnt <= b_size_words b -> exists args k' addr len,
    strela_buffer_flush b off cnt s = Ok (tt, after_call s (SC_gem_sync (d_fd (ls_dev s)) args))
    /\ strela_gem_sync_ioctl args k = Ok (0, k')
    /\ syncs (k_log k') = (true, addr, len, DMA_TO_DEVICE) :: syncs (k_log k)
    /\ o_dma_addr o + b_offset_words b * sizeof_word <= addr
    /\ addr <= o_dma_addr o + (b_offset_words b + off) * sizeof_word
    /\ o_dma_addr o + (b_offset_words b + off + cnt) * sizeof_word <= addr + len
    /\ addr + len <= o_dma_addr o + (b_offset_words b + b_size_words b) * sizeof_word)
  /\ (b_size_words b < line_end off cnt ->
       strela_buffer_flush b off cnt s = Ok (tt, with_error s (- STRELA_ERR_BAD_ARG))).
Proof.
  intros Hm Hb Hok Hoff Hcnt Hin Hsz Ho Hal Hlk.
  destruct (flush_call s ss i b d off cnt Hm Hb Hok Hoff Hcnt Hin) as (H1 & H2 & H3 & H4). split; [|exact H4]. intros Hle.
  destruct (H3 Hle) as (Hf & Ha1 & Ha2 & Ha3 & Ha4). set (args := mkGemSync _ _ _ _) in *.
  pose proof (line_bounds off cnt) as Hlb.
  assert (Hst : 0 <= line_start off).
  { unfold line_start. change CACHELINE_WORDS with 16. pose proof (Z.div_pos off 16). lia. }
  assert (Hargs : sync_args_ok args).
  { assert (STRELA_TENSOR_MEMORY_SIZE < 2 ^ 31) by reflexivity. unfold sync_args_ok, is_u.
    cbn [args gs_offset gs_length] in *. unfold sizeof_word in *. lia. }
  destruct (gem_sync_call args k 6 DMA_TO_DEVICE o Hargs ltac:(lia) Hal eq_refl eq_refl Hlk Ho)
    as (ret & k' & He & _ & Hr & _ & Hs).
  assert (ret = 0) as -> by (apply Hr; unfold sync_range_ok; rewrite Hsz; split_and!; [lia|done|done]).
  specialize (Hs eq_refl). cbn [args gs_length gs_offset gs_flags] in Hs. unfold sizeof_word in *.
  rewrite (proj2 (Z.eqb_neq _ 0)) in Hs by lia.
  exists args, k'. do 2 eexists. split; [exact Hf|]. split; [exact He|]. split; [exact Hs|]. lia.
Qed.
End Flush.

(** ** Witnesses *)
#[local] Existing Instance ARMv7.
#[local] Existing Instance demo_os.

Lemma config_demo :
  exists job s', strela_job_config (mkKernel true 3) conf0 (after [O_kernel_alloc]) = Ok (job, s') /\ jh_valid job = true.
Proof.
  destruct (ends_inv (fun '(job, _) => jh_valid job)
              (strela_job_config (mkKernel true 3) conf0 (after [O_kernel_alloc]))) as ([job s'] & He & H);
    [vm_compute; reflexivity|]. eauto.
Qed.

Lemma config_checked_witness :
  exists job s' x, strela_job_config (mkKernel true 3) conf0 (after [O_kernel_alloc]) = Ok (job, s')
    /\ d_jobs (ls_dev s') !! Z.to_nat (jh_handle job) = Some x
    /\ Forall2 (accepts STRELA_TENSOR_MEMORY_SIZE) (sub_inputs (sl_submit x)) (conf_inputs conf0).
Proof.
  destruct config_demo as (job & s' & He & Hv).
  destruct (config_checked [] (after [O_kernel_alloc]) (mkKernel true 3) conf0 job s')
    as (x & Hx & _ & _ & _ & _ & Ha & _); [|apply demo_start_ok|discriminate|exact He|exact Hv|].
  - apply demo_inv; [repeat constructor|vm_compute; reflexivity].
  - exists job, s', x. exact (conj He (conj Hx Ha)).
Defined.

(** The tensor memory at bus address 0x10000000, on a machine with 64-byte lines. *)
Definition tensors_obj : gem_obj := mkObj 9 STRELA_TENSOR_MEMORY_SIZE 0x10000000 0x40000000 false.

Definition env_tensors : Env := {|
  env_readl := fun _ _ => 0;
  env_kzalloc := fun _ _ => 200;
  env_gem_lookup := fun _ _ => Some tensors_obj;
  env_dma_alloc := fun _ _ => (0, 0);
  env_icall := fun _ c => match c with dma_get_cache_alignment => 64 | _ => 0 end
|}.

Lemma flush_reaches_device_witness :
  exists args k', strela_buffer_flush buf0 3 5 (after demo_ops)
                  = Ok (tt, after_call (after demo_ops) (SC_gem_sync (d_fd (ls_dev (after demo_ops))) args))
    /\ strela_gem_sync_ioctl (E := env_tensors) args hw_state = Ok (0, k').
Proof.
  destruct (flush_reaches_device (E := env_tensors) (after demo_ops) (sess_after demo_ops) 0 buf0 data0 3 5
              tensors_obj hw_state) as [Hin _];
    [apply demo_state|vm_compute; reflexivity|vm_compute; reflexivity|lia|lia|vm_compute; discriminate
    |reflexivity| |intros; reflexivity|intros; reflexivity|].
  - unfold obj_dma32, tensors_obj. cbn. unfold STRELA_TENSOR_MEMORY_SIZE. lia.
  - destruct Hin as (args & k' & _ & _ & Hf & Hk & _); [vm_compute; discriminate|].
    exact (ex_intro _ args (ex_intro _ k' (conj Hf Hk))).
Defined.
