(* ===== verification/LibRequests.v ===== *)
(** * What the library asks of the driver

    The requests of a session that touch memory or run jobs are the two ioctls
    of lib/strela.c that the driver answers with work: the sync of a buffer
    object and the submission of a job. In every session each of them names
    objects the library made through the same open descriptor, and lies inside
    them. *)
From S2P Require Import LibWit.
From S2P Require Import DrvGem LibDriver LibLines.

(** The object [handle] of [size] bytes was made through the descriptor [fd]. *)
Definition created (fd handle size : Z) (l : list sevent) : Prop :=
  exists off, Sev (SC_gem_new fd (mkGemNew size 0)) (inr (handle, off)) ∈ l.

(** The driver, on a machine with the library's cache lines, answers the sync
    of an object of [size] bytes with one cache maintenance of the whole range. *)
Definition sync_served (size : Z) (a : drm_strela_gem_sync) : Prop :=
  sync_args_ok a /\ forall o, o_size o = size ->
    sync_answer a CACHELINE_SIZE (Some o) = 0 /\ length (sync_request a (Some o)) = 1%nat.

(** A sync writes back one whole kernel, or writes back or invalidates whole
    lines of the tensor memory. *)
Definition sync_lawful (fd : Z) (a : drm_strela_gem_sync) (l : list sevent) : Prop :=
  (created fd (gs_handle a) STRELA_KERNEL_MEMORY_SIZE l /\ sync_served STRELA_KERNEL_MEMORY_SIZE a
   /\ gs_flags a = Z.lor DRM_STRELA_SYNC_FINI DRM_STRELA_SYNC_WRITE
   /\ exists n, 0 <= n < 128 /\ gs_offset a = n * KERNEL_BYTES /\ gs_length a = KERNEL_BYTES)
  \/ (created fd (gs_handle a) STRELA_TENSOR_MEMORY_SIZE l /\ sync_served STRELA_TENSOR_MEMORY_SIZE a
      /\ (gs_flags a = Z.lor DRM_STRELA_SYNC_FINI DRM_STRELA_SYNC_WRITE
          \/ gs_flags a = Z.lor DRM_STRELA_SYNC_PREP DRM_STRELA_SYNC_READ)).

(** A submission runs one whole kernel, which the driver's check accepts, on
    columns of the tensor memory; it waits for nothing and signals a sync
    object of the library. *)
Definition submit_lawful (fd : Z) (a : drm_strela_submit) (l : list sevent) : Prop :=
  created fd (ub_handle (sub_config a)) STRELA_KERNEL_MEMORY_SIZE l
  /\ (exists n, 0 <= n < 128 /\ ub_offset (sub_config a) = n * STRELA_KERNEL_SIZE /\ ub_count (sub_config a) = STRELA_KERNEL_SIZE)
  /\ strela_binding_check STRELA_KERNEL_MEMORY_SIZE (unstrided (sub_config a)) = 0
  /\ length (sub_inputs a) = STRELA_NUM_IO_COLS /\ length (sub_outputs a) = STRELA_NUM_IO_COLS
  /\ Forall (fun b => created fd (us_handle b) STRELA_TENSOR_MEMORY_SIZE l) (sub_inputs a)
  /\ Forall (fun b => created fd (ub_handle b) STRELA_TENSOR_MEMORY_SIZE l) (sub_outputs a)
  /\ sub_in_syncobj a = 0 /\ sub_flags a = 0 /\ sub_pad a = 0
  /\ 0 < sub_out_syncobj a /\ 0 < so_held fd (sub_out_syncobj a) l.

(** A call that is made after what [l] says happened. *)
Definition call_lawful (l : list sevent) (c : syscall) : Prop :=
  match c with
  | SC_gem_sync fd a => 0 < fd_held fd l /\ sync_lawful fd a l
  | SC_submit fd a => 0 < fd_held fd l /\ submit_lawful fd a l
  | _ => True
  end.

(** Every call made since [l0] was. *)
Inductive log_lawful (l0 : list sevent) : list sevent -> Prop :=
| lawful_start : log_lawful l0 l0
| lawful_call l c r : log_lawful l0 l -> call_lawful l c -> log_lawful l0 (Sev c r :: l).

(** What a slot would submit: nothing yet, or a configuration of the device. *)
Definition slot_filled (d : strela_dev) (x : strela_job_slot) : Prop :=
  sl_submit x = submit0
  \/ exists kernel conf h, sl_submit x = conf_submit d kernel conf h /\ kernel_bad kernel = false /\ 0 <= k_handle kernel.

Record lawful (l0 : list sevent) (s : lst) : Prop := {
  lw_kernels : d_initialized (ls_dev s) = true ->
    created (d_fd (ls_dev s)) (d_kernels_bo_handle (ls_dev s)) STRELA_KERNEL_MEMORY_SIZE (ls_log s);
  lw_tensors : d_initialized (ls_dev s) = true ->
    created (d_fd (ls_dev s)) (d_tensors_bo_handle (ls_dev s)) STRELA_TENSOR_MEMORY_SIZE (ls_log s);
  lw_slots : d_initialized (ls_dev s) = true -> Forall (slot_filled (ls_dev s)) (d_jobs (ls_dev s));
  lw_log : log_lawful l0 (ls_log s)
}.

(** A computation that keeps the state lawful, and one that does when it starts
    in [s]. *)
Definition keeps_at {X} (l0 : list sevent) (s : lst) (c : M lst X) : Prop := forall x s', c s = Ok (x, s') -> lawful l0 s'.
Definition keeps {X} (l0 : list sevent) (c : M lst X) : Prop := forall s, lawful l0 s -> keeps_at l0 s c.

Lemma created_cons fd h size e l : created fd h size l -> created fd h size (e :: l).
Proof. intros [off H]. exists off. by right. Qed.

(** A call whose lawfulness is known. *)
Lemma lawful_add l0 s c r : lawful l0 s -> call_lawful (ls_log s) c -> lawful l0 (lst_add s (Sev c r)).
Proof.
  intros [H1 H2 H3 H4] Hc. split; cbn; [intros Hi; by apply created_cons, H1|intros Hi; by apply created_cons, H2|done|].
  by apply lawful_call.
Qed.

(** A change that leaves the identity of the device and its slots alone. *)
Definition same_device (d d' : strela_dev) : Prop :=
  d_fd d' = d_fd d /\ d_tensors_bo_handle d' = d_tensors_bo_handle d /\ d_kernels_bo_handle d' = d_kernels_bo_handle d
  /\ d_initialized d' = d_initialized d.

Lemma slot_filled_same d d' x : same_device d d' -> slot_filled d x -> slot_filled d' x.
Proof.
  intros (_ & Ht & Hk & _) [H|(kernel & conf & h & H & Hb & H0)]; [by left|right].
  exists kernel, conf, h. split_and!; [|done|done]. rewrite H. unfold conf_submit. by rewrite Ht, Hk.
Qed.

Lemma lawful_dev l0 s d m :
  lawful l0 s -> same_device (ls_dev s) d ->
  (d_initialized (ls_dev s) = true -> Forall (slot_filled (ls_dev s)) (d_jobs d)) -> lawful l0 (mkL d m (ls_log s)).
Proof.
  intros [H1 H2 H3 H4] Hd Hj. pose proof Hd as (E1 & E2 & E3 & E4). split; cbn; rewrite ?E1, ?E2, ?E3, ?E4; try done.
  intros Hi. eapply Forall_impl; [by apply Hj|]. intros x. by apply slot_filled_same.
Qed.

Section Keeps.
Context `{A : abi} `{OS : Sys} (l0 : list sevent).
Notation keeps := (keeps l0).

Definition plain (c : syscall) : Prop := match c with SC_gem_sync _ _ | SC_submit _ _ => False | _ => True end.

Lemma keeps_ret {X} (x : X) : keeps (mret_ x).
Proof. intros s Hs y s' [= _ <-]. done. Qed.

Lemma keeps_trap {X} t : keeps (trap_ t : M lst X).
Proof. intros s Hs y s' H. discriminate. Qed.

Lemma keeps_get : keeps get_.
Proof. intros s Hs y s' [= _ <-]. done. Qed.

Lemma keeps_dev : keeps dev_.
Proof. intros s Hs y s' [= _ <-]. done. Qed.

Lemma keeps_bind {X Y} (c : M lst X) (k : X -> M lst Y) : keeps c -> (forall x, keeps (k x)) -> keeps (mbind_ c k).
Proof.
  intros Hc Hk s Hs y s' H. apply mbind_inv in H as (x & s1 & H1 & H2).
  exact (Hk x s1 (Hc s Hs x s1 H1) y s' H2).
Qed.

Lemma keeps_sys c : plain c -> keeps (sys_ c).
Proof. intros Hc s Hs y s' [= _ <-]. apply lawful_add; [done|]. by destruct c. Qed.

Lemma keeps_sys_or_abort c : plain c -> keeps (sys_or_abort c).
Proof.
  intros Hc. apply keeps_bind; [by apply keeps_sys|]. intros [e|r]; [apply keeps_trap|apply keeps_ret].
Qed.

Lemma keeps_on_mem {X} (c : M mem X) : keeps (on_mem c).
Proof.
  intros s Hs y s' H. unfold on_mem in H. destruct (c (ls_mem s)) as [[x m]|t]; [|done]. injection H as _ <-.
  apply lawful_dev; [done|done|]. apply Hs.
Qed.

Lemma keeps_update_dev f :
  (forall d, same_device d (f d)) -> (forall d, d_jobs (f d) = d_jobs d) -> keeps (LibData.update_dev f).
Proof. intros Hf Hj s Hs y s' [= _ <-]. apply lawful_dev; [done|apply Hf|]. rewrite Hj. apply Hs. Qed.

Lemma slots_altered (d : strela_dev) (l : list strela_job_slot) i f :
  Forall (slot_filled d) l -> (forall x, slot_filled d x -> slot_filled d (f x)) -> Forall (slot_filled d) (alter f i l).
Proof.
  intros Hl Hf. apply Forall_lookup. intros j x Hx. rewrite Forall_lookup in Hl. destruct (decide (i = j)) as [->|Hne].
  - rewrite list_lookup_alter_eq in Hx. destruct (l !! j) as [z|] eqn:Hz; [|done]. injection Hx as <-. by eapply Hf, Hl.
  - rewrite list_lookup_alter_ne in Hx by done. by eapply Hl.
Qed.

Lemma keeps_at_update_slot s i f :
  lawful l0 s -> (forall x, slot_filled (ls_dev s) x -> slot_filled (ls_dev s) (f x)) -> keeps_at l0 s (update_slot i f).
Proof.
  intros Hs Hf y s' [= _ <-]. apply lawful_dev; [done|done|]. intros Hi. apply slots_altered; [by apply Hs|done].
Qed.

Lemma keeps_update_slot i f :
  (forall x, sl_submit (f x) = sl_submit x \/ sl_submit (f x) = submit0) -> keeps (update_slot i f).
Proof.
  intros Hf s Hs. apply keeps_at_update_slot; [done|]. intros x. unfold slot_filled. destruct (Hf x) as [-> | ->]; tauto.
Qed.

Lemma keeps_get_slot i : keeps (get_slot i).
Proof.
  apply keeps_bind; [apply keeps_dev|]. intros d. destruct (d_jobs d !! i); [apply keeps_ret|apply keeps_trap].
Qed.

Lemma keeps_the_slot slot : keeps (the_slot slot).
Proof. destruct slot; [apply keeps_ret|apply keeps_trap]. Qed.

Lemma keeps_assert b : keeps (assert_ b).
Proof. intros s Hs y s'. unfold assert_. destruct b; [by intros [= _ <-]|done]. Qed.

Lemma keeps_modify_mem f : keeps (modify_ (fun s => lst_set_mem s (f s))).
Proof. intros s Hs y s' [= _ <-]. apply lawful_dev; [done|done|]. apply Hs. Qed.
End Keeps.

(** The cases that follow from the shape of the code. *)
Ltac keeps_solve :=
  repeat first
    [ assumption
    | match goal with H : forall _, keeps _ _ |- _ => apply H end
    | apply keeps_ret | apply keeps_trap | apply keeps_dev | apply keeps_get | apply keeps_on_mem | apply keeps_get_slot
    | apply keeps_the_slot | apply keeps_assert | apply keeps_modify_mem
    | apply keeps_sys; exact I
    | apply keeps_sys_or_abort; exact I
    | apply keeps_update_dev; intros []; done
    | apply keeps_update_slot; intros []; first [by left | by right]
    | apply keeps_bind; [|intros ?]
    | match goal with
      | |- keeps _ (if ?b then _ else _) => destruct b
      | |- keeps _ (match ?x with _ => _ end) => destruct x
      end
    | progress unfold when_ok, set_errnum, caller_array ].


Section Session.
Context `{A : abi} `{OS : Sys} `{HL : !SysLaws OS} (l0 : list sevent).
Notation keeps := (keeps l0).

(** The device a function looks at is that of the state. *)
Lemma keeps_of_dev {X} (k : strela_dev -> M lst X) :
  (forall s, lawful l0 s -> keeps_at l0 s (k (ls_dev s))) -> keeps (mbind_ dev_ k).
Proof. intros Hk s Hs x s' H. by apply (Hk s Hs x s'). Qed.

Lemma keeps_when_ok k : (forall s, lawful l0 s -> keeps_at l0 s (k (ls_dev s))) -> keeps (when_ok k).
Proof.
  intros Hk. apply keeps_of_dev. intros s Hs. destruct (strela_dev_ok (ls_dev s)); [by apply Hk|by apply keeps_ret].
Qed.

Lemma keeps_buffer_alloc w : keeps (strela_buffer_alloc w).
Proof. unfold strela_buffer_alloc, internal_ptr_to_buffer_offset. keeps_solve. Qed.

Lemma keeps_kernel_alloc : keeps strela_kernel_alloc.
Proof. unfold strela_kernel_alloc. keeps_solve. Qed.

Lemma keeps_to_ptr b : keeps (strela_buffer_to_ptr b).
Proof. unfold strela_buffer_to_ptr. keeps_solve. Qed.

Lemma keeps_finish i : keeps (strela_job_slot_finish i).
Proof. unfold strela_job_slot_finish. keeps_solve. Qed.

Lemma keeps_release i : keeps (strela_job_slot_release i).
Proof. pose proof keeps_finish. unfold strela_job_slot_release. keeps_solve. Qed.

Lemma keeps_release_slots n i : keeps (release_slots i n).
Proof.
  revert i. induction n as [|n IH]; intros i; cbn; [apply keeps_ret|].
  apply keeps_bind; [apply keeps_release|]. intros _. apply IH.
Qed.

Lemma keeps_job_free_all : keeps strela_job_free_all.
Proof. apply keeps_when_ok. intros s Hs. by apply keeps_release_slots. Qed.

Lemma keeps_slot_get job phases : keeps (strela_job_slot_get job phases).
Proof. unfold strela_job_slot_get. keeps_solve. Qed.

Lemma keeps_job_free job : keeps (strela_job_free job).
Proof.
  apply keeps_bind; [apply keeps_slot_get|]. intros slot. apply keeps_when_ok. intros s Hs.
  by apply keeps_bind; [apply keeps_the_slot|intros i; apply keeps_release|].
Qed.

Lemma keeps_update i t : keeps (strela_job_update i t).
Proof. unfold strela_job_update. keeps_solve. Qed.

Lemma keeps_poll job : keeps (strela_job_poll job).
Proof. pose proof keeps_update. pose proof keeps_slot_get. unfold strela_job_poll. keeps_solve; auto. Qed.

Lemma keeps_wait job t : keeps (strela_job_wait job t).
Proof.
  apply keeps_bind; [apply keeps_slot_get|]. intros slot. apply keeps_bind; [|intros _; keeps_solve].
  apply keeps_when_ok. intros s Hs. by apply keeps_bind; [apply keeps_the_slot|intros i; apply keeps_update|].
Qed.

Lemma keeps_job_fd job : keeps (strela_job_fd job).
Proof. apply keeps_bind; [apply keeps_slot_get|]. intros slot. keeps_solve. Qed.


(** ** Setting a slot up *)
Lemma keeps_config_tail i kernel conf h :
  kernel_bad kernel = false -> 0 <= k_handle kernel -> keeps (let! dev := dev_ in
    if strela_dev_ok dev then
      do! update_slot i (fun s => mkSlot STRELA_JOB_CONFIGURED (conf_submit dev kernel conf h) (-1) (sl_status s)) in
      mret_ (mkJobH true (Z.of_nat i))
    else do! strela_job_slot_release i in mret_ jobh0).
Proof.
  intros Hb H0. apply keeps_of_dev. intros s Hs. destruct (strela_dev_ok (ls_dev s)).
  - intros x s' H. apply mbind_inv in H as ([] & s1 & H1 & [= _ <-]). revert H1. apply keeps_at_update_slot; [done|].
    intros y _. right. by exists kernel, conf, h.
  - by apply keeps_bind; [apply keeps_release|intros _; apply keeps_ret|].
Qed.

Lemma keeps_config kernel conf : 0 <= k_handle kernel -> keeps (strela_job_config kernel conf).
Proof.
  intros H0. destruct (kernel_bad kernel) eqn:Hb.
  - intros s Hs x s' H. unfold strela_job_config in H. apply mbind_inv in H as ([] & s1 & H1 & H).
    assert (Hs1 : lawful l0 s1) by (revert H1; rewrite Hb; apply keeps_when_ok; [intros s2 Hs2; by apply keeps_update_dev|done]).
    rewrite job_config_failed in H; [by injection H as _ <-|].
    unfold when_ok, mbind_, dev_ in H1. rewrite Hb in H1. destruct (strela_dev_ok (ls_dev s)) eqn:Hok; [|by injection H1 as <-].
    injection H1 as <-. apply errnum_not_ok. done.
  - apply keeps_bind; [keeps_solve|]. intros _. apply keeps_bind; [apply keeps_dev|]. intros d. cbv zeta.
    set (job := if strela_dev_ok d then find_free (d_jobs d) else None). clearbody job.
    apply keeps_bind; [keeps_solve|]. intros _. apply keeps_bind; [apply keeps_dev|]. intros d1.
    apply keeps_bind; [destruct (strela_dev_ok d1); [|apply keeps_ret]; apply keeps_bind; [by apply keeps_sys|intros [|[]]; keeps_solve]|].
    intros h. destruct job as [i|]; [by apply keeps_config_tail|].
    apply keeps_bind; [apply keeps_dev|]. intros d'. destruct (strela_dev_ok d'); keeps_solve.
Qed.

Lemma keeps_old_config kernel conf : 0 <= k_handle kernel -> keeps (strela_config kernel conf).
Proof.
  intros H0. apply keeps_bind; [apply keeps_dev|]. intros d. apply keeps_bind; [destruct (jh_valid _); [apply keeps_job_free|apply keeps_ret]|].
  intros _. apply keeps_bind; [by apply keeps_config|]. intros job. keeps_solve.
Qed.

(** ** Opening and closing *)
Lemma keeps_openat name : keeps (accel_openat name).
Proof. unfold accel_openat. keeps_solve. Qed.

Lemma keeps_iter_close it : keeps (accel_iter_close it).
Proof. unfold accel_iter_close. keeps_solve. Qed.

Lemma keeps_next_name names e it : keeps (next_name names e it).
Proof.
  induction names as [|n names IH]; cbn [next_name]; [apply keeps_iter_close|].
  destruct (bool_decide _); [exact IH|apply keeps_ret].
Qed.

Lemma keeps_iter_next it : keeps (accel_iter_next it).
Proof. unfold accel_iter_next. destruct (it_dir it) as [[]|]; [apply keeps_next_name|apply keeps_ret]. Qed.

Lemma keeps_find_loop fuel which it count : keeps (find_loop fuel which it count).
Proof.
  revert it count. induction fuel as [|fuel IH]; intros it count; cbn [find_loop]; destruct (negb (it_valid it)); try (by keeps_solve).
  apply keeps_bind; [apply keeps_openat|]. intros [fd nm]. destruct (negb (fd =? -1)).
  - destruct (_ && _).
    + apply keeps_bind; [apply keeps_iter_close|]. intros _. apply keeps_ret.
    + apply keeps_bind; [by apply keeps_sys|]. intros _. apply keeps_bind; [apply keeps_iter_next|]. intros it'. apply IH.
  - apply keeps_bind; [apply keeps_iter_next|]. intros it'. apply IH.
Qed.

Lemma keeps_find_device which : keeps (find_device which).
Proof.
  apply keeps_bind; [|intros it; apply keeps_find_loop]. unfold accel_iter_make. apply keeps_bind; [apply keeps_get|].
  intros s. apply keeps_bind; [by apply keeps_sys|]. intros []; apply keeps_iter_next.
Qed.


(** A handle of [init_bo] was made by the kernel, unless there is an error. *)
Lemma init_bo_created fd size s r s' :
  lawful l0 s -> init_bo fd size s = Ok (r, s') ->
  lawful l0 s' /\ d_initialized (ls_dev s') = d_initialized (ls_dev s)
  /\ (exists es, ls_log s' = es ++ ls_log s)
  /\ (d_errnum (ls_dev s') = STRELA_ERR_OK -> d_errnum (ls_dev s) = STRELA_ERR_OK /\ created fd r.1 size (ls_log s')).
Proof.
  intros Hs He. split.
  { revert He. unfold init_bo. apply keeps_bind; [apply keeps_dev| |done]. intros d. destruct (negb _); [apply keeps_ret|].
    apply keeps_bind; [by apply keeps_sys|]. intros [e|[h off]]; [keeps_solve|]. unfold mmap_.
    apply keeps_bind; [|intros []; keeps_solve]. apply keeps_bind; [by apply keeps_sys|]. intros [e|[a y]]; keeps_solve. }
  clear Hs. unfold init_bo, mmap_, set_errnum, LibData.update_dev, modify_, mbind_, dev_, mret_, sys_ in He.
  destruct (negb _) eqn:Hn; [injection He as <- <-|].
  { apply negb_true_iff, Z.eqb_neq in Hn. split_and!; [done|by exists []|done]. }
  apply negb_false_iff, Z.eqb_eq in Hn. destruct (sys (ls_log s) _) as [e|[h off]] eqn:Hr.
  { apply law_errno in Hr. injection He as <- <-. split_and!; [done|by eexists [_]|]. cbn. unfold STRELA_ERR_OK. lia. }
  cbn in He. destruct (sys (_ :: _) _) as [e|[a y]] eqn:Hm; injection He as <- <-; cbn.
  - apply law_errno in Hm. split_and!; [done|by eexists [_; _]|]. unfold STRELA_ERR_OK. lia.
  - split_and!; [done|by eexists [_; _]|]. intros _. split; [done|]. exists off. set_solver.
Qed.

Lemma keeps_munmap a n : keeps (munmap_ a n).
Proof. unfold munmap_. keeps_solve. Qed.

Lemma keeps_deinit_internal tb ts kb ks fd : keeps (strela_dev_deinit_internal tb ts kb ks fd).
Proof. pose proof keeps_munmap. unfold strela_dev_deinit_internal. keeps_solve; auto. Qed.


Lemma keeps_open_finish s fd kh kb th tb :
  lawful l0 s -> (d_errnum (ls_dev s) = STRELA_ERR_OK ->
    created fd kh STRELA_KERNEL_MEMORY_SIZE (ls_log s) /\ created fd th STRELA_TENSOR_MEMORY_SIZE (ls_log s)) ->
  keeps_at l0 s (open_finish fd kh kb th tb).
Proof.
  intros Hs Hc. intros x s' H. unfold open_finish, mbind_ at 1, dev_ in H. destruct (Z.eqb_spec (d_errnum (ls_dev s)) STRELA_ERR_OK) as [He|He].
  - destruct (Hc He) as [Hk Ht]. unfold on_mem, LibData.update_dev, modify_, mbind_ in H.
    destruct (pool_init _ _ _ _ _) as [[pool m]|]; [|done]. cbn in H. destruct (free_list_init _ _ _ _) as [[fl m']|]; [|done].
    injection H as _ <-. split; cbn [ls_dev ls_log lst_set_mem lst_set_dev d_fd d_kernels_bo_handle d_tensors_bo_handle d_jobs]; [done|done| |apply Hs].
    intros _. apply Forall_forall. intros y Hy. change (y ∈ replicate STRELA_JOBS_MAX slot0) in Hy. apply elem_of_replicate in Hy as [-> _]. by left.
  - revert H. by apply keeps_bind; [apply keeps_assert|intros _; apply keeps_deinit_internal|].
Qed.

Lemma created_app fd h size es l : created fd h size l -> created fd h size (es ++ l).
Proof. intros [off H]. exists off. set_solver. Qed.

Lemma keeps_open which : keeps (dev_open which).
Proof.
  apply keeps_bind; [apply keeps_find_device|]. intros fd. apply keeps_bind; [keeps_solve|]. intros _ s Hs x s' H.
  apply mbind_inv in H as ([kh kb] & s1 & H1 & H). apply mbind_inv in H as ([th tb] & s2 & H2 & H).
  apply init_bo_created in H1 as (Hs1 & _ & _ & Hk); [|done]. apply init_bo_created in H2 as (Hs2 & _ & [es Hes] & Ht); [|done].
  revert H. apply keeps_open_finish; [done|]. intros He. destruct (Ht He) as [He1 Hct]. destruct (Hk He1) as [_ Hck].
  split; [|done]. rewrite Hes. by apply created_app.
Qed.

Lemma keeps_free_buffers : keeps strela_buffer_free_all.
Proof. unfold strela_buffer_free_all. keeps_solve. Qed.

Lemma keeps_free_kernels : keeps strela_kernel_free_all.
Proof. unfold strela_kernel_free_all. keeps_solve. Qed.

Lemma keeps_init which : keeps (strela_dev_init which).
Proof.
  pose proof keeps_open. pose proof keeps_job_free_all. pose proof keeps_free_buffers. pose proof keeps_free_kernels.
  unfold strela_dev_init. destruct (_ <=? _); keeps_solve.
Qed.


(** ** The two requests *)
Lemma sync_fits size a :
  size < 2 ^ 64 -> 0 <= gs_offset a -> 0 < gs_length a -> gs_offset a + gs_length a <= size ->
  gs_offset a mod CACHELINE_SIZE = 0 -> gs_length a mod CACHELINE_SIZE = 0 ->
  (gs_flags a = Z.lor DRM_STRELA_SYNC_FINI DRM_STRELA_SYNC_WRITE \/ gs_flags a = Z.lor DRM_STRELA_SYNC_PREP DRM_STRELA_SYNC_READ) ->
  sync_served size a.
Proof.
  intros Hs H1 H2 H3 H4 H5 Hf. split; [unfold sync_args_ok, is_u; lia|]. intros o Ho. unfold sync_answer, sync_request.
  assert (Hd : is_Some (flags_dir (gs_flags a))) by (destruct Hf as [-> | ->]; by eexists). destruct Hd as [dir ->].
  rewrite decide_True by (unfold sync_range_ok; rewrite Ho; by split_and!). by rewrite (proj2 (Z.eqb_neq _ _)) by lia.
Qed.

Lemma keeps_at_sync s handle flags off words :
  lawful l0 s -> (words <> 0 -> call_lawful (ls_log s) (SC_gem_sync (d_fd (ls_dev s))
    (mkGemSync handle flags (wptr (off * sizeof_word)) (wptr (words * sizeof_word))))) ->
  keeps_at l0 s (strela_sync handle flags off words).
Proof.
  intros Hs Hc x s' H. unfold strela_sync, when_ok, mbind_ at 1, dev_ in H.
  destruct (strela_dev_ok (ls_dev s)); [|by injection H as _ <-]. destruct (Z.eqb_spec words 0) as [|Hne]; [by injection H as _ <-|].
  apply mbind_inv in H as (r & s1 & [= _ <-] & H). revert H.
  match goal with |- ?c _ = _ -> _ => assert (Hk : keeps c) by (destruct r; keeps_solve) end.
  apply Hk, lawful_add; [done|by apply Hc].
Qed.

Context (Hl0 : log_ok l0).

Lemma device_open s : job_inv l0 s -> 0 < fd_held (d_fd (ls_dev s)) (ls_log s).
Proof.
  intros Hj. rewrite (ji_fds _ _ Hj), Z.eqb_refl. destruct Hl0 as [Hf _]. specialize (Hf (d_fd (ls_dev s))).
  pose proof (sumZ_nonneg (owns_fd (d_fd (ls_dev s))) (d_jobs (ls_dev s)) (owns_fd_nonneg _)). lia.
Qed.

Lemma lawful_line_sync s ss i b d flags s' :
  sess_inv l0 ss s -> lawful l0 s -> ss_bufs ss !! i = Some (b, d) ->
  (flags = Z.lor DRM_STRELA_SYNC_FINI DRM_STRELA_SYNC_WRITE \/ flags = Z.lor DRM_STRELA_SYNC_PREP DRM_STRELA_SYNC_READ) ->
  line_sync flags s b s' -> lawful l0 s'.
Proof.
  intros [Hm Hj] Hs Hb Hfl (_ & [e Hd] & Hlog). destruct s' as [d' m' l']. cbn in Hd, Hlog. subst d'.
  destruct Hlog as [->|(a & r & -> & Hf & Hh & H1 & H2 & H3 & H4 & H5)]; [by apply lawful_dev; [|done|apply Hs]|].
  destruct (buf_bounds _ _ _ _ _ Hm Hb) as (_ & Hb0 & Hb1 & _ & Hb2 & _). unfold sizeof_word in *.
  apply (lawful_dev l0 (lst_add s (Sev (SC_gem_sync (d_fd (ls_dev s)) a) r))); [|done|apply Hs].
  apply lawful_add; [done|]. split; [by apply device_open|]. right. rewrite Hh, Hf.
  split; [apply Hs, (ji_init _ _ Hj)|]. split; [|done]. apply sync_fits; rewrite ?Hf; try done; lia.
Qed.

Lemma keeps_at_kernel_set s ss h data :
  sess_inv l0 ss s -> lawful l0 s -> 0 <= h < 128 -> keeps_at l0 s (strela_kernel_set (mkKernel true h) data).
Proof.
  intros [Hm Hj] Hs Hh x s' H. unfold strela_kernel_set in H. apply mbind_inv in H as ([] & s1 & H1 & H).
  assert (Hs1 : s1 = s).
  { unfold when_ok, mbind_, dev_, kernel_bad in H1. cbn [k_valid k_handle negb orb] in H1.
    rewrite (proj2 (Z.leb_gt _ _)) in H1 by lia. by destruct (strela_dev_ok _); injection H1 as <-. }
  subst s1. unfold when_ok, mbind_ at 1, dev_ in H. destruct (strela_dev_ok (ls_dev s)); [|by injection H as _ <-].
  apply mbind_inv in H as (src & s2 & H2 & H). unfold caller_array in H2. destruct (_ <=? _); [|done]. injection H2 as _ <-.
  apply mbind_inv in H as ([] & s2 & H2 & H). unfold on_mem in H2. destruct (write_data _ _ _) as [[u m]|]; [|done].
  injection H2 as _ <-. revert H. apply keeps_at_sync; [by apply lawful_dev; [|done|apply Hs]|]. intros _.
  cbn [ls_log ls_dev lst_set_mem]. split; [by apply device_open|]. left.
  destruct (kernel_handle _ _ _ Hm Hh) as (_ & _ & Hu). cbn [k_handle]. rewrite Hu. pose proof ptr_max_pos as Hp.
  change (STRELA_KERNEL_SIZE * sizeof_word) with 320. change STRELA_KERNEL_SIZE with 80. unfold sizeof_word.
  rewrite !wptr_small by lia. replace (h * 80 * 4) with (h * 320) by lia. split; [apply Hs, (ji_init _ _ Hj)|]. split; [|split; [done|by exists h]].
  apply sync_fits; cbn [gs_offset gs_length gs_flags]; [done|lia|lia|change STRELA_KERNEL_MEMORY_SIZE with 40960; lia| |done|by left].
  change CACHELINE_SIZE with 64. replace (h * 320) with (h * 5 * 64) by lia. apply Z_mod_mult.
Qed.

(** What a slot in use submits. *)
Lemma slot_submits s i x :
  job_inv l0 s -> lawful l0 s -> d_jobs (ls_dev s) !! i = Some x -> slot_used x = true ->
  submit_lawful (d_fd (ls_dev s)) (sl_submit x) (ls_log s).
Proof.
  intros Hj Hs Hx Hu. pose proof (ji_init _ _ Hj) as Hi. pose proof (lw_slots _ _ Hs Hi) as Hf. rewrite Forall_lookup in Hf.
  pose proof (slot_so_held l0 Hl0 s i x Hj Hx Hu) as Hso.
  assert (Hpos : 0 < sub_out_syncobj (sl_submit x)).
  { destruct (job_slot_ok l0 s i x Hj Hx) as [H|[H _]]; [|done]. unfold slot_used in Hu. by rewrite H in Hu. }
  destruct (Hf i x Hx) as [H0|(kernel & conf & h & Hsub & Hb & H0)]; [by rewrite H0 in Hpos|]. rewrite Hsub in *.
  pose proof (lw_kernels _ _ Hs Hi). pose proof (lw_tensors _ _ Hs Hi). pose proof Hb as Hb'. unfold kernel_bad in Hb'.
  apply orb_false_iff in Hb' as [_ Hb'].
  split; [done|]. split; [exists (k_handle kernel); cbn; unfold STRELA_KERNEL_SIZE, STRELA_NPE, STRELA_PE_ROWS, STRELA_PE_COLS; rewrite wrap_small by lia; lia|].
  split; [by apply kernel_accepted|]. split; [done|]. split; [done|].
  split; [by repeat constructor|]. split; [by repeat constructor|]. by split_and!.
Qed.

Lemma keeps_at_submit s job : job_inv l0 s -> lawful l0 s -> keeps_at l0 s (strela_job_submit job).
Proof.
  intros Hj Hs x s' H. destruct (slot_get_wp l0 s job PHASES_SUBMIT Hj) as (slot & s1 & Hg & _ & Hr).
  pose proof (keeps_slot_get job PHASES_SUBMIT s Hs _ _ Hg) as Hs1. unfold strela_job_submit in H.
  rewrite (mbind_Ok _ _ _ _ _ Hg) in H. apply mbind_inv in H as ([] & s2 & H2 & H).
  assert (Hs2 : lawful l0 s2).
  { unfold when_ok, mbind_ at 1, dev_ in H2. destruct slot as [i|]; [|rewrite Hr in H2; by injection H2 as <-].
    destruct Hr as (-> & Hok & _ & _ & y & Hy & Hph). rewrite Hok in H2. unfold the_slot in H2. rewrite mbind_ret in H2.
    unfold get_slot, mbind_ at 1 2, dev_ in H2. rewrite Hy in H2. unfold mret_ in H2.
    apply mbind_inv in H2 as (r & s3 & [= _ <-] & H2). revert H2.
    match goal with |- ?c _ = _ -> _ => assert (Hk : keeps c) by (destruct r; keeps_solve) end.
    apply Hk, lawful_add; [done|]. split; [by apply device_open|]. apply (slot_submits s i); [done..|].
    unfold slot_used. by destruct (submit_phase y Hph) as [-> | ->]. }
  revert H. match goal with |- ?c _ = _ -> _ => assert (Hk : keeps c) end; [|by apply Hk].
  apply keeps_bind; [keeps_solve|]. intros _. keeps_solve.
Qed.

(** ** Sessions *)

(** Arguments of the types of the C functions: handles of kernels, offsets and
    counts are unsigned. *)
Definition op_unsigned (o : api_op) : Prop :=
  match o with
  | O_buffer_flush _ off cnt | O_buffer_inval _ off cnt => 0 <= off < 2 ^ ptr_bits /\ 0 <= cnt < 2 ^ ptr_bits
  | O_job_config kernel _ | O_config kernel _ => 0 <= k_handle kernel
  | _ => True
  end.

Lemma keeps_at_bind {X Y} s (c : M lst X) (k : X -> M lst Y) : keeps_at l0 s c -> (forall x, keeps (k x)) -> keeps_at l0 s (mbind_ c k).
Proof. intros Hc Hk y s' H. apply mbind_inv in H as (x & s1 & H1 & H2). exact (Hk x s1 (Hc x s1 H1) y s' H2). Qed.

Lemma keeps_at_do_sync s ss flush i off cnt :
  sess_inv l0 ss s -> lawful l0 s -> 0 <= off < 2 ^ ptr_bits -> 0 <= cnt < 2 ^ ptr_bits ->
  keeps_at l0 s (do_buffer_sync ss flush i off cnt).
Proof.
  intros Hi Hs Hoff Hcnt. unfold do_buffer_sync. destruct (ss_bufs ss !! i) as [[b d]|] eqn:Hb; [|by apply keeps_ret].
  apply keeps_at_bind; [|intros _; apply keeps_ret]. intros x s' H.
  assert (Hrun : exists fl s1, (if flush then strela_buffer_flush b off cnt else strela_buffer_inval b off cnt) s = Ok (tt, s1)
    /\ line_sync fl s b s1
    /\ (fl = Z.lor DRM_STRELA_SYNC_FINI DRM_STRELA_SYNC_WRITE \/ fl = Z.lor DRM_STRELA_SYNC_PREP DRM_STRELA_SYNC_READ)).
  { destruct flush.
    - destruct (flush_lines s ss i b d off cnt (proj1 Hi) Hb Hoff) as (s1 & H1 & H2). eauto 6.
    - destruct (inval_lines s ss i b d off cnt (proj1 Hi) Hb Hoff Hcnt) as (s1 & H1 & H2). eauto 6. }
  destruct Hrun as (fl & s1 & H1 & H2 & Hfl). rewrite H in H1. injection H1 as _ <-. by eapply lawful_line_sync.
Qed.

Lemma keeps_at_do_kernel_set s ss i data : sess_inv l0 ss s -> lawful l0 s -> keeps_at l0 s (do_kernel_set ss i data).
Proof.
  intros Hi Hs. unfold do_kernel_set. destruct (ss_kernels ss !! i) as [[h old]|] eqn:Hk; [|by apply keeps_ret].
  destruct (_ <? _); [by apply keeps_ret|]. intros x s' H. unfold mbind_ at 1, dev_ in H. revert H.
  apply keeps_at_bind; [|intros _; apply keeps_ret]. pose proof (mi_kerns _ _ (proj1 Hi)) as HF. rewrite Forall_lookup in HF.
  destruct (HF _ _ Hk) as (Hh & _). by eapply keeps_at_kernel_set.
Qed.

Lemma keeps_api_do ss o s : sess_inv l0 ss s -> lawful l0 s -> op_unsigned o -> keeps_at l0 s (api_do ss o).
Proof.
  intros Hi Hs Ho. assert (Hj : forall X (c : M lst X), keeps_at l0 s c -> keeps_at l0 s (just c ss)).
  { intros X c Hc. apply keeps_at_bind; [done|]. intros _. apply keeps_ret. }
  destruct o; cbn [api_do]; try (apply Hj).
  - by apply keeps_bind; [apply keeps_kernel_alloc|intros; apply keeps_ret|].
  - by apply keeps_at_do_kernel_set.
  - revert Hs. generalize s. change (keeps (strela_kernel_free kernel)). unfold strela_kernel_free. keeps_solve.
  - revert Hs. generalize s. change (keeps (do_kernel_free_all ss)). unfold do_kernel_free_all. pose proof keeps_free_kernels. keeps_solve.
  - by apply keeps_bind; [apply keeps_buffer_alloc|intros; apply keeps_ret|].
  - clear Hi Hj. revert s Hs. change (keeps (do_buffer_set ss i data)). unfold do_buffer_set, strela_buffer_set_data. pose proof keeps_to_ptr. keeps_solve.
  - clear Hi Hj. revert s Hs. change (keeps (do_buffer_free ss i)). unfold do_buffer_free, strela_buffer_free. pose proof keeps_to_ptr. keeps_solve.
  - clear Hi Hj. revert s Hs. change (keeps (do_buffer_free_all ss)). unfold do_buffer_free_all. pose proof keeps_free_buffers. keeps_solve.
  - by apply keeps_at_do_sync; [..|apply Ho|apply Ho].
  - by apply keeps_at_do_sync; [..|apply Ho|apply Ho].
  - by apply keeps_config.
  - by apply keeps_at_submit; [apply Hi|].
  - by apply keeps_poll.
  - by apply keeps_wait.
  - by apply keeps_job_fd.
  - by apply keeps_job_free.
  - by apply keeps_job_free_all.
  - by apply keeps_old_config.
  - clear Hi Hj. revert s Hs. change (keeps strela_dev_reset_err). unfold strela_dev_reset_err. keeps_solve.
  - by apply keeps_bind; [apply keeps_init|intros; apply keeps_ret|].
Qed.

Context `{HU : !Undisturbed OS}.
(** A fence can be exported when a descriptor was closed just before. *)
Context (HE : forall l fd r dfd h, exists r', sys (Sev (SC_close fd) (inr r) :: l) (SC_handle_to_fd dfd h) = inr r').

Lemma api_run_lawful ss s os :
  sess_inv l0 ss s -> lawful l0 s -> Forall api_op_ok os -> Forall op_unsigned os ->
  exists ss' s', api_run ss os s = Ok (ss', s') /\ lawful l0 s'.
Proof.
  intros Hi Hs Hos Hu. revert ss s Hi Hs Hu. induction Hos as [|o os Ho _ IH]; intros ss s Hi Hs Hu; [by exists ss, s|].
  inversion_clear Hu as [|? ? Hu1 Hu2]. destruct (api_do_wp HE l0 ss s o Hl0 Hi Ho) as (ss1 & s1 & He & Hi1).
  cbn [api_run]. rewrite (mbind_Ok _ _ _ _ _ He). apply IH; [done|exact (keeps_api_do ss o s Hi Hs Hu1 _ _ He)|done].
Qed.
End Session.

Section Requests.
Context `{A : abi} `{OS : Sys} `{HL : !SysLaws OS} `{HU : !Undisturbed OS}.
Context (HE : forall l fd r dfd h, exists r', sys (Sev (SC_close fd) (inr r) :: l) (SC_handle_to_fd dfd h) = inr r').

End Requests.

(** ** Witness: a session with a flush, an invalidate, a kernel and a job *)
Definition request_ops : list api_op :=
  [O_kernel_alloc; O_kernel_set 0 (replicate 320 7); O_buffer_alloc 32; O_buffer_flush 0 0 32;
   O_job_config (mkKernel true 0) (mkConf 0 16 1 0 0 1 0 0 1 0 0 1 16 16 0 0 0 0 0 0);
   O_job_submit (mkJobH true 0); O_buffer_inval 0 16 16].


(** The session makes the requests it is about: three syncs and one submission. *)
Definition is_request (e : sevent) : bool :=
  match ev_call e with SC_gem_sync _ _ | SC_submit _ _ => true | _ => false end.

Lemma session_requests_made :
  match session_run (A := ARMv7) (OS := demo (fun _ => true)) 0 request_ops demo_start with
  | Ok (_, s') => length (filter is_request (ls_log s')) = 4%nat
  | Trap _ => False
  end.
Proof. vm_compute. reflexivity. Qed.
