(* ===== verification/LibBypass.v ===== *)
(** * A bypass job, from the library's buffers to the device and back

    The library and the driver see one memory: the library maps the tensor
    object and sees its bytes, the driver sees its 32-bit words. A client that
    configures a job whose columns copy parts of its buffers, with any strides,
    on a simulated device, finds the inputs' words in its output buffers when
    the job's fence is signalled, and nothing else changed. The path goes through the free list (where buffers are), the
    request of the library, the driver's check and submission, the scheduler's
    callback and the work item of the simulated device. *)
From S2P Require Import LibWit.
From S2P Require Import DrvGem.
From S2P Require Import DrvAccept LibDriver.

(** ** One memory, seen as bytes and as words *)
Definition byte (b : Z) : Prop := 0 <= b < 256.

Lemma le_value_inj l l' :
  length l = length l' -> Forall byte l -> Forall byte l' -> le_value l = le_value l' -> l = l'.
Proof.
  revert l'. induction l as [|b l IH]; intros [|b' l'] Hlen Hl Hl' Heq; try done.
  apply Forall_cons in Hl as [Hb Hl], Hl' as [Hb' Hl']. unfold byte in *. cbn in Heq, Hlen.
  assert (b = b') as -> by lia. f_equal. apply IH; [congruence|done|done|lia].
Qed.

Definition bytes_in (m : mem) (a n : Z) : Prop := forall x, a <= x < a + n -> byte (byte_at m x).

Lemma bytes_read m a n : bytes_in m a (Z.of_nat n) -> Forall byte (read_bytes m a n).
Proof.
  revert a. induction n as [|n IH]; intros a H; [constructor|]. cbn. constructor; [apply H; lia|].
  apply IH. intros x Hx. apply H. lia.
Qed.

(** Word [i] of an array of bytes. *)
Definition word_of (l : list Z) (i : Z) : list Z := list.take 4 (list.drop (Z.to_nat (i * 4)) l).

Lemma word_of_read m a n i : 0 <= i < n -> word_of (read_bytes m a (Z.to_nat (n * 4))) i = read_bytes m (a + i * 4) 4.
Proof.
  intros Hi. unfold word_of. apply list_eq. intros k. destruct (decide (k < 4)%nat) as [Hk|Hk].
  - rewrite lookup_take_lt, lookup_drop, !read_bytes_lookup by lia. do 2 f_equal. lia.
  - rewrite lookup_take_ge, lookup_ge_None_2; [done|rewrite length_read_bytes; lia|lia].
Qed.

Section Bypass.
Context `{A : abi}.

(** Word [i] of the driver's object [o] is the four bytes the library sees at
    word [i] of its mapping. *)
Record shared (s : lst) (k : kst) (o : gem_obj) : Prop := {
  sh_bytes : bytes_in (ls_mem s) (d_tensors_bo_map (ls_dev s)) STRELA_TENSOR_MEMORY_SIZE;
  sh_words : forall i, 0 <= i -> (i + 1) * sizeof_word <= STRELA_TENSOR_MEMORY_SIZE ->
    word k o i = le_value (read_bytes (ls_mem s) (d_tensors_bo_map (ls_dev s) + i * sizeof_word) 4)
}.

(** The same word on both sides is the same bytes. *)
Lemma shared_word s k s' k' o i i' :
  shared s k o -> shared s' k' o -> 0 <= i -> (i + 1) * sizeof_word <= STRELA_TENSOR_MEMORY_SIZE ->
  0 <= i' -> (i' + 1) * sizeof_word <= STRELA_TENSOR_MEMORY_SIZE -> word k' o i' = word k o i ->
  read_bytes (ls_mem s') (d_tensors_bo_map (ls_dev s') + i' * sizeof_word) 4
  = read_bytes (ls_mem s) (d_tensors_bo_map (ls_dev s) + i * sizeof_word) 4.
Proof.
  intros Hs Hs' H1 H2 H3 H4 Hw. rewrite (sh_words _ _ _ Hs), (sh_words _ _ _ Hs') in Hw by done. unfold sizeof_word in *.
  apply le_value_inj; [done|apply bytes_read..|done]; intros x Hx; [apply (sh_bytes _ _ _ Hs')|apply (sh_bytes _ _ _ Hs)]; lia.
Qed.

(** ** A job that copies parts of buffers *)

(** A column: which of the client's buffers is read, from which word on and with
    which stride, which one is written, from which word on, and how many words. *)
Record bcol := mkBcol {
  bc_i : nat; bc_in : strela_buffer; bc_in_off : Z; bc_stride : Z;
  bc_o : nat; bc_out : strela_buffer; bc_out_off : Z; bc_count : Z
}.

(** The words of the input a column passes over; a stride of 0 stays on one. *)
Definition bc_span (c : bcol) : Z := bc_count c * Z.max (bc_stride c) 1.

Definition in_column (c : bcol) : Z * Z * Z := (b_offset_words (bc_in c) + bc_in_off c, bc_count c, bc_stride c).
Definition out_column (c : bcol) : Z * Z * Z := (b_offset_words (bc_out c) + bc_out_off c, bc_count c, 1).

(** The client holds the buffers of a column, which stays inside them and is
    short enough for the hardware to count. *)
Record column_in (ss : session) (c : bcol) : Prop := {
  ci_in : exists d, ss_bufs ss !! bc_i c = Some (bc_in c, d);
  ci_out : exists d, ss_bufs ss !! bc_o c = Some (bc_out c, d);
  ci_pos : 0 <= bc_in_off c /\ 0 <= bc_out_off c /\ 0 <= bc_count c /\ is_u 32 (bc_stride c);
  ci_src : bc_in_off c + bc_span c <= b_size_words (bc_in c);
  ci_dst : bc_out_off c + bc_count c <= b_size_words (bc_out c);
  ci_max : bc_span c * sizeof_word <= STRELA_MAX_COLUMN_BYTES
}.

(** The columns of a configuration; no word is written twice, or written and
    read. *)
Record bypass_ok (ss : session) (conf : strela_conf) (cs : list bcol) : Prop := {
  bp_in : conf_inputs conf = in_column <$> cs;
  bp_out : conf_outputs conf = out_column <$> cs;
  bp_held : Forall (column_in ss) cs;
  bp_once : forall i i' c c', i <> i' -> cs !! i = Some c -> cs !! i' = Some c' -> bc_o c = bc_o c' ->
    bc_out_off c + bc_count c <= bc_out_off c' \/ bc_out_off c' + bc_count c' <= bc_out_off c;
  bp_apart : forall c c', c ∈ cs -> c' ∈ cs -> bc_o c = bc_i c' ->
    bc_out_off c + bc_count c <= bc_in_off c' \/ bc_in_off c' + bc_span c' <= bc_out_off c
}.

(** The binding the driver makes of a range, and the column of two. *)
Definition bind_of (o : gem_obj) (r : Z * Z * Z) : strela_binding := mkBinding (Some o) r.1.1 r.1.2.
Definition col_of (o : gem_obj) (c : bcol) : column :=
  mkCol (bind_of o (in_column c)) (bc_stride c) (bind_of o (out_column c)) o o.

Definition strided_of (handle : Z) (c : Z * Z * Z) : drm_strela_strided_binding :=
  mkUStrided handle (u32 c.1.1) (u32 c.1.2) (u32 c.2).
Definition binding_of (handle : Z) (c : Z * Z * Z) : drm_strela_binding :=
  mkUBinding handle (u32 c.1.1) (u32 c.1.2).

Lemma conf_submit_columns dev kernel conf h :
  sub_inputs (conf_submit dev kernel conf h) = strided_of (d_tensors_bo_handle dev) <$> conf_inputs conf
  /\ sub_outputs (conf_submit dev kernel conf h) = binding_of (d_tensors_bo_handle dev) <$> conf_outputs conf.
Proof. done. Qed.

Definition range_fits (r : Z * Z * Z) : Prop := column_u32 r /\ binding_fits STRELA_TENSOR_MEMORY_SIZE r.1.1 r.1.2 r.2.

Lemma column_fits s ss c : mem_inv s ss -> column_in ss c -> range_fits (in_column c) /\ range_fits (out_column c).
Proof.
  intros Hm [[d Hd] [d' Hd'] (H1 & H2 & H3 & H4) Hs1 Hs2 Hmax].
  destruct (buf_bounds _ _ _ _ _ Hm Hd) as (_ & Ho1 & _ & _ & He1 & _). destruct (buf_bounds _ _ _ _ _ Hm Hd') as (_ & Ho2 & _ & _ & He2 & _).
  assert (Ht : STRELA_TENSOR_MEMORY_SIZE < 2 ^ 31) by reflexivity. assert (bc_count c <= bc_span c) by (unfold bc_span; nia).
  assert (bc_count c <> 0 -> Z.max (bc_stride c) 1 <= bc_span c) by (unfold bc_span; nia).
  unfold range_fits, in_column, out_column, column_u32, is_u, binding_fits, span, STRELA_MAX_COLUMN_BYTES, STRELA_WORD_SIZE, sizeof_word in *.
  cbn [fst snd]. fold (bc_span c). rewrite (Z.max_l 1 1), Z.mul_1_r by lia. split_and!; lia.
Qed.

(** ** The request of the library is accepted *)
Context {E : Env}.

(** A simulated, idle device whose kernel knows the two objects of the library
    and has memory; nobody aborts the simulation. *)
Record sim_kernel (dev : strela_dev) (k : kst) (o ko : gem_obj) : Prop := {
  sk_sim : sd_is_sim (k_dev k) = true;
  sk_idle : sd_active (k_dev k) = 0;
  sk_fresh : forall l, k_jobs k !! env_kzalloc l A_job = None;
  sk_willing : willing;
  sk_wait : forall l us, env_icall l (sim_wait us) = - ETIME;
  sk_tensors : forall l, env_gem_lookup l (d_tensors_bo_handle dev) = Some o;
  sk_kernels : forall l, env_gem_lookup l (d_kernels_bo_handle dev) = Some ko;
  sk_size : o_size o = STRELA_TENSOR_MEMORY_SIZE;
  sk_ksize : o_size ko = STRELA_KERNEL_MEMORY_SIZE;
  sk_dma : obj_dma32 o;
  sk_vaddr : o_vaddr o <> 0
}.

Context (s : lst) (ss : session) (conf : strela_conf) (cs : list bcol) (k : kst) (o ko : gem_obj).
Context (Hm : mem_inv s ss) (Hb : bypass_ok ss conf cs) (Hk : sim_kernel (ls_dev s) k o ko).

Lemma col_held c : c ∈ cs -> column_in ss c.
Proof. intros Hc. pose proof (bp_held _ _ _ Hb) as HF. rewrite Forall_forall in HF. by apply HF. Qed.

Lemma col_fits c : c ∈ cs -> range_fits (in_column c) /\ range_fits (out_column c).
Proof. intros Hc. by eapply column_fits, col_held. Qed.

Lemma in_admitted r : range_fits r -> admitted (strided_of (d_tensors_bo_handle (ls_dev s)) r).
Proof.
  intros [Hu Hf]. exists o. split; [apply (sk_tensors _ _ _ _ Hk)|]. rewrite (sk_size _ _ _ _ Hk).
  pose proof (accepts_column' (d_tensors_bo_handle (ls_dev s)) r) as [Ha Hcut]. rewrite (Hcut Hu) in Ha. destruct r as [[off cnt] str]. by apply Ha.
Qed.

Lemma out_admitted r : r.2 = 1 -> range_fits r -> admitted (strided (binding_of (d_tensors_bo_handle (ls_dev s)) r)).
Proof.
  destruct r as [[off cnt] str]. intros Hs [Hu Hf]. cbn in Hs. subst str. exists o. split; [apply (sk_tensors _ _ _ _ Hk)|].
  rewrite (sk_size _ _ _ _ Hk). destruct (accepts_output (d_tensors_bo_handle (ls_dev s)) off cnt) as [Ha Hcut].
  rewrite (Hcut Hu) in Ha. by apply Ha.
Qed.

Lemma bypass_request kernel h :
  0 <= k_handle kernel -> kernel_bad kernel = false -> request_ok (conf_submit (ls_dev s) kernel conf h).
Proof.
  intros H0 Hkb. destruct (conf_submit_columns (ls_dev s) kernel conf h) as [Hi Ho].
  split; [by split| | | |done|done].
  - exists ko. split; [apply (sk_kernels _ _ _ _ Hk)|]. rewrite (sk_ksize _ _ _ _ Hk). by apply kernel_accepted.
  - rewrite Hi, (bp_in _ _ _ Hb), <- list_fmap_compose. apply Forall_fmap, Forall_forall. intros c Hc.
    by apply in_admitted, col_fits.
  - rewrite Ho, (bp_out _ _ _ Hb), <- list_fmap_compose. apply Forall_fmap, Forall_forall. intros c Hc.
    by apply out_admitted, col_fits.
Qed.

(** ** The columns of the job *)
Lemma cols_length : length cs = STRELA_NUM_IO_COLS.
Proof. by rewrite <- (length_fmap in_column), <- (bp_in _ _ _ Hb). Qed.

Lemma bypass_cols kernel h j :
  job_resolved (conf_submit (ls_dev s) kernel conf h) j -> cols_of j 0 (col_of o <$> cs).
Proof.
  intros (_ & _ & _ & _ & Hcol) i c Hc. apply list_lookup_fmap_Some in Hc as (bc & -> & Hc).
  destruct (Hcol i) as (inp & b & out & b' & Hi & Hji & (o1 & -> & _ & l & Hl) & Hst & Ho & Hjo & (o2 & -> & _ & l' & Hl')).
  { rewrite <- cols_length. by eapply lookup_lt_Some. }
  destruct (conf_submit_columns (ls_dev s) kernel conf h) as [Ei Eo].
  rewrite Ei, (bp_in _ _ _ Hb), !list_lookup_fmap, Hc in Hi. rewrite Eo, (bp_out _ _ _ Hb), !list_lookup_fmap, Hc in Ho.
  cbn in Hi, Ho. injection Hi as <-. injection Ho as <-. cbn in Hl, Hl', Hji, Hjo, Hst.
  rewrite (sk_tensors _ _ _ _ Hk) in Hl, Hl'. injection Hl as <-. injection Hl' as <-.
  destruct (col_fits bc ltac:(by eapply list_elem_of_lookup_2)) as [[(H1 & H2 & H3) _] [(H4 & H5 & _) _]]. unfold is_u in *.
  rewrite (wrap_small 32 (_ + _)), (wrap_small 32 (bc_count bc)) in Hji by lia.
  rewrite (wrap_small 32 (_ + _)), (wrap_small 32 (bc_count bc)) in Hjo by lia. rewrite wrap_small in Hst by lia. split_and!; [exact Hji|exact Hst|exact Hjo].
Qed.

Lemma bypass_cols_good : Forall col_good (col_of o <$> cs).
Proof.
  apply Forall_fmap, Forall_forall. intros c Hc. destruct (col_fits c Hc) as [[(H1 & H2 & H3) Hf] [(H4 & H5 & H6) Hf']].
  unfold col_good; cbn. split_and!; try done; try apply Hk;
    (exists o; split; [done|]; rewrite (sk_size _ _ _ _ Hk); by split; [apply Hk|]).
Qed.

(** Different words of the buffers held are in different places. *)
Lemma words_apart i i' b b' d d' x y :
  ss_bufs ss !! i = Some (b, d) -> ss_bufs ss !! i' = Some (b', d') -> 0 <= x < b_size_words b -> 0 <= y < b_size_words b' ->
  (i = i' -> x <> y) -> b_offset_words b + x <> b_offset_words b' + y.
Proof.
  intros H1 H2 Hx Hy Hne. destruct (decide (i = i')) as [->|Hi].
  - rewrite H1 in H2. injection H2 as <- <-. specialize (Hne eq_refl). lia.
  - pose proof (bufs_apart s ss i i' b b' d d' Hm Hi H1 H2) as Hap. unfold buf_apart in Hap. lia.
Qed.

(** Word [i] of a column's input. *)
Lemma in_word c i : column_in ss c -> 0 <= i < bc_count c ->
  bc_in_off c <= bc_in_off c + i * bc_stride c < bc_in_off c + bc_span c.
Proof. intros [_ _ (_ & _ & _ & H) _ _ _] Hi. unfold bc_span, is_u in *. nia. Qed.

Lemma out_addr c a : is_out (col_of o c) a -> exists i, 0 <= i < bc_count c
  /\ a = o_vaddr o + (b_offset_words (bc_out c) + (bc_out_off c + i)) * STRELA_WORD_SIZE.
Proof. intros (i & Hi & ->). exists i. split; [done|]. unfold col_addr. cbn. lia. Qed.

Lemma bypass_cols_apart : cols_apart (col_of o <$> cs).
Proof.
  assert (Hio : forall c c', c ∈ cs -> c' ∈ cs -> forall a, is_out (col_of o c) a -> ~ is_in (col_of o c') a).
  { intros c c' Hc Hc' a (x & Hx & ->)%out_addr (y & Hy & Heq). pose proof (col_held c Hc) as Hh. pose proof (col_held c' Hc') as Hh'.
    pose proof (in_word c' y Hh' Hy) as Hw. pose proof Hh as [_ [d Hd] (_ & Hp & _) _ Hs _]. pose proof Hh' as [[d' Hd'] _ (Hp' & _) Hs' _ _].
    unfold col_addr, STRELA_WORD_SIZE in Heq. cbn in Heq, Hy.
    eapply (words_apart _ _ _ _ _ _ (bc_out_off c + x) (bc_in_off c' + y * bc_stride c') Hd Hd'); [lia|lia| |lia].
    intros He. destruct (bp_apart _ _ _ Hb c c' Hc Hc' He); lia. }
  split.
  - intros i c Hc. apply list_lookup_fmap_Some in Hc as (bc & -> & Hc). apply Hio; by eapply list_elem_of_lookup_2.
  - intros i i' c c' Hne Hc Hc'. apply list_lookup_fmap_Some in Hc as (bc & -> & Hc).
    apply list_lookup_fmap_Some in Hc' as (bc' & -> & Hc'). split; [apply Hio; by eapply list_elem_of_lookup_2|].
    intros a (x & Hx & ->)%out_addr (y & Hy & Heq)%out_addr. unfold STRELA_WORD_SIZE in Heq.
    pose proof (col_held bc ltac:(by eapply list_elem_of_lookup_2)) as [_ [d Hd] (_ & Hp & _) _ Hs _].
    pose proof (col_held bc' ltac:(by eapply list_elem_of_lookup_2)) as [_ [d' Hd'] (_ & Hp' & _) _ Hs' _].
    eapply (words_apart _ _ _ _ _ _ (bc_out_off bc + x) (bc_out_off bc' + y) Hd Hd'); [lia|lia| |lia].
    intros He. destruct (bp_once _ _ _ Hb i i' bc bc' Hne Hc Hc' He); lia.
Qed.

Lemma bypass_cols_fed : forallb col_fed (col_of o <$> cs) = true.
Proof.
  apply Is_true_true, forallb_True, Forall_fmap, Forall_forall. intros c _. unfold compose, col_fed. cbn. by rewrite Z.leb_refl.
Qed.

(** ** Submitting, starting and simulating the job *)
Lemma bypass_runs delay args :
  (exists kernel h, 0 <= k_handle kernel /\ kernel_bad kernel = false /\ args = conf_submit (ls_dev s) kernel conf h) ->
  exists k1 p f k2 k3,
    strela_submit_ioctl args k = Ok (0, k1) /\ pushed (k_log k1) = [p]
    /\ strela_run_job p k1 = Ok (f, k2) /\ strela_sim_work delay k2 = Ok (tt, k3)
    /\ signals f (k_log k2) = 0 /\ signals f (k_log k3) = 1 /\ sd_active (k_dev k3) = 0
    /\ Forall (copied k k3) (col_of o <$> cs)
    /\ forall a, Forall (fun c => ~ is_out (col_of o c) a) cs -> k_ram k3 !! a = k_ram k !! a.
Proof.
  intros (kernel & h & H0 & Hkb & ->). pose proof (bypass_request kernel h H0 Hkb) as Hreq.
  destruct (submit_queues _ k (sk_willing _ _ _ _ Hk) Hreq (sk_fresh _ _ _ _ Hk))
    as (k1 & p & j & Hsub & Hp & Hj & Hpush & Hres & Hsig & Hram & Hact & Hsim).
  rewrite (sk_idle _ _ _ _ Hk) in Hact. rewrite (sk_sim _ _ _ _ Hk) in Hsim.
  destruct (run_job_sim p j k1 Hsim Hact Hj) as (k2 & Hrun & Hj2 & Hsim2 & Hact2 & Hram2 & Hsig2).
  destruct (sim_work_runs delay (sk_wait _ _ _ _ Hk) k2 p _ (col_of o <$> cs) Hsim2 Hact2 Hp Hj2 eq_refl)
    as (k3 & Hw & Hc & Hrest & _ & Hact3 & Hsig3).
  - rewrite length_fmap. apply cols_length.
  - exact (bypass_cols kernel h j Hres).
  - apply bypass_cols_good.
  - apply bypass_cols_apart.
  - rewrite bypass_cols_fed in Hact3, Hsig3. exists k1, p, (j_hw_fence j), k2, k3. split_and!; try done.
    + by rewrite Hsig2.
    + rewrite Hsig3, Hsig2, Hsig. cbn. by rewrite Z.eqb_refl.
    + eapply Forall_impl; [exact Hc|]. intros c Hcp i Hi. rewrite (Hcp i Hi). unfold word. by rewrite Hram2, Hram.
    + intros a Ha. rewrite Hrest by (by apply Forall_fmap). by rewrite Hram2, Hram.
Qed.

(** What the client reads of its buffers, word by word. *)
Definition client_word (s : lst) (b : strela_buffer) (i : Z) (w : list Z) : Prop :=
  exists l, strela_buffer_get_data b s = Ok (Some l, s) /\ word_of l i = w.

Lemma held_word (s' : lst) i b d j :
  ss_bufs ss !! i = Some (b, d) -> 0 <= j < b_size_words b -> strela_dev_ok (ls_dev s') = true ->
  d_tensors_bo_map (ls_dev s') = d_tensors_bo_map (ls_dev s) -> regions (ls_mem s') = regions (ls_mem s) ->
  client_word s' b j (read_bytes (ls_mem s') (d_tensors_bo_map (ls_dev s') + (b_offset_words b + j) * sizeof_word) 4).
Proof.
  intros Hi Hj Hok Hmap Hreg. eexists. split; [by apply (buffer_get_bytes s ss i b d s' Hm Hi)|]. unfold sizeof_word.
  rewrite word_of_read by done. rewrite Hmap. f_equal. lia.
Qed.

Context (s' : lst) (k' : kst) (Hs : shared s k o) (Hs' : shared s' k' o).
Context (Hok : strela_dev_ok (ls_dev s) = true) (Hok' : strela_dev_ok (ls_dev s') = true).
Context (Hmap : d_tensors_bo_map (ls_dev s') = d_tensors_bo_map (ls_dev s)) (Hreg : regions (ls_mem s') = regions (ls_mem s)).

(** A word that is the same for the driver is the same for the client. *)
Lemma same_word i b d j i' b' d' j' :
  ss_bufs ss !! i = Some (b, d) -> 0 <= j < b_size_words b -> ss_bufs ss !! i' = Some (b', d') -> 0 <= j' < b_size_words b' ->
  word k' o (b_offset_words b' + j') = word k o (b_offset_words b + j) ->
  exists w, client_word s b j w /\ client_word s' b' j' w.
Proof.
  intros Hi Hj Hi' Hj' Hw. destruct (buf_bounds _ _ _ _ _ Hm Hi) as (_ & Ho1 & _ & _ & He1 & _).
  destruct (buf_bounds _ _ _ _ _ Hm Hi') as (_ & Ho2 & _ & _ & He2 & _). eexists. split; [by eapply held_word|].
  rewrite <- (shared_word s k s' k' o _ (b_offset_words b' + j') Hs Hs'); [by eapply held_word|unfold sizeof_word in *; lia..|done].
Qed.

Lemma copied_word c j :
  c ∈ cs -> copied k k' (col_of o c) -> 0 <= j < bc_count c ->
  exists w, client_word s (bc_in c) (bc_in_off c + j * bc_stride c) w /\ client_word s' (bc_out c) (bc_out_off c + j) w.
Proof.
  intros Hc Hcp Hj. pose proof (col_held c Hc) as Hh. pose proof (in_word c j Hh Hj) as Hw.
  pose proof Hh as [[d Hd] [d' Hd'] (Hp & Hp' & _) Hsrc Hdst _].
  eapply (same_word _ _ _ _ _ _ _ _ Hd _ Hd'); [lia|]. pose proof (Hcp j) as He. cbn in He.
  rewrite !Z.add_assoc. apply He. lia.
  Unshelve. lia.
Qed.

Lemma other_word i b d j :
  (forall a, Forall (fun c => ~ is_out (col_of o c) a) cs -> k_ram k' !! a = k_ram k !! a) ->
  ss_bufs ss !! i = Some (b, d) -> 0 <= j < b_size_words b ->
  (forall c, c ∈ cs -> bc_o c = i -> ~ bc_out_off c <= j < bc_out_off c + bc_count c) ->
  exists w, client_word s b j w /\ client_word s' b j w.
Proof.
  intros Hrest Hi Hj Hno. eapply same_word; [done..|]. unfold word. rewrite Hrest; [done|].
  apply Forall_forall. intros c Hc (x & Hx & Heq)%out_addr. unfold STRELA_WORD_SIZE in Heq.
  pose proof (col_held c Hc) as [_ [d' Hd'] (_ & Hp & _) _ Hs0 _].
  eapply (words_apart _ _ _ _ _ _ (bc_out_off c + x) j Hd' Hi); [lia|lia| |lia]. intros He. specialize (Hno c Hc He). lia.
Qed.
End Bypass.

(** ** The library makes the request *)

(** The log only grows. *)
Definition grows {X} (c : M lst X) : Prop :=
  forall s x s', c s = Ok (x, s') -> exists es, ls_log s' = es ++ ls_log s.

Section Grows.
Context `{A : abi} `{OS : Sys}.

Lemma grows_ret {X} (x : X) : grows (mret_ x).
Proof. intros s y s' [= <- <-]. by exists []. Qed.

Lemma grows_trap {X} t : grows (X := X) (trap_ t).
Proof. intros s y s' H. discriminate. Qed.

Lemma grows_bind {X Y} (c : M lst X) (k : X -> M lst Y) : grows c -> (forall x, grows (k x)) -> grows (mbind_ c k).
Proof.
  intros Hc Hk s y s' H. apply mbind_inv in H as (x & s1 & H1 & H2).
  destruct (Hc _ _ _ H1) as [es1 E1], (Hk _ _ _ _ H2) as [es2 E2]. exists (es2 ++ es1). by rewrite E2, E1, app_assoc.
Qed.

Lemma grows_dev : grows dev_.
Proof. intros s y s' [= <- <-]. by exists []. Qed.

Lemma grows_update f : grows (LibData.update_dev f).
Proof. intros s y s' [= <- <-]. by exists []. Qed.

Lemma grows_sys c : grows (sys_ c).
Proof. intros s y s' [= <- <-]. by eexists [_]. Qed.
End Grows.

Ltac grows_solve :=
  repeat first
    [ apply grows_ret | apply grows_trap | apply grows_dev | apply grows_update | apply grows_sys
    | apply grows_bind; [|intros ?]
    | match goal with
      | |- grows (if ?b then _ else _) => destruct b
      | |- grows (match ?x with _ => _ end) => destruct x
      end
    | progress unfold when_ok, the_slot, get_slot, update_slot, set_errnum, sys_or_abort ].

Section Chain.
Context `{A : abi} `{OS : Sys} `{HL : !SysLaws OS} `{HU : !Undisturbed OS} {E : Env}.

(** A fence can be exported when a descriptor was closed just before. *)
Context (HE : forall l fd r dfd h, exists r', sys (Sev (SC_close fd) (inr r) :: l) (SC_handle_to_fd dfd h) = inr r').

(** [strela_job_submit] of a configured job asks the driver to submit the
    request in the job's slot. *)
Lemma job_submit_sends l0 s job x :
  log_ok l0 -> job_inv l0 s -> strela_dev_ok (ls_dev s) = true -> jh_valid job = true ->
  d_jobs (ls_dev s) !! Z.to_nat (jh_handle job) = Some x -> sl_phase x = STRELA_JOB_CONFIGURED ->
  exists b s' es r, strela_job_submit job s = Ok (b, s')
    /\ ls_log s' = es ++ Sev (SC_submit (d_fd (ls_dev s)) (sl_submit x)) r :: ls_log s.
Proof.
  intros Hl Hi Hok Hv Hx Hph. destruct (job_submit_wp l0 Hl HE s job Hi) as (b & s' & He & _).
  assert (Hlt : jh_handle job < Z.of_nat STRELA_JOBS_MAX).
  { apply lookup_lt_Some in Hx. rewrite (ji_len _ _ Hi) in Hx. lia. }
  exists b, s'. pose proof He as Hrun. unfold strela_job_submit in Hrun.
  rewrite (mbind_Ok _ _ _ _ _ (slot_get_ok s job PHASES_SUBMIT x Hok Hv Hlt Hx ltac:(by rewrite Hph))) in Hrun.
  apply mbind_inv in Hrun as ([] & s1 & H1 & Hrun).
  assert (Hs1 : exists r, ls_log s1 = Sev (SC_submit (d_fd (ls_dev s)) (sl_submit x)) r :: ls_log s).
  { unfold when_ok, the_slot, get_slot, mbind_, dev_, mret_, sys_ in H1. rewrite Hok, Hx in H1. cbn in H1.
    destruct (sys (ls_log s) _) as [e|?] in H1; unfold set_errnum, LibData.update_dev, modify_ in H1;
      injection H1 as <-; by eexists. }
  destruct Hs1 as [r Hr]. match type of Hrun with ?c s1 = _ => assert (Hg : grows c) by grows_solve end.
  destruct (Hg _ _ _ Hrun) as [es Hes]. exists es, r. split; [exact He|]. by rewrite Hes, Hr.
Qed.

(** C4: A bypass job copies the client's data, through library and driver, and
    touches nothing else. The client holds the buffers of four columns, each of
    which reads a part of one buffer with a stride and writes a part of another
    or the same; the parts lie inside the buffers and fit the hardware, and no
    word is written twice or both written and read. The library and the
    driver's kernel share the tensor memory; the device is simulated and idle,
    the kernel has memory for the job and knows the two objects under the
    library's handles, and nobody aborts the simulation: each of its waits ends
    by its timeout ([sim_kernel]). The library's process is as in a session.
    When [strela_job_config] answers a valid job, [strela_job_submit] sends the
    driver a request which it accepts; the scheduler's callback starts the job
    and the simulated device finishes it: its fence is signalled once, and the
    device is free again. In whatever state of the library that shares the
    memory at the end, word [j] of a column's output is what word [j * stride]
    of its input was when the job was configured, and every other word of every
    buffer the client holds is what it was. *)
Theorem bypass_end_to_end delay l0 s ss conf cs kernel job s1 k o ko :
  log_ok l0 -> job_inv l0 s -> mem_inv s ss -> strela_dev_ok (ls_dev s) = true ->
  bypass_ok ss conf cs -> sim_kernel (ls_dev s) k o ko -> shared s k o -> 0 <= k_handle kernel ->
  strela_job_config kernel conf s = Ok (job, s1) -> jh_valid job = true ->
  exists x b s2 es r k1 p f k2 k3,
    d_jobs (ls_dev s1) !! Z.to_nat (jh_handle job) = Some x
    /\ strela_job_submit job s1 = Ok (b, s2)
    /\ ls_log s2 = es ++ Sev (SC_submit (d_fd (ls_dev s)) (sl_submit x)) r :: ls_log s1
    /\ strela_submit_ioctl (sl_submit x) k = Ok (0, k1) /\ pushed (k_log k1) = [p]
    /\ strela_run_job p k1 = Ok (f, k2) /\ strela_sim_work delay k2 = Ok (tt, k3)
    /\ signals f (k_log k2) = 0 /\ signals f (k_log k3) = 1 /\ sd_active (k_dev k3) = 0
    /\ forall s', shared s' k3 o -> strela_dev_ok (ls_dev s') = true ->
         d_tensors_bo_map (ls_dev s') = d_tensors_bo_map (ls_dev s) -> regions (ls_mem s') = regions (ls_mem s) ->
         (forall c j, c ∈ cs -> 0 <= j < bc_count c ->
            exists w, client_word s (bc_in c) (bc_in_off c + j * bc_stride c) w /\ client_word s' (bc_out c) (bc_out_off c + j) w)
         /\ (forall i buf d j, ss_bufs ss !! i = Some (buf, d) -> 0 <= j < b_size_words buf ->
              (forall c, c ∈ cs -> bc_o c = i -> ~ bc_out_off c <= j < bc_out_off c + bc_count c) ->
              exists w, client_word s buf j w /\ client_word s' buf j w).
Proof.
  intros Hl Hi Hm Hok Hb Hk Hsh H0 Hcfg Hv.
  destruct (job_config_full_wp l0 Hl s kernel conf Hi) as (job' & s1' & He' & [Hi1 Hf1] & Hd).
  rewrite Hcfg in He'. injection He' as <- <-. destruct (Hd Hv) as (Hkb & Hok1 & x & h & Hx & Hph & Hsub).
  destruct (job_submit_sends l0 s1 job x Hl Hi1 Hok1 Hv Hx Hph) as (b & s2 & es & r & Hsend & Hlog).
  rewrite (jf_fd _ _ Hf1) in Hlog.
  destruct (bypass_runs s ss conf cs k o ko Hm Hb Hk delay (sl_submit x))
    as (k1 & p & f & k2 & k3 & R1 & R2 & R3 & R4 & R5 & R6 & R7 & Hc & Hrest); [by exists kernel, h|].
  exists x, b, s2, es, r, k1, p, f, k2, k3. do 10 (split; [done|]).
  intros s' Hsh' Hok' Hmap Hreg. rewrite Forall_forall in Hc. split.
  - intros c j Hin Hj. eapply (copied_word s ss conf cs k o); try done. by apply Hc, list_elem_of_fmap_2.
  - intros i buf d j Hbuf Hj Hno. by eapply (other_word s ss conf cs k o).
Qed.
End Chain.

(** ** Witness: the job of test_lib_bypass, ten words in columns of two, two, two
    and four *)
#[local] Existing Instance ARMv7.
#[local] Existing Instance demo_os.

(** Deciding that a state of the library and one of the driver share the memory:
    only finitely many words are not 0 on both sides. *)
Definition shared_b (s : lst) (k : kst) (o : gem_obj) : bool :=
  let base := d_tensors_bo_map (ls_dev s) in
  forallb (fun x => (0 <=? x.2) && (x.2 <? 256)) (map_to_list (bytes (ls_mem s)))
  && forallb (fun i => word k o i =? le_value (read_bytes (ls_mem s) (base + i * sizeof_word) 4))
       (((fun x => (x.1 - base) / 4) <$> map_to_list (bytes (ls_mem s)))
        ++ ((fun x => (x.1 - o_vaddr o) / 4) <$> map_to_list (k_ram k))).

Lemma shared_b_ok s k o : shared_b s k o = true -> shared s k o.
Proof.
  unfold shared_b. set (base := d_tensors_bo_map (ls_dev s)). rewrite andb_true_iff, !forallb_forall. intros [Hb Hw].
  split; fold base.
  - intros x _. unfold byte, byte_at. destruct (bytes (ls_mem s) !! x) as [v|] eqn:Ev; cbn; [|lia].
    apply elem_of_map_to_list, list_elem_of_In in Ev. specialize (Hb _ Ev). cbn in Hb. lia.
  - intros i Hi _. destruct (decide (i ∈ ((fun x : Z * Z => (x.1 - base) / 4) <$> map_to_list (bytes (ls_mem s)))
        ++ ((fun x => (x.1 - o_vaddr o) / 4) <$> map_to_list (k_ram k)))) as [Hin|Hin].
    { apply Z.eqb_eq, Hw. by apply list_elem_of_In. }
    apply not_elem_of_app in Hin as [H1 H2]. unfold word, STRELA_WORD_SIZE.
    assert (Hram : k_ram k !! (o_vaddr o + i * 4) = None).
    { destruct (k_ram k !! _) as [v|] eqn:Ev; [|done]. destruct H2. apply list_elem_of_fmap.
      eexists. split; [|by apply elem_of_map_to_list]. cbn. rewrite Z.add_simpl_l. by rewrite Z.div_mul. }
    assert (Hby : forall x, base + i * sizeof_word <= x < base + i * sizeof_word + 4 -> byte_at (ls_mem s) x = 0).
    { intros x Hx. unfold byte_at, sizeof_word in *. destruct (bytes (ls_mem s) !! x) as [v|] eqn:Ev; [|done].
      destruct H1. apply list_elem_of_fmap. eexists. split; [|by apply elem_of_map_to_list]. cbn.
      apply Z.div_unique with (r := x - base - i * 4); lia. }
    rewrite Hram. cbn [default read_bytes le_value]. by rewrite !Hby by lia.
Qed.

Definition bypass_data : list Z := (fun i => Z.of_nat i * 3 mod 256) <$> seq 0 64.

(** Two buffers of one cache line, the newer first: the output and the input. *)
Definition bypass_ops : list api_op :=
  [O_kernel_alloc; O_buffer_alloc 16; O_buffer_alloc 16; O_buffer_set 1 bypass_data].

Definition bypass_input : strela_buffer := mkBuffer true 16 16.
Definition bypass_output : strela_buffer := mkBuffer true 48 16.

Definition bypass_cs : list bcol :=
  (fun '(off, n) => mkBcol 1 bypass_input off 1 0 bypass_output off n) <$> [(0, 2); (2, 2); (4, 2); (6, 4)].

Definition bypass_conf : strela_conf := mkConf 16 2 1 18 2 1 20 2 1 22 4 1 48 2 50 2 52 2 54 4.

Definition kernels_obj : gem_obj := mkObj 8 STRELA_KERNEL_MEMORY_SIZE 0x8000000 0x80000000 false.

(** The kernel that knows the objects by the handles the library got. *)
Definition env_bypass : Env := {|
  env_readl := fun _ _ => 0;
  env_kzalloc := fun _ a => match a with A_job => 100 | _ => 200 end;
  env_gem_lookup := fun _ h => if h =? 9 then Some tensors_obj else if h =? 7 then Some kernels_obj else None;
  env_dma_alloc := fun _ _ => (0, 0);
  env_icall := fun _ c => match c with sim_wait _ => - ETIME | drm_syncobj_find _ => 300 | _ => 0 end
|}.

(** The words the library's bytes make. *)
Definition ram_of (s : lst) (o : gem_obj) : gmap Z Z :=
  let base := d_tensors_bo_map (ls_dev s) in
  list_to_map ((fun x => let i := (x.1 - base) / 4 in
    (o_vaddr o + i * STRELA_WORD_SIZE, le_value (read_bytes (ls_mem s) (base + i * sizeof_word) 4)))
    <$> map_to_list (bytes (ls_mem s))).

Definition bypass_k : kst := mkK [] (mkDev true 0 false 0 1 0) ∅ (ram_of (after bypass_ops) tensors_obj).

(** The client writes the ten words to the output itself. *)
Definition bypass_after : lst :=
  after (bypass_ops ++ [O_buffer_set 0 (list.take 40 bypass_data ++ replicate 24 0)]).

Definition bypass_configured : LibData.strela_job * lst :=
  match strela_job_config (mkKernel true 0) bypass_conf (after bypass_ops) with
  | Ok (job, s) => (job, s)
  | Trap _ => (jobh0, demo_start)
  end.

Definition bypass_args : drm_strela_submit :=
  default submit0 (sl_submit <$> d_jobs (ls_dev bypass_configured.2) !! 0%nat).

(** The driver's state after the job. *)
Definition bypass_k1 : kst := state_after (strela_submit_ioctl (E := env_bypass) bypass_args) bypass_k.
Definition bypass_k2 : kst := state_after (strela_run_job 100) bypass_k1.
Definition bypass_k3 : kst := state_after (strela_sim_work (E := env_bypass) 4) bypass_k2.

Lemma bypass_conf_ok : bypass_ok (sess_after bypass_ops) bypass_conf bypass_cs.
Proof.
  split; [vm_compute; reflexivity|vm_compute; reflexivity| | |].
  - repeat apply List.Forall_cons; [..|constructor];
      (split; [eexists; vm_compute; reflexivity|eexists; vm_compute; reflexivity|..]; vm_compute; intuition discriminate).
  - intros i i' c c' Hne Hc Hc' _. unfold bypass_cs in *.
    destruct i as [|[|[|[|i]]]]; cbn in Hc; simplify_eq; destruct i' as [|[|[|[|i']]]]; cbn in Hc'; simplify_eq; cbn; lia.
  - intros c c' Hc Hc'. unfold bypass_cs in *. apply list_elem_of_fmap in Hc as ([] & -> & _), Hc' as ([] & -> & _). done.
Qed.

Lemma bypass_last : mkBcol 1 bypass_input 6 1 0 bypass_output 6 4 ∈ bypass_cs.
Proof. by apply (list_elem_of_lookup_2 _ 3). Qed.

Lemma bypass_kernel : sim_kernel (E := env_bypass) (ls_dev (after bypass_ops)) bypass_k tensors_obj kernels_obj.
Proof.
  assert (Ht : d_tensors_bo_handle (ls_dev (after bypass_ops)) = 9) by (vm_compute; reflexivity).
  assert (Hk : d_kernels_bo_handle (ls_dev (after bypass_ops)) = 7) by (vm_compute; reflexivity).
  assert (Hd : obj_dma32 tensors_obj).
  { unfold obj_dma32, tensors_obj. cbn. unfold STRELA_TENSOR_MEMORY_SIZE. lia. }
  split; cbn [k_dev bypass_k sd_is_sim sd_active k_jobs]; rewrite ?Ht, ?Hk; try reflexivity; [|exact Hd|discriminate].
  split; (reflexivity || discriminate).
Qed.

Lemma bypass_end_to_end_witness :
  exists b s2, strela_job_submit bypass_configured.1 bypass_configured.2 = Ok (b, s2)
    /\ signals 200 (k_log bypass_k3) = 1
    /\ forall j, 0 <= j < 4 -> exists w, client_word (after bypass_ops) bypass_input (6 + j * 1) w
                                      /\ client_word bypass_after bypass_output (6 + j) w.
Proof.
  assert (Hops : Forall api_op_ok bypass_ops) by (repeat constructor; vm_compute; intuition discriminate).
  destruct (demo_inv bypass_ops Hops ltac:(vm_compute; reflexivity)) as [Hm Hi].
  destruct (bypass_end_to_end (E := env_bypass) demo_exports 4 [] (after bypass_ops) (sess_after bypass_ops) bypass_conf
    bypass_cs (mkKernel true 0) bypass_configured.1 bypass_configured.2 bypass_k tensors_obj kernels_obj)
    as (x & b & s2 & es & r & k1 & p & f & k2 & k3 & Hx & Hsub & _ & R1 & Rp & R2 & R3 & _ & Rs & _ & Rd).
  1: apply demo_start_ok.
  1: exact Hi.
  1: exact Hm.
  1: vm_compute; reflexivity.
  1: exact bypass_conf_ok.
  1: exact bypass_kernel.
  1: apply shared_b_ok; vm_compute; reflexivity.
  1: cbn; lia.
  1: vm_compute; reflexivity.
  1: vm_compute; reflexivity.
  assert (Hargs : sl_submit x = bypass_args).
  { unfold bypass_args. change 0%nat with (Z.to_nat (jh_handle bypass_configured.1)) at 1.
    rewrite Hx. reflexivity. }
  rewrite Hargs in R1. assert (H1 : k1 = bypass_k1) by (unfold bypass_k1, state_after; rewrite R1; reflexivity).
  assert (Hp : pushed (k_log bypass_k1) = [100]) by (vm_compute; reflexivity).
  rewrite H1, Hp in Rp. injection Rp as <-. rewrite H1 in R2.
  assert (H2 : k2 = bypass_k2) by (unfold bypass_k2, state_after; rewrite R2; reflexivity).
  rewrite H2 in R3. assert (H3 : k3 = bypass_k3) by (unfold bypass_k3, state_after; rewrite R3; reflexivity).
  rewrite H3 in Rs, Rd. exists b, s2. split; [exact Hsub|]. split; [vm_compute; reflexivity|].
  intros j Hj. destruct (Rd bypass_after) as [Rc _]; [apply shared_b_ok; vm_compute; reflexivity|vm_compute; reflexivity..|].
  exact (Rc _ j bypass_last Hj).
Defined.
