(* ===== verification/DrvMod.v ===== *)
(** * The module (driver/strela_drv.c)

    Opening and closing a file, probing and removing a device, and loading and
    unloading the module with its simulated devices. *)
From S2P Require Export DrvIrq.

Definition STRELA_MAX_SIM_DEVS : nat := 4.

Section Mod.
Context {A : abi} {E : Env}.

(** The driver_priv of the file: NULL is 0. *)
Definition strela_open_file : M kst (Z * Z) :=
  let! priv := kzalloc_ A_file_priv in
  if priv =? 0 then mret_ (- ENOMEM, 0) else
  let! ret := icall_ (drm_sched_entity_init priv) in
  if negb (ret =? 0) then
    do! vcall_ (kfree priv) in mret_ (ret, 0)
  else mret_ (0, priv).

Definition strela_postclose (priv : Z) : M kst Z :=
  do! vcall_ (drm_sched_entity_destroy priv) in
  do! vcall_ (kfree priv) in
  mret_ 0.

(** A new device; [of_node] says whether it comes from the device tree. *)
Definition strela_probe (of_node : bool) : M kst Z :=
  let! sdev := icall_ devm_drm_dev_alloc in
  if IS_ERR sdev then mret_ sdev else
  let! context := icall_ dma_fence_context_alloc in
  do! update_dev (fun _ => mkDev (negb of_node) 0 false 0 context 0) in
  let! ret := icall_ (dma_set_mask_and_coherent (2 ^ 32 - 1)) in
  if negb (ret =? 0) then mret_ ret else
  let! ret := strela_hw_setup in
  if negb (ret =? 0) then mret_ ret else
  let! ret := strela_job_init in
  if negb (ret =? 0) then mret_ ret else
  let! ret := icall_ drm_dev_register in
  if negb (ret =? 0) then
    do! strela_job_fini [] in mret_ ret
  else mret_ 0.

Definition strela_remove (pending : list Z) : M kst unit :=
  do! vcall_ drm_dev_unregister in
  strela_job_fini pending.

(** strela_sim_pdevs: an array of device pointers. *)
Definition pdevs0 : list Z := replicate STRELA_MAX_SIM_DEVS 0.

Fixpoint sim_dev_unregister (pdevs : list Z) : M kst (list Z) :=
  match pdevs with
  | [] => mret_ []
  | p :: pdevs =>
      do! vcall_ (platform_device_unregister p) in
      let! pdevs := sim_dev_unregister pdevs in
      mret_ (0 :: pdevs)
  end.

Definition strela_sim_dev_unregister (pdevs : list Z) : M kst (list Z) := sim_dev_unregister pdevs.

(** The loop from [i] on; [n] is what is left of STRELA_MAX_SIM_DEVS. *)
Fixpoint sim_dev_register (sim_dev_count : Z) (pdevs : list Z) (i n : nat) : M kst (Z * list Z) :=
  match n with
  | O => mret_ (0, pdevs)
  | S n =>
      if negb (Z.of_nat i <? sim_dev_count) then mret_ (0, pdevs) else
      let! r := icall_ (platform_device_register_simple (Z.of_nat i)) in
      if IS_ERR r then
        let! pdevs := strela_sim_dev_unregister (<[i := 0]> pdevs) in
        mret_ (r, pdevs)
      else sim_dev_register sim_dev_count (<[i := r]> pdevs) (S i) n
  end.

Definition strela_sim_dev_register (sim_dev_count : Z) (pdevs : list Z) : M kst (Z * list Z) :=
  sim_dev_register sim_dev_count pdevs 0 STRELA_MAX_SIM_DEVS.

Definition strela_init (sim_dev_count : Z) (pdevs : list Z) : M kst (Z * list Z) :=
  let! ret := icall_ platform_driver_register in
  if negb (ret =? 0) then mret_ (ret, pdevs) else
  let! '(ret, pdevs) := strela_sim_dev_register sim_dev_count pdevs in
  if negb (ret =? 0) then
    do! vcall_ platform_driver_unregister in mret_ (ret, pdevs)
  else mret_ (0, pdevs).

Definition strela_exit (pdevs : list Z) : M kst (list Z) :=
  let! pdevs := strela_sim_dev_unregister pdevs in
  do! vcall_ platform_driver_unregister in
  mret_ pdevs.
End Mod.

(** ** What stays registered *)
Variant mod_resource :=
| MDev (p : Z)     (* a simulated platform device *)
| MDriver          (* the platform driver *)
| MSched           (* a device's scheduler *)
| MDrm.            (* a registered DRM device *)

Definition mod_delta (r : mod_resource) (e : event) : Z :=
  match r, e with
  | MDev p, ICall (platform_device_register_simple _) p' => one ((p' =? p) && negb (IS_ERR p') && negb (p' =? 0))
  | MDev p, VCall (platform_device_unregister p') => - one ((p' =? p) && negb (p' =? 0))
  | MDriver, ICall platform_driver_register ret => one (ret =? 0)
  | MDriver, VCall platform_driver_unregister => - 1
  | MSched, ICall drm_sched_init ret => one (ret =? 0)
  | MSched, VCall drm_sched_fini => - 1
  | MDrm, ICall drm_dev_register ret => one (ret =? 0)
  | MDrm, VCall drm_dev_unregister => - 1
  | _, _ => 0
  end.

Fixpoint mod_held (r : mod_resource) (l : list event) : Z :=
  match l with
  | [] => 0
  | e :: l => mod_delta r e + mod_held r l
  end.

(** The devices in the array. *)
Fixpoint pdevs_hold (r : mod_resource) (pdevs : list Z) : Z :=
  match pdevs with
  | [] => 0
  | p :: pdevs => match r with MDev q => one ((p =? q) && negb (p =? 0)) | _ => 0 end
                  + pdevs_hold r pdevs
  end.

Lemma pdevs_hold_insert r pdevs i p :
  pdevs !! i = Some 0 ->
  pdevs_hold r (<[i := p]> pdevs)
  = pdevs_hold r pdevs + match r with MDev q => one ((p =? q) && negb (p =? 0)) | _ => 0 end.
Proof.
  revert i. induction pdevs as [|x pdevs IH]; intros [|i] H; cbn in *; simplify_eq.
  - destruct r as [q| | |]; try lia. rewrite andb_false_r. cbn. lia.
  - rewrite IH by done. lia.
Qed.

Section Proofs.
Context {A : abi} {E : Env}.

Lemma sim_unregister_ok pdevs s :
  exists l, sim_dev_unregister pdevs s = Ok (replicate (length pdevs) 0, set_log s l)
    /\ forall r, mod_held r l = mod_held r (k_log s) - pdevs_hold r pdevs.
Proof.
  revert s. induction pdevs as [|p pdevs IH]; intros s; cbn [sim_dev_unregister].
  { exists (k_log s). split; [by destruct s|]. intros r. cbn. lia. }
  rewrite (mbind_Ok (vcall_ _) _ _ tt _ eq_refl). set (s1 := set_log s _).
  destruct (IH s1) as (l & He & Hh). rewrite (mbind_Ok _ _ _ _ _ He). exists l. split; [done|].
  intros r. rewrite Hh. unfold s1. destruct r; cbn; lia.
Qed.

Lemma sim_register_ok count pdevs i n s :
  (i + n = length pdevs)%nat -> (forall k, (i <= k < length pdevs)%nat -> pdevs !! k = Some 0) ->
  exists ret pdevs' l, sim_dev_register count pdevs i n s = Ok ((ret, pdevs'), set_log s l)
    /\ length pdevs' = length pdevs
    /\ (forall r, mod_held r l - mod_held r (k_log s) = pdevs_hold r pdevs' - pdevs_hold r pdevs)
    /\ (ret <> 0 -> pdevs' = replicate (length pdevs) 0).
Proof.
  revert pdevs i s. induction n as [|n IH]; intros pdevs i s Hin Hz; cbn [sim_dev_register].
  { exists 0, pdevs, (k_log s). split; [by destruct s|]. split_and!; try done. intros r. lia. }
  break_if.
  { exists 0, pdevs, (k_log s). split; [by destruct s|]. split_and!; try done. intros r. lia. }
  rewrite (mbind_Ok _ _ _ _ _ (icall_Ok _ _)). set (p := env_icall _ _). clearbody p.
  pose proof (Hz i ltac:(lia)) as Hi. destruct (IS_ERR p) eqn:Ep.
  - set (s1 := set_log s _). destruct (sim_unregister_ok (<[i := 0]> pdevs) s1) as (l & He & Hh).
    unfold strela_sim_dev_unregister. rewrite (mbind_Ok _ _ _ _ _ He).
    do 3 eexists. split; [done|]. rewrite length_replicate, length_insert. split_and!; try done.
    intros r. rewrite Hh, (list_insert_id _ _ _ Hi). unfold s1. cbn.
    assert (Hrep : forall m, pdevs_hold r (replicate m 0) = 0).
    { intros m. induction m as [|m IHm]; cbn; [done|]. rewrite IHm. destruct r as [q| | |]; try lia.
      rewrite andb_false_r. done. }
    rewrite Hrep. destruct r; cbn; rewrite ?Ep; cbn; rewrite ?andb_false_r; cbn; lia.
  - match goal with |- context [sim_dev_register _ _ _ _ ?st] => set (s1 := st) end.
    destruct (IH (<[i := p]> pdevs) (S i) s1) as (ret & pdevs' & l & He & Hlen & Hh & Hbad).
    + rewrite length_insert. lia.
    + intros k Hk. rewrite length_insert in Hk. rewrite list_lookup_insert_ne by lia. apply Hz. lia.
    + exists ret, pdevs', l. rewrite length_insert in *. split_and!; try done. intros r.
      specialize (Hh r). rewrite (pdevs_hold_insert r _ _ _ Hi) in Hh. unfold s1 in Hh. cbn in Hh.
      destruct r; cbn in *; rewrite ?Ep in Hh; cbn in *; rewrite ?andb_true_r in Hh; lia.
Qed.

(** Loading the module is all or nothing: whatever the kernel answers,
    [strela_init] returns; on an error nothing stays registered, neither the
    platform driver nor any simulated device; on success the driver is
    registered and the array holds exactly the registered simulated devices,
    so that [strela_exit] unregisters everything and leaves the array empty. *)
Theorem module_init_balanced count s :
  exists ret pdevs s1, strela_init count pdevs0 s = Ok ((ret, pdevs), s1)
    /\ (ret <> 0 -> forall r, mod_held r (k_log s1) = mod_held r (k_log s))
    /\ (ret = 0 -> mod_held MDriver (k_log s1) = mod_held MDriver (k_log s) + 1
        /\ forall s2, exists s3, strela_exit pdevs s2 = Ok (pdevs0, s3)
             /\ forall r, mod_held r (k_log s3) - mod_held r (k_log s2)
                          = mod_held r (k_log s) - mod_held r (k_log s1)).
Proof.
  unfold strela_init. rewrite (mbind_Ok _ _ _ _ _ (icall_Ok _ _)). set (ret := env_icall _ _). clearbody ret.
  destruct (Z.eqb_spec ret 0) as [->|Hne]; cbn [negb].
  2:{ exists ret, pdevs0. eexists. split; [done|]. split; [|done]. intros _ r. destruct r; cbn; try lia.
      by rewrite (proj2 (Z.eqb_neq _ _) Hne). }
  set (s1 := set_log s _).
  destruct (sim_register_ok count pdevs0 0 STRELA_MAX_SIM_DEVS s1 eq_refl) as (ret & pdevs & l & He & Hlen & Hh & Hbad).
  { intros k Hk. unfold pdevs0 in *. rewrite length_replicate in Hk. apply lookup_replicate_2. lia. }
  unfold strela_sim_dev_register. rewrite (mbind_Ok _ _ _ _ _ He). cbv beta iota.
  assert (H0 : forall r, pdevs_hold r pdevs0 = 0).
  { intros r. destruct r; cbn; rewrite ?andb_false_r; done. }
  destruct (Z.eqb_spec ret 0) as [->|Hne]; cbn [negb].
  - exists 0, pdevs. eexists. split; [done|]. split; [done|]. intros _. cbn [k_log set_log].
    assert (Hd : forall r, mod_held r l = mod_held r (k_log s1) + pdevs_hold r pdevs).
    { intros r. specialize (Hh r). rewrite H0 in Hh. lia. }
    assert (Hnd : pdevs_hold MDriver pdevs = 0) by (clear; induction pdevs as [|p ps IH]; cbn; lia).
    split; [rewrite Hd, Hnd; cbn; lia|]. intros s2. unfold strela_exit, strela_sim_dev_unregister.
    destruct (sim_unregister_ok pdevs s2) as (l2 & He2 & Hh2). rewrite (mbind_Ok _ _ _ _ _ He2).
    rewrite (mbind_Ok (vcall_ _) _ _ tt _ eq_refl). eexists. rewrite Hlen. split; [reflexivity|].
    intros r. cbn [k_log set_log mod_held]. rewrite Hh2, Hd. destruct r; cbn; lia.
  - rewrite (mbind_Ok (vcall_ _) _ _ tt _ eq_refl). exists ret, pdevs. eexists. split; [reflexivity|].
    split; [|done]. intros _ r. specialize (Hh r). rewrite (Hbad Hne) in Hh.
    change (replicate (length pdevs0) 0) with pdevs0 in Hh. rewrite H0 in Hh.
    destruct r; cbn in *; lia.
Qed.

(** The adder challenge of a log: two numbers were written and their sum was
    read back. *)
Definition challenged (l : list event) : Prop :=
  exists a b l0 l1, l = l1 ++ Readl STRELA_REG_OPR (u32 (a + b))
                         :: Writel (u32 b) STRELA_REG_OPB :: Writel (u32 a) STRELA_REG_OPA :: l0.

Lemma hw_setup_ok s :
  exists ret l, strela_hw_setup s = Ok (ret, set_log s l)
    /\ (forall r, mod_held r l = mod_held r (k_log s))
    /\ (exists es, l = es ++ k_log s)
    /\ (ret = 0 -> sd_is_sim (k_dev s) = false -> exists es, l = es ++ k_log s /\ challenged es).
Proof.
  unfold strela_hw_setup. rewrite (mbind_Ok get_dev _ _ (k_dev s) s eq_refl).
  destruct (sd_is_sim (k_dev s)); [exists 0, (k_log s); split; [by destruct s|]; split_and!; [done|by exists []|done]|].
  rewrite (mbind_Ok _ _ _ _ _ (icall_Ok _ _)). set (base := env_icall _ _).
  destruct (IS_ERR base) eqn:Eb.
  { exists base. eexists. split; [done|]. split; [intros r; by destruct r|]. split; [by eexists [_]|].
    intros E0 _. exfalso. rewrite E0 in Eb. done. }
  rewrite (mbind_Ok _ _ _ _ _ (icall_Ok _ _)). set (a := env_icall _ _).
  rewrite (mbind_Ok _ _ _ _ _ (icall_Ok _ _)). set (b := env_icall _ _).
  rewrite (mbind_Ok (writel _ _) _ _ tt _ eq_refl), (mbind_Ok (writel _ _) _ _ tt _ eq_refl).
  rewrite (mbind_Ok (readl _) _ _ _ _ eq_refl). set (v := u32 (env_readl _ _)).
  destruct (Z.eqb_spec v (u32 (a + b))) as [Hv|Hv]; cbn [negb].
  2:{ exists (- EIO). eexists. split; [done|]. split; [intros r; by destruct r|]. split; [by eexists [_; _; _; _; _; _]|done]. }
  rewrite (mbind_Ok _ _ _ _ _ (icall_Ok _ _)). set (irq := env_icall _ _).
  destruct (irq <? 0) eqn:Ei.
  { exists irq. eexists. split; [done|]. split; [intros r; by destruct r|]. split; [by eexists [_; _; _; _; _; _; _]|lia]. }
  rewrite (mbind_Ok _ _ _ _ _ (icall_Ok _ _)). set (ret := env_icall _ _).
  destruct (Z.eqb_spec ret 0) as [Hr|Hr]; cbn [negb]; do 2 eexists; (split; [done|]);
    (split; [intros r; by destruct r|]); (split; [by eexists [_; _; _; _; _; _; _; _]|]); [|done].
  intros _ _. rewrite Hv.
  eexists [_; _; _; _; _; _; _; _]. split; [reflexivity|]. by eexists a, b, _, [_; _].
Qed.

Lemma job_fini_idle s :
  exists s', strela_job_fini [] s = Ok (tt, s')
    /\ forall r, mod_held r (k_log s') = mod_held r (k_log s) - match r with MSched => 1 | _ => 0 end.
Proof.
  unfold strela_job_fini, strela_job_abort, strela_hw_stop, mbind_, vcall_, emit, modify_,
    update_dev, get_dev, warn_on, mbind_, get_, modify_, mret_. cbn.
  destruct (sd_is_sim (k_dev s)); eexists; (split; [reflexivity|]); intros r; destruct r; cbn; lia.
Qed.

(** C37: Probing is all or nothing: whatever the kernel and the hardware answer,
    [strela_probe] returns; on an error neither a scheduler nor a DRM device is
    left behind, and on success both are there. Registering the device is the
    last thing a successful probe does, and before it a device from the device
    tree has passed the adder challenge in this same probe: the register file at
    the mapped address returned the sum of the two numbers just written to it. *)
Theorem probe_all_or_nothing of_node s :
  exists ret s', strela_probe of_node s = Ok (ret, s')
    /\ (ret <> 0 -> forall r, mod_held r (k_log s') = mod_held r (k_log s))
    /\ (ret = 0 -> (forall r, mod_held r (k_log s') = mod_held r (k_log s)
                              + match r with MSched | MDrm => 1 | _ => 0 end)
        /\ exists es, k_log s' = ICall drm_dev_register 0 :: es ++ k_log s
             /\ (of_node = true -> challenged es)).
Proof.
  unfold strela_probe. rewrite (mbind_Ok _ _ _ _ _ (icall_Ok _ _)). set (p := env_icall _ _).
  destruct (IS_ERR p) eqn:Ep.
  { exists p. eexists. split; [done|]. split; [intros _ r; by destruct r|].
    intros E0. rewrite E0 in Ep. done. }
  rewrite (mbind_Ok _ _ _ _ _ (icall_Ok _ _)). set (ctx := env_icall _ _).
  rewrite (mbind_Ok (update_dev _) _ _ tt _ eq_refl).
  rewrite (mbind_Ok _ _ _ _ _ (icall_Ok _ _)). set (r1 := env_icall _ _).
  destruct (Z.eqb_spec r1 0) as [H1|H1]; cbn [negb].
  2:{ exists r1. eexists. split; [done|]. split; [intros _ r; by destruct r|done]. }
  match goal with |- context [mbind_ strela_hw_setup _ ?st] =>
    destruct (hw_setup_ok st) as (r2 & l & He & Hh & [es0 Hes0] & Hc) end.
  rewrite (mbind_Ok _ _ _ _ _ He). cbn [k_log set_log set_dev k_dev sd_is_sim] in Hh, Hc.
  assert (Hm : forall r, mod_held r l = mod_held r (k_log s)) by (intros r; rewrite Hh; by destruct r).
  destruct (Z.eqb_spec r2 0) as [H2|H2]; cbn [negb].
  2:{ exists r2. eexists. split; [done|]. split; [done|done]. }
  unfold strela_job_init. rewrite (mbind_Ok _ _ _ _ _ (icall_Ok _ _)). set (r3 := env_icall _ _).
  destruct (Z.eqb_spec r3 0) as [H3|H3]; cbn [negb].
  2:{ exists r3. eexists. split; [done|]. split; [|done]. intros _ r. cbn. rewrite Hm.
      destruct r; cbn; try lia. by rewrite (proj2 (Z.eqb_neq _ _) H3). }
  rewrite (mbind_Ok _ _ _ _ _ (icall_Ok _ _)). set (r4 := env_icall _ _).
  destruct (Z.eqb_spec r4 0) as [H4|H4]; cbn [negb].
  2:{ match goal with |- context [mbind_ (strela_job_fini []) _ ?st] =>
        destruct (job_fini_idle st) as (s' & Hf & Hfh) end.
      rewrite (mbind_Ok _ _ _ _ _ Hf). exists r4, s'. split; [done|]. split; [|done]. intros _ r.
      rewrite Hfh. cbn. rewrite Hm. rewrite H3. destruct r; cbn; try lia.
      rewrite (proj2 (Z.eqb_neq _ _) H4). cbn. lia. }
  do 2 eexists. split; [done|]. split; [done|]. intros _. cbn [k_log set_log]. split.
  - intros r. cbn. rewrite Hm, H3, H4. destruct r; cbn; lia.
  - exists (ICall drm_sched_init r3 :: es0 ++ [ICall (dma_set_mask_and_coherent (2 ^ 32 - 1)) r1;
              ICall dma_fence_context_alloc ctx; ICall devm_drm_dev_alloc p]).
    split; [rewrite H4, Hes0; cbn; by rewrite <- app_assoc|]. intros ->.
    destruct (Hc H2 eq_refl) as (es & Hes & a & b & l0 & l1 & ->). rewrite Hes0 in Hes.
    apply app_inv_tail in Hes as ->. eexists a, b, (l0 ++ _), (_ :: l1). cbn. rewrite <- app_assoc. reflexivity.
Qed.
End Proofs.
