(* ===== verification/CharDriver.v ===== *)
(** * The character-device driver (driver/strela_driver.c)

    The older driver: one 4 MiB DMA region per device, mapped into the client,
    and three blocking ioctls. *)
From S2P Require Export DrvIrq.

(** include/uapi/strela_ioctl.h *)
Definition STRELA_DATA_REGION_SIZE : Z := 0x100000 * 4.
Definition STRELA_MAX_NUM : Z := 4.

Record strela_ctrl := mkCtrl {
  conf_offset : Z; conf_count : Z;
  inp0_offset : Z; inp0_count : Z; inp0_stride : Z;
  inp1_offset : Z; inp1_count : Z; inp1_stride : Z;
  inp2_offset : Z; inp2_count : Z; inp2_stride : Z;
  inp3_offset : Z; inp3_count : Z; inp3_stride : Z;
  out0_offset : Z; out0_count : Z;
  out1_offset : Z; out1_count : Z;
  out2_offset : Z; out2_count : Z;
  out3_offset : Z; out3_count : Z
}.

Variant ioctl_num := IOCTL_STRELA_CONTROL | IOCTL_STRELA_CONFIG | IOCTL_STRELA_EXEC | IOCTL_other.

(** struct strela_data, as far as the code computes with it. *)
Record strela_data := mkData {
  d_dma_addr : Z;
  d_dma_page : Z;
  d_dev_num : Z;
  d_irq_status : Z
}.

Definition set_irq (d : strela_data) (x : Z) : strela_data :=
  mkData (d_dma_addr d) (d_dma_page d) (d_dev_num d) x.

(** check_mul_overflow and check_add_overflow on u32: whether the result is
    cut off, and the cut-off result. *)
Definition check_mul_overflow (a b : Z) : bool * Z := (2 ^ 32 <=? a * b, u32 (a * b)).
Definition check_add_overflow (a b : Z) : bool * Z := (2 ^ 32 <=? a + b, u32 (a + b)).

(** True means out of bounds. *)
Definition strela_check_bounds (offset_words count_words stride : Z) : bool :=
  let '(o, offset_bytes) := check_mul_overflow offset_words STRELA_WORD_SIZE in
  if o then true else
  let '(o, count_bytes) := check_mul_overflow count_words stride in
  if o then true else
  let '(o, count_bytes) := check_mul_overflow count_bytes STRELA_WORD_SIZE in
  if o then true else
  let '(o, end_bytes) := check_add_overflow offset_bytes count_bytes in
  if o then true else
  if STRELA_DATA_REGION_SIZE <? end_bytes then true else false.

(** STRELA_MKINPSIZE on u32. *)
Definition STRELA_MKINPSIZE (stride count : Z) : Z :=
  Z.lor (u32 (Z.shiftl stride 16)) (u32 (stride * count)).

Section Char.
Context {A : abi} {E : Env}.

Definition strela_open : M kst Z :=
  let! busy := icall_ test_and_set_in_use in
  mret_ (if negb (busy =? 0) then - EBUSY else 0).

Definition strela_release : M kst Z := do! vcall_ clear_in_use in mret_ 0.

Definition ctrl_out_of_bounds (ctrl : strela_ctrl) : bool :=
  strela_check_bounds (conf_offset ctrl) (conf_count ctrl) 1
  || strela_check_bounds (inp0_offset ctrl) (inp0_count ctrl) (inp0_stride ctrl)
  || strela_check_bounds (inp1_offset ctrl) (inp1_count ctrl) (inp1_stride ctrl)
  || strela_check_bounds (inp2_offset ctrl) (inp2_count ctrl) (inp2_stride ctrl)
  || strela_check_bounds (inp3_offset ctrl) (inp3_count ctrl) (inp3_stride ctrl)
  || strela_check_bounds (out0_offset ctrl) (out0_count ctrl) 1
  || strela_check_bounds (out1_offset ctrl) (out1_count ctrl) 1
  || strela_check_bounds (out2_offset ctrl) (out2_count ctrl) 1
  || strela_check_bounds (out3_offset ctrl) (out3_count ctrl) 1.

(** dma_addr + offset*STRELA_WORD_SIZE, as it reaches the register. *)
Definition ctrl_addr (dma_addr offset : Z) : Z := wptr (dma_addr + u32 (offset * STRELA_WORD_SIZE)).

Definition ctrl_size (count : Z) : Z := u32 (count * STRELA_WORD_SIZE).

Definition ctrl_inp_size (stride count : Z) : Z :=
  STRELA_MKINPSIZE (u32 (stride * STRELA_WORD_SIZE)) count.

Definition ioctl_control (dma_addr : Z) (ctrl : strela_ctrl) : M kst Z :=
  let! fault := icall_ copy_from_user in
  if negb (fault =? 0) then mret_ (- EFAULT) else
  if ctrl_out_of_bounds ctrl then mret_ (- EINVAL) else
  do! writel (ctrl_addr dma_addr (conf_offset ctrl)) STRELA_REG_CONF_ADDR in
  do! writel (ctrl_size (conf_count ctrl)) STRELA_REG_CONF_SIZE in
  do! writel (ctrl_addr dma_addr (inp0_offset ctrl)) (STRELA_REG_INP_ADDR 0) in
  do! writel (ctrl_inp_size (inp0_stride ctrl) (inp0_count ctrl)) (STRELA_REG_INP_SIZE 0) in
  do! writel (ctrl_addr dma_addr (inp1_offset ctrl)) (STRELA_REG_INP_ADDR 1) in
  do! writel (ctrl_inp_size (inp1_stride ctrl) (inp1_count ctrl)) (STRELA_REG_INP_SIZE 1) in
  do! writel (ctrl_addr dma_addr (inp2_offset ctrl)) (STRELA_REG_INP_ADDR 2) in
  do! writel (ctrl_inp_size (inp2_stride ctrl) (inp2_count ctrl)) (STRELA_REG_INP_SIZE 2) in
  do! writel (ctrl_addr dma_addr (inp3_offset ctrl)) (STRELA_REG_INP_ADDR 3) in
  do! writel (ctrl_inp_size (inp3_stride ctrl) (inp3_count ctrl)) (STRELA_REG_INP_SIZE 3) in
  do! writel (ctrl_addr dma_addr (out0_offset ctrl)) (STRELA_REG_OUT_ADDR 0) in
  do! writel (ctrl_size (out0_count ctrl)) (STRELA_REG_OUT_SIZE 0) in
  do! writel (ctrl_addr dma_addr (out1_offset ctrl)) (STRELA_REG_OUT_ADDR 1) in
  do! writel (ctrl_size (out1_count ctrl)) (STRELA_REG_OUT_SIZE 1) in
  do! writel (ctrl_addr dma_addr (out2_offset ctrl)) (STRELA_REG_OUT_ADDR 2) in
  do! writel (ctrl_size (out2_count ctrl)) (STRELA_REG_OUT_SIZE 2) in
  do! writel (ctrl_addr dma_addr (out3_offset ctrl)) (STRELA_REG_OUT_ADDR 3) in
  do! writel (ctrl_size (out3_count ctrl)) (STRELA_REG_OUT_SIZE 3) in
  do! writel 1 STRELA_REG_OUT_ARB_HOLD in
  mret_ 0.

(** What a wait of the interruptible kind is turned into. *)
Definition wait_result (ret : Z) : Z :=
  if ret =? 0 then - ETIMEDOUT else if ret =? - ERESTARTSYS then - ERESTARTSYS else 0.

Definition ioctl_config (dma_addr : Z) : M kst Z :=
  do! vcall_ (dma_sync_single_for_device dma_addr STRELA_DATA_REGION_SIZE DMA_BIDIRECTIONAL) in
  do! writel STRELA_CMD_CLEAR_CONFIG STRELA_REG_CTRL in
  do! writel 1 STRELA_REG_RESET_DMA in
  do! writel STRELA_CMD_LOAD_CONFIG STRELA_REG_CTRL in
  let! ret := icall_ (wait_conf_done 5000) in
  let ret := wait_result ret in
  do! writel STRELA_CMD_CLEAR_STATE STRELA_REG_CTRL in
  mret_ ret.

Definition ioctl_exec (dma_addr : Z) : M kst Z :=
  do! vcall_ (dma_sync_single_for_device dma_addr STRELA_DATA_REGION_SIZE DMA_BIDIRECTIONAL) in
  do! writel STRELA_CMD_START_EXEC STRELA_REG_CTRL in
  let! ret := icall_ (wait_exec_done 500000) in
  let ret := wait_result ret in
  do! vcall_ (dma_sync_single_for_cpu dma_addr STRELA_DATA_REGION_SIZE DMA_BIDIRECTIONAL) in
  mret_ ret.

Definition strela_ioctl (priv : strela_data) (num : ioctl_num) (ctrl : strela_ctrl) : M kst Z :=
  match num with
  | IOCTL_STRELA_CONTROL => ioctl_control (d_dma_addr priv) ctrl
  | IOCTL_STRELA_CONFIG => ioctl_config (d_dma_addr priv)
  | IOCTL_STRELA_EXEC => ioctl_exec (d_dma_addr priv)
  | IOCTL_other => mret_ (- ENOTTY)
  end.

Definition strela_mmap (requested_size : Z) : M kst Z :=
  if negb (requested_size =? STRELA_DATA_REGION_SIZE) then mret_ (- EINVAL) else
  let! ret := icall_ (dma_mmap_pages STRELA_DATA_REGION_SIZE) in
  do! vcall_ vm_flags_set_DONTCOPY in
  mret_ ret.

(** It prints a message. *)
Definition strela_vm_close : M kst unit := mret_ tt.

Definition char_irq_handler (priv : strela_data) : M kst (irqreturn_t * strela_data) :=
  let! status := readl STRELA_REG_CTRL in
  if negb (Z.land status STRELA_CMD_PENDING_INT_CONFIG =? 0) then
    do! writel STRELA_CMD_CLEAR_INT_CONFIG STRELA_REG_CTRL in
    mret_ (IRQ_WAKE_THREAD, set_irq priv status)
  else if negb (Z.land status STRELA_CMD_PENDING_INT_EXEC =? 0) then
    do! writel STRELA_CMD_CLEAR_INT_EXEC STRELA_REG_CTRL in
    mret_ (IRQ_WAKE_THREAD, set_irq priv status)
  else mret_ (IRQ_NONE, priv).

Definition char_irq_thread_fn (priv : strela_data) : M kst (irqreturn_t * strela_data) :=
  if negb (Z.land (d_irq_status priv) STRELA_CMD_PENDING_INT_CONFIG =? 0) then
    do! vcall_ complete_conf_done in
    mret_ (IRQ_HANDLED, set_irq priv 0)
  else if negb (Z.land (d_irq_status priv) STRELA_CMD_PENDING_INT_EXEC =? 0) then
    do! vcall_ complete_exec_done in
    mret_ (IRQ_HANDLED, set_irq priv 0)
  else mret_ (IRQ_NONE, priv).

(** The page and its bus address. *)
Definition dma_alloc_pages (size : Z) (dir : dma_data_direction) : M kst (Z * Z) :=
  dma_alloc_noncoherent size dir.

(** dev_t: a 12-bit major and a 20-bit minor number. *)
Definition MKDEV (major minor : Z) : Z := Z.lor (Z.shiftl major 20) minor.
Definition MINOR (dev : Z) : Z := Z.land dev (2 ^ 20 - 1).

Definition free_dma (priv : strela_data) (ret : Z) : M kst Z :=
  do! vcall_ (dma_free_pages (d_dma_page priv) (d_dma_addr priv)) in mret_ ret.

Definition free_ida (priv : strela_data) (minor ret : Z) : M kst Z :=
  do! vcall_ (ida_free minor) in free_dma priv ret.

Definition delete_cdev (priv : strela_data) (minor ret : Z) : M kst Z :=
  do! vcall_ cdev_del in free_ida priv minor ret.

(** From the minor number on: every failure unwinds what was acquired. *)
Definition probe_devices (priv : strela_data) (major : Z) : M kst (Z * strela_data) :=
  let! minor := icall_ (ida_alloc_max (STRELA_MAX_NUM - 1)) in
  if minor <? 0 then let! ret := free_dma priv minor in mret_ (ret, priv) else
  let priv := mkData (d_dma_addr priv) (d_dma_page priv) (MKDEV major minor) (d_irq_status priv) in
  let! ret := icall_ (cdev_add (d_dev_num priv)) in
  if ret <? 0 then let! ret := free_ida priv minor ret in mret_ (ret, priv) else
  let! logical_dev := icall_ (device_create (d_dev_num priv)) in
  if IS_ERR logical_dev then let! ret := delete_cdev priv minor logical_dev in mret_ (ret, priv) else
  mret_ (0, priv).

Definition char_probe (major : Z) : M kst (Z * strela_data) :=
  let priv0 := mkData 0 0 0 0 in
  let! p := icall_ devm_kzalloc in
  if p =? 0 then mret_ (- ENOMEM, priv0) else
  let! base_addr := icall_ devm_platform_ioremap_resource in
  if IS_ERR base_addr then mret_ (base_addr, priv0) else
  let! challenge1 := icall_ get_random_u32 in
  let! challenge2 := icall_ get_random_u32 in
  do! writel challenge1 STRELA_REG_OPA in
  do! writel challenge2 STRELA_REG_OPB in
  let! response := readl STRELA_REG_OPR in
  if negb (response =? u32 (challenge1 + challenge2)) then mret_ (- EIO, priv0) else
  let! '(dma_page, dma_addr) := dma_alloc_pages STRELA_DATA_REGION_SIZE DMA_BIDIRECTIONAL in
  if dma_page =? 0 then mret_ (- ENOMEM, priv0) else
  let priv := mkData dma_addr dma_page 0 0 in
  let! irq := icall_ platform_get_irq in
  if irq <? 0 then mret_ (irq, priv) else
  let! ret := icall_ (devm_request_threaded_irq irq) in
  if ret <? 0 then mret_ (ret, priv) else
  probe_devices priv major.

Definition char_remove (priv : strela_data) : M kst unit :=
  do! vcall_ (device_destroy (d_dev_num priv)) in
  do! vcall_ cdev_del in
  do! vcall_ (ida_free (MINOR (d_dev_num priv))) in
  vcall_ (dma_free_pages (d_dma_page priv) (d_dma_addr priv)).

(** The result and the class pointer. *)
Definition strela_driver_init : M kst (Z * Z) :=
  let! ret := icall_ alloc_chrdev_region in
  if ret <? 0 then mret_ (ret, 0) else
  let! strela_class := icall_ class_create in
  if IS_ERR strela_class then
    do! vcall_ (unregister_chrdev_region STRELA_MAX_NUM) in mret_ (strela_class, 0)
  else
  let! ret := icall_ platform_driver_register in
  if ret <? 0 then
    do! vcall_ class_destroy in
    do! vcall_ (unregister_chrdev_region STRELA_MAX_NUM) in
    mret_ (ret, strela_class)
  else mret_ (0, strela_class).

Definition strela_driver_exit : M kst unit :=
  do! vcall_ platform_driver_unregister in
  do! vcall_ class_destroy in
  vcall_ (unregister_chrdev_region STRELA_MAX_NUM).
End Char.

(** ** Bounds *)
Lemma check_bounds_value offset count stride :
  is_u 32 offset -> is_u 32 count -> is_u 32 stride ->
  strela_check_bounds offset count stride
  = negb (offset * STRELA_WORD_SIZE + count * stride * STRELA_WORD_SIZE <=? STRELA_DATA_REGION_SIZE).
Proof.
  unfold is_u, strela_check_bounds, check_mul_overflow, check_add_overflow, STRELA_WORD_SIZE,
    STRELA_DATA_REGION_SIZE. intros Ho Hc Hs. assert (0 <= count * stride) by nia.
  destruct (Z.leb_spec (2 ^ 32) (offset * 4)); [lia|].
  destruct (Z.leb_spec (2 ^ 32) (count * stride)); [lia|].
  rewrite (wrap_small 32 (count * stride)), (wrap_small 32 (offset * 4)) by lia.
  destruct (Z.leb_spec (2 ^ 32) (count * stride * 4)); [lia|].
  rewrite (wrap_small 32 (count * stride * 4)) by lia.
  destruct (Z.leb_spec (2 ^ 32) (offset * 4 + count * stride * 4)); [lia|].
  rewrite wrap_small by lia. break_if; lia.
Qed.

(** The fields as they are copied in. *)
Definition ctrl_u32 (c : strela_ctrl) : Prop :=
  Forall (is_u 32)
    [conf_offset c; conf_count c; inp0_offset c; inp0_count c; inp0_stride c; inp1_offset c; inp1_count c;
     inp1_stride c; inp2_offset c; inp2_count c; inp2_stride c; inp3_offset c; inp3_count c; inp3_stride c;
     out0_offset c; out0_count c; out1_offset c; out1_count c; out2_offset c; out2_count c;
     out3_offset c; out3_count c].

(** Configuration and columns as (address register, offset, count, stride). *)
Definition ctrl_ranges (c : strela_ctrl) : list (Z * Z * Z * Z) :=
  [(STRELA_REG_CONF_ADDR, conf_offset c, conf_count c, 1);
   (STRELA_REG_INP_ADDR 0, inp0_offset c, inp0_count c, inp0_stride c);
   (STRELA_REG_INP_ADDR 1, inp1_offset c, inp1_count c, inp1_stride c);
   (STRELA_REG_INP_ADDR 2, inp2_offset c, inp2_count c, inp2_stride c);
   (STRELA_REG_INP_ADDR 3, inp3_offset c, inp3_count c, inp3_stride c);
   (STRELA_REG_OUT_ADDR 0, out0_offset c, out0_count c, 1);
   (STRELA_REG_OUT_ADDR 1, out1_offset c, out1_count c, 1);
   (STRELA_REG_OUT_ADDR 2, out2_offset c, out2_count c, 1);
   (STRELA_REG_OUT_ADDR 3, out3_offset c, out3_count c, 1)].

Section CharProofs.
Context {A : abi} {E : Env}.

Lemma ctrl_addr_value dma offset :
  0 <= dma -> dma + STRELA_DATA_REGION_SIZE < 2 ^ 32 -> 0 <= offset ->
  offset * STRELA_WORD_SIZE <= STRELA_DATA_REGION_SIZE ->
  u32 (ctrl_addr dma offset) = dma + offset * STRELA_WORD_SIZE.
Proof.
  unfold ctrl_addr, STRELA_WORD_SIZE, STRELA_DATA_REGION_SIZE. intros.
  assert (2 ^ 32 <= 2 ^ ptr_bits) by (unfold ptr_bits, ptr_bytes; destruct A; lia).
  rewrite (wrap_small 32 (offset * 4)), wptr_small, wrap_small by lia. done.
Qed.

(** A range of the control block ends inside the region, without overflow. *)
Definition range_in (r : Z * Z * Z * Z) : Prop :=
  let '(_, off, cnt, st) := r in off * STRELA_WORD_SIZE + cnt * st * STRELA_WORD_SIZE <= STRELA_DATA_REGION_SIZE.

Lemma ctrl_checks c :
  ctrl_out_of_bounds c = existsb (fun '(_, off, cnt, st) => strela_check_bounds off cnt st) (ctrl_ranges c).
Proof. unfold ctrl_out_of_bounds. cbn [ctrl_ranges existsb]. by rewrite orb_false_r, !orb_assoc. Qed.

Lemma ctrl_ranges_u32 c :
  ctrl_u32 c -> Forall (fun '(_, off, cnt, st) => is_u 32 off /\ is_u 32 cnt /\ is_u 32 st) (ctrl_ranges c).
Proof.
  unfold ctrl_u32. intros Hu. repeat match goal with H : Forall _ (_ :: _) |- _ => apply Forall_cons in H as [? H] end.
  assert (is_u 32 1) by (by vm_compute).
  repeat (apply Forall_cons_2; [split; [assumption|split; assumption]|]). apply Forall_nil_2.
Qed.

(** The nine checks together are exact. *)
Lemma ctrl_bounds_exact c : ctrl_u32 c -> ctrl_out_of_bounds c = false <-> Forall range_in (ctrl_ranges c).
Proof.
  intros Hu%ctrl_ranges_u32. rewrite ctrl_checks. induction Hu as [|[[[reg off] cnt] st] l (Ho & Hc & Hs) _ IH]; [by split|].
  cbn [existsb]. rewrite orb_false_iff, Forall_cons, IH, check_bounds_value by done. unfold range_in.
  rewrite negb_false_iff, Z.leb_le. done.
Qed.

(** The writes of a control ioctl, in order. *)
Definition ctrl_writes (dma : Z) (c : strela_ctrl) : list (Z * Z) :=
  [(STRELA_REG_CONF_ADDR, u32 (ctrl_addr dma (conf_offset c))); (STRELA_REG_CONF_SIZE, u32 (ctrl_size (conf_count c)));
   (STRELA_REG_INP_ADDR 0, u32 (ctrl_addr dma (inp0_offset c)));
   (STRELA_REG_INP_SIZE 0, u32 (ctrl_inp_size (inp0_stride c) (inp0_count c)));
   (STRELA_REG_INP_ADDR 1, u32 (ctrl_addr dma (inp1_offset c)));
   (STRELA_REG_INP_SIZE 1, u32 (ctrl_inp_size (inp1_stride c) (inp1_count c)));
   (STRELA_REG_INP_ADDR 2, u32 (ctrl_addr dma (inp2_offset c)));
   (STRELA_REG_INP_SIZE 2, u32 (ctrl_inp_size (inp2_stride c) (inp2_count c)));
   (STRELA_REG_INP_ADDR 3, u32 (ctrl_addr dma (inp3_offset c)));
   (STRELA_REG_INP_SIZE 3, u32 (ctrl_inp_size (inp3_stride c) (inp3_count c)));
   (STRELA_REG_OUT_ADDR 0, u32 (ctrl_addr dma (out0_offset c))); (STRELA_REG_OUT_SIZE 0, u32 (ctrl_size (out0_count c)));
   (STRELA_REG_OUT_ADDR 1, u32 (ctrl_addr dma (out1_offset c))); (STRELA_REG_OUT_SIZE 1, u32 (ctrl_size (out1_count c)));
   (STRELA_REG_OUT_ADDR 2, u32 (ctrl_addr dma (out2_offset c))); (STRELA_REG_OUT_SIZE 2, u32 (ctrl_size (out2_count c)));
   (STRELA_REG_OUT_ADDR 3, u32 (ctrl_addr dma (out3_offset c))); (STRELA_REG_OUT_SIZE 3, u32 (ctrl_size (out3_count c)));
   (STRELA_REG_OUT_ARB_HOLD, u32 1)].

Lemma ctrl_writes_regs dma c : NoDup (ctrl_writes dma c).*1.
Proof.
  assert (Hr : (ctrl_writes dma c).*1
    = [4; 8; 16; 20; 24; 28; 32; 36; 40; 44; 80; 84; 88; 92; 96; 100; 104; 108; 160]) by reflexivity.
  rewrite Hr. apply (bool_decide_unpack _). by vm_compute.
Qed.

(** Every range of a control block has its address register. *)
Lemma ctrl_ranges_written dma c :
  Forall (fun r => let '(reg, off, _, _) := r in
            (reg, u32 (ctrl_addr dma off)) ∈ ctrl_writes dma c) (ctrl_ranges c).
Proof. repeat constructor. Qed.

(** The size registers of the configuration and the outputs, with their counts. *)
Definition ctrl_counts (c : strela_ctrl) : list (Z * Z) :=
  [(STRELA_REG_CONF_SIZE, conf_count c);
   (STRELA_REG_OUT_SIZE 0, out0_count c); (STRELA_REG_OUT_SIZE 1, out1_count c);
   (STRELA_REG_OUT_SIZE 2, out2_count c); (STRELA_REG_OUT_SIZE 3, out3_count c)].

(** The size registers of the inputs, with their counts and strides. *)
Definition ctrl_inputs (c : strela_ctrl) : list (Z * Z * Z) :=
  [(STRELA_REG_INP_SIZE 0, inp0_count c, inp0_stride c); (STRELA_REG_INP_SIZE 1, inp1_count c, inp1_stride c);
   (STRELA_REG_INP_SIZE 2, inp2_count c, inp2_stride c); (STRELA_REG_INP_SIZE 3, inp3_count c, inp3_stride c)].

Lemma ctrl_sizes_written dma c :
  Forall (fun r => let '(reg, cnt) := r in (reg, u32 (ctrl_size cnt)) ∈ ctrl_writes dma c
            /\ exists a off, (a, off, cnt, 1) ∈ ctrl_ranges c) (ctrl_counts c)
  /\ Forall (fun r => let '(reg, cnt, st) := r in (reg, u32 (ctrl_inp_size st cnt)) ∈ ctrl_writes dma c
            /\ exists a off, (a, off, cnt, st) ∈ ctrl_ranges c) (ctrl_inputs c).
Proof. split; repeat constructor; do 2 eexists; repeat constructor. Qed.

(** The size register of an input has room for a stride and a length of 16
    bits each, in bytes. *)
Lemma ctrl_inp_size_value st cnt :
  0 <= st * STRELA_WORD_SIZE < 2 ^ 16 -> 0 <= cnt * st * STRELA_WORD_SIZE < 2 ^ 16 ->
  u32 (ctrl_inp_size st cnt) = st * STRELA_WORD_SIZE * 2 ^ 16 + cnt * st * STRELA_WORD_SIZE.
Proof.
  intros Hs Hn. unfold ctrl_inp_size, STRELA_MKINPSIZE. rewrite (wrap_small 32 (st * STRELA_WORD_SIZE)) by lia.
  rewrite Z.shiftl_mul_pow2 by lia. rewrite (wrap_small 32 (_ * 2 ^ 16)) by lia.
  replace (st * STRELA_WORD_SIZE * cnt) with (cnt * st * STRELA_WORD_SIZE) by lia.
  rewrite (wrap_small 32 (cnt * _ * _)) by lia. rewrite lor_pack by lia. apply wrap_small. lia.
Qed.

(** What the registers hold after the writes of an accepted control block. *)
Lemma ctrl_programmed dma c l :
  ctrl_u32 c -> 0 <= dma -> dma + STRELA_DATA_REGION_SIZE < 2 ^ 32 -> Forall range_in (ctrl_ranges c) ->
  let l' := log_writes (ctrl_writes dma c) l in
  Forall (fun r => let '(reg, off, cnt, st) := r in
    let a := dma + off * STRELA_WORD_SIZE in
    reg_value l' reg = Some a
    /\ dma <= a /\ a + cnt * st * STRELA_WORD_SIZE <= dma + STRELA_DATA_REGION_SIZE) (ctrl_ranges c)
  /\ Forall (fun r => let '(reg, cnt) := r in reg_value l' reg = Some (cnt * STRELA_WORD_SIZE)) (ctrl_counts c)
  /\ Forall (fun r => let '(reg, cnt, st) := r in
       st * STRELA_WORD_SIZE < 2 ^ 16 -> cnt * st * STRELA_WORD_SIZE < 2 ^ 16 ->
       reg_value l' reg = Some (st * STRELA_WORD_SIZE * 2 ^ 16 + cnt * st * STRELA_WORD_SIZE)) (ctrl_inputs c).
Proof.
  intros Hu Hd Hend HF l'. pose proof (ctrl_ranges_written dma c) as HW. destruct (ctrl_sizes_written dma c) as [HC HI].
  assert (Hreg : forall reg v, (reg, v) ∈ ctrl_writes dma c -> reg_value l' reg = Some v)
    by (intros; by apply reg_value_writes; [apply ctrl_writes_regs|]).
  assert (HR : forall reg off cnt st, (reg, off, cnt, st) ∈ ctrl_ranges c ->
    0 <= off /\ 0 <= cnt /\ 0 <= st /\ off * 4 + cnt * st * 4 <= STRELA_DATA_REGION_SIZE).
  { pose proof (ctrl_ranges_u32 c Hu) as HU. rewrite Forall_forall in HF, HU. intros reg off cnt st Hin.
    specialize (HF _ Hin). specialize (HU _ Hin). cbv beta iota delta [range_in STRELA_WORD_SIZE] in HF, HU.
    unfold is_u in HU. split_and!; [apply HU..|exact HF]. }
  rewrite Forall_forall in HW. rewrite Forall_forall in HC. rewrite Forall_forall in HI. split_and!; apply Forall_forall.
  - intros [[[reg off] cnt] st] Hin. destruct (HR _ _ _ _ Hin) as (? & ? & ? & ?). assert (0 <= cnt * st) by nia.
    cbv zeta. rewrite <- (ctrl_addr_value dma off) by (unfold STRELA_WORD_SIZE; lia).
    split; [by apply Hreg, (HW _ Hin)|]. rewrite ctrl_addr_value; unfold STRELA_WORD_SIZE; lia.
  - intros [reg cnt] Hin. destruct (HC _ Hin) as [Hw (a & off & Hr)]. destruct (HR _ _ _ _ Hr) as (? & ? & ? & ?).
    rewrite (Hreg _ _ Hw). unfold ctrl_size, STRELA_DATA_REGION_SIZE, STRELA_WORD_SIZE in *.
    by rewrite !wrap_small by (rewrite ?wrap_small; lia).
  - intros [[reg cnt] st] Hin Hst Hn. destruct (HI _ Hin) as [Hw (a & off & Hr)]. destruct (HR _ _ _ _ Hr) as (? & ? & ? & ?).
    assert (0 <= cnt * st) by nia. rewrite (Hreg _ _ Hw), ctrl_inp_size_value; unfold STRELA_WORD_SIZE in *; (done || lia).
Qed.


(** What a probe of the character driver holds: the DMA pages, the minor number
    and the cdev. *)
Variant char_resource := CDma (page : Z) | CMinor (n : Z) | CCdev.

Definition char_delta (r : char_resource) (e : event) : Z :=
  match r, e with
  | CDma p, DmaAlloc _ p' _ _ => one ((p' =? p) && negb (p' =? 0))
  | CDma p, VCall (dma_free_pages p' _) => - one (p' =? p)
  | CMinor n, ICall (ida_alloc_max _) n' => one ((n' =? n) && (0 <=? n'))
  | CMinor n, VCall (ida_free n') => - one (n' =? n)
  | CCdev, ICall (cdev_add _) ret => one (0 <=? ret)
  | CCdev, VCall cdev_del => - 1
  | _, _ => 0
  end.

Fixpoint char_held (r : char_resource) (l : list event) : Z :=
  match l with
  | [] => 0
  | e :: l => char_delta r e + char_held r l
  end.

(** From the point where the interrupt is requested, a probe of the character
    driver that fails gives back the DMA pages, the minor number and the cdev;
    one that succeeds holds one of each. *)
Theorem char_probe_unwinds priv major s :
  exists ret priv' s', probe_devices priv major s = Ok ((ret, priv'), s')
    /\ (ret <> 0 -> forall r, char_held r (k_log s') = char_held r (k_log s)
           - match r with CDma p => one (d_dma_page priv =? p) | _ => 0 end)
    /\ (ret = 0 -> exists minor, 0 <= minor /\ d_dev_num priv' = MKDEV major minor
          /\ forall r, char_held r (k_log s') = char_held r (k_log s)
               + match r with CMinor n => one (minor =? n) | CCdev => 1 | _ => 0 end).
Proof.
  unfold probe_devices. rewrite (mbind_Ok _ _ _ _ _ (icall_Ok _ _)). set (minor := env_icall _ _).
  clearbody minor. destruct (Z.ltb_spec minor 0) as [Hm|Hm].
  { exists minor. do 2 eexists. split; [reflexivity|]. split; [|lia]. intros _ r.
    assert ((0 <=? minor) = false) as E0 by lia. destruct r; cbn; rewrite ?E0, ?andb_false_r; cbn; lia. }
  assert ((0 <=? minor) = true) as E0 by lia.
  rewrite (mbind_Ok _ _ _ _ _ (icall_Ok _ _)). set (ret := env_icall _ _). clearbody ret.
  destruct (Z.ltb_spec ret 0) as [Hr|Hr].
  { exists ret. do 2 eexists. split; [reflexivity|]. split; [|lia]. intros _ r.
    assert ((0 <=? ret) = false) as E1 by lia.
    destruct r; cbn; rewrite ?E0, ?E1, ?andb_true_r; cbn; lia. }
  assert ((0 <=? ret) = true) as E1 by lia.
  rewrite (mbind_Ok _ _ _ _ _ (icall_Ok _ _)). set (dev := env_icall _ _). clearbody dev.
  destruct (IS_ERR dev) eqn:Ed.
  { exists dev. do 2 eexists. split; [reflexivity|]. split.
    - intros _ r. destruct r; cbn; rewrite ?E0, ?E1, ?andb_true_r; cbn; lia.
    - intros ->. done. }
  exists 0. do 2 eexists. split; [reflexivity|]. split; [done|]. intros _. exists minor.
  split_and!; [done|done|]. intros r. destruct r; cbn; rewrite ?E0, ?E1, ?andb_true_r; cbn; lia.
Qed.
End CharProofs.

(** A control block with one input of 16384 words. *)
Definition ctrl_big : strela_ctrl :=
  mkCtrl 0 4 0 0x4000 1 0 0 1 0 0 1 0 0 1 0 4 0 0 0 0 0 0.


(** The character driver does not protect the fields of the size register: a
    column of 16384 words with stride 1 is accepted, and the register it is
    given reads as a stride of 5 bytes and a length of 0. *)
Theorem char_size_field_overflows :
  exists s', ioctl_control (A := ARMv7) (E := env64) 0x10000000 ctrl_big hw_state = Ok (0, s')
    /\ reg_value (k_log s') (STRELA_REG_INP_SIZE 0) = Some (5 * 2 ^ 16 + 0).
Proof. eexists. split; [vm_compute; reflexivity|reflexivity]. Qed.

(** Hardware that passes the challenge and has no interrupt line. *)
Definition env_no_irq : Env := {|
  env_readl := fun _ _ => 2;
  env_kzalloc := fun _ _ => 0;
  env_gem_lookup := fun _ _ => None;
  env_dma_alloc := fun _ _ => (700, 0x10000000);
  env_icall := fun _ c => match c with platform_get_irq => - ENODEV | _ => 1 end
|}.

(** The probe of the character driver loses its DMA pages when no interrupt
    can be had: it returns the error and nothing has freed the 4 MiB region. *)
Theorem char_probe_leaks_dma :
  exists priv s', char_probe (E := env_no_irq) 240 hw_state = Ok ((- ENODEV, priv), s')
    /\ char_held (CDma 700) (k_log s') = 1.
Proof. do 2 eexists. split; [vm_compute; reflexivity|reflexivity]. Qed.
