(* ===== verification/DrvTables.v ===== *)
(** * The tables the kernel calls the drivers through

    The structs of function pointers and names that driver/strela_drv.c,
    strela_gem.c, strela_job.c and strela_driver.c register, with the functions
    of the models in the places of the source; and the life of an open file and
    of a buffer object when they are reached through them. *)
From stdpp Require Import strings.
From S2P Require Import DrvGem DrvWire DrvMod CharDriver.

(** ** The kernel's structs *)
Variant driver_feature := DRIVER_COMPUTE_ACCEL | DRIVER_GEM | DRIVER_SYNCOBJ.

(** The functions of the GEM DMA helper a table may name. *)
Variant gem_dma_helper :=
| drm_gem_dma_object_print_info | drm_gem_dma_object_get_sg_table | drm_gem_dma_object_vmap
| drm_gem_dma_object_mmap | drm_gem_dma_vm_ops.

Record drm_driver := mkDrmDriver {
  driver_features : list driver_feature;
  drv_name : list Z; drv_desc : list Z; drv_major : Z; drv_minor : Z;
  drv_ioctls : list (Z * strela_handler); num_ioctls : Z;
  drv_open : M kst (Z * Z);
  drv_postclose : Z -> M kst Z
}.

Record drm_gem_object_funcs := mkGemFuncs {
  gf_free : gem_obj -> M kst unit;
  gf_print_info : gem_dma_helper; gf_get_sg_table : gem_dma_helper; gf_vmap : gem_dma_helper;
  gf_mmap : gem_dma_helper; gf_vm_ops : gem_dma_helper
}.

Record dma_fence_ops := mkFenceOps { get_driver_name : list Z; get_timeline_name : list Z }.

(** A table of device-tree names ends with an empty entry, left out here. *)
Record platform_driver (P R : Type) := mkPlatformDriver {
  pd_probe : P; pd_remove : R; pd_name : list Z; pd_of_match_table : list (list Z)
}.
Arguments mkPlatformDriver {P R}.
Arguments pd_probe {P R}.
Arguments pd_remove {P R}.
Arguments pd_name {P R}.
Arguments pd_of_match_table {P R}.

Record file_operations := mkFops {
  unlocked_ioctl : strela_data -> ioctl_num -> strela_ctrl -> M kst Z;
  fop_mmap : Z -> M kst Z; fop_open : M kst Z; fop_release : M kst Z
}.

(** No function for a table entry that is left out. *)
Record vm_operations_struct := mkVmOps { vm_open : option (M kst unit); vm_close : option (M kst unit) }.

Section Tables.
Context {A : abi} {E : Env}.

(** ** driver/strela_drv.c *)
Definition strela_drm_driver : drm_driver :=
  mkDrmDriver [DRIVER_COMPUTE_ACCEL; DRIVER_GEM; DRIVER_SYNCOBJ]
    (c_string "strela") (c_string "STRELA CGRA accelerator") 1 0
    strela_ioctls (Z.of_nat (length strela_ioctls)) strela_open_file strela_postclose.

Definition strela_of_ids : list (list Z) := [c_string "xlnx,cgra-axi-lite-1.0"].

Definition strela_platform_driver : platform_driver (bool -> M kst Z) (list Z -> M kst unit) :=
  mkPlatformDriver strela_probe strela_remove (c_string "strela") strela_of_ids.

(** The name [strela_sim_dev_register] gives its platform devices. *)
Definition sim_pdev_name : list Z := c_string "strela".

(** ** driver/strela_gem.c, driver/strela_job.c *)
Definition strela_gem_funcs : drm_gem_object_funcs :=
  mkGemFuncs strela_gem_free drm_gem_dma_object_print_info drm_gem_dma_object_get_sg_table
    drm_gem_dma_object_vmap drm_gem_dma_object_mmap drm_gem_dma_vm_ops.

Definition strela_fence_ops : dma_fence_ops := mkFenceOps strela_fence_driver_name strela_fence_timeline_name.

(** ** driver/strela_driver.c *)
Definition dev_ids : list (list Z) := [c_string "xlnx,cgra-axi-lite-1.0"].

Definition strela_vm_operations : vm_operations_struct := mkVmOps None (Some strela_vm_close).

Definition strela_fops : file_operations := mkFops CharDriver.strela_ioctl strela_mmap strela_open strela_release.

Definition dev_driver : platform_driver (Z -> M kst (Z * strela_data)) (strela_data -> M kst unit) :=
  mkPlatformDriver char_probe char_remove (c_string "dev_driver") dev_ids.

(** ** Names that have to agree *)

(** The simulated devices carry the name of the DRM driver and not that of the
    character driver; both claim the board's device in the device tree, so only
    one of the two may be loaded. *)
Lemma who_binds :
  sim_pdev_name = pd_name strela_platform_driver /\ sim_pdev_name <> pd_name dev_driver
  /\ pd_of_match_table strela_platform_driver = pd_of_match_table dev_driver.
Proof. split; [done|]. split; [by vm_compute|done]. Qed.

(** Every ioctl of the interface is in reach of the table: numbered below the
    length the driver announces, in its own place. *)
Lemma ioctls_in_place n h :
  (n, h) ∈ drv_ioctls strela_drm_driver ->
  n < num_ioctls strela_drm_driver /\ drv_ioctls strela_drm_driver !! Z.to_nat n = Some (n, h).
Proof.
  cbn [strela_drm_driver drv_ioctls strela_ioctls]. intros Hin. set_unfold. by destruct_or!; simplify_eq.
Qed.

(** ** The life of an open file *)
Variant file_resource := FPriv (p : Z) | FEntity (p : Z).

Definition file_delta (r : file_resource) (e : event) : Z :=
  match r, e with
  | FPriv p, Kzalloc A_file_priv q => one ((q =? p) && negb (q =? 0))
  | FPriv p, VCall (kfree q) => - one (q =? p)
  | FEntity p, ICall (drm_sched_entity_init q) ret => one ((q =? p) && (ret =? 0))
  | FEntity p, VCall (drm_sched_entity_destroy q) => - one (q =? p)
  | _, _ => 0
  end.

Fixpoint file_held (r : file_resource) (l : list event) : Z :=
  match l with
  | [] => 0
  | e :: l => file_delta r e + file_held r l
  end.

(** Opening either fails and keeps nothing, or gives the file its private
    struct with one scheduler entity, which closing gives back. *)
Lemma file_life_balanced s :
  exists ret priv s1, drv_open strela_drm_driver s = Ok ((ret, priv), s1)
    /\ (ret <> 0 -> priv = 0 /\ forall r, r <> FPriv 0 -> file_held r (k_log s1) = file_held r (k_log s))
    /\ (ret = 0 -> priv <> 0 /\ file_held (FPriv priv) (k_log s1) = file_held (FPriv priv) (k_log s) + 1
        /\ file_held (FEntity priv) (k_log s1) = file_held (FEntity priv) (k_log s) + 1
        /\ forall s2, exists s3, drv_postclose strela_drm_driver priv s2 = Ok (0, s3)
             /\ forall r, file_held r (k_log s3) - file_held r (k_log s2) = file_held r (k_log s) - file_held r (k_log s1)).
Proof.
  cbn [drv_open drv_postclose strela_drm_driver]. unfold strela_open_file, strela_postclose, mbind_, kzalloc_, icall_, vcall_, mret_.
  cbn. set (priv := env_kzalloc _ _). destruct (Z.eqb_spec priv 0) as [Hp|Hp].
  { exists (- ENOMEM), 0. eexists. split; [reflexivity|]. split; [|done]. intros _. split; [done|]. intros r Hr.
    destruct r as [p|p]; cbn; [|lia]. rewrite Hp, andb_false_r. cbn. lia. }
  set (ret := env_icall _ _). destruct (Z.eqb_spec ret 0) as [Hr|Hr]; cbn [negb].
  - exists 0, priv. eexists. split; [reflexivity|]. split; [done|]. intros _. split; [done|].
    assert (Hpb : (priv =? 0) = false) by lia. cbn. rewrite Z.eqb_refl, Hpb, Hr. cbn. split; [lia|]. split; [lia|].
    intros s2. eexists. split; [reflexivity|]. intros [p|p]; cbn; rewrite ?Hpb; cbn; destruct (priv =? p); cbn; lia.
  - exists ret, 0. eexists. split; [reflexivity|]. split; [|done]. intros _. split; [done|].
    intros [p|p] _; cbn; rewrite ?(proj2 (Z.eqb_neq _ _) Hr), ?(proj2 (Z.eqb_neq _ _) Hp), ?andb_false_r, ?andb_true_r; cbn; destruct (priv =? p); cbn; lia.
Qed.
End Tables.
