(* ===== verification/ToolBypass.v ===== *)
(** * The bypass tool (tools/test_bypass.c)

    A client of the character driver: it maps the DMA region of a device,
    writes a bitstream and its input there, and runs a job with the three
    ioctls. The tool's calls go to the model of the driver. The device follows
    the commands the driver writes to its control register: LOAD_CONFIG makes
    it read a configuration from the region, CLEAR_STATE clears the data lines
    it was loaded over, START_EXEC makes it run. What a run does to the region
    is a parameter [hw]: a function of the registers, of the configuration and
    of the region's words. *)
From S2P Require Import CharDriver Bitstreams.

(** ** Layout of the region *)
Definition MEGABYTE : Z := 0x100000.
Definition CONFIG_OFFSET : Z := 0 * MEGABYTE / STRELA_WORD_SIZE.
Definition INPUT_OFFSET : Z := 1 * MEGABYTE / STRELA_WORD_SIZE.
Definition OUTPUT_OFFSET : Z := 2 * MEGABYTE / STRELA_WORD_SIZE.
Definition REGION_WORDS : Z := STRELA_DATA_REGION_SIZE / STRELA_WORD_SIZE.
Definition BUFF_SIZE : nat := 10.
Definition KRNL_SIZE : Z := 16 * 5.

(** The array: nothing is loaded, a configuration was loaded over the data
    lines, or it was and the lines are clear. *)
Variant cgra := CEmpty | CLoaded (conf : list Z) | CReady (conf : list Z).

(** The kernel, the words of the region and the device. *)
Record tst := mkT { t_k : kst; t_mem : Z -> Z; t_dev : cgra }.

Definition tk {X} (c : M kst X) : M tst X :=
  fun s => match c (t_k s) with
           | Ok (x, k) => Ok (x, mkT k (t_mem s) (t_dev s))
           | Trap t => Trap t
           end.

(** memset and memcpy on the region; outside of it is a fault. *)
Definition region_clear : M tst unit :=
  modify_ (fun s => mkT (t_k s) (fun i => if (0 <=? i) && (i <? REGION_WORDS) then 0 else t_mem s i) (t_dev s)).

Definition region_write (off : Z) (ws : list Z) : M tst unit :=
  if REGION_WORDS <? off + Z.of_nat (length ws) then trap_ TSegv else
  modify_ (fun s => mkT (t_k s) (fun i =>
    if off <=? i then default (t_mem s i) (ws !! Z.to_nat (i - off)) else t_mem s i) (t_dev s)).

Definition region_read (off : Z) (n : nat) : M tst (list Z) :=
  if REGION_WORDS <? off + Z.of_nat n then trap_ TSegv else
  let! s := get_ in
  mret_ ((fun i => t_mem s (off + Z.of_nat i)) <$> seq 0 n).

Section Tool.
Context {A : abi} {E : Env}.
Context (hw : list event -> cgra -> (Z -> Z) -> Z -> Z).
Context (priv : strela_data).

(** The words the configuration registers name. *)
Definition config_words (l : list event) (w : Z -> Z) : list Z :=
  match reg_value l STRELA_REG_CONF_ADDR, reg_value l STRELA_REG_CONF_SIZE with
  | Some a, Some n => (fun i => w ((a - d_dma_addr priv) / STRELA_WORD_SIZE + Z.of_nat i))
                      <$> seq 0 (Z.to_nat (n / STRELA_WORD_SIZE))
  | _, _ => []
  end.

(** What the device does about an event, after the log [l]. *)
Definition device_event (e : event) (l : list event) (d : cgra * (Z -> Z)) : cgra * (Z -> Z) :=
  match e with
  | Writel v r =>
      if negb (r =? STRELA_REG_CTRL) then d
      else if v =? STRELA_CMD_LOAD_CONFIG then (CLoaded (config_words l d.2), d.2)
      else if v =? STRELA_CMD_CLEAR_CONFIG then (CEmpty, d.2)
      else if v =? STRELA_CMD_CLEAR_STATE then (match d.1 with CLoaded c => CReady c | g => g end, d.2)
      else if v =? STRELA_CMD_START_EXEC then (d.1, hw l d.1 d.2)
      else d
  | _ => d
  end.

(** The same for the events [es], newest first. *)
Fixpoint device (es l : list event) (d : cgra * (Z -> Z)) : cgra * (Z -> Z) :=
  match es with
  | [] => d
  | e :: es => device_event e (es ++ l) (device es l d)
  end.

(** The device, after the driver has added to the log [l]. *)
Definition device_step (l : list event) : M tst unit :=
  modify_ (fun s =>
    let l' := k_log (t_k s) in
    let d := device (list.take (length l' - length l) l') l (t_dev s, t_mem s) in
    mkT (t_k s) d.2 d.1).

(** ioctl(2): -1 on error. *)
Definition ioctl_ (num : ioctl_num) (ctrl : strela_ctrl) : M tst Z :=
  let! s := get_ in
  let! ret := tk (strela_ioctl priv num ctrl) in
  do! device_step (k_log (t_k s)) in
  mret_ (if ret <? 0 then -1 else ret).

(** open(2) and mmap(2) of the device; true when both worked. *)
Definition strela_ctx_init : M tst bool :=
  let! fd := tk strela_open in
  if fd <? 0 then mret_ false else
  let! base := tk (strela_mmap STRELA_DATA_REGION_SIZE) in
  if base <? 0 then do! tk strela_release in mret_ false else
  mret_ true.

Definition ctrl0 : strela_ctrl := mkCtrl 0 0 0 0 0 0 0 0 0 0 0 0 0 0 0 0 0 0 0 0 0 0.

(** The request for [len] words: three columns of a quarter, and the rest. *)
Definition bypass_ctrl (len : Z) : strela_ctrl :=
  let len1 := u32 (len / 4) in
  let len2 := u32 (len1 + len mod 4) in
  mkCtrl CONFIG_OFFSET KRNL_SIZE
    (u32 (INPUT_OFFSET + len1 * 0)) len1 1 (u32 (INPUT_OFFSET + len1 * 1)) len1 1
    (u32 (INPUT_OFFSET + len1 * 2)) len1 1 (u32 (INPUT_OFFSET + len1 * 3)) len2 1
    (u32 (OUTPUT_OFFSET + len1 * 0)) len1 (u32 (OUTPUT_OFFSET + len1 * 1)) len1
    (u32 (OUTPUT_OFFSET + len1 * 2)) len1 (u32 (OUTPUT_OFFSET + len1 * 3)) len2.

Definition relu_ctrl (len : Z) : strela_ctrl :=
  let len1 := u32 (len / 2) in
  mkCtrl CONFIG_OFFSET KRNL_SIZE
    (u32 (INPUT_OFFSET + len1 * 0)) len1 1 0 0 0 0 0 0 0 0 0
    (u32 (OUTPUT_OFFSET + len1 * 0)) len1 0 0 0 0 0 0.

(** Control, config and exec, stopping at the first error. *)
Definition run_ioctls (ctrl : strela_ctrl) : M tst bool :=
  let! r := ioctl_ IOCTL_STRELA_CONTROL ctrl in
  if r =? -1 then mret_ false else
  let! r := ioctl_ IOCTL_STRELA_CONFIG ctrl0 in
  if r =? -1 then mret_ false else
  let! r := ioctl_ IOCTL_STRELA_EXEC ctrl0 in
  mret_ (negb (r =? -1)).

(** The body shared by the two: the output, or [None] for false. *)
Definition run_kernel (kernel : list Z) (ctrl : Z -> strela_ctrl) (input : list Z) : M tst (option (list Z)) :=
  let len := Z.of_nat (length input) in
  if MEGABYTE / STRELA_WORD_SIZE <? len then mret_ None else
  do! region_clear in
  do! region_write CONFIG_OFFSET kernel in
  do! region_write INPUT_OFFSET input in
  let! ok := run_ioctls (ctrl len) in
  if ok then let! output := region_read OUTPUT_OFFSET (length input) in mret_ (Some output) else mret_ None.

Definition strela_bypass : list Z -> M tst (option (list Z)) := run_kernel bypass_kernel_bitstream bypass_ctrl.
Definition strela_relu : list Z -> M tst (option (list Z)) := run_kernel relu_kernel_bitstream relu_ctrl.

Definition max (a b : Z) : Z := if b <? a then a else b.

(** The inputs of the two tests and what they should give: int32_t values as
    the 32 bits of the array. *)
Definition bypass_input : list Z := Z.of_nat <$> seq 0 BUFF_SIZE.
Definition bypass_ref : list Z := bypass_input.
Definition relu_signed : list Z := (fun i => if Z.of_nat i mod 2 =? 0 then 1 else -1) <$> seq 0 BUFF_SIZE.
Definition relu_input : list Z := (fun x => u32 x) <$> relu_signed.
Definition relu_ref : list Z := (fun x => u32 (max 0 x)) <$> relu_signed.

(** The value it returns: 0 when both tests passed. *)
Definition test_device : M tst Z :=
  let! ok := strela_ctx_init in
  if negb ok then mret_ 1 else
  let! output := strela_bypass bypass_input in
  match output with
  | None => mret_ 1
  | Some output =>
      let errors := if bool_decide (output = bypass_ref) then 0 else 1 in
      let! output := strela_relu relu_input in
      match output with
      | None => mret_ 1
      | Some output =>
          let errors := if bool_decide (output = relu_ref) then errors else errors + 1 in
          mret_ (if errors =? 0 then 0 else 1)
      end
  end.
End Tool.

(** ** The requests of the tool *)

(** The tool's request: [len] words of input and of output, [len / 4] in the
    first three columns and the rest in the last. *)
Definition bypass_count (len c : Z) : Z := if c =? 3 then len / 4 + len mod 4 else len / 4.

Section Requests.
Context {A : abi} {E : Env}.
Context (hw : list event -> cgra -> (Z -> Z) -> Z -> Z) (priv : strela_data).

(** The bus addresses of the region. *)
Context (Hdma : 0 <= d_dma_addr priv) (Hend : d_dma_addr priv + STRELA_DATA_REGION_SIZE < 2 ^ 32).

(** The driver copies the request in, and its waits end with the interrupt. *)
Record willing_char : Prop := {
  wc_copy : forall l, env_icall l copy_from_user = 0;
  wc_conf : forall l t, 0 < env_icall l (wait_conf_done t);
  wc_exec : forall l t, 0 < env_icall l (wait_exec_done t)
}.

Definition regs_hold (l : list event) (ws : list (Z * Z)) : Prop :=
  Forall (fun w => reg_value l w.1 = Some w.2) ws.

(** A log with only writes to the control and the DMA reset register on top. *)
Lemma regs_hold_cons l e ws :
  match e with Writel _ r => Forall (fun w => w.1 <> r) ws | _ => True end ->
  regs_hold l ws -> regs_hold (e :: l) ws.
Proof.
  intros He Hl. destruct e as [|v r| | | | |]; try exact Hl. apply Forall_forall. intros w Hw.
  unfold regs_hold in Hl. rewrite Forall_forall in He, Hl. cbn. specialize (He w Hw).
  rewrite (proj2 (Z.eqb_neq r w.1)) by congruence. by apply Hl.
Qed.

Lemma ctrl_writes_others dma c :
  Forall (fun w => w.1 <> STRELA_REG_CTRL) (ctrl_writes dma c)
  /\ Forall (fun w => w.1 <> STRELA_REG_RESET_DMA) (ctrl_writes dma c).
Proof. split; repeat constructor; cbn; discriminate. Qed.

Lemma wait_result_cases r : wait_result r = - ETIMEDOUT \/ wait_result r = - ERESTARTSYS \/ wait_result r = 0.
Proof. unfold wait_result. destruct (_ =? 0); [by left|]. destruct (_ =? _); [by right; left|by right; right]. Qed.

Lemma wait_result_pos r : 0 < r -> wait_result r = 0.
Proof.
  intros Hr. unfold wait_result, ERESTARTSYS. rewrite (proj2 (Z.eqb_neq r 0)) by lia.
  by rewrite (proj2 (Z.eqb_neq r _)) by lia.
Qed.

(** An event that commands nothing. *)
Definition no_command (e : event) : Prop := match e with Writel _ r => r <> STRELA_REG_CTRL | _ => True end.

Lemma device_no_command es l d : Forall no_command es -> device hw priv es l d = d.
Proof.
  induction 1 as [|e es He _ IH]; [done|]. cbn [device]. rewrite IH. destruct e as [|v r| | | | |]; try done. cbn.
  by rewrite (proj2 (Z.eqb_neq _ _) He).
Qed.

(** What an ioctl of the tool is, once what the driver logs is known. *)
Lemma ioctl_run num ctrl s ret k' es :
  strela_ioctl priv num ctrl (t_k s) = Ok (ret, k') -> k_log k' = es ++ k_log (t_k s) ->
  ioctl_ hw priv num ctrl s
  = let d := device hw priv es (k_log (t_k s)) (t_dev s, t_mem s) in
    Ok (if ret <? 0 then -1 else ret, mkT k' d.2 d.1).
Proof.
  intros He Hl. unfold ioctl_, device_step, tk. cbv [mbind_ get_ mret_ modify_]. rewrite He. cbn [t_k t_mem t_dev].
  rewrite Hl, length_app, Nat.add_sub, take_app_length. done.
Qed.

(** What the driver writes at the end of a control block is what the registers
    hold, and neither of the other ioctls changes it. *)
Lemma control_regs dma ctrl k :
  exists ret k', ioctl_control dma ctrl k = Ok (ret, k')
    /\ (exists es, k_log k' = es ++ k_log k /\ Forall no_command es)
    /\ (0 <= ret -> regs_hold (k_log k') (ctrl_writes dma ctrl))
    /\ (willing_char -> ctrl_out_of_bounds ctrl = false -> ret = 0).
Proof.
  unfold ioctl_control. rewrite (mbind_Ok _ _ _ _ _ (icall_Ok _ _)).
  destruct (env_icall (k_log k) copy_from_user =? 0) eqn:Ec; cbn [negb].
  2: { exists (- EFAULT). eexists. split; [reflexivity|]. split; [eexists [_]; by repeat constructor|]. split; [by intros []|].
       intros [Hc _ _]. by rewrite Hc in Ec. }
  destruct (ctrl_out_of_bounds ctrl) eqn:Eb.
  { exists (- EINVAL). eexists. split; [reflexivity|]. split; [eexists [_]; by repeat constructor|]. split; [by intros []|done]. }
  exists 0, (set_log k (log_writes (ctrl_writes dma ctrl) (ICall copy_from_user (env_icall (k_log k) copy_from_user)
                                                      :: k_log k))).
  split; [reflexivity|]. split.
  { eexists (rev _ ++ [_]). split; [by rewrite <- app_assoc|]. apply Forall_app. split; [|by repeat constructor].
    apply Forall_rev, Forall_fmap. destruct (ctrl_writes_others dma ctrl) as [Hn _].
    eapply Forall_impl; [exact Hn|]. intros w Hw. exact Hw. }
  split; [intros _|done]. apply Forall_forall. intros [reg v] Hw.
  apply reg_value_writes; [apply ctrl_writes_regs|done].
Qed.

Lemma wait_then {X} c (f : Z -> M kst X) k : mbind_ (icall_ c) f k = f (env_icall (k_log k) c) (set_log k (ICall c (env_icall (k_log k) c) :: k_log k)).
Proof. done. Qed.

Lemma config_regs dma ctrl a k :
  exists ret k' es, ioctl_config a k = Ok (ret, k') /\ k_log k' = es ++ k_log k
    /\ (forall d, exists l, device hw priv es (k_log k) d = (CReady (config_words priv l d.2), d.2)
          /\ (regs_hold (k_log k) (ctrl_writes dma ctrl) -> regs_hold l (ctrl_writes dma ctrl)))
    /\ (regs_hold (k_log k) (ctrl_writes dma ctrl) -> regs_hold (k_log k') (ctrl_writes dma ctrl))
    /\ (willing_char -> ret = 0).
Proof.
  destruct (ctrl_writes_others dma ctrl) as [H1 H2]. do 2 eexists. eexists [_; _; _; _; _; _].
  split; [cbv [ioctl_config ioctl_exec vcall_ writel icall_ emit get_ mbind_ mret_ modify_]; reflexivity|].
  split; [reflexivity|]. split_and!.
  - intros d. eexists. split; [reflexivity|]. intros H. cbn [app].
    repeat (apply regs_hold_cons; [first [exact H1|exact H2|exact I]|]). exact H.
  - intros H. cbn [k_log set_log]. repeat (apply regs_hold_cons; [first [exact H1|exact H2|exact I]|]). exact H.
  - intros [_ Hw _]. by apply wait_result_pos.
Qed.

Lemma exec_regs dma ctrl a k :
  exists ret k' es, ioctl_exec a k = Ok (ret, k') /\ k_log k' = es ++ k_log k
    /\ (forall d, exists l, device hw priv es (k_log k) d = (d.1, hw l d.1 d.2)
          /\ (regs_hold (k_log k) (ctrl_writes dma ctrl) -> regs_hold l (ctrl_writes dma ctrl)))
    /\ (willing_char -> ret = 0).
Proof.
  do 2 eexists. eexists [_; _; _; _].
  split; [cbv [ioctl_config ioctl_exec vcall_ writel icall_ emit get_ mbind_ mret_ modify_]; reflexivity|].
  split; [reflexivity|]. split.
  - intros d. eexists. split; [reflexivity|]. intros H. cbn [app]. by apply regs_hold_cons.
  - intros [_ _ Hw]. by apply wait_result_pos.
Qed.

(** The configuration the device reads for a request. *)
Lemma config_read l ctrl w :
  regs_hold l (ctrl_writes (d_dma_addr priv) ctrl) -> CharDriver.conf_offset ctrl = 0 -> CharDriver.conf_count ctrl = 80 ->
  config_words priv l w = (fun i => w (Z.of_nat i)) <$> seq 0 80.
Proof.
  intros Hl H0 Hn. unfold regs_hold, ctrl_writes in Hl. do 2 (apply Forall_cons in Hl as [?Hl Hl]). cbn [fst snd] in *.
  unfold config_words. rewrite Hl0, Hl1, H0, Hn, ctrl_addr_value by (done || vm_compute; discriminate).
  change (Z.to_nat (u32 (ctrl_size 80) / STRELA_WORD_SIZE)) with 80%nat. apply list_fmap_ext. intros i x _.
  f_equal. rewrite Z.mul_0_l, Z.add_0_r, Z.sub_diag. done.
Qed.

(** The three ioctls: the exec ioctl is reached only with the request in the
    registers and the configuration loaded; the job is done when the driver is
    willing. *)
Lemma run_ioctls_ok ctrl s :
  CharDriver.conf_offset ctrl = 0 -> CharDriver.conf_count ctrl = 80 ->
  exists b s', run_ioctls hw priv ctrl s = Ok (b, s')
    /\ (b = true -> exists l, t_mem s' = hw l (CReady ((fun i => t_mem s (Z.of_nat i)) <$> seq 0 80)) (t_mem s)
                      /\ regs_hold l (ctrl_writes (d_dma_addr priv) ctrl))
    /\ (willing_char -> ctrl_out_of_bounds ctrl = false -> b = true).
Proof.
  intros Hc0 Hc1. set (dma := d_dma_addr priv).
  assert (Hneg : forall r, ((if r <? 0 then -1 else r) =? -1) = (r <? 0)) by (intros r; destruct (Z.ltb_spec r 0); lia).
  destruct (control_regs dma ctrl (t_k s)) as (r1 & k1 & E1 & (es1 & L1 & N1) & H1 & W1).
  destruct (config_regs dma ctrl dma k1) as (r2 & k2 & es2 & E2 & L2 & D2 & H2 & W2).
  destruct (exec_regs dma ctrl dma k2) as (r3 & k3 & es3 & E3 & L3 & D3 & W3).
  unfold run_ioctls. rewrite (mbind_Ok _ _ _ _ _ (ioctl_run IOCTL_STRELA_CONTROL ctrl s r1 k1 es1 E1 L1)), Hneg.
  rewrite (device_no_command es1) by done. cbn [fst snd]. destruct (Z.ltb_spec r1 0) as [G1|G1].
  { exists false. eexists. split; [reflexivity|]. split; [done|]. intros Hw Hb. specialize (W1 Hw Hb). lia. }
  match goal with |- context [mbind_ _ _ ?st] => set (s1 := st) end.
  rewrite (mbind_Ok _ _ _ _ _ (ioctl_run IOCTL_STRELA_CONFIG ctrl0 s1 r2 k2 es2 E2 L2)), Hneg.
  destruct (D2 (t_dev s1, t_mem s1)) as (l2 & D2' & R2).
  change (k_log (t_k s1)) with (k_log k1). rewrite D2'. cbn [fst snd s1 t_mem].
  destruct (Z.ltb_spec r2 0) as [G2|G2].
  { exists false. eexists. split; [reflexivity|]. split; [done|]. intros Hw _. specialize (W2 Hw). lia. }
  match goal with |- context [mbind_ _ _ ?st] => set (s2 := st) end.
  rewrite (mbind_Ok _ _ _ _ _ (ioctl_run IOCTL_STRELA_EXEC ctrl0 s2 r3 k3 es3 E3 L3)), Hneg.
  destruct (D3 (t_dev s2, t_mem s2)) as (l3 & D3' & R3).
  change (k_log (t_k s2)) with (k_log k2). rewrite D3'. cbn [fst snd s2 t_mem t_dev].
  do 2 eexists. split; [reflexivity|]. split.
  - intros _. exists l3. cbn [t_mem]. rewrite (config_read l2 ctrl) by auto. split; [done|]. auto.
  - intros Hw _. rewrite (W3 Hw). done.
Qed.

Lemma run_kernel_ok kernel ctrl input s :
  length kernel = 80%nat -> Z.of_nat (length input) <= MEGABYTE / STRELA_WORD_SIZE ->
  let c := ctrl (Z.of_nat (length input)) in
  CharDriver.conf_offset c = 0 -> CharDriver.conf_count c = 80 ->
  exists r s' w, run_kernel hw priv kernel ctrl input s = Ok (r, s')
    /\ (forall i, 0 <= i < Z.of_nat (length input) -> w (INPUT_OFFSET + i) = default 0 (input !! Z.to_nat i) /\ w (OUTPUT_OFFSET + i) = 0)
    /\ (forall out, r = Some out -> exists l, regs_hold l (ctrl_writes (d_dma_addr priv) c)
          /\ out = (fun i => hw l (CReady kernel) w (OUTPUT_OFFSET + Z.of_nat i)) <$> seq 0 (length input))
    /\ (willing_char -> ctrl_out_of_bounds c = false -> is_Some r).
Proof.
  intros Hk Hn c Hc0 Hc1. change (MEGABYTE / STRELA_WORD_SIZE) with 262144 in Hn.
  unfold run_kernel. change (MEGABYTE / STRELA_WORD_SIZE) with 262144. rewrite (proj2 (Z.ltb_ge _ _) Hn). unfold region_clear, region_write, region_read.
  unfold mbind_ at 1 2 3. unfold modify_ at 1. rewrite Hk. change (REGION_WORDS <? CONFIG_OFFSET + Z.of_nat 80) with false.
  cbv iota beta. unfold modify_ at 1. cbn [t_k t_mem t_dev].
  rewrite (proj2 (Z.ltb_ge REGION_WORDS _)) by (change REGION_WORDS with 1048576; change INPUT_OFFSET with 262144; lia).
  unfold modify_. cbn [t_k t_mem t_dev]. fold c.
  match goal with |- context [mkT (t_k s) ?w0 _] => set (w := w0) end.
  destruct (run_ioctls_ok c (mkT (t_k s) w (t_dev s)) Hc0 Hc1) as (b & s1 & He & Hb & Hw). unfold mbind_. rewrite He. clear He.
  rewrite (proj2 (Z.ltb_ge REGION_WORDS _)) by (change REGION_WORDS with 1048576; change OUTPUT_OFFSET with 524288; lia).
  exists (if b then Some ((fun i => t_mem s1 (OUTPUT_OFFSET + Z.of_nat i)) <$> seq 0 (length input)) else None).
  exists s1, w. split; [by destruct b|]. split_and!.
  - intros i Hi. subst w. cbv beta. change INPUT_OFFSET with 262144. change OUTPUT_OFFSET with 524288. change REGION_WORDS with 1048576.
    change CONFIG_OFFSET with 0. split.
    + rewrite (proj2 (Z.leb_le _ _)) by lia. replace (262144 + i - 262144) with i by lia.
      destruct (lookup_lt_is_Some_2 input (Z.to_nat i)) as [x Hx]; [lia|]. by rewrite Hx.
    + rewrite (proj2 (Z.leb_le 262144 _)) by lia. rewrite (lookup_ge_None_2 input) by lia. cbn.
      rewrite (proj2 (Z.leb_le 0 _)) by lia. rewrite (lookup_ge_None_2 kernel) by lia. cbn.
      by rewrite (proj2 (Z.ltb_lt _ _)) by lia.
  - intros out Hout. destruct b; [|done]. injection Hout as <-. destruct (Hb eq_refl) as (l & Hl & Hr).
    exists l. split; [done|]. rewrite Hl. cbn [t_mem].
    enough (Hker : (fun i => w (Z.of_nat i)) <$> seq 0 80 = kernel) by (by rewrite Hker). apply list_eq. intros i.
    rewrite list_lookup_fmap. destruct (decide (i < 80)%nat) as [Hi|Hi].
    + rewrite lookup_seq_lt by done. cbn [fmap option_fmap option_map Nat.add]. subst w. cbv beta.
      change INPUT_OFFSET with 262144. change CONFIG_OFFSET with 0. rewrite (proj2 (Z.leb_gt 262144 _)) by lia.
      rewrite (proj2 (Z.leb_le 0 _)) by lia. rewrite Z.sub_0_r, Nat2Z.id.
      destruct (lookup_lt_is_Some_2 kernel i) as [x Hx]; [lia|]. by rewrite Hx.
    + rewrite lookup_seq_ge, (lookup_ge_None_2 kernel) by lia. done.
  - intros W Hob. rewrite (Hw W Hob). by eexists.
Qed.

Lemma bypass_ctrl_u32 len : 0 <= len <= 262144 ->
  bypass_ctrl len = (let n := len / 4 in mkCtrl 0 80 262144 n 1 (262144 + n) n 1 (262144 + n * 2) n 1
    (262144 + n * 3) (n + len mod 4) 1 524288 n (524288 + n) n (524288 + n * 2) n (524288 + n * 3) (n + len mod 4)).
Proof.
  intros H. assert (0 <= len / 4 <= 65536) by (split; [apply Z.div_pos; lia|apply Z.div_le_upper_bound; lia]).
  pose proof (Z.mod_pos_bound len 4 ltac:(lia)). unfold bypass_ctrl. change INPUT_OFFSET with 262144.
  change OUTPUT_OFFSET with 524288. cbv zeta. rewrite (wrap_small 32 (len / 4)) by lia.
  rewrite !wrap_small by lia. change CONFIG_OFFSET with 0. change KRNL_SIZE with 80. f_equal; lia.
Qed.

(** Every length the tool accepts passes the driver's bounds check. *)
Lemma bypass_in_bounds len : 0 <= len <= 262144 -> ctrl_out_of_bounds (bypass_ctrl len) = false.
Proof.
  intros H. rewrite bypass_ctrl_u32 by done. cbv zeta.
  assert (0 <= len / 4 <= 65536) by (split; [apply Z.div_pos; lia|apply Z.div_le_upper_bound; lia]).
  pose proof (Z.mod_pos_bound len 4 ltac:(lia)). assert (is_u 32 1) by (by vm_compute). unfold ctrl_out_of_bounds. cbn -[Z.div Z.modulo strela_check_bounds].
  rewrite !orb_false_iff; split_and!; rewrite check_bounds_value by (unfold is_u in *; lia);
    unfold STRELA_WORD_SIZE, STRELA_DATA_REGION_SIZE; lia.
Qed.

(** ** The bypass test *)

(** The registers of a column: input address and size, output address and size. *)
Definition col_regs (l : list event) (c : Z) (a sz b n : Z) : Prop :=
  reg_value l (STRELA_REG_INP_ADDR c) = Some a /\ reg_value l (STRELA_REG_INP_SIZE c) = Some sz
  /\ reg_value l (STRELA_REG_OUT_ADDR c) = Some b /\ reg_value l (STRELA_REG_OUT_SIZE c) = Some n.

(** What the hardware does with the bypass bitstream: a column whose output is
    aligned, is read by no column and written by no other receives the words of its input,
    one every stride; the size register of an input has the stride above bit
    16 and the number of bytes below. It does so only when it is told to start
    with the bypass bitstream loaded and its data lines clear. *)
Definition copies : Prop := forall l w c a sz b n,
  0 <= c < 4 -> col_regs l c a sz b n -> (b - d_dma_addr priv) mod STRELA_WORD_SIZE = 0 ->
  (forall c' a' sz' b' n', 0 <= c' < 4 -> col_regs l c' a' sz' b' n' ->
     (b + n <= a' \/ a' + sz' mod 2 ^ 16 <= b) /\ (c' <> c -> b + n <= b' \/ b' + n' <= b)) ->
  forall k, 0 <= k -> STRELA_WORD_SIZE * (k + 1) <= n ->
    hw l (CReady bypass_kernel_bitstream) w ((b - d_dma_addr priv) / STRELA_WORD_SIZE + k)
    = w ((a - d_dma_addr priv) / STRELA_WORD_SIZE + k * (sz / 2 ^ 16 / STRELA_WORD_SIZE)).

(** The first word of column [c]. *)
Definition bypass_first (len c : Z) : Z := len / 4 * c.

Lemma inp_size_value n : 0 <= n < 2 ^ 14 -> u32 (ctrl_inp_size 1 n) = 4 * 2 ^ 16 + 4 * n.
Proof.
  intros Hn. unfold ctrl_inp_size, STRELA_MKINPSIZE, STRELA_WORD_SIZE. rewrite (wrap_small 32 (1 * 4)) by lia.
  change (Z.shiftl (1 * 4) 16) with (4 * 2 ^ 16). rewrite (wrap_small 32 (4 * 2 ^ 16)) by lia.
  rewrite (wrap_small 32 (1 * 4 * n)) by lia. rewrite lor_pack by lia. rewrite wrap_small; lia.
Qed.

Lemma bypass_regs len l c :
  0 <= len -> len / 4 + len mod 4 < 2 ^ 14 -> 0 <= c < 4 ->
  regs_hold l (ctrl_writes (d_dma_addr priv) (bypass_ctrl len)) ->
  col_regs l c (d_dma_addr priv + 4 * (262144 + bypass_first len c)) (4 * 2 ^ 16 + 4 * bypass_count len c)
               (d_dma_addr priv + 4 * (524288 + bypass_first len c)) (4 * bypass_count len c).
Proof.
  intros H0 Hlen Hc Hl. assert (H4 : len = 4 * (len / 4) + len mod 4) by (apply Z.div_mod; lia).
  pose proof (Z.mod_pos_bound len 4 ltac:(lia)) as Hm. rewrite bypass_ctrl_u32 in Hl by lia.
  set (n := len / 4) in *. set (r := len mod 4) in *. cbv zeta in Hl. unfold regs_hold, ctrl_writes in Hl.
  repeat (apply Forall_cons in Hl as [?Hl Hl]). cbn [fst snd CharDriver.inp0_offset CharDriver.inp0_count CharDriver.inp0_stride
    CharDriver.inp1_offset CharDriver.inp1_count CharDriver.inp1_stride CharDriver.inp2_offset CharDriver.inp2_count
    CharDriver.inp2_stride CharDriver.inp3_offset CharDriver.inp3_count CharDriver.inp3_stride CharDriver.out0_offset
    CharDriver.out0_count CharDriver.out1_offset CharDriver.out1_count CharDriver.out2_offset CharDriver.out2_count
    CharDriver.out3_offset CharDriver.out3_count] in *.
  assert (Hr : STRELA_DATA_REGION_SIZE = 4194304) by done. assert (H0n : 0 <= n) by lia.
  assert (Hs : forall x, 0 <= x < 2 ^ 14 -> u32 (ctrl_size x) = 4 * x).
  { intros x Hx. unfold ctrl_size, STRELA_WORD_SIZE. rewrite (wrap_small 32 (x * 4)), wrap_small by lia. lia. }
  unfold col_regs, bypass_first, bypass_count. fold n r.
  assert (Hcase : c = 0 \/ c = 1 \/ c = 2 \/ c = 3) by lia.
  destruct Hcase as [-> |[-> |[-> | ->]]]; cbn [Z.eqb Pos.eqb];
    repeat match goal with H : reg_value l _ = Some (u32 (ctrl_addr _ _)) |- _ =>
      rewrite ctrl_addr_value in H by (rewrite ?Hr; unfold STRELA_WORD_SIZE; lia) end;
    repeat match goal with H : reg_value l _ = Some (u32 (ctrl_inp_size 1 _)) |- _ => rewrite inp_size_value in H by lia end;
    repeat match goal with H : reg_value l _ = Some (u32 (ctrl_size _)) |- _ => rewrite Hs in H by lia end;
    unfold STRELA_WORD_SIZE in *; split_and!;
    match goal with H : reg_value l ?x = Some _ |- reg_value l ?x = Some _ => rewrite H; f_equal; lia end.
Qed.

(** The columns of a request cover it, each word once. *)
Lemma column_of len i : 0 <= i < len -> exists c, 0 <= c < 4 /\ bypass_first len c <= i < bypass_first len c + bypass_count len c.
Proof.
  intros Hi. assert (H4 : len = 4 * (len / 4) + len mod 4) by (apply Z.div_mod; lia).
  pose proof (Z.mod_pos_bound len 4 ltac:(lia)). unfold bypass_first, bypass_count. set (n := len / 4) in *. set (r := len mod 4) in *.
  destruct (decide (i < n)); [exists 0; cbn; lia|]. destruct (decide (i < n * 2)); [exists 1; cbn; lia|].
  destruct (decide (i < n * 3)); [exists 2; cbn; lia|exists 3; cbn; lia].
Qed.

Lemma columns_apart len c c' : 0 <= len -> 0 <= c < 4 -> 0 <= c' < 4 -> c' <> c ->
  bypass_first len c + bypass_count len c <= bypass_first len c' \/ bypass_first len c' + bypass_count len c' <= bypass_first len c.
Proof.
  intros Hl Hc Hc' Hne. assert (0 <= len / 4) by (apply Z.div_pos; lia). pose proof (Z.mod_pos_bound len 4 ltac:(lia)).
  unfold bypass_first, bypass_count. destruct (Z.eqb_spec c 3), (Z.eqb_spec c' 3); subst; [lia|right; nia|left; nia|].
  destruct (decide (c < c')); [left; nia|right; nia].
Qed.

Lemma col_regs_fun l c a sz b n a' sz' b' n' :
  col_regs l c a sz b n -> col_regs l c a' sz' b' n' -> a' = a /\ sz' = sz /\ b' = b /\ n' = n.
Proof. intros (H1 & H2 & H3 & H4) (G1 & G2 & G3 & G4). split_and!; congruence. Qed.

(** A copying device gives every word of the output its word of the input. *)
Lemma bypass_word l w len i :
  copies -> 0 <= i < len -> len / 4 + len mod 4 < 2 ^ 14 ->
  regs_hold l (ctrl_writes (d_dma_addr priv) (bypass_ctrl len)) ->
  hw l (CReady bypass_kernel_bitstream) w (OUTPUT_OFFSET + i) = w (INPUT_OFFSET + i).
Proof.
  intros Hcp Hi Hlen Hl. destruct (column_of len i Hi) as (c & Hc & Hk).
  assert (H4 : len = 4 * (len / 4) + len mod 4) by (apply Z.div_mod; lia).
  pose proof (Z.mod_pos_bound len 4 ltac:(lia)) as Hm.
  assert (Hcnt : forall c, 0 <= c < 4 -> 0 <= bypass_count len c < 2 ^ 14 /\ 0 <= bypass_first len c <= 2 ^ 16).
  { intros x Hx. unfold bypass_count, bypass_first. assert (0 <= len / 4) by (apply Z.div_pos; lia).
    split; [destruct (x =? 3); lia|]. set (n := len / 4) in *. assert (n * x <= n * 3) by (apply Z.mul_le_mono_nonneg_l; lia). nia. }
  pose proof (bypass_regs len l c ltac:(lia) Hlen Hc Hl) as Hr. destruct (Hcnt c Hc) as [Hn Hf].
  specialize (Hcp l w c _ _ _ _ Hc Hr).
  replace (OUTPUT_OFFSET + i)
    with ((d_dma_addr priv + 4 * (524288 + bypass_first len c) - d_dma_addr priv) / STRELA_WORD_SIZE + (i - bypass_first len c)).
  2: { rewrite Z.add_simpl_l. unfold STRELA_WORD_SIZE. rewrite (Z.mul_comm 4), Z.div_mul by lia. change OUTPUT_OFFSET with 524288. lia. }
  rewrite Hcp; [|rewrite Z.add_simpl_l, Z.mul_comm; apply Z_mod_mult|intros c' a' sz' b' n' Hc' Hr'|lia|unfold STRELA_WORD_SIZE; lia].
  - f_equal. rewrite Z.add_simpl_l. unfold STRELA_WORD_SIZE. rewrite (Z.mul_comm 4 (262144 + _)), Z.div_mul by lia.
    rewrite <- (Z.div_unique (4 * 2 ^ 16 + 4 * bypass_count len c) (2 ^ 16) 4 (4 * bypass_count len c)) by lia.
    change (4 / 4) with 1. change INPUT_OFFSET with 262144. lia.
  - pose proof (bypass_regs len l c' ltac:(lia) Hlen Hc' Hl) as Hb'. destruct (Hcnt c' Hc') as [Hn' Hf'].
    destruct (col_regs_fun _ _ _ _ _ _ _ _ _ _ Hb' Hr') as (-> & -> & -> & ->). split.
    + right. rewrite <- (Z.mod_unique (4 * 2 ^ 16 + 4 * bypass_count len c') (2 ^ 16) 4 (4 * bypass_count len c')) by lia. lia.
    + intros Hne. pose proof (columns_apart len c c' ltac:(lia) Hc Hc' Hne). lia.
Qed.


(** ** The ReLU test *)

(** The hardware writes nothing but the outputs it was given. *)
Definition writes_outputs : Prop := forall l g w i,
  hw l g w i = w i \/ exists c b n, 0 <= c < 4 /\ reg_value l (STRELA_REG_OUT_ADDR c) = Some b
    /\ reg_value l (STRELA_REG_OUT_SIZE c) = Some n /\ b <= d_dma_addr priv + STRELA_WORD_SIZE * i < b + n.

(** The second half of the ReLU test's output is never written. *)
Lemma relu_half l g w i :
  writes_outputs -> regs_hold l (ctrl_writes (d_dma_addr priv) (relu_ctrl 10)) -> 5 <= i ->
  hw l g w (OUTPUT_OFFSET + i) = w (OUTPUT_OFFSET + i).
Proof.
  intros Hwo Hl Hi. destruct (Hwo l g w (OUTPUT_OFFSET + i)) as [|(c & b & n & Hc & Hb & Hn & Hr)]; [done|exfalso].
  unfold regs_hold, ctrl_writes in Hl. repeat (apply Forall_cons in Hl as [?Hl Hl]). cbn [fst snd] in *.
  assert (Hcase : c = 0 \/ c = 1 \/ c = 2 \/ c = 3) by lia.
  destruct Hcase as [-> |[-> |[-> | ->]]]; simplify_eq.
  - rewrite (ctrl_addr_value _ (CharDriver.out0_offset (relu_ctrl 10))) in Hr by (done || vm_compute; discriminate).
    change (CharDriver.out0_offset (relu_ctrl 10)) with 524288 in Hr. change (u32 (ctrl_size (CharDriver.out0_count (relu_ctrl 10)))) with 20 in Hr.
    change OUTPUT_OFFSET with 524288 in Hr. unfold STRELA_WORD_SIZE in Hr. lia.
  - change (u32 (ctrl_size (CharDriver.out1_count (relu_ctrl 10)))) with 0 in Hr. lia.
  - change (u32 (ctrl_size (CharDriver.out2_count (relu_ctrl 10)))) with 0 in Hr. lia.
  - change (u32 (ctrl_size (CharDriver.out3_count (relu_ctrl 10)))) with 0 in Hr. lia.
Qed.

(** The tool never passes. Whatever the driver answers and whatever the
    hardware computes, as long as it writes only the outputs it was given,
    [test_device] ends and returns 1: the ReLU test asks the device for half of
    the words and compares all of them. *)
Theorem tool_never_passes s :
  writes_outputs -> exists s', test_device hw priv s = Ok (1, s').
Proof.
  intros Hwo. unfold test_device. set (init := strela_ctx_init).
  assert (Hinit : forall s, exists b s', init s = Ok (b, s')).
  { intros s0. unfold init, strela_ctx_init, tk, mbind_, strela_open, strela_mmap. cbv [icall_ emit get_ mbind_ mret_ modify_ vcall_].
    destruct (_ <? 0); [by do 2 eexists|]. rewrite Z.eqb_refl. cbn [negb]. destruct (_ <? 0); by do 2 eexists. }
  destruct (Hinit s) as ([] & s1 & E1); unfold mbind_ at 1; rewrite E1; cbn [negb]; [|by eexists].
  destruct (run_kernel_ok bypass_kernel_bitstream bypass_ctrl bypass_input s1 eq_refl ltac:(by vm_compute) eq_refl eq_refl)
    as (r & s2 & w & E2 & _). unfold mbind_ at 1. change (strela_bypass hw priv bypass_input s1)
      with (run_kernel hw priv bypass_kernel_bitstream bypass_ctrl bypass_input s1). rewrite E2. destruct r as [out1|]; [|by eexists].
  destruct (run_kernel_ok relu_kernel_bitstream relu_ctrl relu_input s2 eq_refl ltac:(by vm_compute) eq_refl eq_refl)
    as (r & s3 & w' & E3 & Hin & Hout & _). unfold mbind_ at 1. change (strela_relu hw priv relu_input s2)
      with (run_kernel hw priv relu_kernel_bitstream relu_ctrl relu_input s2). rewrite E3. destruct r as [out2|]; [|by eexists].
  destruct (Hout _ eq_refl) as (l & Hl & ->). rewrite (bool_decide_false (_ = relu_ref)).
  2: { intros Heq. apply (f_equal (fun o => o !! 6%nat)) in Heq. rewrite list_lookup_fmap in Heq.
       change (seq 0 (length relu_input) !! 6%nat) with (Some 6%nat) in Heq. change (relu_ref !! 6%nat) with (Some 1) in Heq.
       injection Heq as Heq. change (Z.of_nat 6) with 6 in Heq. rewrite (relu_half l _ w' 6 Hwo Hl ltac:(lia)) in Heq.
       destruct (Hin 6 ltac:(vm_compute; split; congruence)) as [_ H6]. congruence. }
  eexists. unfold mret_. destruct (bool_decide _); reflexivity.
Qed.
End Requests.

(** ** Witnesses *)

(** A device that looks for the column a word is an output of. *)
Definition in_output (l : list event) (dma i c : Z) : option Z :=
  match reg_value l (STRELA_REG_INP_ADDR c), reg_value l (STRELA_REG_INP_SIZE c),
        reg_value l (STRELA_REG_OUT_ADDR c), reg_value l (STRELA_REG_OUT_SIZE c) with
  | Some a, Some sz, Some b, Some n =>
      if (b <=? dma + 4 * i) && (dma + 4 * i <? b + n)
      then Some ((a - dma) / 4 + (i - (b - dma) / 4) * (sz / 2 ^ 16 / 4)) else None
  | _, _, _, _ => None
  end.

Definition copy_hw (dma : Z) (l : list event) (g : cgra) (w : Z -> Z) (i : Z) : Z :=
  match g with
  | CReady _ =>
  match in_output l dma i 0, in_output l dma i 1, in_output l dma i 2, in_output l dma i 3 with
  | Some j, _, _, _ | None, Some j, _, _ | None, None, Some j, _ | None, None, None, Some j => w j
  | _, _, _, _ => w i
  end
  | _ => w i
  end.

Definition tool_priv : strela_data := mkData 0x10000000 700 0 0.

Lemma in_output_regs l dma i c j : in_output l dma i c = Some j ->
  exists a sz b n, col_regs l c a sz b n /\ b <= dma + 4 * i < b + n.
Proof.
  unfold in_output. destruct (reg_value l (STRELA_REG_INP_ADDR c)) as [a|] eqn:E1; [|done].
  destruct (reg_value l (STRELA_REG_INP_SIZE c)) as [sz|] eqn:E2; [|done].
  destruct (reg_value l (STRELA_REG_OUT_ADDR c)) as [b|] eqn:E3; [|done].
  destruct (reg_value l (STRELA_REG_OUT_SIZE c)) as [n|] eqn:E4; [|done]. intros H.
  exists a, sz, b, n. split; [by split_and!|]. destruct ((b <=? _) && _) eqn:Eb; [lia|done].
Qed.

Lemma copy_hw_writes : writes_outputs (copy_hw 0x10000000) tool_priv.
Proof.
  intros l g w i. unfold copy_hw. destruct g; [by left..|].
  assert (Hc : forall c, 0 <= c < 4 -> forall j, in_output l 0x10000000 i c = Some j ->
    exists c b n, 0 <= c < 4 /\ reg_value l (STRELA_REG_OUT_ADDR c) = Some b
      /\ reg_value l (STRELA_REG_OUT_SIZE c) = Some n /\ b <= d_dma_addr tool_priv + STRELA_WORD_SIZE * i < b + n).
  { intros c Hc j Hj. apply in_output_regs in Hj as (a & sz & b & n & (_ & _ & H3 & H4) & Hr). by exists c, b, n. }
  destruct (in_output l _ i 0) eqn:E0; [right; eapply (Hc 0); [lia|exact E0]|].
  destruct (in_output l _ i 1) eqn:E1; [right; eapply (Hc 1); [lia|exact E1]|].
  destruct (in_output l _ i 2) eqn:E2; [right; eapply (Hc 2); [lia|exact E2]|].
  destruct (in_output l _ i 3) eqn:E3; [right; eapply (Hc 3); [lia|exact E3]|by left].
Qed.

Lemma copy_hw_copies : copies (copy_hw 0x10000000) tool_priv.
Proof.
  intros l w c a sz b n Hc Hr Hal Hap k Hk Hkn. change (d_dma_addr tool_priv) with 0x10000000 in *. unfold STRELA_WORD_SIZE in *.
  set (i := (b - 0x10000000) / 4 + k).
  assert (Hi : 0x10000000 + 4 * i = b + 4 * k) by (unfold i; pose proof (Z.div_mod (b - 0x10000000) 4 ltac:(lia)); lia).
  assert (Hin : in_output l 0x10000000 i c = Some ((a - 0x10000000) / 4 + k * (sz / 2 ^ 16 / 4))).
  { destruct Hr as (H1 & H2 & H3 & H4). unfold in_output. rewrite H1, H2, H3, H4, Hi.
    rewrite (proj2 (Z.leb_le b _)), (proj2 (Z.ltb_lt _ (b + n))) by lia. cbn [andb]. do 3 f_equal. unfold i. lia. }
  assert (Hno : forall c', 0 <= c' < 4 -> c' <> c -> in_output l 0x10000000 i c' = None).
  { intros c' Hc' Hne. destruct (in_output l 0x10000000 i c') as [j|] eqn:Ej; [exfalso|done].
    apply in_output_regs in Ej as (a' & sz' & b' & n' & Hr' & Hb'). rewrite Hi in Hb'.
    destruct (Hap c' a' sz' b' n' Hc' Hr') as [_ Hd]. specialize (Hd Hne). lia. }
  unfold copy_hw. assert (Hcase : c = 0 \/ c = 1 \/ c = 2 \/ c = 3) by lia.
  destruct Hcase as [-> |[-> |[-> | ->]]]; rewrite ?Hin, ?(Hno 0), ?(Hno 1), ?(Hno 2) by lia; rewrite ?Hin; done.
Qed.

(** A kernel on which everything works. *)
Definition env_tool : Env := {|
  env_readl := fun _ _ => 0;
  env_kzalloc := fun _ _ => 0;
  env_gem_lookup := fun _ _ => None;
  env_dma_alloc := fun _ _ => (700, 0x10000000);
  env_icall := fun _ c => match c with wait_conf_done _ | wait_exec_done _ => 1 | _ => 0 end
|}.


Lemma tool_never_passes_witness :
  exists s', test_device (A := ARMv7) (E := env_tool) (copy_hw 0x10000000) tool_priv (mkT hw_state (fun _ => 1) CEmpty) = Ok (1, s').
Proof.
  apply (tool_never_passes (A := ARMv7) (E := env_tool) (copy_hw 0x10000000) tool_priv).
  - vm_compute. discriminate.
  - vm_compute. reflexivity.
  - exact copy_hw_writes.
Defined.

(** The tool accepts lengths the hardware cannot count: with 65536 words each
    column has 16384, the driver accepts the request, and the size register of
    an input reads as a stride of 5 bytes and no bytes at all. *)
Theorem tool_len_overflows :
  exists s', ioctl_control (A := ARMv7) (E := env_tool) 0x10000000 (bypass_ctrl 65536) hw_state = Ok (0, s')
    /\ reg_value (k_log s') (STRELA_REG_INP_SIZE 0) = Some (5 * 2 ^ 16 + 0).
Proof. eexists. split; [vm_compute; reflexivity|reflexivity]. Qed.
